(* ===== verification/_CoqProject ===== *)
-Q . S2P
Prelude.v
GoLib.v
GoFlag.v
NetParse.v
ApiTypes.v
Memory.v
DeepCopy.v
Cloudscale.v
Effects.v
External.v
Helpers.v
Startup.v
Samples.v
Nodes.v
FloatingIPs.v
PoolMembers.v
HealthMonitor.v
Listener.v
Pools.v
LoadBalancers.v
Reconcile.v
Schema.v
System.v
Quiet.v
Frames.v
Converge.v
Service.v
Webhook.v
NodeHandler.v
Collector.v
