(* ===== verification/Prelude.v ===== *)
(** * cloudscale-loadbalancer-controller: a verification library

    The program is a Kubernetes controller.  Users describe load balancers in
    LoadBalancer manifests; the controller creates and keeps up to date the
    corresponding load balancer, pools, listeners, health monitors, pool members
    and floating IP assignments at the cloud provider cloudscale.  A validating
    webhook refuses bad manifests, a handler of node events decides when all
    manifests must be reconciled again, and a collector exposes the reported
    status as metrics.

    ** The parts and the files that model them

    - api/v1beta1/loadbalancer_types.go: [ApiTypes] (Module [v1beta1]: one Record
      per struct, one Definition per Get method; Module [corev1]: the fields of a
      node that the program reads).
    - The cloudscale SDK: [Cloudscale] (Module [cloudscale]: the shapes of its
      resources and requests).  Only the data is modelled; what the service does
      with it is the subject of the interfaces below.
    - The Go language and its standard library: [GoLib] (strings, slices,
      durations and their conversion through float64), [NetParse] (net.ParseIP and
      net.ParseCIDR), [GoFlag] (package flag, strconv.ParseBool,
      time.ParseDuration) and [Memory] (slices as windows of backing arrays on a
      heap, pointers, and what a deep copy promises).
    - main.go, api/v1beta1/groupversion_info.go and the two Setup functions:
      [Startup] (the command line, the environment, every call that puts the
      program together and its exit codes).
    - api/v1beta1/zz_generated.deepcopy.go: [DeepCopy] (Module [deepcopy]: the
      structs as they lie in memory, one Definition per generated function).
    - Library functions outside the repository: [External], a class [Lib] of
      operations, a class [LibLaws] of their documented laws, and an instance.
    - Calls, errors and control flow: [Effects] (below).
    - controllers/loadbalancer_controller.go: [Helpers] (constants, comparisons,
      name mappings, error tests), [Nodes] (matchingNodes,
      cloudscaleServersForNodes, guessLoadbalancerZone), [FloatingIPs]
      (attachFloatingIPs), [PoolMembers] (ensureLoadBalancerPoolMembers),
      [HealthMonitor] (ensureLoadBalancerHealthMonitor), [Listener]
      (ensureLoadBalancerListener), [Pools] (ensureLoadBalancerPools),
      [LoadBalancers] (ensureLoadBalancer, cleanupLoadBalancer) and [Reconcile]
      (Reconcile itself with its deferred function).
    - webhook/v1beta1/loadbalancer_webhook.go: [Webhook].
    - controllers/node_update_handler.go: [NodeHandler].
    - controllers/loadbalancer_status_collector.go, controllers/metrics.go:
      [Collector]; the metrics library is its parameter, a class [Prometheus] with
      a class [PrometheusLaws] of what the library documents, and an instance.
    - [System] (the interface of all services together and the specification
      [settled]), [Quiet], [Frames] and [Converge] hold the proofs about whole
      passes, [Schema] the validation markers of the types and the typing of the
      requests.  [Samples] and [Service] hold example manifests and an executable
      service.  None of them models code of the repository.

    Definitions keep the names of the source.  Where a Go function is long, its
    body is split at its own seams (a loop body, a branch, a request that is
    built), and the function is the composition of the pieces; the comment of a
    piece quotes the code it stands for.

    ** How effectful code is modelled

    A function that talks to Kubernetes or cloudscale is a finite tree of type
    [Effects.M]: [Call r k] is a call [r] whose answer, an error or a value of the
    type that belongs to [r], is passed to [k]; [Emit] records a Kubernetes event;
    the leaves are a result ([Ret]), a returned error ([Throw]) and a panic
    ([Panic]: nil dereference, index out of range).  [wrap] is the idiom
    [if err != nil { return fmt.Errorf(..., err) }]; errors keep their structure,
    so [errors.As] is a function on them.  Trees are inductive, so every modelled
    function terminates, after finitely many calls, whatever it is answered; no
    fuel is needed.  (Two functions of the standard library have fuel:
    [NetParse.groups], where eight rounds are the eight groups an IPv6 address can
    have, and the loop of [GoFlag.ParseDuration], which gets the length of its text
    and takes at least a character in each round, see [GoFlag.parseTerms_fuel].)

    [wp m w Q] says that [m], started in the state [w] of an environment, ends in a
    state and an outcome that satisfy [Q], for all answers the environment may
    give.  An environment is an instance of the class [World].  Two kinds are used:

    - histories ([list action]): any answer is possible, at any time.  Theorems
      about histories are safety statements against an arbitrary, even hostile,
      Kubernetes and cloudscale, with every error path included;
    - a world that satisfies an interface: a class ([FloatingIPAPI], [MemberAPI],
      [HealthMonitorAPI], [ListenerAPI], [PoolAPI], [LoadBalancerAPI]) states the
      documented behaviour of one cloudscale resource, failures still being
      possible at every call.  The convergence theorems are proved against these
      interfaces; [Service] implements all of them by one executable service, on
      which the controller also runs by computation ([Service.sample_settles]).

    The two are combined where a theorem says that a pass converges: the state is
    then a pair of the service and the history ([Effects.traced]), and the theorem
    says of every run that it either reaches the wanted state, or that its history
    holds the reason of the failure ([Helpers.faulted]: a call that failed or
    answered nil, and the refusals each component names).

    [SystemAPI] puts the interfaces together and adds the Kubernetes API, the nodes
    and servers, and which call can change which part of the state.  [settled] is
    the abstract specification of the controller: the manifest is implemented by
    the cloud resources and reported in the status.

    main is modelled in the same way, over a monad of its own ([Startup.Proc]): the
    calls made so far, and a result or an exit code.  The generated copies pass the
    heap explicitly.

    ** What is proved

    - The whole controller ([Converge], [Quiet]): for an object that can be
      implemented ([Converge.startable], see the assumptions below), two passes at
      most, the second right after the first, end in a settled system or with the
      load balancer still changing (C1), and every pass makes progress (C3); a pass
      over a settled system writes nothing and reports nothing new (C2), so
      [settled] is what the controller keeps up.  All three with failures possible
      at every call, each with its reason in the history.
    - [Reconcile]: nothing is written to cloudscale before the finalizer is saved
      (C4); load balancers are deleted only for objects read as being deleted, and
      the finalizer of an object with a UUID goes only after the deletion was
      confirmed (C6, C7); nothing
      below a load balancer is touched while it is changing (C9); a pass fails or
      panics only for the listed reasons (C15, C16); what status is reported (C22, for the
      part of a pass below the load balancer).
      How passes are rescheduled is [Reconcile.reconcile_outcome].
    - [Schema]: into the manifest the controller writes its finalizer, missing UUID
      and zone, and the status, and nothing else (C8); for manifests that satisfy
      the schema every request is in the range of the API (C17).
    - [LoadBalancers]: a lost update of the manifest does not lead to a second load
      balancer (C5); the exact behaviour of lookup, creation, adoption and cleanup
      (C26-C28).
    - [Pools], [PoolMembers], [Listener], [HealthMonitor], [FloatingIPs]: a
      successful pass brings the service to the state of the manifest (C10-C14, what
      the state is written down apart from the code: [PoolMembers.implements],
      [HealthMonitor.monitor_meets], [FloatingIPs.attached_to]);
      the calls made, exactly (C29-C32 and [FloatingIPs.attach_calls_exact]), with
      at most one attribute per update ([Listener.listener_updates_single],
      [HealthMonitor.monitor_updates_single]); distinct pools stay distinct
      ([Pools.pools_distinct]); which members are wanted
      ([PoolMembers.should_members_exact]).
    - [Nodes]: every node is looked up and gives a server or a warning of its own
      (C34); the guessed zone is the only one of the servers behind all pools (C33).
    - [Webhook]: the webhook decides exactly the declared rules (C25, C38), so
      the texts of floating IPs stay exclusive and identities immutable over every
      sequence of requests (C23, C24).
    - [NodeHandler] and [Collector]: no relevant node event is lost (C35); a scrape
      shows exactly the listed state, without duplicate series, and panics exactly
      when a label value is one the library refuses (C36, C37).
    - [DeepCopy]: a copy stands for the same object, nil and empty slices told
      apart, and reaches new memory only (C18); original and copy are isolated from
      each other's writes (C19).
    - [Startup]: a start does its plan in order and stops at the first failure with
      the right exit code (C20), so the manager is never started before everything
      else is in place ([Startup.started_complete]); every setting on the command
      line reaches its own variable (C21).
    - Behaviours one may not expect, stated as theorems: C40,
      [HealthMonitor.subsecond_delay_never_settles],
      [Webhook.floating_ip_alias_admitted], [Webhook.bare_allowed_source_refused].

    ** Assumptions and bounds

    - Go's int, int32 and int64 are [Z].  No modelled arithmetic on them can
      overflow: they are copied, compared, or divided; time.ParseDuration, which
      computes, has its overflow tests.  The float64 conversion of durations is
      computed exactly (C39: exact below 2^53 seconds).
    - slices.SortFunc is not stable in Go; the model sorts by insertion.  The
      results differ only for elements that compare equal, which for the orders
      used here means equal names, equal addresses of one node, or equal values.
    - A Kubernetes Update answers the object as stored, which replaces the local
      copy, as the client does.  Messages are kept as format and arguments.
    - Log lines are not modelled.  fmt verbs are evaluated only where the text
      matters (names of resources).
    - In [Webhook] a request is one step: the objects validation lists are those
      that are stored.  Two requests validated at the same time are not covered.

    - C1 and C3 are about manifests the API can express ([Converge.settable]: an
      update request leaves out what is zero or empty, so such a value cannot be
      set), with distinct pool names and floating IPs that exist
      ([Converge.workable]).  A health monitor of type HTTP that names no host or no
      status codes is not among them, nor is a delay below one second: for those a
      pass can send the same update every time.  During a pass nobody else changes the manifest or the
      resources it is about; between passes anything may happen.
    - A floating IP goes by its network, without the /32 or /128 of a single address
      ([FloatingIPs.goes_by]); C14 asks that no text of the manifest ends in both,
      which the webhook sees to ([Webhook.well_formed_one_length]).
    - What a failed listing leaves in the list that [Collector.Collect] then goes
      through is a parameter; which label values are refused is the library's to say.
    - In [Startup] the answer to a call depends on the call only; paths of
      certificates are kept as the elements filepath.Join is given; the flags the
      libraries add are a parameter.
    - In [DeepCopy] the copies of ObjectMeta, ListMeta and LabelSelector are
      parameters that satisfy [Memory.CopyLaws]; the witnesses instantiate them.

    ** What is not modelled

    controller-runtime (caches, work queue, leader election, servers): one pass of
    Reconcile is sequential, and passes of one object are not run concurrently.
    Logging, the signal context of main, JSON and the generated CRD, the deployment
    manifests, and test code (controllers/testutil and the mock server: they are
    not part of the program).

    ** Plan

    Next: the lifecycle of an object from creation to deletion as a step relation
    with the controller, the webhook and users as actors, in particular deletion
    at the level of the whole system; printing and parsing of addresses as a round
    trip; the work queue as an interface between [NodeHandler] and [Reconcile]. *)

From Stdlib Require Import ZArith Lia.
From stdpp Require Import base list strings gmap.

(** ** Scope and hint databases

    [go_scope] holds the notations of the development; the database [lbc]
    carries the lemmas that close the routine goals of the components. *)

Declare Scope go_scope.
Delimit Scope go_scope with go.

Create HintDb lbc.
Create Rewrite HintDb lbc_rw.
#[export] Hint Constants Opaque : lbc.

(** ** Tactics *)

(** Split conjunctions and existentials in the context, substitute. *)
Ltac des :=
  repeat match goal with
  | H : _ /\ _ |- _ => destruct H
  | H : exists _, _ |- _ => destruct H
  | H : Some _ = Some _ |- _ => injection H as H
  | H : (_, _) = (_, _) |- _ => injection H as H
  | H : Some _ = None |- _ => discriminate H
  | H : None = Some _ |- _ => discriminate H
  end; subst.

(** Case analysis on the innermost test of the goal. *)
Ltac case_if :=
  match goal with
  | |- context [if ?b then _ else _] => let E := fresh "E" in destruct b eqn:E
  end.

(** Case analysis on a test of a hypothesis. *)
Ltac case_if_in H :=
  match type of H with
  | context [if ?b then _ else _] => let E := fresh "E" in destruct b eqn:E
  end.

(** Turn boolean connectives and comparisons of the context into propositions. *)
Ltac bool_to_prop :=
  repeat match goal with
  | H : (_ && _)%bool = true |- _ => apply andb_true_iff in H; destruct H
  | H : (_ || _)%bool = false |- _ => apply orb_false_iff in H; destruct H
  | H : negb _ = true |- _ => apply negb_true_iff in H
  | H : negb _ = false |- _ => apply negb_false_iff in H
  | H : bool_decide _ = true |- _ => apply bool_decide_eq_true in H
  | H : bool_decide _ = false |- _ => apply bool_decide_eq_false in H
  | H : (_ =? _)%Z = true |- _ => apply Z.eqb_eq in H
  | H : (_ =? _)%Z = false |- _ => apply Z.eqb_neq in H
  end.

(** ** Logic *)

Lemma and_iff_under (A B C : Prop) : (A -> (B <-> C)) -> (A /\ B <-> A /\ C).
Proof. tauto. Qed.

(** ** Lists *)

Section ListFacts.
Context {A B : Type}.

Lemma existsb_elem (f : A -> bool) (l : list A) :
  existsb f l = true <-> exists x, x ∈ l /\ f x = true.
Proof. rewrite existsb_exists. setoid_rewrite list_elem_of_In. done. Qed.

Lemma existsb_not_elem (f : A -> bool) (l : list A) :
  existsb f l = false <-> forall x, x ∈ l -> f x = false.
Proof.
  rewrite <- not_true_iff_false, existsb_elem. split.
  - intros H x Hx. apply not_true_iff_false. naive_solver.
  - intros H [x [Hx Hf]]. rewrite (H x Hx) in Hf. done.
Qed.

Lemma existsb_ext_in (f g : A -> bool) (l : list A) :
  (forall x, x ∈ l -> f x = g x) -> existsb f l = existsb g l.
Proof.
  induction l as [|x l IH]; intros H; [done|]. cbn.
  rewrite (H x) by set_solver. rewrite IH by set_solver. done.
Qed.

(** [find f l]: the first element that satisfies [f]. *)
Lemma find_Some_elem (f : A -> bool) (l : list A) x :
  find f l = Some x -> x ∈ l /\ f x = true.
Proof. intros [H1 H2]%find_some. rewrite list_elem_of_In. done. Qed.

Lemma find_None_elem (f : A -> bool) (l : list A) :
  find f l = None <-> forall x, x ∈ l -> f x = false.
Proof.
  split.
  - intros H x Hx. eapply find_none; [done|]. by apply list_elem_of_In.
  - induction l as [|x l IH]; intros H; [done|]. cbn.
    rewrite (H x) by set_solver. apply IH. set_solver.
Qed.

Lemma elem_of_List_filter (f : A -> bool) (l : list A) x :
  x ∈ List.filter f l <-> x ∈ l /\ f x = true.
Proof. rewrite !list_elem_of_In, filter_In. done. Qed.

(** The filter of a decidable predicate. *)
Lemma List_filter_filter (f : A -> bool) (P : A -> Prop) `{forall x, Decision (P x)} (l : list A) :
  (forall x, f x = true <-> P x) -> List.filter f l = filter P l.
Proof.
  intros Hf. induction l as [|x l IH]; [done|]. rewrite filter_cons. cbn [List.filter]. specialize (Hf x).
  destruct (f x), (decide (P x)); rewrite ?IH; naive_solver.
Qed.

Lemma filter_none (P : A -> Prop) `{forall x, Decision (P x)} (l : list A) :
  Forall (fun x => ~ P x) l -> filter P l = [].
Proof. induction 1 as [|x l Hx Hl IH]; [done|]. by rewrite filter_cons, decide_False. Qed.

Lemma List_filter_nil_iff (f : A -> bool) (l : list A) :
  List.filter f l = [] <-> forall x, x ∈ l -> f x = false.
Proof.
  split.
  - intros H x Hx. apply not_true_iff_false. intros Hf.
    assert (Hin : x ∈ List.filter f l) by (by apply elem_of_List_filter).
    rewrite H in Hin. set_solver.
  - induction l as [|x l IH]; intros H; [done|]. cbn.
    rewrite (H x) by set_solver. apply IH. set_solver.
Qed.

Lemma List_filter_map_comm (f : A -> bool) (g : A -> A) (l : list A) :
  (forall x, f (g x) = f x) -> List.filter f (map g l) = map g (List.filter f l).
Proof.
  intros Hfg. induction l as [|x l IH]; cbn; [done|].
  rewrite Hfg. destruct (f x); cbn; by rewrite IH.
Qed.

Lemma List_filter_perm (f : A -> bool) (l1 l2 : list A) :
  l1 ≡ₚ l2 -> List.filter f l1 ≡ₚ List.filter f l2.
Proof.
  induction 1 as [|x l1 l2 _ IH|x y l|l1 l2 l3 _ IH1 _ IH2]; cbn.
  - done.
  - destruct (f x); by rewrite IH.
  - destruct (f x), (f y); try done. apply Permutation_swap.
  - by rewrite IH1.
Qed.

Lemma List_filter_comm (f g : A -> bool) (l : list A) :
  List.filter f (List.filter g l) = List.filter g (List.filter f l).
Proof.
  induction l as [|x l IH]; cbn; [done|].
  destruct (f x) eqn:Ef, (g x) eqn:Eg; cbn; rewrite ?Ef, ?Eg, IH; done.
Qed.
End ListFacts.

#[export] Hint Rewrite @existsb_elem @existsb_not_elem @elem_of_List_filter : lbc_rw.

(** A loop that skips some elements, against the comprehension over the others. *)
Lemma Forall2_flat_map_filter {A B C} (R : B -> C -> Prop) (P : A -> Prop) `{forall x, Decision (P x)}
    (g : A -> list B) (f : A -> list C) (l : list A) :
  (forall x, P x -> Forall2 R (g x) (f x)) -> (forall x, ~ P x -> f x = []) -> Forall2 R (filter P l ≫= g) (flat_map f l).
Proof.
  intros Hp Hn. induction l as [|x l IH]; [constructor|]. rewrite filter_cons. cbn [flat_map].
  destruct (decide (P x)); [cbn; apply Forall2_app; auto|]. by rewrite Hn.
Qed.

Lemma Forall2_flat_map {A B C} (R : B -> C -> Prop) (g : A -> list B) (f : A -> list C) (l : list A) :
  (forall x, Forall2 R (g x) (f x)) -> Forall2 R (l ≫= g) (flat_map f l).
Proof. intros Hp. induction l as [|x l IH]; [constructor|]. cbn. by apply Forall2_app. Qed.

(** Elements with distinct keys are determined by their key. *)
Lemma NoDup_map_inj {A B} (g : A -> B) (l : list A) x y :
  NoDup (map g l) -> x ∈ l -> y ∈ l -> g x = g y -> x = y.
Proof.
  induction l as [|a l IH]; cbn; [set_solver|]. rewrite NoDup_cons, !elem_of_cons.
  intros [Hnin Hnd] Hx Hy E.
  destruct Hx as [->|Hx], Hy as [->|Hy]; [done| | |by apply IH].
  - exfalso. apply Hnin. rewrite E. apply list_elem_of_In, in_map. by apply list_elem_of_In.
  - exfalso. apply Hnin. rewrite <- E. apply list_elem_of_In, in_map. by apply list_elem_of_In.
Qed.

(** ** Options *)

Definition is_nil {A} (o : option A) : bool :=
  match o with None => true | Some _ => false end.

(** ** Strings *)

(** Concatenation with a common prefix is injective in the rest. *)
Lemma string_app_inj_l (p s1 s2 : string) : String.append p s1 = String.append p s2 -> s1 = s2.
Proof. apply (inj (String.append p)). Qed.

(** [s == ""], the test the source uses for "not set". *)
Definition str_empty (s : string) : bool := bool_decide (s = EmptyString).

Lemma str_empty_true s : str_empty s = true <-> s = EmptyString.
Proof. apply bool_decide_eq_true. Qed.

Lemma str_empty_false s : str_empty s = false <-> s <> EmptyString.
Proof. apply bool_decide_eq_false. Qed.

(** [a == b] on strings. *)
Definition str_eqb (a b : string) : bool := bool_decide (a = b).

Lemma str_eqb_true a b : str_eqb a b = true <-> a = b.
Proof. apply bool_decide_eq_true. Qed.

Lemma str_eqb_false a b : str_eqb a b = false <-> a <> b.
Proof. apply bool_decide_eq_false. Qed.

Lemma str_eqb_refl a : str_eqb a a = true.
Proof. by apply str_eqb_true. Qed.

#[export] Hint Rewrite str_empty_true str_empty_false str_eqb_true str_eqb_false str_eqb_refl : lbc_rw.

(** Reflect every string test of the context. *)
Ltac str_prop :=
  repeat match goal with
  | H : str_empty _ = true |- _ => apply str_empty_true in H
  | H : str_empty _ = false |- _ => apply str_empty_false in H
  | H : str_eqb _ _ = true |- _ => apply str_eqb_true in H
  | H : str_eqb _ _ = false |- _ => apply str_eqb_false in H
  end.
