(* ===== verification/GoLib.v ===== *)
(** * GoLib: the parts of the Go language and its standard library the source uses

    [strings] (Compare, HasPrefix, TrimPrefix, TrimSuffix), [slices]
    (SortFunc, Sort, Equal, EqualFunc, ContainsFunc, IndexFunc), [time.Duration]
    and the conversion [int(d.Seconds())] through float64, [fmt] verbs used to
    build names.  Go's [int] and [int64] are [Z]; the bounds that matter are
    stated where a conversion can lose information. *)

From Stdlib Require Import ZArith Lia SpecFloat Sorting.Sorted Sorting.Permutation.
From stdpp Require Import base list strings gmap pretty.
From S2P Require Import Prelude.
Open Scope Z_scope.
Open Scope list_scope.

(** ** Package strings *)

(** [strings.Compare]: -1, 0 or 1, bytewise lexicographic. *)
Definition Compare (a b : string) : Z :=
  match String.compare a b with Lt => -1 | Eq => 0 | Gt => 1 end.

(** [strings.HasPrefix s p]. *)
Definition HasPrefix (s p : string) : bool := String.prefix p s.

(** [strings.TrimPrefix s p]. *)
Definition TrimPrefix (s p : string) : string :=
  if HasPrefix s p
  then String.substring (String.length p) (String.length s - String.length p) s
  else s.

(** [strings.HasSuffix s p] and [strings.TrimSuffix s p]. *)
Definition HasSuffix (s p : string) : bool :=
  Nat.leb (String.length p) (String.length s) &&
  str_eqb (String.substring (String.length s - String.length p) (String.length p) s) p.

Definition TrimSuffix (s p : string) : string :=
  if HasSuffix s p
  then String.substring 0 (String.length s - String.length p) s
  else s.

(** ** Package slices *)

Section Slices.
Context {A : Type}.

(** The inner loop of Go's insertion sort: the new element moves left past
    the elements it compares strictly below. *)
Fixpoint insert_sorted (cmp : A -> A -> Z) (x : A) (l : list A) : list A :=
  match l with
  | [] => [x]
  | y :: ys => if cmp x y <? 0 then x :: y :: ys else y :: insert_sorted cmp x ys
  end.

(** [slices.SortFunc]. *)
Definition SortFunc (cmp : A -> A -> Z) (l : list A) : list A :=
  fold_left (fun acc x => insert_sorted cmp x acc) l [].

(** [slices.ContainsFunc]. *)
Definition ContainsFunc (l : list A) (f : A -> bool) : bool := existsb f l.

(** [slices.IndexFunc]; [None] is the source's [-1]. *)
Fixpoint IndexFunc (l : list A) (f : A -> bool) : option nat :=
  match l with
  | [] => None
  | x :: xs => if f x then Some 0%nat else S <$> IndexFunc xs f
  end.

(** [slices.EqualFunc]. *)
Fixpoint EqualFunc (l1 l2 : list A) (eqf : A -> A -> bool) : bool :=
  match l1, l2 with
  | [], [] => true
  | x :: xs, y :: ys => eqf x y && EqualFunc xs ys eqf
  | _, _ => false
  end.
End Slices.

(** [slices.Equal]. *)
Definition Equal {A} `{EqDecision A} (l1 l2 : list A) : bool :=
  EqualFunc l1 l2 (fun x y => bool_decide (x = y)).

(** [slices.Sort] on strings. *)
Definition Sort (l : list string) : list string := SortFunc Compare l.

Arguments SortFunc : simpl never.
Arguments Sort : simpl never.
Arguments Equal : simpl never.

(** ** Package time *)

(** [time.Duration]: nanoseconds, an int64. *)
Definition Duration := Z.
Definition Second : Duration := 1000000000.
Definition Minute : Duration := 60 * Second.

(** IEEE 754 binary64, the float64 of Go. *)
Definition float64_of_int (z : Z) : spec_float := binary_normalize 53 1024 z 0 false.

(** [Duration.Seconds]: [float64(d / Second) + float64(d % Second) / 1e9]. *)
Definition Seconds (d : Duration) : spec_float :=
  SFadd 53 1024 (float64_of_int (Z.quot d Second))
    (SFdiv 53 1024 (float64_of_int (Z.rem d Second)) (float64_of_int Second)).

(** [int(f)]: truncation toward zero.  The value of a conversion that does not
    fit is implementation-defined in Go; [Seconds] never produces one. *)
Definition int_of_float64 (f : spec_float) : Z :=
  match f with
  | S754_finite s m e =>
      let v := if 0 <=? e then Zpos m * 2 ^ e else Zpos m / 2 ^ (- e) in
      if s then - v else v
  | _ => 0
  end.

(** [Duration.Milliseconds]: integer division of the nanoseconds. *)
Definition Milliseconds (d : Duration) : Z := Z.quot d 1000000.

(** ** Package fmt: the [%d] verb *)
Definition Sprint_d (z : Z) : string := pretty z.

(** ** Facts on strings.Compare *)

Lemma ascii_compare_trans a b c :
  Ascii.compare a b <> Gt -> Ascii.compare b c <> Gt -> Ascii.compare a c <> Gt.
Proof. unfold Ascii.compare. rewrite <- !N.le_ngt || rewrite !N.compare_le_iff. lia. Qed.

Lemma ascii_compare_lt_l a b c :
  Ascii.compare a b = Lt -> Ascii.compare b c <> Gt -> Ascii.compare a c = Lt.
Proof. unfold Ascii.compare. rewrite N.compare_le_iff, !N.compare_lt_iff. lia. Qed.

Lemma ascii_compare_lt_r a b c :
  Ascii.compare a b <> Gt -> Ascii.compare b c = Lt -> Ascii.compare a c = Lt.
Proof. unfold Ascii.compare. rewrite N.compare_le_iff, !N.compare_lt_iff. lia. Qed.

Lemma ascii_compare_eq a b : Ascii.compare a b = Eq <-> a = b.
Proof.
  unfold Ascii.compare. rewrite N.compare_eq_iff. split; [|by intros ->].
  intros H. rewrite <- (Ascii.ascii_N_embedding a), H. apply Ascii.ascii_N_embedding.
Qed.

Lemma string_compare_trans a b c :
  String.compare a b <> Gt -> String.compare b c <> Gt -> String.compare a c <> Gt.
Proof.
  revert b c. induction a as [|x a IH]; intros [|y b] [|z c]; cbn; try done.
  destruct (Ascii.compare x y) eqn:Exy; [|clear IH|done]; intros H1.
  - apply ascii_compare_eq in Exy as ->.
    destruct (Ascii.compare y z) eqn:Eyz; eauto.
  - destruct (Ascii.compare y z) eqn:Eyz; intros H2; try done;
      rewrite (ascii_compare_lt_l x y z); try done; by rewrite Eyz.
Qed.

Lemma string_compare_refl a : String.compare a a = Eq.
Proof. induction a as [|x a IH]; cbn; [done|]. by rewrite (proj2 (ascii_compare_eq x x)). Qed.

Lemma Compare_range a b : -1 <= Compare a b <= 1.
Proof. unfold Compare. destruct (String.compare a b); lia. Qed.

Lemma Compare_antisym a b : Compare a b = - Compare b a.
Proof. unfold Compare. rewrite String.compare_antisym. by destruct (String.compare b a). Qed.

Lemma Compare_eq a b : Compare a b = 0 <-> a = b.
Proof.
  unfold Compare. split.
  - destruct (String.compare a b) eqn:E; try lia. intros _. by apply String.compare_eq_iff.
  - intros ->. by rewrite string_compare_refl.
Qed.

Lemma Compare_trans a b c : Compare a b <= 0 -> Compare b c <= 0 -> Compare a c <= 0.
Proof.
  unfold Compare. intros H1 H2.
  assert (H : String.compare a c <> Gt).
  { apply (string_compare_trans a b c); intros E; rewrite E in *; lia. }
  destruct (String.compare a c); lia || done.
Qed.

(** ** Comparators

    What [slices.SortFunc] asks of its argument: a strict weak ordering given
    by the sign.  The comparators of the source are shown to be instances. *)

Class Comparator {A} (cmp : A -> A -> Z) : Prop := {
  cmp_antisym x y : Z.sgn (cmp x y) = - Z.sgn (cmp y x);
  cmp_trans x y z : cmp x y <= 0 -> cmp y z <= 0 -> cmp x z <= 0;
}.

(** A comparator that separates all elements: the sorted order is unique. *)
Class SeparatingComparator {A} (cmp : A -> A -> Z) : Prop := {
  sep_cmp :: Comparator cmp;
  cmp_sep x y : cmp x y = 0 -> x = y;
}.

#[export] Instance Compare_sep : SeparatingComparator Compare.
Proof.
  split; [split|].
  - intros x y. rewrite (Compare_antisym x y). lia.
  - apply Compare_trans.
  - intros x y. apply Compare_eq.
Qed.

(** The idiom [10*strings.Compare(f(a), f(b)) + strings.Compare(g(a), g(b))]. *)
Definition lex10 {A} (f g : A -> string) (a b : A) : Z :=
  10 * Compare (f a) (f b) + Compare (g a) (g b).

(** It is the lexicographic order of the two keys. *)
Lemma lex10_le {A} (f g : A -> string) a b :
  lex10 f g a b <= 0 <->
  Compare (f a) (f b) < 0 \/ (f a = f b /\ Compare (g a) (g b) <= 0).
Proof.
  unfold lex10. pose proof (Compare_range (f a) (f b)).
  pose proof (Compare_range (g a) (g b)). rewrite <- (Compare_eq (f a) (f b)). lia.
Qed.

#[export] Instance lex10_cmp {A} (f g : A -> string) : Comparator (lex10 f g).
Proof.
  split.
  - intros x y. unfold lex10.
    rewrite (Compare_antisym (f x)), (Compare_antisym (g x)). lia.
  - intros x y z. rewrite !lex10_le. intros H1 H2.
    pose proof (Compare_trans (g x) (g y) (g z)).
    pose proof (Compare_trans (f x) (f y) (f z)) as Hf.
    pose proof (Compare_trans (f y) (f z) (f x)) as Hf'.
    pose proof (Compare_trans (f z) (f x) (f y)) as Hf''.
    rewrite (Compare_antisym (f z) (f x)) in *.
    rewrite (Compare_antisym (f y) (f x)) in *.
    destruct H1 as [H1|[H1 H1']], H2 as [H2|[H2 H2']].
    + left. assert (Compare (f x) (f z) <> 0); [|lia].
      intros E%Compare_eq. rewrite E in H1. rewrite (Compare_antisym (f z)) in H1. lia.
    + rewrite H2 in H1. auto.
    + rewrite <- H1 in H2. auto.
    + right. split; [congruence|]. eauto.
Qed.

(** Comparison on one key, [strings.Compare(f(a), f(b))]. *)
Definition on_key {A} (f : A -> string) (a b : A) : Z := Compare (f a) (f b).

#[export] Instance on_key_cmp {A} (f : A -> string) : Comparator (on_key f).
Proof.
  unfold on_key. split.
  - intros x y. rewrite (Compare_antisym (f x)). lia.
  - intros x y z. apply Compare_trans.
Qed.

(** Sortedness under a weaker order, and of the keys. *)
Lemma StronglySorted_weaken {A} (R1 R2 : A -> A -> Prop) l :
  (forall x y, R1 x y -> R2 x y) -> StronglySorted R1 l -> StronglySorted R2 l.
Proof. intros HR. induction 1 as [|x l Hl IH Hx]; constructor; [done|]. by eapply Forall_impl; [exact Hx|]; auto. Qed.

Lemma StronglySorted_keys {A B} (R : B -> B -> Prop) (f : A -> B) l :
  StronglySorted (fun x y => R (f x) (f y)) l -> StronglySorted R (map f l).
Proof. induction 1 as [|x l Hl IH Hx]; cbn; constructor; [done|]. by apply Forall_fmap. Qed.

(** ** Facts on slices.SortFunc *)

Section SortFacts.
Context {A : Type} (cmp : A -> A -> Z).

Lemma insert_sorted_perm x l : insert_sorted cmp x l ≡ₚ x :: l.
Proof.
  induction l as [|y l IH]; cbn; [done|]. case_if; [done|].
  rewrite IH. apply Permutation_swap.
Qed.

Lemma SortFunc_acc_perm l acc :
  fold_left (fun acc x => insert_sorted cmp x acc) l acc ≡ₚ l ++ acc.
Proof.
  revert acc. induction l as [|x l IH]; intros acc; cbn; [done|].
  rewrite IH, insert_sorted_perm. by rewrite Permutation_middle.
Qed.

Lemma SortFunc_perm l : SortFunc cmp l ≡ₚ l.
Proof. unfold SortFunc. by rewrite SortFunc_acc_perm, app_nil_r. Qed.

Lemma elem_of_SortFunc l x : x ∈ SortFunc cmp l <-> x ∈ l.
Proof. by rewrite SortFunc_perm. Qed.

Lemma length_SortFunc l : length (SortFunc cmp l) = length l.
Proof. by rewrite SortFunc_perm. Qed.

Context `{Comparator A cmp}.

Abbreviation le := (fun x y => cmp x y <= 0).

Lemma cmp_flip x y : ~ cmp x y < 0 -> cmp y x <= 0.
Proof. pose proof (cmp_antisym x y). lia. Qed.

Lemma insert_sorted_sorted x l :
  StronglySorted le l -> StronglySorted le (insert_sorted cmp x l).
Proof.
  induction 1 as [|y l Hl IH Hy]; cbn; [by repeat constructor|].
  destruct (Z.ltb_spec (cmp x y) 0) as [Hlt|Hge].
  - constructor; [by constructor|]. constructor; [lia|].
    eapply List.Forall_impl; [|exact Hy]. intros z Hz. cbn in *.
    apply cmp_trans with y; lia.
  - constructor; [done|]. rewrite Forall_forall in Hy |- *.
    intros z Hz. rewrite insert_sorted_perm in Hz.
    apply elem_of_cons in Hz as [->|Hz]; auto.
    apply cmp_flip. lia.
Qed.

Lemma SortFunc_sorted l : StronglySorted le (SortFunc cmp l).
Proof.
  unfold SortFunc. assert (Hn : StronglySorted le (@nil A)) by constructor.
  revert Hn. generalize (@nil A) as acc.
  induction l as [|x l IH]; intros acc Hacc; cbn; [done|].
  apply IH. by apply insert_sorted_sorted.
Qed.
End SortFacts.

Section SortUnique.
Context {A : Type} (cmp : A -> A -> Z) `{SeparatingComparator A cmp}.
Abbreviation le := (fun x y => cmp x y <= 0).

Lemma sep_le_antisym x y : cmp x y <= 0 -> cmp y x <= 0 -> x = y.
Proof. intros H1 H2. apply cmp_sep. pose proof (cmp_antisym (cmp:=cmp) x y). lia. Qed.

(** With a separating comparator there is one sorted arrangement, so the
    algorithm behind [slices.SortFunc] cannot matter. *)
Lemma sorted_perm_unique l1 l2 :
  StronglySorted le l1 -> StronglySorted le l2 -> l1 ≡ₚ l2 -> l1 = l2.
Proof.
  intros H1. revert l2. induction H1 as [|x l1 Hl1 IH Hx]; intros l2 H2 Hp.
  { by apply Permutation_nil_l in Hp. }
  destruct H2 as [|y l2 Hl2 Hy]; [by apply Permutation_nil_r in Hp|].
  assert (x = y) as ->.
  { assert (Hxin : x ∈ y :: l2) by (rewrite <- Hp; set_solver).
    assert (Hyin : y ∈ x :: l1) by (rewrite Hp; set_solver).
    rewrite Forall_forall in Hx, Hy.
    apply elem_of_cons in Hxin as [->|Hxin]; [done|].
    apply elem_of_cons in Hyin as [->|Hyin]; [done|].
    apply sep_le_antisym; [apply Hx|apply Hy]; done. }
  f_equal. apply IH; [done|]. by apply Permutation_cons_inv in Hp.
Qed.

Lemma SortFunc_eq_iff l1 l2 : SortFunc cmp l1 = SortFunc cmp l2 <-> l1 ≡ₚ l2.
Proof.
  split.
  - intros E. by rewrite <- (SortFunc_perm cmp l1), E, SortFunc_perm.
  - intros Hp. apply sorted_perm_unique; try apply SortFunc_sorted; try apply _.
    by rewrite !SortFunc_perm.
Qed.
End SortUnique.

Lemma Sort_eq_iff l1 l2 : Sort l1 = Sort l2 <-> l1 ≡ₚ l2.
Proof. apply SortFunc_eq_iff, _. Qed.

(** ** Facts on slices.Equal, slices.EqualFunc and slices.IndexFunc *)

Lemma EqualFunc_true {A} (eqf : A -> A -> bool) l1 l2 :
  (forall x y, eqf x y = true <-> x = y) -> EqualFunc l1 l2 eqf = true <-> l1 = l2.
Proof.
  intros Heq. revert l2. induction l1 as [|x l1 IH]; intros [|y l2]; cbn; try done.
  rewrite andb_true_iff, Heq, IH. naive_solver.
Qed.

Lemma Equal_true {A} `{EqDecision A} (l1 l2 : list A) : Equal l1 l2 = true <-> l1 = l2.
Proof. apply EqualFunc_true. intros x y. apply bool_decide_eq_true. Qed.

Lemma Equal_false {A} `{EqDecision A} (l1 l2 : list A) : Equal l1 l2 = false <-> l1 <> l2.
Proof. rewrite <- not_true_iff_false, Equal_true. done. Qed.

Lemma IndexFunc_Some {A} (f : A -> bool) l i :
  IndexFunc l f = Some i -> exists x, l !! i = Some x /\ f x = true.
Proof.
  revert i. induction l as [|x l IH]; intros i; cbn; [done|].
  case_if; [intros [= <-]; eauto|].
  destruct (IndexFunc l f) as [j|]; cbn; [|done]. intros [= <-]. cbn. eauto.
Qed.

Lemma IndexFunc_None {A} (f : A -> bool) l :
  IndexFunc l f = None <-> ContainsFunc l f = false.
Proof.
  unfold ContainsFunc. induction l as [|x l IH]; cbn; [done|].
  destruct (f x); cbn; [done|]. destruct (IndexFunc l f); cbn; naive_solver.
Qed.

#[export] Hint Rewrite @Equal_true @Equal_false @IndexFunc_None : lbc_rw.

(** ** Facts on time.Duration and float64 *)

Lemma digits2_pos_log2 p : Zpos (digits2_pos p) = Z.log2 (Zpos p) + 1.
Proof.
  induction p as [p IH|p IH|]; cbn -[Z.log2]; rewrite ?Pos2Z.inj_succ, ?IH;
    rewrite ?(Pos2Z.inj_xI p), ?(Pos2Z.inj_xO p);
    [rewrite Z.log2_succ_double by lia; lia|rewrite Z.log2_double by lia; lia|done].
Qed.

Lemma iter_xO_pow p n : Zpos (Pos.iter xO p n) = Zpos p * 2 ^ Zpos n.
Proof.
  induction n as [|n IH] using Pos.peano_ind; [cbn; lia|].
  rewrite Pos.iter_succ, Pos2Z.inj_succ, Z.pow_succ_r, (Pos2Z.inj_xO (Pos.iter xO p n)) by lia. lia.
Qed.

Lemma shr_fexp_exact m e :
  Zdigits2 m = 53 -> -1000 <= e <= 0 ->
  shr_fexp 53 1024 m e loc_Exact = ({| shr_m := m; shr_r := false; shr_s := false |}, e).
Proof.
  intros Hd He. unfold shr_fexp. rewrite Hd. unfold fexp, emin.
  replace (Z.max (53 + e - 53) (3 - 1024 - 53) - e) with 0 by lia. done.
Qed.

(** Integers below 2^53 are represented exactly. *)
Lemma float64_of_int_exact k :
  0 < k < 2 ^ 53 ->
  exists m e, float64_of_int k = S754_finite false m e /\ e <= 0 /\ Zpos m = k * 2 ^ (- e).
Proof.
  intros Hk. destruct k as [|p|p]; [lia| |lia].
  assert (Hlog : 0 <= Z.log2 (Zpos p) < 53).
  { split; [apply Z.log2_nonneg|]. apply Z.log2_lt_pow2; lia. }
  set (e := Z.log2 (Zpos p) + 1 - 53).
  unfold float64_of_int, binary_normalize, binary_round.
  rewrite digits2_pos_log2.
  replace (fexp 53 1024 (Z.log2 (Z.pos p) + 1 + 0)) with e by (unfold fexp, emin; lia).
  assert (Hs : exists m, shl_align p 0 e = (m, e) /\ Zpos m = Zpos p * 2 ^ (- e)).
  { unfold shl_align. destruct (e - 0) as [|q|q] eqn:E; [|lia|].
    - exists p. replace e with 0 by lia. split; [done|lia].
    - exists (Pos.iter xO p q). split; [done|]. rewrite iter_xO_pow. f_equal. f_equal. lia. }
  destruct Hs as (m & -> & Hm). exists m, e. split; [|split; [lia|done]].
  assert (Hd : Zdigits2 (Zpos m) = 53).
  { cbn. rewrite digits2_pos_log2, Hm, Z.log2_mul_pow2 by lia. lia. }
  unfold binary_round_aux. rewrite shr_fexp_exact by (done || lia). cbn [shr_m loc_of_shr_record shr_r shr_s round_nearest_even].
  rewrite shr_fexp_exact by (done || lia). cbn [shr_m].
  by rewrite (proj2 (Z.leb_le e (1024 - 53))) by lia.
Qed.

(** [int(d.Seconds())] loses nothing on whole seconds. *)
Lemma Seconds_whole k : 0 < k < 2 ^ 53 -> int_of_float64 (Seconds (k * Second)) = k.
Proof.
  intros Hk. unfold Seconds.
  rewrite Z.quot_mul, Z.rem_mul by done. 
  destruct (float64_of_int_exact k Hk) as (m & e & -> & He & Hm).
  replace (SFdiv 53 1024 (float64_of_int 0) (float64_of_int Second)) with (S754_zero false) by (by vm_compute).
  cbn -[Z.pow Z.div]. 
  destruct (Z.leb_spec 0 e).
  - replace e with 0 in * by lia. lia.
  - rewrite Hm, Z.div_mul; lia.
Qed.

(** ** Prefixes and suffixes *)

Lemma string_app_cons c a b : String c a +:+ b = String c (a +:+ b).
Proof. done. Qed.

Lemma substring_all s : String.substring 0 (String.length s) s = s.
Proof. induction s as [|c s IH]; cbn; [done|]. by rewrite IH. Qed.

Lemma HasPrefix_app p r : HasPrefix (p +:+ r) p = true.
Proof.
  unfold HasPrefix. induction p as [|c p IH]; [by destruct r|].
  rewrite string_app_cons. cbn. by destruct (Ascii.ascii_dec c c).
Qed.

Lemma HasPrefix_split s p : HasPrefix s p = true -> s = p +:+ TrimPrefix s p.
Proof.
  unfold TrimPrefix. intros H. rewrite H. revert s H. unfold HasPrefix.
  induction p as [|c p IH]; intros s H; cbn.
  - by rewrite Nat.sub_0_r, substring_all.
  - destruct s as [|d s]; cbn in *; [done|]. destruct (Ascii.ascii_dec c d) as [->|]; [|done].
    rewrite string_app_cons. f_equal. by apply IH.
Qed.

Lemma string_length_app a b : String.length (a +:+ b) = (String.length a + String.length b)%nat.
Proof. induction a as [|c a IH]; [done|]. rewrite string_app_cons. cbn. congruence. Qed.

Lemma substring_app_0 a b : String.substring 0 (String.length a) (a +:+ b) = a.
Proof. induction a as [|c a IH]; [by destruct b|]. rewrite string_app_cons. cbn. by rewrite IH. Qed.

Lemma substring_app_r a b : String.substring (String.length a) (String.length b) (a +:+ b) = b.
Proof. induction a as [|c a IH]; [apply substring_all|]. rewrite string_app_cons. cbn. exact IH. Qed.

Lemma substring_split n s : (n <= String.length s)%nat ->
  s = String.substring 0 n s +:+ String.substring n (String.length s - n) s.
Proof.
  revert s. induction n as [|n IH]; intros s Hn; cbn.
  - destruct s; cbn; [done|]. by rewrite substring_all.
  - destruct s as [|c s]; cbn in *; [lia|]. rewrite string_app_cons. f_equal. apply IH. lia.
Qed.

Lemma HasSuffix_app a p : HasSuffix (a +:+ p) p = true.
Proof.
  unfold HasSuffix. rewrite string_length_app. replace (String.length a + String.length p - String.length p)%nat with (String.length a) by lia.
  rewrite substring_app_r, str_eqb_refl, andb_true_r. apply Nat.leb_le. lia.
Qed.

Lemma TrimSuffix_app a p : TrimSuffix (a +:+ p) p = a.
Proof.
  unfold TrimSuffix. rewrite HasSuffix_app, string_length_app.
  replace (String.length a + String.length p - String.length p)%nat with (String.length a) by lia. apply substring_app_0.
Qed.

Lemma HasSuffix_split s p : HasSuffix s p = true -> s = TrimSuffix s p +:+ p.
Proof.
  intros H. unfold TrimSuffix. rewrite H. apply andb_true_iff in H as [Hl He]. apply Nat.leb_le in Hl. apply str_eqb_true in He.
  rewrite (substring_split (String.length s - String.length p) s) at 1 by lia.
  f_equal. by replace (String.length s - (String.length s - String.length p))%nat with (String.length p) by lia.
Qed.

Lemma string_app_assoc a b c : a +:+ (b +:+ c) = (a +:+ b) +:+ c.
Proof. induction a as [|x a IH]; [done|]. rewrite !string_app_cons. by rewrite IH. Qed.

Lemma TrimSuffix_none s p : HasSuffix s p = false -> TrimSuffix s p = s.
Proof. unfold TrimSuffix. by intros ->. Qed.
