(* ===== verification/GoFlag.v ===== *)
(** * GoFlag: the package flag and the parsers of its values

    The Go standard library as main.go uses it: [flag.FlagSet.Parse] with its
    rules for dashes, values and booleans, [strconv.ParseBool] and
    [time.ParseDuration] with its overflow checks and its float64 fractions.
    Parsed durations are int64 and the intermediate values uint64, kept in [Z]
    below 2^64. *)

From Stdlib Require Import ZArith Lia SpecFloat Ascii String.
From stdpp Require Import base list strings pretty.
From S2P Require Import Prelude GoLib.
Open Scope string_scope.
Open Scope Z_scope.
Open Scope list_scope.

(** ** strconv.ParseBool *)

Definition ParseBool (s : string) : option bool :=
  if existsb (str_eqb s) ["1"; "t"; "T"; "TRUE"; "true"; "True"] then Some true
  else if existsb (str_eqb s) ["0"; "f"; "F"; "FALSE"; "false"; "False"] then Some false
  else None.

(** ** time.ParseDuration *)

Definition digit (c : ascii) : option Z :=
  let n := Z.of_N (N_of_ascii c) in if (48 <=? n) && (n <=? 57) then Some (n - 48) else None.

Definition is_digit (c : ascii) : bool := bool_decide (is_Some (digit c)).

(** [leadingInt]: consumes [0-9]*; [None] on overflow. *)
Fixpoint leadingInt (x : Z) (s : string) : option (Z * string) :=
  match s with
  | "" => Some (x, s)
  | String c s' =>
      match digit c with
      | None => Some (x, s)
      | Some d =>
          if 2 ^ 63 / 10 <? x then None
          else let y := 10 * x + d in if 2 ^ 63 <? y then None else leadingInt y s'
      end
  end.

(** [leadingFraction]: consumes [0-9]*, counting the digits it kept in [scale]. *)
Fixpoint leadingFraction (x : Z) (scale : spec_float) (overflow : bool) (s : string) : Z * spec_float * string :=
  match s with
  | "" => (x, scale, s)
  | String c s' =>
      match digit c with
      | None => (x, scale, s)
      | Some d =>
          if overflow then leadingFraction x scale overflow s'
          else if (2 ^ 63 - 1) / 10 <? x then leadingFraction x scale true s'
          else let y := 10 * x + d in
               if 2 ^ 63 <? y then leadingFraction x scale true s'
               else leadingFraction y (SFmul 53 1024 scale (float64_of_int 10)) false s'
      end
  end.

(** The unit: everything up to the next digit or period. *)
Fixpoint leadingUnit (s : string) : string * string :=
  match s with
  | "" => ("", "")
  | String c s' =>
      if Ascii.eqb c "." || is_digit c then ("", s)
      else let '(u, rest) := leadingUnit s' in (String c u, rest)
  end.

Definition unitMap (u : string) : option Z :=
  if str_eqb u "ns" then Some 1
  else if str_eqb u "us" then Some 1000
  else if str_eqb u (String "194" (String "181" "s")) then Some 1000
  else if str_eqb u (String "206" (String "188" "s")) then Some 1000
  else if str_eqb u "ms" then Some 1000000
  else if str_eqb u "s" then Some Second
  else if str_eqb u "m" then Some Minute
  else if str_eqb u "h" then Some (60 * Minute)
  else None.

(** The optional fraction: its digits, their scale, what is left, and whether
    there were digits. *)
Definition readFraction (s : string) : Z * spec_float * string * bool :=
  match s with
  | String c s' =>
      if Ascii.eqb c "." then
        let '(f, scale, rest) := leadingFraction 0 (float64_of_int 1) false s' in
        (f, scale, rest, negb (Nat.eqb (String.length s') (String.length rest)))
      else (0, float64_of_int 1, s, false)
  | "" => (0, float64_of_int 1, s, false)
  end.

Definition startsNumber (s : string) : bool :=
  match s with String c _ => Ascii.eqb c "." || is_digit c | "" => false end.

(** The value of a number with its unit, in nanoseconds. *)
Definition scaled (v f : Z) (scale : spec_float) (unit : Z) : option Z :=
  if 2 ^ 63 / unit <? v then None
  else
    let v := v * unit in
    if 0 <? f then
      let v := v + int_of_float64 (SFmul 53 1024 (float64_of_int f) (SFdiv 53 1024 (float64_of_int unit) scale)) in
      if 2 ^ 63 <? v then None else Some v
    else Some v.

(** One round of the loop: a number and its unit, and what is left. *)
Definition parseTerm (s : string) : option (Z * string) :=
  if negb (startsNumber s) then None
  else
    '(v, s1) ← leadingInt 0 s;
    let pre := negb (Nat.eqb (String.length s) (String.length s1)) in
    let '(f, scale, s2, post) := readFraction s1 in
    if negb pre && negb post then None
    else
      let '(u, s3) := leadingUnit s2 in
      if str_empty u then None
      else unit ← unitMap u; v ← scaled v f scale unit; Some (v, s3).

(** The loop, with as many rounds as the text has characters. *)
Fixpoint parseTerms (fuel : nat) (d : Z) (s : string) : option Z :=
  if str_empty s then Some d
  else match fuel with
  | O => None
  | S fuel =>
      '(v, s') ← parseTerm s;
      let d := d + v in if 2 ^ 63 <? d then None else parseTerms fuel d s'
  end.

Definition ParseDuration (s : string) : option Duration :=
  let '(neg, s) := match s with
                   | String c s' => if Ascii.eqb c "-" then (true, s') else if Ascii.eqb c "+" then (false, s') else (false, s)
                   | "" => (false, s)
                   end in
  if str_eqb s "0" then Some 0
  else if str_empty s then None
  else
    d ← parseTerms (String.length s) 0 s;
    if (neg : bool) then Some (- d) else if 2 ^ 63 - 1 <? d then None else Some d.

Example parse_five_minutes : ParseDuration "5m" = Some (5 * Minute).
Proof. vm_compute. reflexivity. Qed.
Example parse_compound : ParseDuration "-1h30m2.5s" = Some (- (90 * Minute + 2500000000)).
Proof. vm_compute. reflexivity. Qed.
Example parse_no_unit : ParseDuration "300" = None.
Proof. vm_compute. reflexivity. Qed.
Example parse_overflow : ParseDuration "9223372036854775808ns" = None.
Proof. vm_compute. reflexivity. Qed.

(** ** flag.FlagSet

    A flag is its name, whether it is a boolean flag, and how its text is stored;
    [None] is an invalid value. *)

Record Flag (C : Type) := {
  flag_Name : string;
  IsBoolFlag : bool;
  flag_Set : string -> C -> option C;
}.
Arguments flag_Name {C}.
Arguments IsBoolFlag {C}.
Arguments flag_Set {C}.

Definition StringVar {C} (name : string) (set : C -> string -> C) : Flag C :=
  {| flag_Name := name; IsBoolFlag := false; flag_Set v c := Some (set c v) |}.
Definition BoolVar {C} (name : string) (set : C -> bool -> C) : Flag C :=
  {| flag_Name := name; IsBoolFlag := true; flag_Set v c := set c <$> ParseBool v |}.
Definition DurationVar {C} (name : string) (set : C -> Duration -> C) : Flag C :=
  {| flag_Name := name; IsBoolFlag := false; flag_Set v c := set c <$> ParseDuration v |}.

(** How an argument reads. *)
Inductive argument :=
| NoFlag
| Terminator
| BadFlagSyntax
| FlagArg (name : string) (value : option string).

(** [name=value], split at the first equals sign that is not the first character. *)
Fixpoint cutEquals (s : string) : string * option string :=
  match s with
  | "" => ("", None)
  | String c s' => if Ascii.eqb c "=" then ("", Some s') else let '(n, v) := cutEquals s' in (String c n, v)
  end.

Definition flagName (name : string) : argument :=
  match name with
  | "" => BadFlagSyntax
  | String c rest =>
      if Ascii.eqb c "-" || Ascii.eqb c "=" then BadFlagSyntax
      else let '(n, v) := cutEquals rest in FlagArg (String c n) v
  end.

Definition readArg (s : string) : argument :=
  match s with
  | String c (String c2 rest) =>
      if negb (Ascii.eqb c "-") then NoFlag
      else if Ascii.eqb c2 "-" then (if str_empty rest then Terminator else flagName rest)
      else flagName (String c2 rest)
  | _ => NoFlag
  end.

Inductive flag_error := BadSyntax (arg : string) | Undefined (name : string)
| InvalidValue (value name : string) | NeedsArgument (name : string).

Inductive parsed (C : Type) := Parsed (c : C) (args : list string) | ErrHelp | ParseError (e : flag_error).
Arguments Parsed {C}.
Arguments ErrHelp {C}.
Arguments ParseError {C}.

Section Parse.
Context {C : Type} (formal : list (Flag C)).

Definition findFlag (name : string) : option (Flag C) :=
  List.find (fun f => str_eqb (flag_Name f) name) formal.

Fixpoint Parse (c : C) (args : list string) : parsed C :=
  match args with
  | [] => Parsed c []
  | s :: rest =>
      match readArg s with
      | NoFlag => Parsed c args
      | Terminator => Parsed c rest
      | BadFlagSyntax => ParseError (BadSyntax s)
      | FlagArg name value =>
          match findFlag name with
          | None => if str_eqb name "help" || str_eqb name "h" then ErrHelp else ParseError (Undefined name)
          | Some f =>
              if IsBoolFlag f then
                let value := default "true" value in
                match flag_Set f value c with
                | None => ParseError (InvalidValue value name)
                | Some c => Parse c rest
                end
              else
                match value, rest with
                | Some value, _ =>
                    match flag_Set f value c with
                    | None => ParseError (InvalidValue value name)
                    | Some c => Parse c rest
                    end
                | None, value :: rest =>
                    match flag_Set f value c with
                    | None => ParseError (InvalidValue value name)
                    | Some c => Parse c rest
                    end
                | None, [] => ParseError (NeedsArgument name)
                end
          end
      end
  end.
End Parse.

(** ** Facts on ParseDuration *)

Lemma leadingInt_length x s v rest : leadingInt x s = Some (v, rest) -> (String.length rest <= String.length s)%nat.
Proof.
  revert x. induction s as [|c s IH]; intros x; cbn; [by intros [= _ <-]|].
  destruct (digit c); [|by intros [= _ <-]]. repeat case_match; try done. intros Hr%IH. lia.
Qed.

Lemma leadingFraction_length x sc o s v sc' rest :
  leadingFraction x sc o s = (v, sc', rest) -> (String.length rest <= String.length s)%nat.
Proof.
  revert x sc o. induction s as [|c s IH]; intros x sc o; cbn; [by intros [= _ _ <-]|].
  destruct (digit c); [|by intros [= _ _ <-]]. repeat case_match; intros Hr%IH; lia.
Qed.

Lemma leadingUnit_length s u rest : leadingUnit s = (u, rest) -> (String.length u + String.length rest = String.length s)%nat.
Proof.
  revert u rest. induction s as [|c s IH]; intros u rest; cbn; [by intros [= <- <-]|].
  case_match; [by intros [= <- <-]|]. destruct (leadingUnit s) as [u' r'] eqn:E. intros [= <- <-]. cbn. by rewrite (IH u' r').
Qed.

Lemma readFraction_length s f sc rest post :
  readFraction s = (f, sc, rest, post) -> (String.length rest <= String.length s)%nat.
Proof.
  destruct s as [|c s]; cbn; [by intros [= _ _ <- _]|]. case_match; [|by intros [= _ _ <- _]].
  destruct (leadingFraction _ _ _ _) as [[f' sc'] r] eqn:E. intros [= _ _ <- _]. apply leadingFraction_length in E. lia.
Qed.

(** A round of the loop consumes something. *)
Lemma parseTerm_length s v rest : parseTerm s = Some (v, rest) -> (String.length rest < String.length s)%nat.
Proof.
  unfold parseTerm. destruct (negb (startsNumber s)); [done|]. intros Hp. apply bind_Some in Hp as ([v1 s1] & H1%leadingInt_length & Hp).
  destruct (readFraction s1) as [[[f sc] s2] post] eqn:E2. apply readFraction_length in E2.
  destruct (negb _ && negb _); [done|]. destruct (leadingUnit s2) as [u s3] eqn:E3. apply leadingUnit_length in E3.
  destruct (str_empty u) eqn:Eu; [done|]. apply bind_Some in Hp as (unit & _ & Hp). apply bind_Some in Hp as (v' & _ & Hp).
  injection Hp as _ <-. str_prop. destruct u; [done|]. cbn in E3. lia.
Qed.

(** The rounds given are enough: more of them change nothing. *)
Lemma parseTerms_fuel n m d s :
  (String.length s <= n)%nat -> (String.length s <= m)%nat -> parseTerms n d s = parseTerms m d s.
Proof.
  revert m d s. induction n as [|n IH]; intros m d s Hn Hm.
  { destruct s; [by destruct m|cbn in Hn; lia]. }
  destruct m as [|m]; [destruct s; [done|cbn in Hm; lia]|]. cbn. destruct (str_empty s); [done|].
  destruct (parseTerm s) as [[v s']|] eqn:E; cbn; [|done]. apply parseTerm_length in E.
  case_match; [done|]. apply IH; lia.
Qed.

Lemma digit_pretty n : (n < 10)%N -> digit (pretty_N_char n) = Some (Z.of_N n).
Proof.
  intros Hn. destruct n as [|p]; [done|]. do 4 (destruct p as [p|p|]; [| |first [reflexivity|lia]]); lia.
Qed.

Lemma leadingInt_pretty_go (n : N) s : Z.of_N n <= 2 ^ 63 -> leadingInt 0 (pretty_N_go n s) = leadingInt (Z.of_N n) s.
Proof.
  revert s. induction (N.lt_wf_0 n) as [n _ IH]. intros s Hn. destruct (decide (n = 0)%N) as [->|Hne]; [done|].
  rewrite pretty_N_go_step by lia. pose proof (N.div_mod n 10 ltac:(lia)) as Hdm.
  pose proof (N.mod_lt n 10 ltac:(lia)) as Hm. specialize (IH (n `div` 10)%N (N.div_lt n 10 ltac:(lia) ltac:(lia))).
  generalize dependent (n `mod` 10)%N. generalize dependent (n `div` 10)%N. intros q IH r Hdm Hm.
  rewrite IH by lia. cbn [leadingInt]. rewrite digit_pretty by done.
  replace (10 * Z.of_N q + Z.of_N r) with (Z.of_N n) by lia.
  rewrite (proj2 (Z.ltb_ge _ _)) by (apply Z.div_le_lower_bound; lia). by rewrite (proj2 (Z.ltb_ge _ _)).
Qed.

Lemma pretty_N_go_app (n : N) s t : pretty_N_go n s +:+ t = pretty_N_go n (s +:+ t).
Proof.
  revert s. induction (N.lt_wf_0 n) as [n _ IH]. intros s. destruct (decide (n = 0)%N) as [->|Hne]; [done|].
  rewrite (pretty_N_go_step n s), (pretty_N_go_step n (s +:+ t)) by lia. rewrite IH by (apply N.div_lt; lia). done.
Qed.

(** A positive number starts with a digit and is longer than what follows it. *)
Lemma pretty_N_go_head (n : N) s : (0 < n)%N ->
  exists c rest, pretty_N_go n s = String c rest /\ is_Some (digit c) /\ (String.length s < String.length (String c rest))%nat.
Proof.
  revert s. induction (N.lt_wf_0 n) as [n _ IH]. intros s Hn. rewrite pretty_N_go_step by done.
  pose proof (N.mod_lt n 10 ltac:(lia)) as Hm. destruct (decide (n `div` 10 = 0)%N) as [->|Hne].
  - rewrite pretty_N_go_0. eexists _, _. split; [done|]. rewrite digit_pretty by done. split; [by eexists|cbn; lia].
  - destruct (IH (n `div` 10)%N (N.div_lt n 10 Hn ltac:(lia)) (String (pretty_N_char (n `mod` 10)) s) (proj1 (N.neq_0_lt_0 _) Hne))
      as (c & rest & -> & Hd & Hl). exists c, rest. split; [done|]. split; [done|]. cbn in *. lia.
Qed.

Lemma parseTerms_ns (n : N) k : (0 < n)%N -> Z.of_N n <= 2 ^ 63 -> parseTerms (S (S k)) 0 (pretty_N_go n "ns") = Some (Z.of_N n).
Proof.
  intros Hn Hle. destruct (pretty_N_go_head n "ns" Hn) as (c & rest & Es & [dg Hd] & Hl).
  assert (Hp : parseTerm (pretty_N_go n "ns") = Some (Z.of_N n, "")).
  { unfold parseTerm. rewrite Es at 1. cbn [startsNumber]. unfold is_digit. rewrite Hd, bool_decide_true by done.
    rewrite orb_true_r. cbn [negb]. rewrite leadingInt_pretty_go by done. cbn [leadingInt]. change (digit "n") with (@None Z).
    cbn [mbind option_bind]. rewrite Es. rewrite (proj2 (Nat.eqb_neq _ _)) by (cbn in *; lia). 
    change (readFraction "ns") with (0, float64_of_int 1, "ns", false). cbn [negb andb].
    change (leadingUnit "ns") with ("ns", ""). cbn [str_empty]. change (unitMap "ns") with (Some 1). cbn [mbind option_bind].
    unfold scaled. rewrite Z.div_1_r, (proj2 (Z.ltb_ge _ _)) by done. cbn [Z.ltb Z.compare mbind option_bind]. by rewrite Z.mul_1_r. }
  cbn [parseTerms]. rewrite Es at 1. cbn [str_empty]. rewrite Hp. cbn [mbind option_bind].
  replace (0 + Z.of_N n) with (Z.of_N n) by lia. by rewrite (proj2 (Z.ltb_ge _ _)).
Qed.

(** Nanoseconds written out read back, over the whole range of int64. *)
Lemma ParseDuration_ns (d : Z) : - 2 ^ 63 <= d < 2 ^ 63 -> ParseDuration (pretty d +:+ "ns") = Some d.
Proof.
  assert (Hpos : forall p, pretty (Npos p) +:+ "ns" = pretty_N_go (Npos p) "ns") by (intros p; apply (pretty_N_go_app (Npos p) "")).
  assert (Hrun : forall p, Zpos p <= 2 ^ 63 ->
    parseTerms (String.length (pretty_N_go (Npos p) "ns")) 0 (pretty_N_go (Npos p) "ns") = Some (Zpos p)).
  { intros p Hp. rewrite (parseTerms_fuel _ (S (S (String.length (pretty_N_go (Npos p) "ns"))))) by lia. by apply (parseTerms_ns (Npos p)). }
  intros Hd. destruct d as [|p|p]; [by vm_compute| |].
  - change (pretty (Zpos p)) with (pretty (Npos p)). rewrite Hpos.
    destruct (pretty_N_go_head (Npos p) "ns" ltac:(lia)) as (c & rest & Es & Hdg & Hl). pose proof (Hrun p ltac:(lia)) as Hr.
    rewrite Es in *. unfold ParseDuration.
    assert (Hc : Ascii.eqb c "-" = false /\ Ascii.eqb c "+" = false)
      by (split; apply Ascii.eqb_neq; intros ->; by destruct Hdg).
    destruct Hc as [-> ->]. destruct (str_eqb (String c rest) "0") eqn:E0; [str_prop; rewrite E0 in Hl; cbn in Hl; lia|].
    cbn [str_empty]. rewrite Hr. cbn [mbind option_bind]. by rewrite (proj2 (Z.ltb_ge _ _)) by lia.
  - change (pretty (Zneg p) +:+ "ns") with (String "-" (pretty (Npos p) +:+ "ns")). rewrite Hpos.
    destruct (pretty_N_go_head (Npos p) "ns" ltac:(lia)) as (c & rest & Es & Hdg & Hl). pose proof (Hrun p ltac:(lia)) as Hr.
    rewrite Es in *. unfold ParseDuration. cbn [Ascii.eqb Bool.eqb].
    destruct (str_eqb (String c rest) "0") eqn:E0; [str_prop; rewrite E0 in Hl; cbn in Hl; lia|].
    cbn [str_empty]. by rewrite Hr.
Qed.

(** ** Facts on flags *)

Fixpoint no_equals (s : string) : bool :=
  match s with "" => true | String c s' => negb (Ascii.eqb c "=") && no_equals s' end.

Lemma cutEquals_value n v : no_equals n = true -> cutEquals (n +:+ "=" +:+ v) = (n, Some v).
Proof.
  induction n as [|c n IH]; [done|]. change (String c n +:+ "=" +:+ v) with (String c (n +:+ "=" +:+ v)).
  cbn [cutEquals no_equals]. rewrite andb_true_iff, negb_true_iff. intros [-> Hn]. by rewrite IH.
Qed.

(** Names a flag can be given by. *)
Definition flag_name_ok (n : string) : bool :=
  match n with "" => false | String c _ => negb (Ascii.eqb c "-") && no_equals n end.

Lemma readArg_value n v : flag_name_ok n = true -> readArg ("--" +:+ n +:+ "=" +:+ v) = FlagArg n (Some v).
Proof.
  destruct n as [|c n]; [done|]. cbn [flag_name_ok no_equals]. rewrite !andb_true_iff, !negb_true_iff. intros (Hc & He & Hn).
  change ("--" +:+ String c n +:+ "=" +:+ v) with (String "-" (String "-" (String c (n +:+ "=" +:+ v)))).
  cbn [readArg flagName str_empty]. rewrite Hc, He. cbn [orb]. by rewrite cutEquals_value.
Qed.

Lemma Parse_value {C} (formal : list (Flag C)) f n v c c' rest :
  flag_name_ok n = true -> findFlag formal n = Some f -> flag_Set f v c = Some c' ->
  Parse formal c (("--" +:+ n +:+ "=" +:+ v) :: rest) = Parse formal c' rest.
Proof.
  intros Hn Hf Hs. cbn [Parse]. rewrite readArg_value by done. rewrite Hf. destruct (IsBoolFlag f); cbn [default from_option id]; by rewrite Hs.
Qed.
