(* ===== verification/NetParse.v ===== *)
(** * NetParse: net.ParseIP and net.ParseCIDR of the Go standard library

    The admission webhook only asks whether an address or a network parses.  The
    parsers are those of net/netip, written over lists of characters: dotted IPv4
    without leading zeros, IPv6 with one optional ellipsis and an optional embedded
    IPv4 tail, no zone, and a decimal prefix length within the address size. *)

From Stdlib Require Import ZArith Lia Ascii String.
From stdpp Require Import base list strings pretty.
From S2P Require Import Prelude GoLib.
Open Scope string_scope.
Open Scope Z_scope.
Open Scope list_scope.

Abbreviation chars := (list ascii).

Definition chars_of (s : string) : chars := list_ascii_of_string s.
Definition code (c : ascii) : Z := Z.of_N (N_of_ascii c).
Definition is_char (a c : ascii) : bool := code a =? code c.

Definition digit (c : ascii) : option Z :=
  if (48 <=? code c) && (code c <=? 57) then Some (code c - 48) else None.

Definition hex_digit (c : ascii) : option Z :=
  match digit c with
  | Some d => Some d
  | None =>
      if (97 <=? code c) && (code c <=? 102) then Some (code c - 87)
      else if (65 <=? code c) && (code c <=? 70) then Some (code c - 55) else None
  end.

(** ** IPv4 *)

(** [parseIPv4Fields]: [fields] are the octets so far, [val] and [digLen] the
    current octet; [first] tells whether the position is 0 or follows a dot. *)
Fixpoint parseIPv4Fields (s : chars) (fields : list Z) (val digLen : Z) (first : bool) : option (list Z) :=
  match s with
  | [] => if Nat.ltb (length fields) 3 then None else Some (fields ++ [val])
  | c :: rest =>
      match digit c with
      | Some d =>
          if (digLen =? 1) && (val =? 0) then None
          else
            let val := val * 10 + d in
            if 255 <? val then None else parseIPv4Fields rest fields val (digLen + 1) false
      | None =>
          if is_char c "." then
            if first || Nat.eqb (length rest) 0 then None
            else if Nat.eqb (length fields) 3 then None
            else parseIPv4Fields rest (fields ++ [val]) 0 0 true
          else None
      end
  end.

Definition parseIPv4 (s : chars) : option (list Z) := parseIPv4Fields s [] 0 0 true.

(** ** IPv6 *)

(** The hex number at the front: its value, how many digits, and the rest;
    [None] for more than four digits. *)
Fixpoint hexGroup (s : chars) (off : nat) (acc : Z) : option (Z * nat * chars) :=
  match s with
  | [] => Some (acc, off, [])
  | c :: rest =>
      match hex_digit c with
      | Some d => if Nat.ltb 3 off then None else hexGroup rest (S off) (acc * 16 + d)
      | None => Some (acc, off, s)
      end
  end.

(** The loop over the groups: [ip] are the bytes so far, [ellipsis] the position
    of "::".  The fuel bounds the number of groups, at most eight. *)
Fixpoint groups (fuel : nat) (s : chars) (ip : list Z) (ellipsis : option nat) : option (chars * list Z * option nat) :=
  match fuel with
  | O => Some (s, ip, ellipsis)
  | S fuel =>
      match hexGroup s 0 0 with
      | None => None
      | Some (_, O, _) => None
      | Some (acc, _, rest) =>
          match rest with
          | [] => Some ([], ip ++ [acc / 256; acc mod 256], ellipsis)
          | c :: after =>
              if is_char c "." then
                if is_nil ellipsis && negb (Nat.eqb (length ip) 12) then None
                else if Nat.ltb 16 (length ip + 4) then None
                else match parseIPv4 s with
                     | None => None
                     | Some fields => Some ([], ip ++ fields, ellipsis)
                     end
              else
                let ip := ip ++ [acc / 256; acc mod 256] in
                if negb (is_char c ":") then None
                else match after with
                     | [] => None
                     | c' :: after' =>
                         if is_char c' ":" then
                           if negb (is_nil ellipsis) then None
                           else match after' with
                                | [] => Some ([], ip, Some (length ip))
                                | _ => groups fuel after' ip (Some (length ip))
                                end
                         else groups fuel after ip ellipsis
                     end
          end
      end
  end.

(** Expand the ellipsis to sixteen bytes. *)
Definition expand (ip : list Z) (ellipsis : option nat) : option (list Z) :=
  let n := (16 - length ip)%nat in
  match ellipsis with
  | None => if Nat.ltb (length ip) 16 then None else Some ip
  | Some e => if Nat.ltb (length ip) 16 then Some (take e ip ++ replicate n 0 ++ drop e ip) else None
  end.

Definition parseIPv6 (s : chars) : option (list Z) :=
  match s with
  | a :: b :: rest =>
      if is_char a ":" && is_char b ":" then
        match rest with
        | [] => Some (replicate 16 0)
        | _ =>
            match groups 8 rest [] (Some 0%nat) with
            | Some ([], ip, ellipsis) => expand ip ellipsis
            | _ => None
            end
        end
      else match groups 8 s [] None with
           | Some ([], ip, ellipsis) => expand ip ellipsis
           | _ => None
           end
  | _ => match groups 8 s [] None with
         | Some ([], ip, ellipsis) => expand ip ellipsis
         | _ => None
         end
  end.

(** [netip.ParseAddr] followed by the refusal of zones: a '%' is either an error
    of its own or introduces a zone, and both callers refuse zones. *)
Fixpoint firstSeparator (s : chars) : option ascii :=
  match s with
  | [] => None
  | c :: rest => if is_char c "." || is_char c ":" || is_char c "%" then Some c else firstSeparator rest
  end.

Definition ParseAddr (s : chars) : option (list Z) :=
  if existsb (fun c => is_char c "%") s then None
  else match firstSeparator s with
  | None => None
  | Some c => if is_char c "." then parseIPv4 s else parseIPv6 s
  end.

Definition ParseIP (s : string) : option (list Z) := ParseAddr (chars_of s).

(** ** CIDR *)

Fixpoint cut_slash (s : chars) : option (chars * chars) :=
  match s with
  | [] => None
  | c :: rest =>
      if is_char c "/" then Some ([], rest)
      else match cut_slash rest with Some (a, b) => Some (c :: a, b) | None => None end
  end.

(** [dtoi] with the check that the whole string was consumed. *)
Fixpoint dtoi_from (s : chars) (n : Z) : option Z :=
  match s with
  | [] => Some n
  | c :: rest =>
      match digit c with
      | Some d => if 16777215 <=? n * 10 + d then None else dtoi_from rest (n * 10 + d)
      | None => None
      end
  end.

Definition dtoi (s : chars) : option Z := match s with [] => None | _ => dtoi_from s 0 end.

(** [IP.Mask(CIDRMask(n, bits))] on the bytes of an address. *)
Fixpoint maskBytes (n : Z) (ip : list Z) : list Z :=
  match ip with
  | [] => []
  | b :: rest =>
      (if 8 <=? n then b else if n <=? 0 then 0 else Z.land b (256 - 2 ^ (8 - n))) :: maskBytes (n - 8) rest
  end.

(** The network: masked address bytes and prefix length. *)
Definition ParseCIDR (s : string) : option (list Z * Z) :=
  match cut_slash (chars_of s) with
  | None => None
  | Some (addr, mask) =>
      match ParseAddr addr, dtoi mask with
      | Some ip, Some n =>
          if 8 * Z.of_nat (length ip) <? n then None else Some (maskBytes n ip, n)
      | _, _ => None
      end
  end.

(** ** One slash only

    A text that parses has nothing but digits behind its first slash. *)

Lemma dtoi_from_slash s n : "/"%char ∈ s -> dtoi_from s n = None.
Proof.
  revert n. induction s as [|c s IH]; intros n; [by intros H%not_elem_of_nil|]. cbn. intros [<-|Hin]%elem_of_cons; [done|].
  destruct (digit c); [|done]. case_match; [done|]. by apply IH.
Qed.

Lemma cut_slash_app pre rest : exists a b, cut_slash (pre ++ "/"%char :: rest) = Some (a, b) /\
  (b = rest \/ exists mid, b = mid ++ "/"%char :: rest).
Proof.
  induction pre as [|c pre (a & b & E & Hb)]; [exists [], rest; auto|]. cbn.
  destruct (is_char c "/"); [exists [], (pre ++ "/"%char :: rest); split; [done|right; by exists pre]|].
  rewrite E. by exists (c :: a), b.
Qed.

Lemma ParseCIDR_two_slashes x y z : ParseCIDR (x +:+ "/" +:+ y +:+ "/" +:+ z) = None.
Proof.
  assert (Ha : forall u v, chars_of (u +:+ v) = chars_of u ++ chars_of v) by (intros u v; induction u as [|c u IH]; [done|]; rewrite string_app_cons; cbn; by f_equal).
  unfold ParseCIDR. rewrite !Ha. cbn [chars_of list_ascii_of_string app].
  destruct (cut_slash_app (chars_of x) (chars_of y ++ "/"%char :: chars_of z)) as (a & b & -> & Hb).
  assert (Hin : "/"%char ∈ b).
  { destruct Hb as [->|[mid ->]]; repeat (rewrite elem_of_app || rewrite elem_of_cons); auto. }
  replace (dtoi b) with (@None Z); [by destruct (ParseAddr a)|]. unfold dtoi. destruct b; [done|]. by rewrite dtoi_from_slash.
Qed.
