(* ===== verification/ApiTypes.v ===== *)
(** * ApiTypes: the custom resource (api/v1beta1/loadbalancer_types.go)

    The data types of the LoadBalancer resource with the source's fields, and
    the getters that supply the documented defaults.  Ports are int32,
    thresholds are int, durations are int64 nanoseconds; all are [Z].  Of
    [metav1.ObjectMeta] the record keeps the fields the program reads. *)

From Stdlib Require Import ZArith Lia.
From stdpp Require Import base list strings gmap.
From S2P Require Import Prelude GoLib.
Open Scope string_scope.
Open Scope Z_scope.
Open Scope list_scope.

Module v1beta1.

(** ** Kubernetes metadata the resource embeds *)

Record NamespacedName := { nn_Namespace : string; nn_Name : string }.

Record ObjectMeta := {
  meta_Namespace : string;
  meta_Name : string;
  meta_UID : string;
  meta_Finalizers : list string;
  (** [None] is the zero timestamp. *)
  meta_DeletionTimestamp : option Z;
}.

Record LabelSelectorRequirement := {
  lsr_Key : string;
  lsr_Operator : string;
  lsr_Values : list string;
}.

Record LabelSelector := {
  ls_MatchLabels : gmap string string;
  ls_MatchExpressions : list LabelSelectorRequirement;
}.

(** ** Specification *)

Record AllowedCIDR := { acidr_CIDR : string }.

Record AllowedSubnet := { asub_UUID : string }.

Record VirtualIPAddress := { vip_Address : string; vip_SubnetID : string }.

Record FloatingIPAddress := { fip_CIDR : string }.

Record HTTPHealthMonitor := {
  http_Method : string;
  http_Path : string;
  http_Host : string;
  http_Version : string;
  http_StatusCodes : list string;
}.

Record HealthMonitor := {
  hm_Port : Z;
  hm_Type : string;
  hm_Delay : Duration;
  hm_Timeout : Duration;
  hm_SuccessThreshold : Z;
  hm_FailureThreshold : Z;
  hm_HTTP : HTTPHealthMonitor;
}.

Record PoolFrontend := {
  fe_Protocol : string;
  fe_Port : Z;
  fe_AllowedCIDRs : list AllowedCIDR;
  fe_DataTimeout : Duration;
}.

Record PoolBackend := {
  be_Port : Z;
  be_Protocol : string;
  be_HealthMonitor : HealthMonitor;
  be_NodeSelector : LabelSelector;
  be_DataTimeout : Duration;
  be_ConnectTimeout : Duration;
  be_AllowedSubnets : list AllowedSubnet;
}.

Record Pool := {
  pool_Name : string;
  pool_Algorithm : string;
  pool_Frontend : PoolFrontend;
  pool_Backend : PoolBackend;
}.

Record LoadBalancerSpec := {
  spec_UUID : string;
  spec_Zone : string;
  spec_VirtualIPAddresses : list VirtualIPAddress;
  spec_FloatingIPAddresses : list FloatingIPAddress;
  spec_Pools : list Pool;
}.

(** ** Status *)

Record StatusBackend := {
  sb_NodeName : string;
  sb_ServerName : string;
  sb_Address : string;
  sb_Status : string;
}.

Record StatusPool := { sp_Name : string; sp_Backends : list StatusBackend }.

Record StatusVirtualIPAddress := { svip_Address : string }.

Record StatusFloatingIPAddress := { sfip_CIDR : string }.

Record LoadBalancerStatus := {
  status_CloudscaleStatus : string;
  status_VirtualIPAddresses : list StatusVirtualIPAddress;
  status_FloatingIPAddresses : list StatusFloatingIPAddress;
  status_Pools : list StatusPool;
}.

Record LoadBalancer := {
  lb_Meta : ObjectMeta;
  lb_Spec : LoadBalancerSpec;
  lb_Status : LoadBalancerStatus;
}.

(** ** Decidable equality, the [==] of comparable structs *)

#[global] Instance NamespacedName_eq : EqDecision NamespacedName.
Proof. solve_decision. Defined.
#[global] Instance VirtualIPAddress_eq : EqDecision VirtualIPAddress.
Proof. solve_decision. Defined.
#[global] Instance FloatingIPAddress_eq : EqDecision FloatingIPAddress.
Proof. solve_decision. Defined.
#[global] Instance StatusBackend_eq : EqDecision StatusBackend.
Proof. solve_decision. Defined.
#[global] Instance StatusVirtualIPAddress_eq : EqDecision StatusVirtualIPAddress.
Proof. solve_decision. Defined.
#[global] Instance StatusFloatingIPAddress_eq : EqDecision StatusFloatingIPAddress.
Proof. solve_decision. Defined.

(** ** Getters *)

Definition PoolFrontend_GetProtocol (l : PoolFrontend) : string :=
  if str_empty (fe_Protocol l) then "TCP" else fe_Protocol l.

Definition PoolFrontend_GetDataTimeout (l : PoolFrontend) : Duration :=
  if fe_DataTimeout l =? 0 then 50 * Second else fe_DataTimeout l.

Definition PoolBackend_GetProtocol (p : PoolBackend) : string :=
  if str_empty (be_Protocol p) then "TCP" else be_Protocol p.

Definition PoolBackend_GetDataTimeout (l : PoolBackend) : Duration :=
  if be_DataTimeout l =? 0 then 50 * Second else be_DataTimeout l.

Definition PoolBackend_GetConnectTimeout (l : PoolBackend) : Duration :=
  if be_ConnectTimeout l =? 0 then 5 * Second else be_ConnectTimeout l.

Definition Pool_GetAlgorithm (p : Pool) : string :=
  if str_empty (pool_Algorithm p) then "RoundRobin" else pool_Algorithm p.

Definition HealthMonitor_GetType (h : HealthMonitor) : string :=
  if str_empty (hm_Type h) then "TCP" else hm_Type h.

Definition HealthMonitor_GetDelay (h : HealthMonitor) : Duration :=
  if hm_Delay h =? 0 then 2 * Second else hm_Delay h.

Definition HealthMonitor_GetTimeout (h : HealthMonitor) : Duration :=
  if hm_Timeout h =? 0 then 1 * Second else hm_Timeout h.

Definition HealthMonitor_GetUpThreshold (h : HealthMonitor) : Z :=
  if hm_SuccessThreshold h =? 0 then 2 else hm_SuccessThreshold h.

Definition HealthMonitor_GetDownThreshold (h : HealthMonitor) : Z :=
  if hm_FailureThreshold h =? 0 then 3 else hm_FailureThreshold h.

Definition HTTPHealthMonitor_GetMethod (h : HTTPHealthMonitor) : string :=
  if str_empty (http_Method h) then "GET" else http_Method h.

Definition HTTPHealthMonitor_GetPath (h : HTTPHealthMonitor) : string :=
  if str_empty (http_Path h) then "/" else http_Path h.

Definition HTTPHealthMonitor_GetVersion (h : HTTPHealthMonitor) : string :=
  if str_empty (http_Version h) then "1.1" else http_Version h.

Definition HTTPHealthMonitor_GetStatusCodes (h : HTTPHealthMonitor) : list string :=
  match http_StatusCodes h with [] => ["200"] | _ => http_StatusCodes h end.

(** ** Field updates the controller performs on its copy of the object *)

Definition with_Finalizers (lb : LoadBalancer) (fs : list string) : LoadBalancer :=
  let m := lb_Meta lb in
  {| lb_Meta := {| meta_Namespace := meta_Namespace m; meta_Name := meta_Name m;
                   meta_UID := meta_UID m; meta_Finalizers := fs;
                   meta_DeletionTimestamp := meta_DeletionTimestamp m |};
     lb_Spec := lb_Spec lb; lb_Status := lb_Status lb |}.

Definition with_UUID_Zone (lb : LoadBalancer) (uuid zone : string) : LoadBalancer :=
  let s := lb_Spec lb in
  {| lb_Meta := lb_Meta lb;
     lb_Spec := {| spec_UUID := uuid; spec_Zone := zone;
                   spec_VirtualIPAddresses := spec_VirtualIPAddresses s;
                   spec_FloatingIPAddresses := spec_FloatingIPAddresses s;
                   spec_Pools := spec_Pools s |};
     lb_Status := lb_Status lb |}.

Definition with_Zone (lb : LoadBalancer) (zone : string) : LoadBalancer :=
  with_UUID_Zone lb (spec_UUID (lb_Spec lb)) zone.

Definition with_Status (lb : LoadBalancer) (st : LoadBalancerStatus) : LoadBalancer :=
  {| lb_Meta := lb_Meta lb; lb_Spec := lb_Spec lb; lb_Status := st |}.

Definition with_CloudscaleStatus (lb : LoadBalancer) (s : string) : LoadBalancer :=
  let st := lb_Status lb in
  with_Status lb {| status_CloudscaleStatus := s;
                    status_VirtualIPAddresses := status_VirtualIPAddresses st;
                    status_FloatingIPAddresses := status_FloatingIPAddresses st;
                    status_Pools := status_Pools st |}.

Definition with_StatusPools (lb : LoadBalancer) (ps : list StatusPool) : LoadBalancer :=
  let st := lb_Status lb in
  with_Status lb {| status_CloudscaleStatus := status_CloudscaleStatus st;
                    status_VirtualIPAddresses := status_VirtualIPAddresses st;
                    status_FloatingIPAddresses := status_FloatingIPAddresses st;
                    status_Pools := ps |}.

Definition with_StatusVIPs (lb : LoadBalancer) (l : list StatusVirtualIPAddress) : LoadBalancer :=
  let st := lb_Status lb in
  with_Status lb {| status_CloudscaleStatus := status_CloudscaleStatus st;
                    status_VirtualIPAddresses := l;
                    status_FloatingIPAddresses := status_FloatingIPAddresses st;
                    status_Pools := status_Pools st |}.

Definition with_StatusFloatingIPs (lb : LoadBalancer) (l : list StatusFloatingIPAddress) : LoadBalancer :=
  let st := lb_Status lb in
  with_Status lb {| status_CloudscaleStatus := status_CloudscaleStatus st;
                    status_VirtualIPAddresses := status_VirtualIPAddresses st;
                    status_FloatingIPAddresses := l;
                    status_Pools := status_Pools st |}.

(** Accessors through the embedded metadata and spec, as Go writes them. *)
Definition Namespace (lb : LoadBalancer) : string := meta_Namespace (lb_Meta lb).
Definition Name (lb : LoadBalancer) : string := meta_Name (lb_Meta lb).
Definition UID (lb : LoadBalancer) : string := meta_UID (lb_Meta lb).
Definition Finalizers (lb : LoadBalancer) : list string := meta_Finalizers (lb_Meta lb).
Definition UUID (lb : LoadBalancer) : string := spec_UUID (lb_Spec lb).
Definition Zone (lb : LoadBalancer) : string := spec_Zone (lb_Spec lb).

(** [lb.DeletionTimestamp.IsZero()]. *)
Definition DeletionTimestamp_IsZero (lb : LoadBalancer) : bool :=
  is_nil (meta_DeletionTimestamp (lb_Meta lb)).

End v1beta1.
