(* ===== verification/Memory.v ===== *)
(** * Memory: slices in memory, and what it means to copy deeply

    A heap maps locations to backing arrays; a slice is a window of one, so slices
    may share an array, and a pointer addresses an element.  A value that holds
    slices is described by its footprint (the locations reachable from it), by the
    tree it stands for, and by its copy function ([Copyable]).  [CopyLaws] is the
    contract of a deep copy: the copy stands for the same tree, everything reachable
    from it is newly allocated, and nothing that was there before is changed.  The
    laws compose over the fields of a struct, over slices whose elements are copied
    in one go or one by one, and over pointers; [copy_isolated] is what a caller
    gains: writes through the original and through the copy do not meet. *)

From Stdlib Require Import Lia.
From stdpp Require Import base list gmap sets fin_maps fin_map_dom.
From S2P Require Import Prelude.
Open Scope list_scope.

(** A slice: nil, or a window of a backing array.  A pointer: nil, or an element. *)
Inductive slice (T : Type) := Nil | Slice (array : positive) (off len : nat).
Inductive pointer (T : Type) := Null | Addr (array : positive) (i : nat).
Arguments Nil {T}.
Arguments Slice {T}.
Arguments Null {T}.
Arguments Addr {T}.

(** The zero value of a type. *)
Class Zero (T : Type) := zero : T.
#[export] Instance slice_zero {T} : Zero (slice T) := Nil.

Section Memory.
Context {C : Type}.
Abbreviation heap := (gmap positive C).

(** Arrays of elements of [T] as contents of a location. *)
Class Backing (T : Type) := {
  mk : list T -> C;
  get : C -> option (list T);
  get_mk l : get (mk l) = Some l;
}.

Class Copyable (T V : Type) := {
  foot : heap -> T -> gset positive;
  val : heap -> T -> option V;
  copyInto : heap -> T -> heap * T;
}.

Class CopyLaws (T V : Type) `{!Copyable T V} : Prop := {
  (** A value depends on its footprint only. *)
  val_local h h' x : (forall l, l ∈ foot h x -> h' !! l = h !! l) -> val h' x = val h x /\ foot h' x = foot h x;
  foot_dom h x v : val h x = Some v -> foot h x ⊆ dom h;
  (** The contract of a deep copy. *)
  copy_old h x v : val h x = Some v -> h ⊆ (copyInto h x).1;
  copy_val h x v : val h x = Some v -> val (copyInto h x).1 (copyInto h x).2 = Some v;
  copy_fresh h x v : val h x = Some v -> foot (copyInto h x).1 (copyInto h x).2 ## dom h;
}.

(** ** Types without slices *)

Definition flat (T : Type) : Copyable T T := {| foot _ _ := ∅; val _ x := Some x; copyInto h x := (h, x) |}.

Lemma flat_laws T : CopyLaws T T (Copyable0 := flat T).
Proof. split; cbn; intros; [done|set_solver|done|done|set_solver]. Qed.

(** ** Pairs: the fields of a struct, in the order they are copied *)

#[export] Instance pair_copyable {A VA B VB} `{!Copyable A VA} `{!Copyable B VB} : Copyable (A * B) (VA * VB) := {|
  foot h x := foot h x.1 ∪ foot h x.2;
  val h x := a ← val h x.1; b ← val h x.2; Some (a, b);
  copyInto h x := let '(h1, a) := copyInto h x.1 in let '(h2, b) := copyInto h1 x.2 in (h2, (a, b));
|}.

(** What is reachable is not changed by growing the heap. *)
Lemma val_grow {T V} `{CopyLaws T V} h h' x v :
  val h x = Some v -> h ⊆ h' -> val h' x = Some v /\ foot h' x = foot h x.
Proof.
  intros Hv Hs. rewrite <- Hv. apply val_local. intros l Hl. apply (foot_dom _ _ _ Hv) in Hl.
  apply elem_of_dom in Hl as [c Hc]. rewrite Hc. by eapply lookup_weaken.
Qed.

#[export] Instance pair_laws {A VA B VB} `{CopyLaws A VA} `{CopyLaws B VB} : CopyLaws (A * B) (VA * VB).
Proof.
  split; cbn.
  - intros h h' [a b] Hl. cbn in *. destruct (val_local h h' a) as [-> ->]; [set_solver|].
    destruct (val_local h h' b) as [-> ->]; [set_solver|]. done.
  - intros h [a b] v (va & Ha & (vb & Hb & _)%bind_Some)%bind_Some. apply foot_dom in Ha, Hb. set_solver.
  - intros h [a b] v (va & Ha & (vb & Hb & _)%bind_Some)%bind_Some. cbn in *. pose proof (copy_old _ _ _ Ha) as H1.
    destruct (copyInto h a) as [h1 a']. cbn in *. destruct (val_grow _ h1 _ _ Hb H1) as [Hb1 _].
    pose proof (copy_old _ _ _ Hb1) as H2. destruct (copyInto h1 b). cbn in *. by etransitivity.
  - intros h [a b] v (va & Ha & (vb & Hb & [= <-])%bind_Some)%bind_Some. cbn in *. pose proof (copy_old _ _ _ Ha) as H1.
    pose proof (copy_val _ _ _ Ha) as Va. destruct (copyInto h a) as [h1 a']. cbn in *. destruct (val_grow _ h1 _ _ Hb H1) as [Hb1 _].
    pose proof (copy_old _ _ _ Hb1) as H2. pose proof (copy_val _ _ _ Hb1) as Vb. destruct (copyInto h1 b) as [h2 b']. cbn in *.
    destruct (val_grow _ h2 _ _ Va H2) as [-> _]. cbn. by rewrite Vb.
  - intros h [a b] v (va & Ha & (vb & Hb & _)%bind_Some)%bind_Some. cbn in *. pose proof (copy_old _ _ _ Ha) as H1.
    pose proof (copy_val _ _ _ Ha) as Va. pose proof (copy_fresh _ _ _ Ha) as Fa. destruct (copyInto h a) as [h1 a']. cbn in *.
    destruct (val_grow _ h1 _ _ Hb H1) as [Hb1 _]. pose proof (copy_old _ _ _ Hb1) as H2. pose proof (copy_fresh _ _ _ Hb1) as Fb.
    destruct (copyInto h1 b) as [h2 b']. cbn in *. destruct (val_grow _ h2 _ _ Va H2) as [_ ->].
    apply subseteq_dom in H1. set_solver.
Qed.

(** ** Structs: described by the tuple of their fields *)

Section Struct.
Context {T V A VA : Type} `{CopyLaws A VA} (fields : T -> A) (build : VA -> V) (deepCopyInto : heap -> T -> heap * T).

Definition struct : Copyable T V := {|
  foot h x := foot h (fields x);
  val h x := build <$> val h (fields x);
  copyInto := deepCopyInto;
|}.

(** The copy function of a struct copies its fields. *)
Definition copies_fields : Prop := forall h x,
  (deepCopyInto h x).1 = (copyInto h (fields x)).1 /\ fields (deepCopyInto h x).2 = (copyInto h (fields x)).2.

Lemma struct_laws : copies_fields -> CopyLaws T V (Copyable0 := struct).
Proof.
  intros Hc. split; cbn.
  - intros h h' x Hl. by destruct (val_local h h' (fields x) Hl) as [-> ->].
  - intros h x v Hv. apply fmap_Some in Hv as (va & Hv & _). by eapply foot_dom.
  - intros h x v Hv. apply fmap_Some in Hv as (va & Hv & _). destruct (Hc h x) as [-> _]. by eapply copy_old.
  - intros h x v Hv. apply fmap_Some in Hv as (va & Hv & ->). destruct (Hc h x) as [-> ->]. by rewrite (copy_val _ _ _ Hv).
  - intros h x v Hv. apply fmap_Some in Hv as (va & Hv & _). destruct (Hc h x) as [-> ->]. by eapply copy_fresh.
Qed.
End Struct.

(** ** Slices *)

Section Slice.
Context {T V : Type} `{!Backing T} `{!Copyable T V}.

(** The array at a location, and the elements a slice shows of it. *)
Definition array (h : heap) (l : positive) : option (list T) := h !! l ≫= get.

Definition load (h : heap) (s : slice T) : option (list T) :=
  match s with
  | Nil => Some []
  | Slice l off len => xs ← array h l; if decide (off + len <= length xs)%nat then Some (take len (drop off xs)) else None
  end.

Definition slice_foot (h : heap) (s : slice T) : gset positive :=
  match s with Nil => ∅ | Slice l _ _ => {[l]} ∪ ⋃ (foot h <$> default [] (load h s)) end.

(** nil and an empty slice are told apart. *)
Definition slice_val (h : heap) (s : slice T) : option (option (list V)) :=
  match s with
  | Nil => Some None
  | Slice _ _ _ => xs ← load h s; vs ← mapM (val h) xs; Some (Some vs)
  end.

(** [*out = make([]T, len( *in)); copy( *out, *in)], under [if in != nil]. *)
Definition copySlice (h : heap) (s : slice T) : heap * slice T :=
  match s with
  | Nil => (h, Nil)
  | Slice _ _ len => match load h s with
                     | Some xs => let l' := fresh (dom h) in (<[l' := mk xs]> h, Slice l' 0 len)
                     | None => (h, s)
                     end
  end.

(** [( *out)[i] = y]. *)
Definition setElem (h : heap) (l : positive) (i : nat) (y : T) : heap :=
  match array h l with Some ys => <[l := mk (<[i := y]> ys)]> h | None => h end.

(** [for i := range *in { ( *in)[i].DeepCopyInto(&( *out)[i]) }], from index [i] on. *)
Fixpoint copyElems (h : heap) (l : positive) (i : nat) (xs : list T) : heap :=
  match xs with
  | [] => h
  | x :: xs => let '(h1, y) := copyInto h x in copyElems (setElem h1 l i y) l (S i) xs
  end.

(** [*out = make([]T, len( *in)); for ...], under [if in != nil]. *)
Definition copySliceInto `{!Zero T} (h : heap) (s : slice T) : heap * slice T :=
  match s with
  | Nil => (h, Nil)
  | Slice _ _ len => match load h s with
                     | Some xs => let l' := fresh (dom h) in
                                  (copyElems (<[l' := mk (replicate len zero)]> h) l' 0 xs, Slice l' 0 len)
                     | None => (h, s)
                     end
  end.

Definition slice_copyable (copy : heap -> slice T -> heap * slice T) : Copyable (slice T) (option (list V)) :=
  {| foot := slice_foot; val := slice_val; copyInto := copy |}.

Lemma load_length h l off len xs : load h (Slice l off len) = Some xs -> length xs = len.
Proof.
  cbn. intros (ys & _ & Hd)%bind_Some. case_decide; [|done]. injection Hd as <-. rewrite length_take, length_drop. lia.
Qed.

Lemma load_fresh h l xs : h !! l = Some (mk xs) -> load h (Slice l 0 (length xs)) = Some xs.
Proof.
  intros El. cbn. unfold array. rewrite El. cbn. rewrite get_mk. cbn. rewrite decide_True by lia.
  by rewrite drop_0, firstn_all.
Qed.

Lemma load_dom h l off len xs : load h (Slice l off len) = Some xs -> l ∈ dom h.
Proof. cbn. unfold array. intros (ys & (c & Hc & _)%bind_Some & _)%bind_Some. apply elem_of_dom. by eexists. Qed.

Context `{!CopyLaws T V}.

Lemma slice_val_local h h' s :
  (forall l, l ∈ slice_foot h s -> h' !! l = h !! l) -> slice_val h' s = slice_val h s /\ slice_foot h' s = slice_foot h s.
Proof.
  destruct s as [|l off len]; [done|]. unfold slice_foot, slice_val. intros Hl.
  assert (El : load h' (Slice l off len) = load h (Slice l off len)) by (cbn; unfold array; rewrite Hl; set_solver).
  rewrite El. destruct (load h (Slice l off len)) as [xs|]; cbn in *; [|done].
  assert (Hx : forall x, x ∈ xs -> val h' x = val h x /\ foot h' x = foot h x).
  { intros x Hx. apply val_local. intros l0 Hl0. apply Hl. apply elem_of_union. right.
    apply elem_of_union_list. exists (foot h x). split; [by apply list_elem_of_fmap_2|done]. }
  clear -Hx. split; [f_equal|do 2 f_equal].
  all: induction xs as [|x xs IH]; cbn; [done|]; destruct (Hx x ltac:(by left)) as [Ev Ef]; rewrite ?Ev, ?Ef.
  all: by rewrite IH by (intros; apply Hx; by right).
Qed.

Lemma slice_foot_dom h s v : slice_val h s = Some v -> slice_foot h s ⊆ dom h.
Proof.
  destruct s as [|l off len]; [set_solver|]. unfold slice_foot, slice_val.
  intros (xs & El & (vs & Hvs & _)%bind_Some)%bind_Some. rewrite El. cbn.
  intros l0 [->%elem_of_singleton|Hl0]%elem_of_union; [by eapply load_dom|].
  apply elem_of_union_list in Hl0 as (f & (x & -> & Hx)%list_elem_of_fmap & Hl0).
  apply mapM_Some in Hvs. apply list_elem_of_lookup in Hx as [i Hi].
  destruct (Forall2_lookup_l _ _ _ _ _ Hvs Hi) as (w & _ & Hw). by apply (foot_dom _ _ _ Hw).
Qed.

Lemma foot_union_disjoint h (ys : list T) (D : gset positive) :
  Forall (fun y => foot h y ## D) ys -> ⋃ (foot h <$> ys) ## D.
Proof. induction 1; cbn; set_solver. Qed.

(** What has been copied so far: [y] stands for [v] and reaches neither the old heap nor the new array. *)
Definition copied (hb : heap) (l' : positive) (h : heap) (y : T) (v : V) : Prop :=
  val h y = Some v /\ foot h y ## {[l']} ∪ dom hb.

Lemma copied_step hb l' h h1 i x v y ys zs ws :
  hb ⊆ h -> hb !! l' = None -> h !! l' = Some (mk (ys ++ zs)) -> i = length ys -> val hb x = Some v ->
  copyInto h x = (h1, y) -> Forall2 (copied hb l' h) ys ws -> zs <> [] ->
  hb ⊆ setElem h1 l' i y /\ setElem h1 l' i y !! l' = Some (mk ((ys ++ [y]) ++ tail zs)) /\
  Forall2 (copied hb l' (setElem h1 l' i y)) (ys ++ [y]) (ws ++ [v]).
Proof.
  intros Hs Hn Hl -> Hv Hc Hys Hz. destruct (val_grow hb h x v Hv Hs) as [Hvh _].
  pose proof (copy_old _ _ _ Hvh) as H1. pose proof (copy_val _ _ _ Hvh) as Hy. pose proof (copy_fresh _ _ _ Hvh) as Hf.
  rewrite Hc in H1, Hy, Hf. cbn in *. destruct zs as [|z zs]; [done|]. cbn.
  unfold setElem, array. rewrite (lookup_weaken _ _ _ _ Hl H1). cbn. rewrite get_mk.
  replace (<[length ys:=y]> (ys ++ z :: zs)) with ((ys ++ [y]) ++ zs)
    by (rewrite <- app_assoc; rewrite insert_app_r_alt by lia; by rewrite Nat.sub_diag).
  assert (Ho : forall u c, copied hb l' h1 u c -> copied hb l' (<[l':=mk ((ys ++ [y]) ++ zs)]> h1) u c).
  { intros u c [Hu Hd]. unfold copied. destruct (val_local h1 (<[l':=mk ((ys ++ [y]) ++ zs)]> h1) u) as [-> ->]; [|done].
    intros l0 Hl0. apply lookup_insert_ne. set_solver. }
  assert (Hl' : l' ∈ dom h) by (apply elem_of_dom; by eexists). pose proof (subseteq_dom _ _ Hs) as Hd.
  split; [|split].
  - apply insert_subseteq_r; [done|by etransitivity].
  - apply lookup_insert_eq.
  - apply Forall2_app; [|constructor; [|done]].
    + eapply Forall2_impl; [done|]. intros u c [Hu Hf']. apply Ho. destruct (val_grow h h1 u c Hu H1) as [Hu1 Hf1].
      split; [done|by rewrite Hf1].
    + apply Ho. split; [done|]. set_solver.
Qed.

Lemma copyElems_copied hb l' xs : forall h ys zs vs ws,
  hb ⊆ h -> hb !! l' = None -> h !! l' = Some (mk (ys ++ zs)) -> length zs = length xs ->
  mapM (val hb) xs = Some vs -> Forall2 (copied hb l' h) ys ws ->
  hb ⊆ copyElems h l' (length ys) xs /\
  exists us, length us = length xs /\ copyElems h l' (length ys) xs !! l' = Some (mk (ys ++ us)) /\
    Forall2 (copied hb l' (copyElems h l' (length ys) xs)) (ys ++ us) (ws ++ vs).
Proof.
  induction xs as [|x xs IH]; intros h ys zs vs ws Hs Hn Hl Hz Hm Hys; cbn.
  - injection Hm as <-. split; [done|]. exists []. destruct zs; [|done]. by rewrite !app_nil_r in *.
  - cbn in Hm. apply bind_Some in Hm as (v & Hv & (vs' & Hm & [= <-])%bind_Some).
    destruct (copyInto h x) as [h1 y] eqn:Hc.
    destruct (copied_step hb l' h h1 (length ys) x v y ys zs ws) as (Hs1 & Hl1 & Hys1); try done; [by destruct zs|].
    replace (S (length ys)) with (length (ys ++ [y])) by (rewrite length_app; cbn; lia).
    assert (Hz1 : length (tail zs) = length xs) by (destruct zs; cbn in *; congruence).
    destruct (IH _ _ _ vs' _ Hs1 Hn Hl1 Hz1 Hm Hys1) as (Hs2 & us & Hlen & Hl2 & Hf).
    split; [done|]. exists (y :: us). rewrite <- !app_assoc in *. split; [cbn; congruence|done].
Qed.

(** The contract of the loop. *)
Lemma copySliceInto_spec `{!Zero T} h s v : slice_val h s = Some v ->
  h ⊆ (copySliceInto h s).1 /\ slice_val (copySliceInto h s).1 (copySliceInto h s).2 = Some v /\
  slice_foot (copySliceInto h s).1 (copySliceInto h s).2 ## dom h.
Proof.
  destruct s as [|l off len]; intros Hv; [cbn in *; set_solver|]. unfold slice_val in Hv.
  apply bind_Some in Hv as (xs & El & (vs & Hm & [= <-])%bind_Some). unfold copySliceInto. rewrite El.
  pose proof (load_length _ _ _ _ _ El) as <-. set (l' := fresh (dom h)).
  assert (Hn : h !! l' = None) by apply not_elem_of_dom, is_fresh.
  destruct (copyElems_copied h l' xs (<[l':=mk (replicate (length xs) zero)]> h) [] (replicate (length xs) zero) vs [])
    as (Hs & us & Hlen & Hl & Hf); try done.
  { by apply insert_subseteq. } { apply lookup_insert_eq. } { apply length_replicate. }
  cbn [app length] in Hs, Hl, Hf. set (h' := copyElems _ _ _ _) in *. pose proof (load_fresh _ _ _ Hl) as Eu.
  rewrite Hlen in Eu. split; [done|]. unfold slice_val, slice_foot, fst, snd. rewrite Eu. split.
  - assert (Hm' : mapM (val h') us = Some vs); [|cbn; by rewrite Hm'].
    apply mapM_Some. eapply Forall2_impl; [exact Hf|]. by intros u c [? _].
  - apply disjoint_union_l. split; [by apply disjoint_singleton_l, not_elem_of_dom|]. apply foot_union_disjoint.
    apply Forall_lookup. intros i u Hu. destruct (Forall2_lookup_l _ _ _ _ _ Hf Hu) as (c & _ & _ & Hd). set_solver.
Qed.

Lemma slice_loop_laws `{!Zero T} : CopyLaws (slice T) (option (list V)) (Copyable0 := slice_copyable copySliceInto).
Proof.
  split; cbn; [apply slice_val_local|apply slice_foot_dom|..]; intros h s v Hv; by apply copySliceInto_spec in Hv as (? & ? & ?).
Qed.

(** ** Pointers *)

Definition as_slice (p : pointer T) : slice T := match p with Null => Nil | Addr l i => Slice l i 1 end.

Definition ptr_foot (h : heap) (p : pointer T) : gset positive := slice_foot h (as_slice p).

(** [None] is nil; a pointer that addresses nothing stands for nothing. *)
Definition ptr_val (h : heap) (p : pointer T) : option (option V) :=
  match p with Null => Some None | Addr l i => xs ← array h l; x ← xs !! i; Some <$> val h x end.

(** The generated [DeepCopy]: nil for nil, else [out := new(T); in.DeepCopyInto(out); return out]. *)
Definition DeepCopy `{!Zero T} (deepCopyInto : heap -> T -> heap * T) (h : heap) (p : pointer T) : heap * pointer T :=
  match p with
  | Null => (h, Null)
  | Addr l i => match array h l ≫= lookup i with
                | Some x => let l' := fresh (dom h) in
                            let '(h1, y) := deepCopyInto (<[l' := mk [zero]]> h) x in (setElem h1 l' 0 y, Addr l' 0)
                | None => (h, p)
                end
  end.

Lemma load_one h l i : load h (Slice l i 1) = xs ← array h l; x ← xs !! i; Some [x].
Proof.
  cbn. destruct (array h l) as [xs|]; cbn; [|done]. destruct (xs !! i) as [x|] eqn:Ei; cbn.
  - rewrite decide_True by (apply lookup_lt_Some in Ei; lia). by rewrite (drop_S _ _ _ Ei).
  - by rewrite decide_False by (apply lookup_ge_None in Ei; lia).
Qed.

Lemma ptr_val_slice h p v : ptr_val h p = Some v <-> slice_val h (as_slice p) = Some ((fun x => [x]) <$> v).
Proof.
  destruct p as [|l i]; unfold ptr_val, slice_val, as_slice.
  - destruct v; cbn; split; congruence.
  - rewrite load_one. destruct (array h l) as [xs|]; cbn; [|split; discriminate].
    destruct (xs !! i) as [x|]; cbn; [|split; discriminate]. destruct (val h x) as [w|]; cbn; [|split; discriminate].
    destruct v; cbn; split; congruence.
Qed.

Lemma DeepCopy_slice `{!Zero T} h p :
  (DeepCopy copyInto h p).1 = (copySliceInto h (as_slice p)).1 /\
  as_slice (DeepCopy copyInto h p).2 = (copySliceInto h (as_slice p)).2.
Proof.
  destruct p as [|l i]; [done|]. change (as_slice (Addr l i)) with (Slice l i 1 : slice T).
  unfold DeepCopy, copySliceInto. rewrite load_one.
  destruct (array h l) as [xs|]; cbn; [|done]. destruct (xs !! i) as [x|]; cbn; [|done]. by destruct (copyInto _ x).
Qed.

(** The contract of [DeepCopy], nil included. *)
Lemma DeepCopy_spec `{!Zero T} h p v : ptr_val h p = Some v ->
  let '(h', q) := DeepCopy copyInto h p in h ⊆ h' /\ ptr_val h' q = Some v /\ ptr_foot h' q ## dom h.
Proof.
  intros Hv%ptr_val_slice. destruct (DeepCopy_slice h p) as [E1 E2].
  apply copySliceInto_spec in Hv as (Ho & Hc & Hf). rewrite <- E1 in Ho, Hc, Hf. rewrite <- E2 in Hc, Hf.
  destruct (DeepCopy copyInto h p) as [h' q]. split; [done|split; [by apply ptr_val_slice|done]].
Qed.

(** nil is returned for nil only. *)
Lemma DeepCopy_null `{!Zero T} (into : heap -> T -> heap * T) h p : (DeepCopy into h p).2 = Null -> p = Null.
Proof. destruct p as [|l i]; [done|]. cbn. destruct (array h l ≫= lookup i) as [x|]; [by destruct (into _ x)|done]. Qed.

(** The original reaches what it reached before. *)
Lemma ptr_foot_old h h' p v : ptr_val h p = Some v -> h ⊆ h' -> ptr_foot h' p ⊆ dom h.
Proof.
  intros Hv%ptr_val_slice Hs. pose proof (slice_foot_dom _ _ _ Hv) as Hd. unfold ptr_foot.
  destruct (slice_val_local h h' (as_slice p)) as [_ ->]; [|done]. intros l Hin.
  apply Hd, elem_of_dom in Hin as [c Hc]. rewrite Hc. by eapply lookup_weaken.
Qed.

(** Writes to what was allocated before do not show in the copy; writes to the rest do not show in the original. *)
Lemma ptr_isolated `{!Zero T} h p v h' q h'' : ptr_val h p = Some v -> DeepCopy copyInto h p = (h', q) ->
  ((forall l, l ∈ dom h -> h'' !! l = h' !! l) -> ptr_val h'' p = Some v) /\
  ((forall l, l ∉ dom h -> h'' !! l = h' !! l) -> ptr_val h'' q = Some v).
Proof.
  intros Hv E. pose proof (DeepCopy_spec h p v Hv) as Hs. rewrite E in Hs. destruct Hs as (Ho & Hq & Hf).
  pose proof (proj1 (ptr_val_slice _ _ _) Hv) as Hv'. pose proof (slice_foot_dom _ _ _ Hv') as Hd. split; intros Hl.
  - apply ptr_val_slice. rewrite <- Hv'. apply slice_val_local. intros l Hin. rewrite Hl by set_solver.
    apply Hd, elem_of_dom in Hin as [c Hc]. rewrite Hc. by eapply lookup_weaken.
  - apply ptr_val_slice. apply ptr_val_slice in Hq. rewrite <- Hq. apply slice_val_local. intros l Hin. apply Hl.
    unfold ptr_foot in Hf. set_solver.
Qed.
End Slice.

(** ** Slices of flat elements *)

Lemma slice_flat_laws {T} `{!Backing T} :
  CopyLaws (slice T) (option (list T)) (Copyable0 := slice_copyable (Copyable0 := flat T) copySlice).
Proof.
  pose proof (flat_laws T) as L. assert (Hm : forall xs : list T, mapM Some xs = Some xs)
    by (intros; apply mapM_Some, Forall_Forall2_diag, Forall_forall; done).
  assert (Hu : forall xs : list T, ⋃ ((fun _ => ∅ : gset positive) <$> xs) = ∅)
    by (induction xs as [|x xs IH]; cbn; [done|by rewrite IH, union_empty_l_L]).
  assert (Hc : forall h s v, slice_val (Copyable0 := flat T) h s = Some v ->
    h ⊆ (copySlice h s).1 /\ slice_val (Copyable0 := flat T) (copySlice h s).1 (copySlice h s).2 = Some v /\
    slice_foot (Copyable0 := flat T) (copySlice h s).1 (copySlice h s).2 ## dom h).
  { intros h [|l off len] v Hv; [cbn in *; set_solver|]. unfold slice_val in Hv.
    apply bind_Some in Hv as (xs & El & (vs & Hx & [= <-])%bind_Some). unfold copySlice. rewrite El.
    pose proof (load_length _ _ _ _ _ El) as <-. set (l' := fresh (dom h)).
    assert (Hn : h !! l' = None) by apply not_elem_of_dom, is_fresh.
    pose proof (load_fresh (<[l':=mk xs]> h) l' xs (lookup_insert_eq _ _ _)) as Eu.
    unfold slice_val, slice_foot, fst, snd. rewrite Eu. split; [by apply insert_subseteq|]. cbn in *. rewrite Hm in *.
    injection Hx as <-. rewrite Hu. split; [done|]. apply not_elem_of_dom in Hn. set_solver. }
  split; cbn; [apply slice_val_local|apply slice_foot_dom|..]; intros h s v Hv; by apply Hc in Hv as (? & ? & ?).
Qed.
End Memory.
Arguments Backing : clear implicits.
Arguments Copyable : clear implicits.
Arguments CopyLaws C T V {_}.
