(* ===== verification/DeepCopy.v ===== *)
(** * DeepCopy: the generated copies of the API types (api/v1beta1/zz_generated.deepcopy.go)

    The structs of the resource as they lie in memory: a slice is a window of a
    backing array, two structs may share one, and [*out = *in] copies the window and
    not the array.  Each struct is a Record over the representation [S] of its
    slices, with [S := slice] in memory and [S := tree] for the tree it stands for, in
    which nil and an empty slice are told apart.

    One definition per generated function.  [X_DeepCopyInto h x] is
    [in.DeepCopyInto(out)] with [*in = x]: the heap after it and [*out].  The
    statement [*out = *in] that opens each of them is the reading of all fields from
    [x]; a field that is copied again is overwritten.  The metadata of Kubernetes
    ([ObjectMeta], [ListMeta], [LabelSelector]) and its copies are parameters.

    The theorems: a copy stands for the same tree, reaches newly allocated memory
    only and leaves the heap as it was; so a write through the copy is never seen
    through the original, and vice versa. *)

From Stdlib Require Import ZArith Lia.
From stdpp Require Import base list strings gmap sets fin_maps fin_map_dom.
From S2P Require Import Prelude GoLib ApiTypes Memory.
Open Scope string_scope.
Open Scope Z_scope.
Open Scope list_scope.

Module deepcopy.

(** ** The structs, over the representation of slices *)

(** nil, or the elements. *)
Definition tree (T : Type) : Type := option (list T).

Record TypeMeta := { tm_Kind : string; tm_APIVersion : string }.

Abbreviation AllowedCIDR := v1beta1.AllowedCIDR.
Abbreviation AllowedSubnet := v1beta1.AllowedSubnet.
Abbreviation FloatingIPAddress := v1beta1.FloatingIPAddress.
Abbreviation VirtualIPAddress := v1beta1.VirtualIPAddress.
Abbreviation StatusBackend := v1beta1.StatusBackend.
Abbreviation StatusFloatingIPAddress := v1beta1.StatusFloatingIPAddress.
Abbreviation StatusVirtualIPAddress := v1beta1.StatusVirtualIPAddress.

Set Implicit Arguments.
Record HTTPHealthMonitor (S : Type -> Type) := {
  http_Method : string;
  http_Path : string;
  http_Host : string;
  http_Version : string;
  http_StatusCodes : S string;
}.

Record HealthMonitor (S : Type -> Type) := {
  hm_Port : Z;
  hm_Type : string;
  hm_Delay : Duration;
  hm_Timeout : Duration;
  hm_SuccessThreshold : Z;
  hm_FailureThreshold : Z;
  hm_HTTP : HTTPHealthMonitor S;
}.

Record PoolFrontend (S : Type -> Type) := {
  fe_Protocol : string;
  fe_Port : Z;
  fe_AllowedCIDRs : S AllowedCIDR;
  fe_DataTimeout : Duration;
}.

Record PoolBackend (S : Type -> Type) (LS : Type) := {
  be_Port : Z;
  be_Protocol : string;
  be_HealthMonitor : HealthMonitor S;
  be_NodeSelector : LS;
  be_DataTimeout : Duration;
  be_ConnectTimeout : Duration;
  be_AllowedSubnets : S AllowedSubnet;
}.

Record Pool (S : Type -> Type) (LS : Type) := {
  pool_Name : string;
  pool_Algorithm : string;
  pool_Frontend : PoolFrontend S;
  pool_Backend : PoolBackend S LS;
}.

Record LoadBalancerSpec (S : Type -> Type) (LS : Type) := {
  spec_UUID : string;
  spec_Zone : string;
  spec_VirtualIPAddresses : S VirtualIPAddress;
  spec_FloatingIPAddresses : S FloatingIPAddress;
  spec_Pools : S (Pool S LS);
}.

Record StatusPool (S : Type -> Type) := {
  sp_Name : string;
  sp_Backends : S StatusBackend;
}.

Record LoadBalancerStatus (S : Type -> Type) := {
  status_CloudscaleStatus : string;
  status_VirtualIPAddresses : S StatusVirtualIPAddress;
  status_FloatingIPAddresses : S StatusFloatingIPAddress;
  status_Pools : S (StatusPool S);
}.

Record LoadBalancer (S : Type -> Type) (OM LS : Type) := {
  lb_TypeMeta : TypeMeta;
  lb_ObjectMeta : OM;
  lb_Spec : LoadBalancerSpec S LS;
  lb_Status : LoadBalancerStatus S;
}.

Record LoadBalancerList (S : Type -> Type) (OM LM LS : Type) := {
  list_TypeMeta : TypeMeta;
  list_ListMeta : LM;
  list_Items : S (LoadBalancer S OM LS);
}.


Unset Implicit Arguments.

(** ** Memory

    A location holds an array of one of the types, or of a type only the metadata
    knows. *)
Section Copies.
Context {OM OMV LM LMV LS LSV X : Type}.

Inductive cell :=
| cells_string (l : list string)
| cells_AllowedCIDR (l : list AllowedCIDR)
| cells_AllowedSubnet (l : list AllowedSubnet)
| cells_FloatingIPAddress (l : list FloatingIPAddress)
| cells_VirtualIPAddress (l : list VirtualIPAddress)
| cells_StatusBackend (l : list StatusBackend)
| cells_StatusFloatingIPAddress (l : list StatusFloatingIPAddress)
| cells_StatusVirtualIPAddress (l : list StatusVirtualIPAddress)
| cells_HTTPHealthMonitor (l : list (HTTPHealthMonitor slice))
| cells_HealthMonitor (l : list (HealthMonitor slice))
| cells_PoolFrontend (l : list (PoolFrontend slice))
| cells_PoolBackend (l : list (PoolBackend slice LS))
| cells_Pool (l : list (Pool slice LS))
| cells_LoadBalancerSpec (l : list (LoadBalancerSpec slice LS))
| cells_StatusPool (l : list (StatusPool slice))
| cells_LoadBalancerStatus (l : list (LoadBalancerStatus slice))
| cells_LoadBalancer (l : list (LoadBalancer slice OM LS))
| cells_LoadBalancerList (l : list (LoadBalancerList slice OM LM LS))
| cells_other (x : X).

Abbreviation heap := (gmap positive cell).

#[export] Instance string_backing : Backing cell string :=
  {| mk := cells_string; get c := match c with cells_string l => Some l | _ => None end; get_mk l := eq_refl |}.
#[export] Instance AllowedCIDR_backing : Backing cell AllowedCIDR :=
  {| mk := cells_AllowedCIDR; get c := match c with cells_AllowedCIDR l => Some l | _ => None end; get_mk l := eq_refl |}.
#[export] Instance AllowedSubnet_backing : Backing cell AllowedSubnet :=
  {| mk := cells_AllowedSubnet; get c := match c with cells_AllowedSubnet l => Some l | _ => None end; get_mk l := eq_refl |}.
#[export] Instance FloatingIPAddress_backing : Backing cell FloatingIPAddress :=
  {| mk := cells_FloatingIPAddress; get c := match c with cells_FloatingIPAddress l => Some l | _ => None end; get_mk l := eq_refl |}.
#[export] Instance VirtualIPAddress_backing : Backing cell VirtualIPAddress :=
  {| mk := cells_VirtualIPAddress; get c := match c with cells_VirtualIPAddress l => Some l | _ => None end; get_mk l := eq_refl |}.
#[export] Instance StatusBackend_backing : Backing cell StatusBackend :=
  {| mk := cells_StatusBackend; get c := match c with cells_StatusBackend l => Some l | _ => None end; get_mk l := eq_refl |}.
#[export] Instance StatusFloatingIPAddress_backing : Backing cell StatusFloatingIPAddress :=
  {| mk := cells_StatusFloatingIPAddress; get c := match c with cells_StatusFloatingIPAddress l => Some l | _ => None end; get_mk l := eq_refl |}.
#[export] Instance StatusVirtualIPAddress_backing : Backing cell StatusVirtualIPAddress :=
  {| mk := cells_StatusVirtualIPAddress; get c := match c with cells_StatusVirtualIPAddress l => Some l | _ => None end; get_mk l := eq_refl |}.
#[export] Instance HTTPHealthMonitor_backing : Backing cell (HTTPHealthMonitor slice) :=
  {| mk := cells_HTTPHealthMonitor; get c := match c with cells_HTTPHealthMonitor l => Some l | _ => None end; get_mk l := eq_refl |}.
#[export] Instance HealthMonitor_backing : Backing cell (HealthMonitor slice) :=
  {| mk := cells_HealthMonitor; get c := match c with cells_HealthMonitor l => Some l | _ => None end; get_mk l := eq_refl |}.
#[export] Instance PoolFrontend_backing : Backing cell (PoolFrontend slice) :=
  {| mk := cells_PoolFrontend; get c := match c with cells_PoolFrontend l => Some l | _ => None end; get_mk l := eq_refl |}.
#[export] Instance PoolBackend_backing : Backing cell (PoolBackend slice LS) :=
  {| mk := cells_PoolBackend; get c := match c with cells_PoolBackend l => Some l | _ => None end; get_mk l := eq_refl |}.
#[export] Instance Pool_backing : Backing cell (Pool slice LS) :=
  {| mk := cells_Pool; get c := match c with cells_Pool l => Some l | _ => None end; get_mk l := eq_refl |}.
#[export] Instance LoadBalancerSpec_backing : Backing cell (LoadBalancerSpec slice LS) :=
  {| mk := cells_LoadBalancerSpec; get c := match c with cells_LoadBalancerSpec l => Some l | _ => None end; get_mk l := eq_refl |}.
#[export] Instance StatusPool_backing : Backing cell (StatusPool slice) :=
  {| mk := cells_StatusPool; get c := match c with cells_StatusPool l => Some l | _ => None end; get_mk l := eq_refl |}.
#[export] Instance LoadBalancerStatus_backing : Backing cell (LoadBalancerStatus slice) :=
  {| mk := cells_LoadBalancerStatus; get c := match c with cells_LoadBalancerStatus l => Some l | _ => None end; get_mk l := eq_refl |}.
#[export] Instance LoadBalancer_backing : Backing cell (LoadBalancer slice OM LS) :=
  {| mk := cells_LoadBalancer; get c := match c with cells_LoadBalancer l => Some l | _ => None end; get_mk l := eq_refl |}.
#[export] Instance LoadBalancerList_backing : Backing cell (LoadBalancerList slice OM LM LS) :=
  {| mk := cells_LoadBalancerList; get c := match c with cells_LoadBalancerList l => Some l | _ => None end; get_mk l := eq_refl |}.

(** The metadata copies itself; the contract is [CopyLaws]. *)
Context `{!Copyable cell OM OMV} `{!Copyable cell LM LMV} `{!Copyable cell LS LSV}.
Context `{!Zero OM} `{!Zero LM} `{!Zero LS}.

(** ** Zero values *)

#[export] Instance string_zero : Zero string := "".
#[export] Instance Z_zero : Zero Z := 0.
#[export] Instance Duration_zero : Zero Duration := 0.
#[export] Instance TypeMeta_zero : Zero TypeMeta := {| tm_Kind := zero; tm_APIVersion := zero |}.
#[export] Instance AllowedCIDR_zero : Zero AllowedCIDR := {| v1beta1.acidr_CIDR := zero |}.
#[export] Instance AllowedSubnet_zero : Zero AllowedSubnet := {| v1beta1.asub_UUID := zero |}.
#[export] Instance FloatingIPAddress_zero : Zero FloatingIPAddress := {| v1beta1.fip_CIDR := zero |}.
#[export] Instance VirtualIPAddress_zero : Zero VirtualIPAddress := {| v1beta1.vip_Address := zero; v1beta1.vip_SubnetID := zero |}.
#[export] Instance StatusBackend_zero : Zero StatusBackend := {| v1beta1.sb_NodeName := zero; v1beta1.sb_ServerName := zero; v1beta1.sb_Address := zero; v1beta1.sb_Status := zero |}.
#[export] Instance StatusFloatingIPAddress_zero : Zero StatusFloatingIPAddress := {| v1beta1.sfip_CIDR := zero |}.
#[export] Instance StatusVirtualIPAddress_zero : Zero StatusVirtualIPAddress := {| v1beta1.svip_Address := zero |}.
#[export] Instance HTTPHealthMonitor_zero : Zero (HTTPHealthMonitor slice) :=
  {| http_Method := zero; http_Path := zero; http_Host := zero; http_Version := zero; http_StatusCodes := zero |}.
#[export] Instance HealthMonitor_zero : Zero (HealthMonitor slice) :=
  {| hm_Port := zero; hm_Type := zero; hm_Delay := zero; hm_Timeout := zero; hm_SuccessThreshold := zero; hm_FailureThreshold := zero; hm_HTTP := zero |}.
#[export] Instance PoolFrontend_zero : Zero (PoolFrontend slice) :=
  {| fe_Protocol := zero; fe_Port := zero; fe_AllowedCIDRs := zero; fe_DataTimeout := zero |}.
#[export] Instance PoolBackend_zero : Zero (PoolBackend slice LS) :=
  {| be_Port := zero; be_Protocol := zero; be_HealthMonitor := zero; be_NodeSelector := zero; be_DataTimeout := zero; be_ConnectTimeout := zero; be_AllowedSubnets := zero |}.
#[export] Instance Pool_zero : Zero (Pool slice LS) :=
  {| pool_Name := zero; pool_Algorithm := zero; pool_Frontend := zero; pool_Backend := zero |}.
#[export] Instance LoadBalancerSpec_zero : Zero (LoadBalancerSpec slice LS) :=
  {| spec_UUID := zero; spec_Zone := zero; spec_VirtualIPAddresses := zero; spec_FloatingIPAddresses := zero; spec_Pools := zero |}.
#[export] Instance StatusPool_zero : Zero (StatusPool slice) :=
  {| sp_Name := zero; sp_Backends := zero |}.
#[export] Instance LoadBalancerStatus_zero : Zero (LoadBalancerStatus slice) :=
  {| status_CloudscaleStatus := zero; status_VirtualIPAddresses := zero; status_FloatingIPAddresses := zero; status_Pools := zero |}.
#[export] Instance LoadBalancer_zero : Zero (LoadBalancer slice OM LS) :=
  {| lb_TypeMeta := zero; lb_ObjectMeta := zero; lb_Spec := zero; lb_Status := zero |}.
#[export] Instance LoadBalancerList_zero : Zero (LoadBalancerList slice OM LM LS) :=
  {| list_TypeMeta := zero; list_ListMeta := zero; list_Items := zero |}.

(** ** The generated functions *)

Definition AllowedCIDR_DeepCopyInto (h : heap) (x : AllowedCIDR) : heap * AllowedCIDR := (h, x).

Definition AllowedCIDR_DeepCopy (h : heap) (p : pointer AllowedCIDR) : heap * pointer AllowedCIDR := DeepCopy AllowedCIDR_DeepCopyInto h p.

#[export] Instance AllowedCIDR_copyable : Copyable cell AllowedCIDR AllowedCIDR := {| foot _ _ := ∅; val _ x := Some x; copyInto := AllowedCIDR_DeepCopyInto |}.

Definition AllowedSubnet_DeepCopyInto (h : heap) (x : AllowedSubnet) : heap * AllowedSubnet := (h, x).

Definition AllowedSubnet_DeepCopy (h : heap) (p : pointer AllowedSubnet) : heap * pointer AllowedSubnet := DeepCopy AllowedSubnet_DeepCopyInto h p.

#[export] Instance AllowedSubnet_copyable : Copyable cell AllowedSubnet AllowedSubnet := {| foot _ _ := ∅; val _ x := Some x; copyInto := AllowedSubnet_DeepCopyInto |}.

Definition FloatingIPAddress_DeepCopyInto (h : heap) (x : FloatingIPAddress) : heap * FloatingIPAddress := (h, x).

Definition FloatingIPAddress_DeepCopy (h : heap) (p : pointer FloatingIPAddress) : heap * pointer FloatingIPAddress := DeepCopy FloatingIPAddress_DeepCopyInto h p.

#[export] Instance FloatingIPAddress_copyable : Copyable cell FloatingIPAddress FloatingIPAddress := {| foot _ _ := ∅; val _ x := Some x; copyInto := FloatingIPAddress_DeepCopyInto |}.

Definition VirtualIPAddress_DeepCopyInto (h : heap) (x : VirtualIPAddress) : heap * VirtualIPAddress := (h, x).

Definition VirtualIPAddress_DeepCopy (h : heap) (p : pointer VirtualIPAddress) : heap * pointer VirtualIPAddress := DeepCopy VirtualIPAddress_DeepCopyInto h p.

#[export] Instance VirtualIPAddress_copyable : Copyable cell VirtualIPAddress VirtualIPAddress := {| foot _ _ := ∅; val _ x := Some x; copyInto := VirtualIPAddress_DeepCopyInto |}.

Definition StatusBackend_DeepCopyInto (h : heap) (x : StatusBackend) : heap * StatusBackend := (h, x).

Definition StatusBackend_DeepCopy (h : heap) (p : pointer StatusBackend) : heap * pointer StatusBackend := DeepCopy StatusBackend_DeepCopyInto h p.

#[export] Instance StatusBackend_copyable : Copyable cell StatusBackend StatusBackend := {| foot _ _ := ∅; val _ x := Some x; copyInto := StatusBackend_DeepCopyInto |}.

Definition StatusFloatingIPAddress_DeepCopyInto (h : heap) (x : StatusFloatingIPAddress) : heap * StatusFloatingIPAddress := (h, x).

Definition StatusFloatingIPAddress_DeepCopy (h : heap) (p : pointer StatusFloatingIPAddress) : heap * pointer StatusFloatingIPAddress := DeepCopy StatusFloatingIPAddress_DeepCopyInto h p.

#[export] Instance StatusFloatingIPAddress_copyable : Copyable cell StatusFloatingIPAddress StatusFloatingIPAddress := {| foot _ _ := ∅; val _ x := Some x; copyInto := StatusFloatingIPAddress_DeepCopyInto |}.

Definition StatusVirtualIPAddress_DeepCopyInto (h : heap) (x : StatusVirtualIPAddress) : heap * StatusVirtualIPAddress := (h, x).

Definition StatusVirtualIPAddress_DeepCopy (h : heap) (p : pointer StatusVirtualIPAddress) : heap * pointer StatusVirtualIPAddress := DeepCopy StatusVirtualIPAddress_DeepCopyInto h p.

#[export] Instance StatusVirtualIPAddress_copyable : Copyable cell StatusVirtualIPAddress StatusVirtualIPAddress := {| foot _ _ := ∅; val _ x := Some x; copyInto := StatusVirtualIPAddress_DeepCopyInto |}.

(** Slices of flat elements are copied in one go. *)
#[export] Instance string_copyable : Copyable cell string string := flat string.
#[export] Instance Z_copyable : Copyable cell Z Z := flat Z.
#[export] Instance TypeMeta_copyable : Copyable cell TypeMeta TypeMeta := flat TypeMeta.
#[export] Instance string_slice_copyable : Copyable cell (slice string) (tree string) := slice_copyable copySlice.
#[export] Instance AllowedCIDR_slice_copyable : Copyable cell (slice AllowedCIDR) (tree AllowedCIDR) := slice_copyable copySlice.
#[export] Instance AllowedSubnet_slice_copyable : Copyable cell (slice AllowedSubnet) (tree AllowedSubnet) := slice_copyable copySlice.
#[export] Instance FloatingIPAddress_slice_copyable : Copyable cell (slice FloatingIPAddress) (tree FloatingIPAddress) := slice_copyable copySlice.
#[export] Instance VirtualIPAddress_slice_copyable : Copyable cell (slice VirtualIPAddress) (tree VirtualIPAddress) := slice_copyable copySlice.
#[export] Instance StatusBackend_slice_copyable : Copyable cell (slice StatusBackend) (tree StatusBackend) := slice_copyable copySlice.
#[export] Instance StatusFloatingIPAddress_slice_copyable : Copyable cell (slice StatusFloatingIPAddress) (tree StatusFloatingIPAddress) := slice_copyable copySlice.
#[export] Instance StatusVirtualIPAddress_slice_copyable : Copyable cell (slice StatusVirtualIPAddress) (tree StatusVirtualIPAddress) := slice_copyable copySlice.

Definition HTTPHealthMonitor_DeepCopyInto (h : heap) (x : HTTPHealthMonitor slice) : heap * HTTPHealthMonitor slice :=
  let '(h, statusCodes) := copySlice h (http_StatusCodes x) in
  (h, {| http_Method := http_Method x; http_Path := http_Path x; http_Host := http_Host x; http_Version :=
       http_Version x; http_StatusCodes := statusCodes |}).

Definition HTTPHealthMonitor_DeepCopy (h : heap) (p : pointer (HTTPHealthMonitor slice)) : heap * pointer (HTTPHealthMonitor slice) :=
  DeepCopy HTTPHealthMonitor_DeepCopyInto h p.

Definition HTTPHealthMonitor_fields (x : HTTPHealthMonitor slice) : string * string * string * string * slice string :=
  (http_Method x, http_Path x, http_Host x, http_Version x, http_StatusCodes x).
Definition HTTPHealthMonitor_build (a : string * string * string * string * tree string) : HTTPHealthMonitor tree :=
  let '(x0, x1, x2, x3, x4) := a in
  {| http_Method := x0; http_Path := x1; http_Host := x2; http_Version := x3; http_StatusCodes := x4 |}.
#[export] Instance HTTPHealthMonitor_copyable : Copyable cell (HTTPHealthMonitor slice) (HTTPHealthMonitor tree) :=
  struct HTTPHealthMonitor_fields HTTPHealthMonitor_build HTTPHealthMonitor_DeepCopyInto.

Definition HealthMonitor_DeepCopyInto (h : heap) (x : HealthMonitor slice) : heap * HealthMonitor slice :=
  let '(h, hTTP) := HTTPHealthMonitor_DeepCopyInto h (hm_HTTP x) in
  (h, {| hm_Port := hm_Port x; hm_Type := hm_Type x; hm_Delay := hm_Delay x; hm_Timeout := hm_Timeout x;
       hm_SuccessThreshold := hm_SuccessThreshold x; hm_FailureThreshold := hm_FailureThreshold x; hm_HTTP :=
       hTTP |}).

Definition HealthMonitor_DeepCopy (h : heap) (p : pointer (HealthMonitor slice)) : heap * pointer (HealthMonitor slice) :=
  DeepCopy HealthMonitor_DeepCopyInto h p.

Definition HealthMonitor_fields (x : HealthMonitor slice) : Z * string * Duration * Duration * Z * Z * HTTPHealthMonitor slice :=
  (hm_Port x, hm_Type x, hm_Delay x, hm_Timeout x, hm_SuccessThreshold x, hm_FailureThreshold x, hm_HTTP x).
Definition HealthMonitor_build (a : Z * string * Duration * Duration * Z * Z * HTTPHealthMonitor tree) : HealthMonitor tree :=
  let '(x0, x1, x2, x3, x4, x5, x6) := a in
  {| hm_Port := x0; hm_Type := x1; hm_Delay := x2; hm_Timeout := x3; hm_SuccessThreshold := x4;
     hm_FailureThreshold := x5; hm_HTTP := x6 |}.
#[export] Instance HealthMonitor_copyable : Copyable cell (HealthMonitor slice) (HealthMonitor tree) :=
  struct HealthMonitor_fields HealthMonitor_build HealthMonitor_DeepCopyInto.

Definition PoolFrontend_DeepCopyInto (h : heap) (x : PoolFrontend slice) : heap * PoolFrontend slice :=
  let '(h, allowedCIDRs) := copySlice h (fe_AllowedCIDRs x) in
  (h, {| fe_Protocol := fe_Protocol x; fe_Port := fe_Port x; fe_AllowedCIDRs := allowedCIDRs; fe_DataTimeout
       := fe_DataTimeout x |}).

Definition PoolFrontend_DeepCopy (h : heap) (p : pointer (PoolFrontend slice)) : heap * pointer (PoolFrontend slice) :=
  DeepCopy PoolFrontend_DeepCopyInto h p.

Definition PoolFrontend_fields (x : PoolFrontend slice) : string * Z * Duration * slice AllowedCIDR :=
  (fe_Protocol x, fe_Port x, fe_DataTimeout x, fe_AllowedCIDRs x).
Definition PoolFrontend_build (a : string * Z * Duration * tree AllowedCIDR) : PoolFrontend tree :=
  let '(x0, x1, x2, x3) := a in
  {| fe_Protocol := x0; fe_Port := x1; fe_AllowedCIDRs := x3; fe_DataTimeout := x2 |}.
#[export] Instance PoolFrontend_copyable : Copyable cell (PoolFrontend slice) (PoolFrontend tree) :=
  struct PoolFrontend_fields PoolFrontend_build PoolFrontend_DeepCopyInto.

Definition PoolBackend_DeepCopyInto (h : heap) (x : PoolBackend slice LS) : heap * PoolBackend slice LS :=
  let '(h, healthMonitor) := HealthMonitor_DeepCopyInto h (be_HealthMonitor x) in
  let '(h, nodeSelector) := copyInto h (be_NodeSelector x) in
  let '(h, allowedSubnets) := copySlice h (be_AllowedSubnets x) in
  (h, {| be_Port := be_Port x; be_Protocol := be_Protocol x; be_HealthMonitor := healthMonitor;
       be_NodeSelector := nodeSelector; be_DataTimeout := be_DataTimeout x; be_ConnectTimeout :=
       be_ConnectTimeout x; be_AllowedSubnets := allowedSubnets |}).

Definition PoolBackend_DeepCopy (h : heap) (p : pointer (PoolBackend slice LS)) : heap * pointer (PoolBackend slice LS) :=
  DeepCopy PoolBackend_DeepCopyInto h p.

Definition PoolBackend_fields (x : PoolBackend slice LS) : Z * string * Duration * Duration * HealthMonitor slice * LS * slice AllowedSubnet :=
  (be_Port x, be_Protocol x, be_DataTimeout x, be_ConnectTimeout x, be_HealthMonitor x, be_NodeSelector x, be_AllowedSubnets x).
Definition PoolBackend_build (a : Z * string * Duration * Duration * HealthMonitor tree * LSV * tree AllowedSubnet) : PoolBackend tree LSV :=
  let '(x0, x1, x2, x3, x4, x5, x6) := a in
  {| be_Port := x0; be_Protocol := x1; be_HealthMonitor := x4; be_NodeSelector := x5; be_DataTimeout := x2;
     be_ConnectTimeout := x3; be_AllowedSubnets := x6 |}.
#[export] Instance PoolBackend_copyable : Copyable cell (PoolBackend slice LS) (PoolBackend tree LSV) :=
  struct PoolBackend_fields PoolBackend_build PoolBackend_DeepCopyInto.

Definition Pool_DeepCopyInto (h : heap) (x : Pool slice LS) : heap * Pool slice LS :=
  let '(h, frontend) := PoolFrontend_DeepCopyInto h (pool_Frontend x) in
  let '(h, backend) := PoolBackend_DeepCopyInto h (pool_Backend x) in
  (h, {| pool_Name := pool_Name x; pool_Algorithm := pool_Algorithm x; pool_Frontend := frontend; pool_Backend
       := backend |}).

Definition Pool_DeepCopy (h : heap) (p : pointer (Pool slice LS)) : heap * pointer (Pool slice LS) :=
  DeepCopy Pool_DeepCopyInto h p.

Definition Pool_fields (x : Pool slice LS) : string * string * PoolFrontend slice * PoolBackend slice LS :=
  (pool_Name x, pool_Algorithm x, pool_Frontend x, pool_Backend x).
Definition Pool_build (a : string * string * PoolFrontend tree * PoolBackend tree LSV) : Pool tree LSV :=
  let '(x0, x1, x2, x3) := a in
  {| pool_Name := x0; pool_Algorithm := x1; pool_Frontend := x2; pool_Backend := x3 |}.
#[export] Instance Pool_copyable : Copyable cell (Pool slice LS) (Pool tree LSV) :=
  struct Pool_fields Pool_build Pool_DeepCopyInto.
#[export] Instance Pool_slice_copyable : Copyable cell (slice (Pool slice LS)) (tree (Pool tree LSV)) := slice_copyable copySliceInto.

Definition LoadBalancerSpec_DeepCopyInto (h : heap) (x : LoadBalancerSpec slice LS) : heap * LoadBalancerSpec slice LS :=
  let '(h, virtualIPAddresses) := copySlice h (spec_VirtualIPAddresses x) in
  let '(h, floatingIPAddresses) := copySlice h (spec_FloatingIPAddresses x) in
  let '(h, pools) := copySliceInto h (spec_Pools x) in
  (h, {| spec_UUID := spec_UUID x; spec_Zone := spec_Zone x; spec_VirtualIPAddresses := virtualIPAddresses;
       spec_FloatingIPAddresses := floatingIPAddresses; spec_Pools := pools |}).

Definition LoadBalancerSpec_DeepCopy (h : heap) (p : pointer (LoadBalancerSpec slice LS)) : heap * pointer (LoadBalancerSpec slice LS) :=
  DeepCopy LoadBalancerSpec_DeepCopyInto h p.

Definition LoadBalancerSpec_fields (x : LoadBalancerSpec slice LS) : string * string * slice VirtualIPAddress * slice FloatingIPAddress * slice (Pool slice LS) :=
  (spec_UUID x, spec_Zone x, spec_VirtualIPAddresses x, spec_FloatingIPAddresses x, spec_Pools x).
Definition LoadBalancerSpec_build (a : string * string * tree VirtualIPAddress * tree FloatingIPAddress * tree (Pool tree LSV)) : LoadBalancerSpec tree LSV :=
  let '(x0, x1, x2, x3, x4) := a in
  {| spec_UUID := x0; spec_Zone := x1; spec_VirtualIPAddresses := x2; spec_FloatingIPAddresses := x3;
     spec_Pools := x4 |}.
#[export] Instance LoadBalancerSpec_copyable : Copyable cell (LoadBalancerSpec slice LS) (LoadBalancerSpec tree LSV) :=
  struct LoadBalancerSpec_fields LoadBalancerSpec_build LoadBalancerSpec_DeepCopyInto.

Definition StatusPool_DeepCopyInto (h : heap) (x : StatusPool slice) : heap * StatusPool slice :=
  let '(h, backends) := copySlice h (sp_Backends x) in
  (h, {| sp_Name := sp_Name x; sp_Backends := backends |}).

Definition StatusPool_DeepCopy (h : heap) (p : pointer (StatusPool slice)) : heap * pointer (StatusPool slice) :=
  DeepCopy StatusPool_DeepCopyInto h p.

Definition StatusPool_fields (x : StatusPool slice) : string * slice StatusBackend :=
  (sp_Name x, sp_Backends x).
Definition StatusPool_build (a : string * tree StatusBackend) : StatusPool tree :=
  let '(x0, x1) := a in
  {| sp_Name := x0; sp_Backends := x1 |}.
#[export] Instance StatusPool_copyable : Copyable cell (StatusPool slice) (StatusPool tree) :=
  struct StatusPool_fields StatusPool_build StatusPool_DeepCopyInto.
#[export] Instance StatusPool_slice_copyable : Copyable cell (slice (StatusPool slice)) (tree (StatusPool tree)) := slice_copyable copySliceInto.

Definition LoadBalancerStatus_DeepCopyInto (h : heap) (x : LoadBalancerStatus slice) : heap * LoadBalancerStatus slice :=
  let '(h, virtualIPAddresses) := copySlice h (status_VirtualIPAddresses x) in
  let '(h, floatingIPAddresses) := copySlice h (status_FloatingIPAddresses x) in
  let '(h, pools) := copySliceInto h (status_Pools x) in
  (h, {| status_CloudscaleStatus := status_CloudscaleStatus x; status_VirtualIPAddresses :=
       virtualIPAddresses; status_FloatingIPAddresses := floatingIPAddresses; status_Pools := pools |}).

Definition LoadBalancerStatus_DeepCopy (h : heap) (p : pointer (LoadBalancerStatus slice)) : heap * pointer (LoadBalancerStatus slice) :=
  DeepCopy LoadBalancerStatus_DeepCopyInto h p.

Definition LoadBalancerStatus_fields (x : LoadBalancerStatus slice) : string * slice StatusVirtualIPAddress * slice StatusFloatingIPAddress * slice (StatusPool slice) :=
  (status_CloudscaleStatus x, status_VirtualIPAddresses x, status_FloatingIPAddresses x, status_Pools x).
Definition LoadBalancerStatus_build (a : string * tree StatusVirtualIPAddress * tree StatusFloatingIPAddress * tree (StatusPool tree)) : LoadBalancerStatus tree :=
  let '(x0, x1, x2, x3) := a in
  {| status_CloudscaleStatus := x0; status_VirtualIPAddresses := x1; status_FloatingIPAddresses := x2;
     status_Pools := x3 |}.
#[export] Instance LoadBalancerStatus_copyable : Copyable cell (LoadBalancerStatus slice) (LoadBalancerStatus tree) :=
  struct LoadBalancerStatus_fields LoadBalancerStatus_build LoadBalancerStatus_DeepCopyInto.

Definition LoadBalancer_DeepCopyInto (h : heap) (x : LoadBalancer slice OM LS) : heap * LoadBalancer slice OM LS :=
  let '(h, objectMeta) := copyInto h (lb_ObjectMeta x) in
  let '(h, spec) := LoadBalancerSpec_DeepCopyInto h (lb_Spec x) in
  let '(h, status) := LoadBalancerStatus_DeepCopyInto h (lb_Status x) in
  (h, {| lb_TypeMeta := lb_TypeMeta x; lb_ObjectMeta := objectMeta; lb_Spec := spec; lb_Status := status |}).

Definition LoadBalancer_DeepCopy (h : heap) (p : pointer (LoadBalancer slice OM LS)) : heap * pointer (LoadBalancer slice OM LS) :=
  DeepCopy LoadBalancer_DeepCopyInto h p.

(** The interface value holds the pointer, or is nil: never an interface that holds nil. *)
Definition LoadBalancer_DeepCopyObject (h : heap) (p : pointer (LoadBalancer slice OM LS)) : heap * option (pointer (LoadBalancer slice OM LS)) :=
  let '(h, c) := LoadBalancer_DeepCopy h p in
  match c with Null => (h, None) | _ => (h, Some c) end.

Definition LoadBalancer_fields (x : LoadBalancer slice OM LS) : TypeMeta * OM * LoadBalancerSpec slice LS * LoadBalancerStatus slice :=
  (lb_TypeMeta x, lb_ObjectMeta x, lb_Spec x, lb_Status x).
Definition LoadBalancer_build (a : TypeMeta * OMV * LoadBalancerSpec tree LSV * LoadBalancerStatus tree) : LoadBalancer tree OMV LSV :=
  let '(x0, x1, x2, x3) := a in
  {| lb_TypeMeta := x0; lb_ObjectMeta := x1; lb_Spec := x2; lb_Status := x3 |}.
#[export] Instance LoadBalancer_copyable : Copyable cell (LoadBalancer slice OM LS) (LoadBalancer tree OMV LSV) :=
  struct LoadBalancer_fields LoadBalancer_build LoadBalancer_DeepCopyInto.
#[export] Instance LoadBalancer_slice_copyable : Copyable cell (slice (LoadBalancer slice OM LS)) (tree (LoadBalancer tree OMV LSV)) := slice_copyable copySliceInto.

Definition LoadBalancerList_DeepCopyInto (h : heap) (x : LoadBalancerList slice OM LM LS) : heap * LoadBalancerList slice OM LM LS :=
  let '(h, listMeta) := copyInto h (list_ListMeta x) in
  let '(h, items) := copySliceInto h (list_Items x) in
  (h, {| list_TypeMeta := list_TypeMeta x; list_ListMeta := listMeta; list_Items := items |}).

Definition LoadBalancerList_DeepCopy (h : heap) (p : pointer (LoadBalancerList slice OM LM LS)) : heap * pointer (LoadBalancerList slice OM LM LS) :=
  DeepCopy LoadBalancerList_DeepCopyInto h p.

(** The interface value holds the pointer, or is nil: never an interface that holds nil. *)
Definition LoadBalancerList_DeepCopyObject (h : heap) (p : pointer (LoadBalancerList slice OM LM LS)) : heap * option (pointer (LoadBalancerList slice OM LM LS)) :=
  let '(h, c) := LoadBalancerList_DeepCopy h p in
  match c with Null => (h, None) | _ => (h, Some c) end.

Definition LoadBalancerList_fields (x : LoadBalancerList slice OM LM LS) : TypeMeta * LM * slice (LoadBalancer slice OM LS) :=
  (list_TypeMeta x, list_ListMeta x, list_Items x).
Definition LoadBalancerList_build (a : TypeMeta * LMV * tree (LoadBalancer tree OMV LSV)) : LoadBalancerList tree OMV LMV LSV :=
  let '(x0, x1, x2) := a in
  {| list_TypeMeta := x0; list_ListMeta := x1; list_Items := x2 |}.
#[export] Instance LoadBalancerList_copyable : Copyable cell (LoadBalancerList slice OM LM LS) (LoadBalancerList tree OMV LMV LSV) :=
  struct LoadBalancerList_fields LoadBalancerList_build LoadBalancerList_DeepCopyInto.
(** ** The contract, struct by struct *)

Context `{!CopyLaws cell OM OMV} `{!CopyLaws cell LM LMV} `{!CopyLaws cell LS LSV}.

(** A generated function copies the fields in the order of the struct's description. *)
Ltac copies_in_order fields into :=
  apply struct_laws; intros h x; destruct x; unfold fields, into; cbn -[copySlice copySliceInto];
  repeat match goal with |- context [let '(_, _) := ?e in _] => destruct e end; done.

#[export] Instance string_laws : CopyLaws cell string string := flat_laws string.
#[export] Instance Z_laws : CopyLaws cell Z Z := flat_laws Z.
#[export] Instance TypeMeta_laws : CopyLaws cell TypeMeta TypeMeta := flat_laws TypeMeta.
#[export] Instance string_slice_laws : CopyLaws cell (slice string) (tree string) := slice_flat_laws.
#[export] Instance AllowedCIDR_laws : CopyLaws cell AllowedCIDR AllowedCIDR := flat_laws AllowedCIDR.
#[export] Instance AllowedCIDR_slice_laws : CopyLaws cell (slice AllowedCIDR) (tree AllowedCIDR) := slice_flat_laws.
#[export] Instance AllowedSubnet_laws : CopyLaws cell AllowedSubnet AllowedSubnet := flat_laws AllowedSubnet.
#[export] Instance AllowedSubnet_slice_laws : CopyLaws cell (slice AllowedSubnet) (tree AllowedSubnet) := slice_flat_laws.
#[export] Instance FloatingIPAddress_laws : CopyLaws cell FloatingIPAddress FloatingIPAddress := flat_laws FloatingIPAddress.
#[export] Instance FloatingIPAddress_slice_laws : CopyLaws cell (slice FloatingIPAddress) (tree FloatingIPAddress) := slice_flat_laws.
#[export] Instance VirtualIPAddress_laws : CopyLaws cell VirtualIPAddress VirtualIPAddress := flat_laws VirtualIPAddress.
#[export] Instance VirtualIPAddress_slice_laws : CopyLaws cell (slice VirtualIPAddress) (tree VirtualIPAddress) := slice_flat_laws.
#[export] Instance StatusBackend_laws : CopyLaws cell StatusBackend StatusBackend := flat_laws StatusBackend.
#[export] Instance StatusBackend_slice_laws : CopyLaws cell (slice StatusBackend) (tree StatusBackend) := slice_flat_laws.
#[export] Instance StatusFloatingIPAddress_laws : CopyLaws cell StatusFloatingIPAddress StatusFloatingIPAddress := flat_laws StatusFloatingIPAddress.
#[export] Instance StatusFloatingIPAddress_slice_laws : CopyLaws cell (slice StatusFloatingIPAddress) (tree StatusFloatingIPAddress) := slice_flat_laws.
#[export] Instance StatusVirtualIPAddress_laws : CopyLaws cell StatusVirtualIPAddress StatusVirtualIPAddress := flat_laws StatusVirtualIPAddress.
#[export] Instance StatusVirtualIPAddress_slice_laws : CopyLaws cell (slice StatusVirtualIPAddress) (tree StatusVirtualIPAddress) := slice_flat_laws.
#[export] Instance HTTPHealthMonitor_laws : CopyLaws cell (HTTPHealthMonitor slice) (HTTPHealthMonitor tree).
Proof. copies_in_order HTTPHealthMonitor_fields HTTPHealthMonitor_DeepCopyInto. Qed.
#[export] Instance HealthMonitor_laws : CopyLaws cell (HealthMonitor slice) (HealthMonitor tree).
Proof. copies_in_order HealthMonitor_fields HealthMonitor_DeepCopyInto. Qed.
#[export] Instance PoolFrontend_laws : CopyLaws cell (PoolFrontend slice) (PoolFrontend tree).
Proof. copies_in_order PoolFrontend_fields PoolFrontend_DeepCopyInto. Qed.
#[export] Instance PoolBackend_laws : CopyLaws cell (PoolBackend slice LS) (PoolBackend tree LSV).
Proof. copies_in_order PoolBackend_fields PoolBackend_DeepCopyInto. Qed.
#[export] Instance Pool_laws : CopyLaws cell (Pool slice LS) (Pool tree LSV).
Proof. copies_in_order Pool_fields Pool_DeepCopyInto. Qed.
#[export] Instance Pool_slice_laws : CopyLaws cell (slice (Pool slice LS)) (tree (Pool tree LSV)) := slice_loop_laws.
#[export] Instance LoadBalancerSpec_laws : CopyLaws cell (LoadBalancerSpec slice LS) (LoadBalancerSpec tree LSV).
Proof. copies_in_order LoadBalancerSpec_fields LoadBalancerSpec_DeepCopyInto. Qed.
#[export] Instance StatusPool_laws : CopyLaws cell (StatusPool slice) (StatusPool tree).
Proof. copies_in_order StatusPool_fields StatusPool_DeepCopyInto. Qed.
#[export] Instance StatusPool_slice_laws : CopyLaws cell (slice (StatusPool slice)) (tree (StatusPool tree)) := slice_loop_laws.
#[export] Instance LoadBalancerStatus_laws : CopyLaws cell (LoadBalancerStatus slice) (LoadBalancerStatus tree).
Proof. copies_in_order LoadBalancerStatus_fields LoadBalancerStatus_DeepCopyInto. Qed.
#[export] Instance LoadBalancer_laws : CopyLaws cell (LoadBalancer slice OM LS) (LoadBalancer tree OMV LSV).
Proof. copies_in_order LoadBalancer_fields LoadBalancer_DeepCopyInto. Qed.
#[export] Instance LoadBalancer_slice_laws : CopyLaws cell (slice (LoadBalancer slice OM LS)) (tree (LoadBalancer tree OMV LSV)) := slice_loop_laws.
#[export] Instance LoadBalancerList_laws : CopyLaws cell (LoadBalancerList slice OM LM LS) (LoadBalancerList tree OMV LMV LSV).
Proof. copies_in_order LoadBalancerList_fields LoadBalancerList_DeepCopyInto. Qed.

(** ** Theorems *)

(** C18: Copying an object deeply gives the same object: for a list of load balancers that is well formed in memory (every
    slice within its array, at every depth), [DeepCopyObject] returns nil if it was given nil and else an object that
    stands for the same tree - every field of every manifest, specification and status alike, nil slices still nil and
    empty ones still empty - and that reaches only memory allocated by the copy; no location that existed before is
    written.  The copies of the Kubernetes metadata are assumed to do the same. *)
Theorem list_copy_same_tree (h : heap) (p : pointer (LoadBalancerList slice OM LM LS)) (v : option (LoadBalancerList tree OMV LMV LSV)) :
  ptr_val h p = Some v ->
  let '(h', o) := LoadBalancerList_DeepCopyObject h p in
  h ⊆ h' /\
  match o with
  | None => p = Null /\ v = None
  | Some q => q <> Null /\ ptr_val h' q = Some v /\ ptr_foot h' q ## dom h
  end.
Proof.
  intros Hv. unfold LoadBalancerList_DeepCopyObject, LoadBalancerList_DeepCopy.
  pose proof (DeepCopy_null LoadBalancerList_DeepCopyInto h p) as Hn. pose proof (DeepCopy_spec h p v Hv) as Hs.
  cbn [copyInto LoadBalancerList_copyable struct] in Hs.
  destruct (DeepCopy LoadBalancerList_DeepCopyInto h p) as [h' [|l i]]; destruct Hs as (Ho & Hq & Hf); split; try done.
  assert (p = Null) as -> by by apply Hn. by injection Hv.
Qed.

(** C19: A deep copy and its original do not share memory: after [in.DeepCopy()] of a well-formed load balancer, whatever is
    written to memory that did not exist before the call - which is all that is reachable from the copy - the original
    stands for the same manifest as before; and whatever is written to memory that did exist - which is all that is
    reachable from the original, and from every other object - the copy does. *)
Theorem copy_isolated (h h' h'' : heap) (p q : pointer (LoadBalancer slice OM LS)) (v : option (LoadBalancer tree OMV LSV)) :
  ptr_val h p = Some v -> LoadBalancer_DeepCopy h p = (h', q) ->
  ptr_foot h' p ⊆ dom h /\ ptr_foot h' q ## dom h /\
  ((forall l, l ∈ dom h -> h'' !! l = h' !! l) -> ptr_val h'' p = Some v) /\
  ((forall l, l ∉ dom h -> h'' !! l = h' !! l) -> ptr_val h'' q = Some v).
Proof.
  intros Hv Hc. pose proof (DeepCopy_spec h p v Hv) as Hs. unfold LoadBalancer_DeepCopy in Hc.
  cbn [copyInto LoadBalancer_copyable struct] in Hs. rewrite Hc in Hs. destruct Hs as (Ho & _ & Hf).
  split; [by eapply ptr_foot_old|split; [done|]]. by apply (ptr_isolated h p v).
Qed.
End Copies.

(** ** An object in memory *)

Section Sample.
(** Name and finalizers stand for the metadata of an object; a list's metadata is a string, a selector a slice of them. *)
Abbreviation meta := (string * slice string)%type.
Abbreviation metaV := (string * tree string)%type.
Abbreviation memory := (gmap positive (@cell meta string (slice string) Empty_set)).

Local Instance meta_zero : Zero meta := ("", Nil).

Definition samplePool : Pool slice (slice string) :=
  {| pool_Name := "http"; pool_Algorithm := ""; pool_Backend := zero;
     pool_Frontend := {| fe_Protocol := ""; fe_Port := 80; fe_AllowedCIDRs := Slice 3 1 1; fe_DataTimeout := 0 |} |}.

(** Two objects that share all their arrays; the slice of networks shows the second element of its array. *)
Definition sampleLB : LoadBalancer slice meta (slice string) :=
  {| lb_TypeMeta := zero; lb_ObjectMeta := ("lb", Slice 4 0 1); lb_Status := zero;
     lb_Spec := {| spec_UUID := "u"; spec_Zone := ""; spec_VirtualIPAddresses := Slice 5 0 0;
                   spec_FloatingIPAddresses := Nil; spec_Pools := Slice 2 0 1 |} |}.

Definition sampleHeap : memory := list_to_map
  [(1%positive, cells_LoadBalancer [sampleLB; sampleLB]);
   (2%positive, cells_Pool [samplePool]);
   (3%positive, cells_AllowedCIDR [{| v1beta1.acidr_CIDR := "10.0.0.0/8" |}; {| v1beta1.acidr_CIDR := "10.1.0.0/16" |}]);
   (4%positive, cells_string ["finalizer"]);
   (5%positive, cells_VirtualIPAddress []);
   (6%positive, cells_LoadBalancerList [{| list_TypeMeta := zero; list_ListMeta := "7"; list_Items := Slice 1 0 2 |}])].

Lemma list_copy_same_tree_witness :
  exists v h' q, ptr_val sampleHeap (Addr 6 0) = Some (Some v) /\
    LoadBalancerList_DeepCopyObject sampleHeap (Addr 6 0) = (h', Some q) /\
    ptr_val h' q = Some (Some v) /\ ptr_foot h' q ## dom sampleHeap.
Proof.
  destruct (ptr_val sampleHeap (Addr 6 0)) as [[v|]|] eqn:Ev; [|discriminate..].
  pose proof (list_copy_same_tree sampleHeap (Addr 6 0) (Some v) Ev) as H.
  destruct (LoadBalancerList_DeepCopyObject sampleHeap (Addr 6 0)) as [h' [q|]]; [|by destruct H as (_ & ? & _)].
  exists v, h', q. by destruct H as (_ & _ & ? & ?).
Defined.

(** The networks a load balancer allows, as the first pool of its tree has them. *)
Definition networks (v : LoadBalancer tree metaV (tree string)) : tree v1beta1.AllowedCIDR :=
  match spec_Pools (lb_Spec v) with Some (p :: _) => fe_AllowedCIDRs (pool_Frontend p) | _ => None end.

Definition samplePtr : pointer (LoadBalancer slice meta (slice string)) := Addr 1 1.

Lemma copy_isolated_witness :
  let '(h', q) := LoadBalancer_DeepCopy sampleHeap samplePtr in
  exists l v, h' !! l = Some (cells_AllowedCIDR [{| v1beta1.acidr_CIDR := "10.1.0.0/16" |}]) /\
    let h'' := <[l := cells_AllowedCIDR [{| v1beta1.acidr_CIDR := "0.0.0.0/0" |}]]> h' in
    networks <$> (ptr_val h'' q ≫= id) = Some (Some [{| v1beta1.acidr_CIDR := "0.0.0.0/0" |}]) /\
    ptr_val sampleHeap samplePtr = Some v /\ ptr_val h'' samplePtr = Some v.
Proof.
  destruct (LoadBalancer_DeepCopy sampleHeap samplePtr) as [h' q] eqn:Ec.
  destruct (ptr_val sampleHeap samplePtr) as [v|] eqn:Ev; [|by vm_compute in Ev]. exists 11%positive, v.
  destruct (copy_isolated sampleHeap h' (<[11%positive := cells_AllowedCIDR [{| v1beta1.acidr_CIDR := "0.0.0.0/0" |}]]> h')
    samplePtr q v Ev Ec) as (_ & _ & Hp & _).
  split; [|split; [|split; [done|]]].
  - vm_compute in Ec. injection Ec as <- <-. by vm_compute.
  - vm_compute in Ec. injection Ec as <- <-. by vm_compute.
  - apply Hp. intros l Hl. apply lookup_insert_ne. intros <-. by vm_compute in Hl.
Defined.
End Sample.
End deepcopy.
