(* ===== verification/Cloudscale.v ===== *)
(** * Cloudscale: data exchanged with the cloudscale.ch API and with Kubernetes

    The resources and requests of the cloudscale Go SDK, and the Kubernetes
    Node, restricted to the fields the program reads or writes.  The SDK itself
    is not part of the repository: these are the shapes of the values that cross
    the boundary, the operations are the requests of [Effects].  A Go map that
    may be nil is an [option] of a finite map, a pointer is an [option]. *)

From Stdlib Require Import ZArith.
From stdpp Require Import base list strings gmap.
From S2P Require Import Prelude GoLib ApiTypes.
Open Scope string_scope.
Open Scope Z_scope.
Open Scope list_scope.

Module cloudscale.

(** ** Tags *)

(** [map[string]string]; [None] is the nil map. *)
Definition TagMap : Type := option (gmap string string).

(** [m[k]]: the zero value for a missing key or a nil map. *)
Definition tag (m : TagMap) (k : string) : string :=
  match m with None => "" | Some t => default "" (t !! k) end.

(** ** Resources *)

Record VIPAddress := { vip_Address : string }.

Record LoadBalancer := {
  lb_UUID : string;
  lb_Name : string;
  lb_Zone : string;          (* Zone.Slug *)
  lb_Flavor : string;        (* Flavor.Slug *)
  lb_Tags : TagMap;
  lb_Status : string;
  lb_VIPAddresses : list VIPAddress;
}.

Record Address := { addr_Address : string; addr_Subnet : string }.

Record Interface := { if_Type : string; if_Addresses : list Address }.

Record Server := {
  srv_UUID : string;
  srv_Name : string;
  srv_Zone : string;
  srv_Interfaces : list Interface;
}.

Record LoadBalancerStub := { lbs_UUID : string }.

Record FloatingIP := {
  fip_Network : string;
  fip_LoadBalancer : option LoadBalancerStub;
}.

Record LoadBalancerPool := {
  pool_UUID : string;
  pool_Name : string;
  pool_Tags : TagMap;
  pool_LoadBalancer : string;   (* LoadBalancer.UUID *)
  pool_Algorithm : string;
  pool_Protocol : string;
}.

Record LoadBalancerPoolMember := {
  mem_UUID : string;
  mem_Name : string;
  mem_Tags : TagMap;
  mem_Enabled : bool;
  mem_ProtocolPort : Z;
  mem_MonitorPort : Z;
  mem_Address : string;
  mem_Subnet : string;          (* Subnet.UUID *)
  mem_Pool : string;            (* Pool.UUID *)
  mem_MonitorStatus : string;
}.

Record LoadBalancerPoolStub := { ps_UUID : string }.

Record LoadBalancerListener := {
  lst_UUID : string;
  lst_Name : string;
  lst_Tags : TagMap;
  lst_Pool : option LoadBalancerPoolStub;
  lst_Protocol : string;
  lst_ProtocolPort : Z;
  lst_AllowedCIDRs : list string;
  lst_TimeoutClientDataMS : Z;
  lst_TimeoutMemberConnectMS : Z;
  lst_TimeoutMemberDataMS : Z;
}.

Record LoadBalancerHealthMonitorHTTP := {
  hmh_ExpectedCodes : list string;
  hmh_Method : string;
  hmh_UrlPath : string;
  hmh_Version : string;
  hmh_Host : option string;
}.

Record LoadBalancerHealthMonitor := {
  hm_UUID : string;
  hm_Tags : TagMap;
  hm_Pool : string;             (* Pool.UUID *)
  hm_DelayS : Z;
  hm_TimeoutS : Z;
  hm_UpThreshold : Z;
  hm_DownThreshold : Z;
  hm_Type : string;
  hm_HTTP : option LoadBalancerHealthMonitorHTTP;
}.

(** ** Requests *)

Record VIPAddressRequest := { vipr_Subnet : string; vipr_Address : string }.

Record LoadBalancerRequest := {
  lbr_Name : string;
  lbr_Flavor : string;
  lbr_VIPAddresses : option (list VIPAddressRequest);
  lbr_Zone : string;
  lbr_Tags : option TagMap;
}.

Record FloatingIPUpdateRequest := { fipr_LoadBalancer : string }.

Record LoadBalancerPoolRequest := {
  poolr_Tags : option TagMap;
  poolr_Name : string;
  poolr_LoadBalancer : string;
  poolr_Algorithm : string;
  poolr_Protocol : string;
}.

Record LoadBalancerPoolMemberRequest := {
  memr_Tags : option TagMap;
  memr_Name : string;
  memr_Enabled : option bool;
  memr_ProtocolPort : Z;
  memr_MonitorPort : Z;
  memr_Address : string;
  memr_Subnet : string;
}.

Record LoadBalancerListenerRequest := {
  lstr_Tags : option TagMap;
  lstr_Name : string;
  lstr_Pool : string;
  lstr_Protocol : string;
  lstr_ProtocolPort : Z;
  lstr_AllowedCIDRs : option (list string);
  lstr_TimeoutClientDataMS : Z;
  lstr_TimeoutMemberConnectMS : Z;
  lstr_TimeoutMemberDataMS : Z;
}.

Record LoadBalancerHealthMonitorHTTPRequest := {
  hmhr_ExpectedCodes : list string;
  hmhr_Method : string;
  hmhr_UrlPath : string;
  hmhr_Version : string;
  hmhr_Host : option string;
}.

Record LoadBalancerHealthMonitorRequest := {
  hmr_Tags : option TagMap;
  hmr_Pool : string;
  hmr_DelayS : Z;
  hmr_TimeoutS : Z;
  hmr_UpThreshold : Z;
  hmr_DownThreshold : Z;
  hmr_Type : string;
  hmr_HTTP : option LoadBalancerHealthMonitorHTTPRequest;
}.

(** The zero values, [cloudscale.T{}], that composite literals start from. *)

Definition zero_LoadBalancerRequest : LoadBalancerRequest :=
  {| lbr_Name := ""; lbr_Flavor := ""; lbr_VIPAddresses := None; lbr_Zone := ""; lbr_Tags := None |}.

Definition zero_ListenerRequest : LoadBalancerListenerRequest :=
  {| lstr_Tags := None; lstr_Name := ""; lstr_Pool := ""; lstr_Protocol := "";
     lstr_ProtocolPort := 0; lstr_AllowedCIDRs := None; lstr_TimeoutClientDataMS := 0;
     lstr_TimeoutMemberConnectMS := 0; lstr_TimeoutMemberDataMS := 0 |}.

Definition zero_HealthMonitorRequest : LoadBalancerHealthMonitorRequest :=
  {| hmr_Tags := None; hmr_Pool := ""; hmr_DelayS := 0; hmr_TimeoutS := 0; hmr_UpThreshold := 0;
     hmr_DownThreshold := 0; hmr_Type := ""; hmr_HTTP := None |}.

Definition zero_HTTPRequest : LoadBalancerHealthMonitorHTTPRequest :=
  {| hmhr_ExpectedCodes := []; hmhr_Method := ""; hmhr_UrlPath := ""; hmhr_Version := "";
     hmhr_Host := None |}.

Definition zero_HTTP : LoadBalancerHealthMonitorHTTP :=
  {| hmh_ExpectedCodes := []; hmh_Method := ""; hmh_UrlPath := ""; hmh_Version := "";
     hmh_Host := None |}.

#[global] Instance LoadBalancerStub_eq : EqDecision LoadBalancerStub.
Proof. solve_decision. Defined.

End cloudscale.

Module corev1.

Record Node := {
  node_Name : string;
  node_Labels : gmap string string;
  node_ProviderID : string;     (* Spec.ProviderID *)
}.

End corev1.

(** ** Errors and messages

    An error value is what built it: a cloudscale [*ErrorResponse] with its HTTP
    status, an error of another library (which may wrap one), or [fmt.Errorf] of
    this program.  Human-readable text is kept symbolic, as format string and
    arguments; strings the program compares (resource names) are concrete. *)

#[warnings="-register-all"]
Inductive goerror :=
| ErrorResponse (StatusCode : Z)
| ExternalError (what : string) (wraps : option goerror)
| Errorf (format : string) (args : list fmtarg)
| ErrorfW (format : string) (args : list fmtarg) (wraps : goerror)
with fmtarg :=
| AStr (s : string)
| AInt (z : Z)
| AStrs (l : list string)
| AErr (e : goerror)
| AHealthMonitors (l : list cloudscale.LoadBalancerHealthMonitor)
| AListeners (l : list cloudscale.LoadBalancerListener).

#[warnings="-register-all"]
Inductive text :=
| Sprintf (format : string) (args : list fmtarg)
| Join (parts : list text) (sep : string).

(** A Kubernetes event, as handed to [record.EventRecorder]. *)
Inductive EventType := EventTypeNormal | EventTypeWarning.

Record k8s_event := {
  ev_type : EventType;
  ev_reason : string;
  ev_message : text;
}.
