(* ===== verification/Effects.v ===== *)
(** * Effects: calls to the outside as data, Go functions as finite trees of calls

    A Go function that talks to Kubernetes or to the cloudscale API is a value of
    [M A]: a tree whose nodes are calls ([Call]) and recorded events ([Emit]) and
    whose leaves are a result, a returned error or a panic.  The services are not
    part of the repository, so nothing is said here about what they answer: a
    [World] gives the possible answers, and the logic [wp] quantifies over them.

    Two worlds are used throughout: [history], in which a call may answer
    anything and the state is the list of calls made so far (safety against an
    arbitrary environment), and the components' own worlds, in which named laws
    state the documented behaviour of the API. *)

From Stdlib Require Import ZArith.
From stdpp Require Import base list strings gmap.
From S2P Require Import Prelude GoLib ApiTypes Cloudscale.
Open Scope string_scope.
Open Scope Z_scope.
Open Scope list_scope.

(** ** Calls *)

(** [cloudscale.WithTagFilter]: the tags a listed resource must carry. *)
Definition TagFilter : Type := list (string * string).

Inductive req :=
(* Kubernetes client *)
| K8sGet (key : v1beta1.NamespacedName)
| K8sUpdate (lb : v1beta1.LoadBalancer)
| K8sStatusUpdate (lb : v1beta1.LoadBalancer)
| K8sListLoadBalancers
| K8sListNodes (sel : v1beta1.LabelSelector)
| LabelSelectorAsSelector (sel : v1beta1.LabelSelector)
(* cloudscale services *)
| ServerGet (id : string)
| FloatingIPList
| FloatingIPUpdate (ip : string) (r : cloudscale.FloatingIPUpdateRequest)
| LBList (filter : TagFilter)
| LBGet (uuid : string)
| LBCreate (r : cloudscale.LoadBalancerRequest)
| LBUpdate (uuid : string) (r : cloudscale.LoadBalancerRequest)
| LBDelete (uuid : string)
| PoolList
| PoolCreate (r : cloudscale.LoadBalancerPoolRequest)
| PoolDelete (uuid : string)
| MemberList (pool : string)
| MemberCreate (pool : string) (r : cloudscale.LoadBalancerPoolMemberRequest)
| MemberDelete (pool uuid : string)
| ListenerList
| ListenerCreate (r : cloudscale.LoadBalancerListenerRequest)
| ListenerUpdate (uuid : string) (r : cloudscale.LoadBalancerListenerRequest)
| ListenerDelete (uuid : string)
| HealthMonitorList
| HealthMonitorCreate (r : cloudscale.LoadBalancerHealthMonitorRequest)
| HealthMonitorUpdate (uuid : string) (r : cloudscale.LoadBalancerHealthMonitorRequest)
| HealthMonitorDelete (uuid : string).

(** What a call answers besides an error.  A pointer result may be nil; Update of
    the Kubernetes client also overwrites the object with the server's answer. *)
Definition val (r : req) : Type :=
  match r with
  | K8sGet _ | K8sUpdate _ | K8sStatusUpdate _ => v1beta1.LoadBalancer
  | K8sListLoadBalancers => list v1beta1.LoadBalancer
  | K8sListNodes _ => list corev1.Node
  | LabelSelectorAsSelector _ => unit
  | ServerGet _ => option cloudscale.Server
  | FloatingIPList => list cloudscale.FloatingIP
  | LBList _ => list cloudscale.LoadBalancer
  | LBGet _ | LBCreate _ => option cloudscale.LoadBalancer
  | PoolList => list cloudscale.LoadBalancerPool
  | PoolCreate _ => option cloudscale.LoadBalancerPool
  | MemberList _ => list cloudscale.LoadBalancerPoolMember
  | MemberCreate _ _ => option cloudscale.LoadBalancerPoolMember
  | ListenerList => list cloudscale.LoadBalancerListener
  | ListenerCreate _ => option cloudscale.LoadBalancerListener
  | HealthMonitorList => list cloudscale.LoadBalancerHealthMonitor
  | HealthMonitorCreate _ => option cloudscale.LoadBalancerHealthMonitor
  | FloatingIPUpdate _ _ | LBUpdate _ _ | LBDelete _ | PoolDelete _ | MemberDelete _ _
  | ListenerUpdate _ _ | ListenerDelete _ | HealthMonitorUpdate _ _ | HealthMonitorDelete _ => unit
  end.

Inductive result (A : Type) := Ok (a : A) | Err (e : goerror).
Arguments Ok {A} _.
Arguments Err {A} _.

Definition resp (r : req) : Type := result (val r).

(** Calls that change something at cloudscale. *)
Definition is_cloud_write (r : req) : bool :=
  match r with
  | FloatingIPUpdate _ _ | LBCreate _ | LBUpdate _ _ | LBDelete _
  | PoolCreate _ | PoolDelete _ | MemberCreate _ _ | MemberDelete _ _
  | ListenerCreate _ | ListenerUpdate _ _ | ListenerDelete _
  | HealthMonitorCreate _ | HealthMonitorUpdate _ _ | HealthMonitorDelete _ => true
  | _ => false
  end.

(** Calls that change something in Kubernetes. *)
Definition is_k8s_write (r : req) : bool :=
  match r with K8sUpdate _ | K8sStatusUpdate _ => true | _ => false end.

(** ** Programs *)

Inductive M (A : Type) :=
| Ret (a : A)
| Throw (e : goerror)
| Panic (why : string)
| Emit (ev : k8s_event) (k : M A)
| Call (r : req) (k : resp r -> M A).
Arguments Ret {A} _.
Arguments Throw {A} _.
Arguments Panic {A} _.
Arguments Emit {A} _ _.
Arguments Call {A} _ _.

#[export] Instance M_ret : MRet M := @Ret.

#[export] Instance M_bind : MBind M :=
  fun A B => fix bind (f : A -> M B) (m : M A) : M B :=
    match m with
    | Ret a => f a
    | Throw e => Throw e
    | Panic w => Panic w
    | Emit ev k => Emit ev (bind f k)
    | Call r k => Call r (fun x => bind f (k x))
    end.

(** [x, err := f(); if err != nil { return fmt.Errorf(format, args..., err) }]. *)
Fixpoint wrap {A} (format : string) (args : list fmtarg) (m : M A) : M A :=
  match m with
  | Ret a => Ret a
  | Throw e => Throw (ErrorfW format args e)
  | Panic w => Panic w
  | Emit ev k => Emit ev (wrap format args k)
  | Call r k => Call r (fun x => wrap format args (k x))
  end.

(** A call whose error is returned as it is. *)
Definition call (r : req) : M (val r) :=
  Call r (fun x => match x with Ok v => Ret v | Err e => Throw e end).

(** A call whose error is inspected by the caller. *)
Definition call_err (r : req) : M (resp r) := Call r Ret.

(** [fmt.Errorf(format, args...)] returned without a wrapped error. *)
Definition fail {A} (format : string) (args : list fmtarg) : M A := Throw (Errorf format args).

(** [r.Recorder.Eventf(&lb, type, reason, format, args...)]. *)
Definition Eventf (t : EventType) (reason format : string) (args : list fmtarg) : M unit :=
  Emit {| ev_type := t; ev_reason := reason; ev_message := Sprintf format args |} (Ret tt).

(** [if x == nil { return fmt.Errorf(format) }] on a pointer result. *)
Definition non_nil {A} (o : option A) (format : string) : M A :=
  match o with Some a => Ret a | None => fail format [] end.

(** [for _, x := range l { body }] whose body returns early on error. *)
Fixpoint forM_ {A} (l : list A) (body : A -> M unit) : M unit :=
  match l with
  | [] => Ret tt
  | x :: xs => body x ≫= fun _ => forM_ xs body
  end.

(** A loop that appends one result per element. *)
Fixpoint mapM {A B} (l : list A) (body : A -> M B) : M (list B) :=
  match l with
  | [] => Ret []
  | x :: xs => y ← body x; ys ← mapM xs body; Ret (y :: ys)
  end.

(** A loop with an accumulator. *)
Fixpoint foldM {A B} (l : list A) (acc : B) (body : B -> A -> M B) : M B :=
  match l with
  | [] => Ret acc
  | x :: xs => acc' ← body acc x; foldM xs acc' body
  end.

(** ** Worlds and the logic of programs *)

Inductive outcome (A : Type) := Returned (a : A) | Failed (e : goerror) | Panicked (why : string).
Arguments Returned {A} _.
Arguments Failed {A} _.
Arguments Panicked {A} _.

(** The environment: which answers a call may get in a state, and the state after
    it; what recording an event does to the state. *)
Class World (W : Type) := {
  answers : W -> forall r : req, resp r -> W -> Prop;
  recorded : W -> k8s_event -> W;
}.

Section Logic.
Context {W : Type} `{World W}.

(** [wp m w Q]: whatever the environment answers, running [m] from [w] ends in a
    state and an outcome that satisfy [Q]. *)
Fixpoint wp {A} (m : M A) (w : W) (Q : W -> outcome A -> Prop) : Prop :=
  match m with
  | Ret a => Q w (Returned a)
  | Throw e => Q w (Failed e)
  | Panic s => Q w (Panicked s)
  | Emit ev k => wp k (recorded w ev) Q
  | Call r k => forall x w', answers w r x w' -> wp (k x) w' Q
  end.

(** How an outcome continues through a bind. *)
Definition continue {A B} (f : A -> M B) (Q : W -> outcome B -> Prop) : W -> outcome A -> Prop :=
  fun w o => match o with
  | Returned a => wp (f a) w Q
  | Failed e => Q w (Failed e)
  | Panicked s => Q w (Panicked s)
  end.

Lemma wp_mono {A} (m : M A) w (Q Q' : W -> outcome A -> Prop) :
  (forall w o, Q w o -> Q' w o) -> wp m w Q -> wp m w Q'.
Proof. intros HQ. revert w. induction m; cbn; eauto. Qed.

Lemma wp_and {A} (m : M A) w (Q Q' : W -> outcome A -> Prop) :
  wp m w Q -> wp m w Q' -> wp m w (fun w o => Q w o /\ Q' w o).
Proof. revert w. induction m; cbn; eauto. Qed.

Lemma wp_bind {A B} (m : M A) (f : A -> M B) w Q :
  wp (m ≫= f) w Q <-> wp m w (continue f Q).
Proof.
  revert w. induction m as [a|e|s|ev k IH|r k IH]; intros w; cbn; try done.
  setoid_rewrite <- IH. done.
Qed.

(** When only the end of a program matters. *)
Lemma wp_bind_any {A B} (m : M A) (f : A -> M B) w Q :
  (forall w e, Q w (Failed e)) -> (forall w s, Q w (Panicked s)) ->
  (forall a w, wp (f a) w Q) -> wp (m ≫= f) w Q.
Proof. intros HF HP Hf. revert w. induction m; intros w; cbn; auto. Qed.

(** How an outcome continues through [wrap]. *)
Definition wrapped {A} (format : string) (args : list fmtarg) (Q : W -> outcome A -> Prop) :
    W -> outcome A -> Prop :=
  fun w o => match o with
  | Failed e => Q w (Failed (ErrorfW format args e))
  | _ => Q w o
  end.

Lemma wp_wrap {A} format args (m : M A) w Q :
  wp (wrap format args m) w Q <-> wp m w (wrapped format args Q).
Proof.
  revert w. induction m as [a|e|s|ev k IH|r k IH]; intros w; cbn; try done.
  setoid_rewrite <- IH. done.
Qed.

Lemma wp_call r w Q :
  (forall w' v, answers w r (Ok v) w' -> Q w' (Returned v)) ->
  (forall w' e, answers w r (Err e) w' -> Q w' (Failed e)) ->
  wp (call r) w Q.
Proof. intros HO HE [v|e] w' Hx; cbn; eauto. Qed.

(** Loop rules: an invariant over the prefix already processed. *)
Lemma wp_forM_ {A} (l : list A) body w (I : list A -> W -> Prop) Q :
  I [] w ->
  (forall pre x rest w, l = pre ++ x :: rest -> I pre w ->
    wp (body x) w (fun w' o => match o with
      | Returned _ => I (pre ++ [x]) w'
      | Failed e => Q w' (Failed e)
      | Panicked s => Q w' (Panicked s) end)) ->
  (forall w, I l w -> Q w (Returned tt)) ->
  wp (forM_ l body) w Q.
Proof.
  intros H0 Hstep Hend.
  cut (forall rest pre w, l = pre ++ rest -> I pre w -> wp (forM_ rest body) w Q).
  { intros Hc. by apply (Hc l []). }
  induction rest as [|x rest IH]; intros pre w' E HI; cbn.
  - rewrite app_nil_r in E. subst. by apply Hend.
  - apply wp_bind. eapply wp_mono; [|by eapply Hstep].
    intros w1 [[]|e|s]; cbn; try done. intros HI1.
    apply (IH (pre ++ [x])); [|done]. by rewrite <- app_assoc.
Qed.

Lemma wp_mapM {A B} (l : list A) (body : A -> M B) w (I : list A -> list B -> W -> Prop) Q :
  I [] [] w ->
  (forall pre x rest ys w, l = pre ++ x :: rest -> I pre ys w ->
    wp (body x) w (fun w' o => match o with
      | Returned y => I (pre ++ [x]) (ys ++ [y]) w'
      | Failed e => Q w' (Failed e)
      | Panicked s => Q w' (Panicked s) end)) ->
  (forall ys w, I l ys w -> Q w (Returned ys)) ->
  wp (mapM l body) w Q.
Proof.
  intros H0 Hstep Hend.
  cut (forall rest pre ys w Q', l = pre ++ rest -> I pre ys w ->
    (forall zs w, I l (ys ++ zs) w -> Q' w (Returned zs)) ->
    (forall w e, Q w (Failed e) -> Q' w (Failed e)) ->
    (forall w s, Q w (Panicked s) -> Q' w (Panicked s)) ->
    wp (mapM rest body) w Q').
  { intros Hc. eapply (Hc l [] []); eauto. }
  induction rest as [|x rest IH]; intros pre ys w' Q' E HI HR HF HP; cbn.
  - apply HR. rewrite app_nil_r in E. subst. by rewrite app_nil_r.
  - apply wp_bind. eapply wp_mono; [|by eapply Hstep].
    intros w1 [y|e|s]; cbn; eauto. intros HI1. apply wp_bind.
    apply (IH (pre ++ [x]) (ys ++ [y])); cbn; eauto; [by rewrite <- app_assoc|].
    intros zs w2 HI2. apply HR. by rewrite <- app_assoc in HI2.
Qed.

Lemma wp_foldM {A B} (l : list A) (acc : B) (body : B -> A -> M B) w
    (I : list A -> B -> W -> Prop) Q :
  I [] acc w ->
  (forall pre x rest acc w, l = pre ++ x :: rest -> I pre acc w ->
    wp (body acc x) w (fun w' o => match o with
      | Returned acc' => I (pre ++ [x]) acc' w'
      | Failed e => Q w' (Failed e)
      | Panicked s => Q w' (Panicked s) end)) ->
  (forall acc w, I l acc w -> Q w (Returned acc)) ->
  wp (foldM l acc body) w Q.
Proof.
  intros H0 Hstep Hend.
  cut (forall rest pre acc w, l = pre ++ rest -> I pre acc w -> wp (foldM rest acc body) w Q).
  { intros Hc. by apply (Hc l []). }
  induction rest as [|x rest IH]; intros pre acc' w' E HI; cbn.
  - rewrite app_nil_r in E. subst. by apply Hend.
  - apply wp_bind. eapply wp_mono; [|by eapply Hstep].
    intros w1 [y|e|s]; cbn; try done. intros HI1.
    apply (IH (pre ++ [x])); [|done]. by rewrite <- app_assoc.
Qed.
End Logic.

(** ** Histories: any environment *)

Inductive action := ACall (r : req) (x : resp r) | AEvent (ev : k8s_event).

#[export] Instance history : World (list action) := {
  answers h r x h' := h' = h ++ [ACall r x];
  recorded h ev := h ++ [AEvent ev];
}.

(** The calls of a history, in order. *)
Fixpoint calls (h : list action) : list req :=
  match h with
  | [] => []
  | ACall r _ :: t => r :: calls t
  | AEvent _ :: t => calls t
  end.

Lemma calls_app h1 h2 : calls (h1 ++ h2) = calls h1 ++ calls h2.
Proof. induction h1 as [|[r x|ev] h1 IH]; cbn; [done| |done]. by rewrite IH. Qed.

#[export] Hint Rewrite calls_app : lbc_rw.

(** [h'] extends [h] by the calls [cs]. *)
Definition extends (h : list action) (cs : list req) (h' : list action) : Prop :=
  exists t, h' = h ++ t /\ calls t = cs.

Lemma extends_refl h : extends h [] h.
Proof. exists []. by rewrite app_nil_r. Qed.

Lemma extends_trans h1 cs1 h2 cs2 h3 :
  extends h1 cs1 h2 -> extends h2 cs2 h3 -> extends h1 (cs1 ++ cs2) h3.
Proof.
  intros (t1 & -> & <-) (t2 & -> & <-). exists (t1 ++ t2). by rewrite app_assoc, calls_app.
Qed.

Lemma extends_call h r x : extends h [r] (h ++ [ACall r x]).
Proof. by exists [ACall r x]. Qed.

Lemma extends_event h cs h' ev : extends h cs h' -> extends h cs (h' ++ [AEvent ev]).
Proof. intros (t & -> & <-). exists (t ++ [AEvent ev]). by rewrite app_assoc, calls_app, app_nil_r. Qed.

#[export] Hint Resolve extends_refl extends_call extends_event : lbc.

(** ** Executions: one environment, by computation *)

Class Handler (W : Type) := {
  handle : W -> forall r : req, resp r * W;
  note : W -> k8s_event -> W;
}.

#[export] Instance handler_world (W : Type) `{Handler W} : World W | 10 := {
  answers w r x w' := handle w r = (x, w');
  recorded := note;
}.

Fixpoint run {W} `{Handler W} {A} (m : M A) (w : W) : W * outcome A :=
  match m with
  | Ret a => (w, Returned a)
  | Throw e => (w, Failed e)
  | Panic s => (w, Panicked s)
  | Emit ev k => run k (note w ev)
  | Call r k => let '(x, w') := handle w r in run (k x) w'
  end.

(** The logic is exact on one environment. *)
Lemma wp_run {W} `{Handler W} {A} (m : M A) (w : W) Q :
  wp m w Q <-> Q (fst (run m w)) (snd (run m w)).
Proof.
  revert w. induction m as [a|e|s|ev k IH|r k IH]; intros w; cbn; try done.
  destruct (handle w r) as [x w'] eqn:E. rewrite <- IH. split.
  - intros Hx. by apply Hx.
  - intros Hx x' w'' [= <- <-]. done.
Qed.

(** An environment together with the history of the calls made in it. *)
#[export] Instance traced (W : Type) `{World W} : World (W * list action) | 20 := {
  answers s r x s' := answers (fst s) r x (fst s') /\ snd s' = snd s ++ [ACall r x];
  recorded s ev := (recorded (fst s) ev, snd s ++ [AEvent ev]);
}.

(** What holds of the environment and what holds of the history hold together. *)
Lemma wp_traced {W} `{World W} {A} (m : M A) (w : W) (h : list action) Q1 Q2 :
  wp m w Q1 -> wp m h Q2 -> wp m (w, h) (fun s o => Q1 (fst s) o /\ Q2 (snd s) o).
Proof.
  revert w h. induction m as [a|e|s|ev k IH|r k IH]; intros w h; cbn; auto.
  intros H1 H2 x [w' h'] [Hw Hh]. cbn in *. auto.
Qed.

Lemma wp_traced_run {W} `{Handler W} {A} (m : M A) (w : W) (h : list action) Q :
  wp m (w, h) Q -> exists h', Q (fst (run m w), h') (snd (run m w)).
Proof.
  revert w h. induction m as [a|e|s|ev k IH|r k IH]; intros w h; cbn; eauto.
  intros Hm. destruct (handle w r) as [x w'] eqn:E. apply (IH x w' (h ++ [ACall r x])). by apply Hm.
Qed.

(** ** The calls a program can make at all *)

Fixpoint only {A} (P : req -> Prop) (m : M A) : Prop :=
  match m with
  | Ret _ | Throw _ | Panic _ => True
  | Emit _ k => only P k
  | Call r k => P r /\ forall x, only P (k x)
  end.

Section Only.
Context (P : req -> Prop).

Lemma only_bind {A B} (m : M A) (f : A -> M B) :
  only P m -> (forall a, only P (f a)) -> only P (m ≫= f).
Proof. intros Hm Hf. induction m; cbn in *; naive_solver. Qed.

Lemma only_wrap {A} format args (m : M A) : only P m -> only P (wrap format args m).
Proof. intros Hm. induction m; cbn in *; naive_solver. Qed.

Lemma only_call r : P r -> only P (call r).
Proof. intros HP. split; [done|]. by intros [v|e]. Qed.

Lemma only_call_err r : P r -> only P (call_err r).
Proof. intros HP. by split. Qed.

Lemma only_Eventf t reason format args : only P (Eventf t reason format args).
Proof. done. Qed.

Lemma only_non_nil {A} (o : option A) format : only P (non_nil o format).
Proof. by destruct o. Qed.

Lemma only_ret {A} (a : A) : only P (mret a).
Proof. done. Qed.

Lemma only_forM_ {A} (l : list A) body :
  (forall x, x ∈ l -> only P (body x)) -> only P (forM_ l body).
Proof.
  induction l as [|x l IH]; intros Hb; cbn; [done|].
  apply only_bind; [apply Hb; set_solver|]. intros _. apply IH. set_solver.
Qed.

Lemma only_mapM {A B} (l : list A) (body : A -> M B) :
  (forall x, x ∈ l -> only P (body x)) -> only P (mapM l body).
Proof.
  induction l as [|x l IH]; intros Hb; cbn; [done|].
  apply only_bind; [apply Hb; set_solver|]. intros y.
  apply only_bind; [apply IH; set_solver|done].
Qed.

Lemma only_foldM {A B} (l : list A) (acc : B) (body : B -> A -> M B) :
  (forall acc x, x ∈ l -> only P (body acc x)) -> only P (foldM l acc body).
Proof.
  revert acc. induction l as [|x l IH]; intros acc Hb; cbn; [done|].
  apply only_bind; [apply Hb; set_solver|]. intros acc'. apply IH. set_solver.
Qed.
End Only.

Lemma only_mono {A} (P Q : req -> Prop) (m : M A) :
  (forall r, P r -> Q r) -> only P m -> only Q m.
Proof. intros HPQ. induction m; cbn; naive_solver. Qed.

#[export] Hint Resolve only_bind only_wrap only_call only_call_err only_Eventf
  only_non_nil only_ret only_forM_ only_mapM only_foldM : lbc.

(** In any environment the calls made satisfy [P]. *)
Lemma only_history {A} (P : req -> Prop) (m : M A) h :
  only P m -> wp m h (fun h' _ => exists t, h' = h ++ t /\ Forall P (calls t)).
Proof.
  revert h. induction m as [a|e|s|ev k IH|r k IH]; intros h Hm; cbn in *;
    try (exists []; rewrite app_nil_r; split; [done|constructor]).
  - eapply wp_mono; [|by apply IH]. intros h' _ [t [-> Ht]].
    exists (AEvent ev :: t). by rewrite <- app_assoc.
  - intros x h' ->. destruct Hm as [HP Hm].
    eapply wp_mono; [|by apply IH]. intros h' _ [t [-> Ht]].
    exists (ACall r x :: t). rewrite <- app_assoc. split; [done|]. cbn. by constructor.
Qed.

Lemma history_grows {A} (m : M A) (h : list action) : wp m h (fun h' _ => exists t, h' = h ++ t).
Proof.
  eapply wp_mono; [|apply (only_history (fun _ => True))]; [|by induction m; cbn; auto].
  intros h' _ (t & -> & _). by exists t.
Qed.

(** Whatever the first part did, the history has only grown. *)
Lemma wp_bind_grows {A B} (m : M A) (f : A -> M B) (h : list action) Q :
  (forall h' e, Q h' (Failed e)) -> (forall h' s, Q h' (Panicked s)) ->
  (forall a t, wp (f a) (h ++ t) Q) -> wp (m ≫= f) h Q.
Proof.
  intros HF HP Hf. apply wp_bind. eapply wp_mono; [|apply history_grows]. intros h' [a|e|s] [t ->]; cbn; auto.
Qed.

(** What every allowed call keeps, the program keeps. *)
Lemma only_invariant {W} `{World W} {A} (P : req -> Prop) (I : W -> Prop) (m : M A) (w : W) :
  (forall w r x w', P r -> answers w r x w' -> I w -> I w') ->
  (forall w ev, I w -> I (recorded w ev)) ->
  only P m -> I w -> wp m w (fun w' _ => I w').
Proof.
  intros Hc He. revert w. induction m as [a|e|s|ev k IH|r k IH]; intros w Hm HI; cbn in *; auto.
  destruct Hm as [HP Hm]. intros x w' Hx. apply IH; eauto.
Qed.

(** The changes at cloudscale that a history makes, in order. *)
Definition writes (h : list action) : list req := List.filter is_cloud_write (calls h).

Lemma writes_app h1 h2 : writes (h1 ++ h2) = writes h1 ++ writes h2.
Proof. unfold writes. by rewrite calls_app, List.filter_app. Qed.

#[export] Hint Rewrite writes_app : lbc_rw.

Definition is_read (r : req) : Prop := is_cloud_write r = false /\ is_k8s_write r = false.

Lemma reads_no_writes (cs : list req) : Forall is_read cs -> List.filter is_cloud_write cs = [].
Proof. induction 1 as [|r cs [Hr _] _ IH]; cbn; [done|]. by rewrite Hr. Qed.

(** A program that only reads changes nothing, in any environment. *)
Lemma only_reads_history {A} (m : M A) h :
  only is_read m -> wp m h (fun h' _ => exists t, h' = h ++ t /\ Forall is_read (calls t) /\ writes t = []).
Proof.
  intros Hm. eapply wp_mono; [|by apply only_history]. intros h' _ (t & -> & Ht).
  exists t. split; [done|]. split; [done|]. by apply reads_no_writes.
Qed.

(** ** Ordering: calls that only happen after something else *)

(** Every call in [P] is preceded by an action in [G]. *)
Definition preceded (P : req -> Prop) (G : action -> Prop) (h : list action) : Prop :=
  forall pre r x post, h = pre ++ ACall r x :: post -> P r -> Exists G pre.

Section Preceded.
Context (P : req -> Prop) (G : action -> Prop).

Lemma preceded_nil : preceded P G [].
Proof. intros pre r x post E. by destruct pre. Qed.

Lemma preceded_snoc h a :
  preceded P G h -> (forall r x, a = ACall r x -> P r -> Exists G h) -> preceded P G (h ++ [a]).
Proof.
  intros Hh Ha pre r x post E HP.
  destruct post as [|b post] using rev_ind.
  - apply app_inj_tail in E as [-> E]. eauto.
  - rewrite app_comm_cons, app_assoc in E. apply app_inj_tail in E as [E _]. eauto.
Qed.

Lemma preceded_snoc_other h r x : preceded P G h -> ~ P r -> preceded P G (h ++ [ACall r x]).
Proof. intros Hh Hr. apply preceded_snoc; [done|]. intros r' x' E HP. by injection E as -> _. Qed.

Lemma Exists_snoc (h t : list action) : Exists G h -> Exists G (h ++ t).
Proof. intros Hh. apply Exists_app. by left. Qed.

(** Once the guard is in the history anything may follow. *)
Lemma preceded_any {A} (m : M A) h :
  Exists G h -> preceded P G h -> wp m h (fun h' _ => preceded P G h').
Proof.
  revert h. induction m as [a|e|s|ev k IH|r k IH]; intros h HG Hp; cbn; try done.
  - apply IH; [by apply Exists_snoc|]. apply preceded_snoc; [done|]. by intros.
  - intros x h' ->. apply IH; [by apply Exists_snoc|]. apply preceded_snoc; [done|]. by intros.
Qed.

(** A program without such calls needs no guard. *)
Lemma preceded_only {A} (m : M A) h :
  only (fun r => ~ P r) m -> preceded P G h -> wp m h (fun h' _ => preceded P G h').
Proof.
  apply (only_invariant (W := list action)).
  - intros w r x w' HnP -> Hw. apply preceded_snoc; [done|]. intros r' x' [= -> _]. done.
  - intros w ev Hw. apply preceded_snoc; [done|]. by intros.
Qed.

(** Sequencing with what the first part establishes. *)
Lemma preceded_bind {A B} (m : M A) (f : A -> M B) h (K : A -> list action -> Prop) :
  wp m h (fun h' o => preceded P G h' /\ match o with Returned a => K a h' | _ => True end) ->
  (forall a h', preceded P G h' -> K a h' -> wp (f a) h' (fun h' _ => preceded P G h')) ->
  wp (m ≫= f) h (fun h' _ => preceded P G h').
Proof.
  intros Hm Hf. apply wp_bind. eapply wp_mono; [|exact Hm].
  intros h' [a|e|s] [Hp HK]; cbn; auto.
Qed.

Lemma preceded_wrap {A} format args (m : M A) h :
  wp m h (fun h' _ => preceded P G h') -> wp (wrap format args m) h (fun h' _ => preceded P G h').
Proof. intros Hm. apply wp_wrap. eapply wp_mono; [|exact Hm]. by intros h' []. Qed.
End Preceded.

(** ** Programs that cannot panic *)

Fixpoint panic_free {A} (m : M A) : Prop :=
  match m with
  | Ret _ | Throw _ => True
  | Panic _ => False
  | Emit _ k => panic_free k
  | Call _ k => forall x, panic_free (k x)
  end.

Section PanicFree.
Lemma panic_free_bind {A B} (m : M A) (f : A -> M B) :
  panic_free m -> (forall a, panic_free (f a)) -> panic_free (m ≫= f).
Proof. intros Hm Hf. induction m; cbn in *; naive_solver. Qed.

Lemma panic_free_wrap {A} format args (m : M A) : panic_free m -> panic_free (wrap format args m).
Proof. intros Hm. induction m; cbn in *; naive_solver. Qed.

Lemma panic_free_call r : panic_free (call r).
Proof. by intros [v|e]. Qed.

Lemma panic_free_non_nil {A} (o : option A) format : panic_free (non_nil o format).
Proof. by destruct o. Qed.

Lemma panic_free_forM_ {A} (l : list A) body :
  (forall x, panic_free (body x)) -> panic_free (forM_ l body).
Proof. intros Hb. induction l as [|x l IH]; cbn; auto using panic_free_bind. Qed.

Lemma panic_free_foldM {A B} (l : list A) (acc : B) (body : B -> A -> M B) :
  (forall acc x, panic_free (body acc x)) -> panic_free (foldM l acc body).
Proof. intros Hb. revert acc. induction l as [|x l IH]; intros acc; cbn; auto using panic_free_bind. Qed.

Lemma panic_free_history {A} (m : M A) (h : list action) :
  panic_free m -> wp m h (fun _ o => forall s, o <> Panicked s).
Proof. revert h. induction m; intros h Hm; cbn in *; try done; auto. Qed.
End PanicFree.

(** ** The values a program can return, and where it can panic *)

Fixpoint yields {A} (R : A -> Prop) (m : M A) : Prop :=
  match m with
  | Ret a => R a
  | Throw _ | Panic _ => True
  | Emit _ k => yields R k
  | Call _ k => forall x, yields R (k x)
  end.

Lemma yields_bind {A B} (R : B -> Prop) (m : M A) (f : A -> M B) :
  (forall a, yields R (f a)) -> yields R (m ≫= f).
Proof. intros Hf. induction m; cbn; auto. Qed.

Lemma yields_wp {W} `{World W} {A} (R : A -> Prop) (m : M A) (w : W) :
  yields R m -> wp m w (fun _ o => match o with Returned a => R a | _ => True end).
Proof. revert w. induction m; intros w Hm; cbn in *; auto. Qed.

(** Panics only after an action in [G]. *)
Definition panics_after {A} (G : action -> Prop) (m : M A) : Prop :=
  forall h : list action, wp m h (fun h' o => match o with Panicked _ => Exists G h' | _ => True end).

Section PanicsAfter.
Context (G : action -> Prop).

Lemma panics_after_bind {A B} (m : M A) (f : A -> M B) :
  panics_after G m -> (forall a, panics_after G (f a)) -> panics_after G (m ≫= f).
Proof.
  intros Hm Hf h. apply wp_bind. eapply wp_mono; [|apply Hm].
  intros h' [a|e|s]; cbn; try done. intros _. apply Hf.
Qed.

Lemma panics_after_wrap {A} format args (m : M A) : panics_after G m -> panics_after G (wrap format args m).
Proof. intros Hm h. apply wp_wrap. eapply wp_mono; [|apply Hm]. by intros h' []. Qed.

Lemma panics_after_mapM {A B} (l : list A) (body : A -> M B) :
  (forall x, panics_after G (body x)) -> panics_after G (mapM l body).
Proof.
  intros Hb. induction l as [|x l IH]; [done|]. cbn.
  apply panics_after_bind; [done|]. intros y. by apply panics_after_bind.
Qed.

Lemma panic_free_after {A} (m : M A) : panic_free m -> panics_after G m.
Proof.
  intros Hm h. eapply wp_mono; [|by apply panic_free_history].
  intros h' [a|e|s] Ho; try done. by destruct (Ho s).
Qed.
End PanicsAfter.

(** Fails only in histories of [R]: every returned error has a reason. *)
Definition fails_only {A} (R : list action -> Prop) (m : M A) : Prop :=
  forall h : list action, wp m h (fun h' o => match o with Failed _ => R h' | _ => True end).

Section FailsOnly.
Context (R : list action -> Prop).

Lemma fails_only_mono {A} (R' : list action -> Prop) (m : M A) :
  (forall h, R' h -> R h) -> fails_only R' m -> fails_only R m.
Proof. intros HR Hm h. eapply wp_mono; [|apply Hm]. intros h' []; auto. Qed.

Lemma fails_only_bind {A B} (m : M A) (f : A -> M B) :
  fails_only R m -> (forall a, fails_only R (f a)) -> fails_only R (m ≫= f).
Proof.
  intros Hm Hf h. apply wp_bind. eapply wp_mono; [|apply Hm].
  intros h' [a|e|s]; cbn; try done. intros _. apply Hf.
Qed.

Lemma fails_only_wrap {A} format args (m : M A) : fails_only R m -> fails_only R (wrap format args m).
Proof. intros Hm h. apply wp_wrap. eapply wp_mono; [|apply Hm]. by intros h' []. Qed.

Lemma fails_only_call r : (forall h e, R (h ++ [ACall r (Err e)])) -> fails_only R (call r).
Proof. intros Hr h x h' ->. by destruct x; cbn. Qed.

Lemma fails_only_at {A} (m : M A) (h : list action) :
  fails_only R m -> wp m h (fun h' o => match o with Failed _ => R h' | _ => True end).
Proof. done. Qed.

(** A call and what follows it, for checks of the answer. *)
Lemma fails_only_call_bind {B} r format args (f : val r -> M B) :
  (forall h e, R (h ++ [ACall r (Err e)])) ->
  (forall h v, wp (f v) (h ++ [ACall r (Ok v)]) (fun h' o => match o with Failed _ => R h' | _ => True end)) ->
  fails_only R (wrap format args (call r) ≫= f).
Proof. intros He Hf h. apply wp_bind, wp_wrap. intros x h' ->. destruct x; cbn; [apply Hf|apply He]. Qed.

Lemma fails_only_mapM {A B} (l : list A) (body : A -> M B) :
  (forall x, x ∈ l -> fails_only R (body x)) -> fails_only R (mapM l body).
Proof.
  induction l as [|x l IH]; intros Hb; [done|]. cbn.
  apply fails_only_bind; [apply Hb; by left|]. intros y.
  apply fails_only_bind; [apply IH; intros; apply Hb; by right|done].
Qed.

Lemma fails_only_forM_ {A} (l : list A) body :
  (forall x, fails_only R (body x)) -> fails_only R (forM_ l body).
Proof. intros Hb. induction l as [|x l IH]; [done|]. by apply fails_only_bind. Qed.

Lemma fails_only_foldM {A B} (l : list A) (acc : B) (body : B -> A -> M B) :
  (forall acc x, fails_only R (body acc x)) -> fails_only R (foldM l acc body).
Proof.
  intros Hb. revert acc. induction l as [|x l IH]; intros acc; [done|].
  cbn. by apply fails_only_bind.
Qed.
End FailsOnly.

(** ** Proof automation for programs *)

(** Structural goals [only P m]: the call sites remain. *)
Ltac only_step :=
  lazymatch goal with
  | |- only _ (_ ≫= _) => apply only_bind; [|intros ?]
  | |- only _ (wrap _ _ _) => apply only_wrap
  | |- only _ (call _) => apply only_call
  | |- only _ (call_err _) => apply only_call_err
  | |- only _ (forM_ _ _) => apply only_forM_; intros ? ?
  | |- only _ (mapM _ _) => apply only_mapM; intros ? ?
  | |- only _ (foldM _ _ _) => apply only_foldM; intros ? ? ?
  | |- only _ (Eventf _ _ _ _) => exact I
  | |- only _ (non_nil _ _) => apply only_non_nil
  | |- only _ (Ret _) => exact I
  | |- only _ (mret _) => exact I
  | |- only _ (Throw _) => exact I
  | |- only _ (fail _ _) => exact I
  | |- only _ (Panic _) => exact I
  | |- only _ (if ?b then _ else _) => destruct b eqn:?
  | |- only _ (match ?x with _ => _ end) => destruct x eqn:?
  | |- only _ (let '_ := ?x in _) => destruct x eqn:?
  end.

Ltac only_steps := repeat (only_step; cbn beta).

(** Structural goals [panic_free m]. *)
Ltac panic_step :=
  lazymatch goal with
  | |- panic_free (_ ≫= _) => apply panic_free_bind; [|intros ?]
  | |- panic_free (wrap _ _ _) => apply panic_free_wrap
  | |- panic_free (call _) => apply panic_free_call
  | |- panic_free (call_err _) => intros ?; exact I
  | |- panic_free (forM_ _ _) => apply panic_free_forM_; intros ?
  | |- panic_free (foldM _ _ _) => apply panic_free_foldM; intros ? ?
  | |- panic_free (Eventf _ _ _ _) => exact I
  | |- panic_free (non_nil _ _) => apply panic_free_non_nil
  | |- panic_free (mret _) => exact I
  | |- panic_free (Ret _) => exact I
  | |- panic_free (Throw _) => exact I
  | |- panic_free (fail _ _) => exact I
  | |- panic_free (if ?b then _ else _) => destruct b eqn:?
  | |- panic_free (match ?x with _ => _ end) => destruct x eqn:?
  end.

Ltac panic_steps := repeat (panic_step; cbn beta).

(** Structural goals [fails_only R m]: the reasons remain. *)
Ltac fails_step :=
  lazymatch goal with
  | |- fails_only _ (wrap _ _ (call _) ≫= (fun x => non_nil x _ ≫= _)) =>
      apply fails_only_call_bind; [|intros ? [?|]; cbn [non_nil mbind M_bind]; [apply fails_only_at|cbn]]
  | |- fails_only _ (wrap _ _ (call _) ≫= (fun x => non_nil x _)) =>
      apply fails_only_call_bind; [|intros ? [?|]; cbn [non_nil]; [apply fails_only_at|cbn]]
  | |- fails_only _ (_ ≫= _) => apply fails_only_bind; [|intros ?]
  | |- fails_only _ (wrap _ _ _) => apply fails_only_wrap
  | |- fails_only _ (call _) => apply fails_only_call
  | |- fails_only _ (forM_ _ _) => apply fails_only_forM_; intros ?
  | |- fails_only _ (foldM _ _ _) => apply fails_only_foldM; intros ? ?
  | |- fails_only _ (mapM _ _) => apply fails_only_mapM; intros ? ?
  | |- fails_only _ (Eventf _ _ _ _) => by intros ?
  | |- fails_only _ (mret _) => by intros ?
  | |- fails_only _ (Panic _) => by intros ?
  | |- fails_only _ (Ret _) => by intros ?
  | |- fails_only _ (if ?b then _ else _) => destruct b eqn:?
  | |- fails_only _ (match ?x with _ => _ end) => destruct x eqn:?
  end.

Ltac fails_steps := repeat (fails_step; cbn beta).

(** Symbolic execution of [wp]: one construct of the program per step. *)
Ltac wp_step :=
  lazymatch goal with
  | |- wp (_ ≫= _) _ _ => apply wp_bind
  | |- wp (wrap _ _ _) _ _ => apply wp_wrap
  | |- wp (call _) _ _ => apply wp_call; [intros ? ? ?|intros ? ? ?]; cbn [continue wrapped]
  | |- wp (Ret _) _ _ => cbn [wp continue wrapped]
  | |- wp (mret _) _ _ => cbn [wp continue wrapped]
  | |- wp (Throw _) _ _ => cbn [wp continue wrapped]
  | |- wp (fail _ _) _ _ => cbn [wp continue wrapped fail]
  | |- wp (Panic _) _ _ => cbn [wp continue wrapped]
  | |- wp (Eventf _ _ _ _) _ _ => cbn [wp continue wrapped Eventf]
  | |- wp (if ?b then _ else _) _ _ => destruct b eqn:?
  | |- wp (match ?x with _ => _ end) _ _ => destruct x eqn:?
  | |- continue _ _ _ _ => cbn [continue]
  | |- wrapped _ _ _ _ _ => cbn [wrapped]
  end.

(** Run to the next call, branch or loop. *)
Ltac wp_steps := repeat (wp_step; cbn beta iota).

(** In the world of histories an answer extends the history. *)
Ltac hist :=
  repeat match goal with
  | H : answers _ _ _ _ |- _ => cbn [answers history] in H; subst
  end.
