(* ===== verification/External.v ===== *)
(** * External: interfaces of the library functions the program calls

    Pure functions of packages that are not in the repository
    (k8s.io/apimachinery/util/sets, k8s.io/utils/ptr,
    controller-runtime's client and controllerutil).  They are parameters of the
    model: the class [Lib] names the operations, the class [LibLaws] states their
    documentation, and [ref_lib] is a concrete instance that satisfies it. *)

From Stdlib Require Import ZArith Sorting.Sorted.
From stdpp Require Import base list strings gmap sorting.
From S2P Require Import Prelude GoLib ApiTypes Cloudscale.
Open Scope string_scope.
Open Scope Z_scope.
Open Scope list_scope.

Class Lib := {
  (** sets.Set[string] *)
  StringSet : Type;
  sets_New : StringSet;
  sets_Insert : StringSet -> string -> StringSet;
  sets_List : StringSet -> list string;
  (** ptr.Deref *)
  ptr_Deref : forall {A : Type}, option A -> A -> A;
  (** client.IgnoreNotFound, and the test it documents *)
  IsNotFound : goerror -> bool;
  IgnoreNotFound : goerror -> option goerror;
  (** controllerutil, on the object's list of finalizers *)
  ContainsFinalizer : list string -> string -> bool;
  AddFinalizer : list string -> string -> list string * bool;
  RemoveFinalizer : list string -> string -> list string * bool;
}.

(** Strictly increasing, the order of [sets.List]. *)
Definition str_lt (a b : string) : Prop := Compare a b < 0.

Class LibLaws (L : Lib) : Prop := {
  (** "List returns the contents as a sorted T slice." *)
  elem_of_New x : x ∈ sets_List sets_New <-> False;
  elem_of_Insert s y x : x ∈ sets_List (sets_Insert s y) <-> x = y \/ x ∈ sets_List s;
  List_sorted s : StronglySorted str_lt (sets_List s);
  (** "Deref dereferences ptr and returns the value it points to if no nil, or else returns def." *)
  Deref_Some {A : Type} (a d : A) : ptr_Deref (Some a) d = a;
  Deref_None {A : Type} (d : A) : ptr_Deref None d = d;
  (** "IgnoreNotFound returns nil on NotFound errors; all other values are returned unmodified." *)
  IgnoreNotFound_spec e : IgnoreNotFound e = if IsNotFound e then None else Some e;
  (** "ContainsFinalizer checks an Object that the provided finalizer is present." *)
  ContainsFinalizer_spec fs f : ContainsFinalizer fs f = true <-> f ∈ fs;
  (** "AddFinalizer adds the provided finalizer if not present.  It returns an
      indication of whether it updated the object's list of finalizers." *)
  AddFinalizer_in fs f x : x ∈ (AddFinalizer fs f).1 <-> x = f \/ x ∈ fs;
  AddFinalizer_updated fs f : (AddFinalizer fs f).2 = true <-> f ∉ fs;
  AddFinalizer_same fs f : f ∈ fs -> (AddFinalizer fs f).1 = fs;
  (** "RemoveFinalizer removes the provided finalizer if present.  It returns an
      indication of whether it updated the object's list of finalizers." *)
  RemoveFinalizer_in fs f x : x ∈ (RemoveFinalizer fs f).1 <-> x <> f /\ x ∈ fs;
  RemoveFinalizer_updated fs f : (RemoveFinalizer fs f).2 = true <-> f ∈ fs;
}.

(** ** A concrete instance *)

#[export] Instance ref_lib : Lib := {
  StringSet := list string;
  sets_New := [];
  sets_Insert s x := x :: s;
  sets_List s := SortFunc Compare (remove_dups s);
  ptr_Deref A o d := match o with Some a => a | None => d end;
  IsNotFound e := match e with ExternalError w _ => str_eqb w "NotFound" | _ => false end;
  IgnoreNotFound e :=
    match e with ExternalError w _ => if str_eqb w "NotFound" then None else Some e | _ => Some e end;
  ContainsFinalizer fs f := bool_decide (f ∈ fs);
  AddFinalizer fs f := if bool_decide (f ∈ fs) then (fs, false) else (fs ++ [f], true);
  RemoveFinalizer fs f := (filter (fun x => x <> f) fs, bool_decide (f ∈ fs));
}.

Lemma NoDup_sorted_strict l :
  NoDup l -> StronglySorted (fun x y => Compare x y <= 0) l -> StronglySorted str_lt l.
Proof.
  intros Hnd Hs. induction Hs as [|x l Hl IH Hx]; [constructor|].
  apply NoDup_cons in Hnd as [Hnin Hnd]. constructor; [by apply IH|].
  rewrite Forall_forall in Hx |- *. intros y Hy. unfold str_lt.
  pose proof (Hx y Hy). assert (Compare x y <> 0); [|lia].
  rewrite Compare_eq. by intros ->.
Qed.

#[export] Instance ref_lib_laws : LibLaws ref_lib.
Proof.
  split; cbn -[remove_dups].
  - intros x. set_solver.
  - intros s y x. rewrite !elem_of_SortFunc, !elem_of_remove_dups. apply elem_of_cons.
  - intros s. apply NoDup_sorted_strict.
    + rewrite SortFunc_perm. apply NoDup_remove_dups.
    + apply SortFunc_sorted, _.
  - done.
  - done.
  - by intros [].
  - intros fs f. apply bool_decide_eq_true.
  - intros fs f x. case_if; bool_to_prop; set_solver.
  - intros fs f. case_if; bool_to_prop; naive_solver.
  - intros fs f Hin. by rewrite bool_decide_true.
  - intros fs f x. by rewrite list_elem_of_filter.
  - intros fs f. apply bool_decide_eq_true.
Qed.

(** ** Consequences used by the components *)

Section LibFacts.
Context {L : Lib} {LL : LibLaws L}.

(** Inserting the elements of a list one by one. *)
Lemma elem_of_fold_Insert {A} (f : A -> string) (l : list A) s x :
  x ∈ sets_List (fold_left (fun s a => sets_Insert s (f a)) l s) <->
  x ∈ map f l \/ x ∈ sets_List s.
Proof.
  revert s. induction l as [|a l IH]; intros s; cbn; [set_solver|].
  rewrite IH, elem_of_Insert. set_solver.
Qed.

(** [sets.List] is determined by the members: it is the sorted duplicate-free list. *)
Lemma str_lt_sorted_unique (l1 l2 : list string) :
  StronglySorted str_lt l1 -> StronglySorted str_lt l2 ->
  (forall x, x ∈ l1 <-> x ∈ l2) -> l1 = l2.
Proof.
  intros H1. revert l2. induction H1 as [|x l1 Hl1 IH Hx]; intros l2 H2 He.
  { destruct l2 as [|y l2]; [done|]. exfalso. specialize (He y). set_solver. }
  destruct H2 as [|y l2 Hl2 Hy].
  { exfalso. specialize (He x). set_solver. }
  rewrite Forall_forall in Hx, Hy. unfold str_lt in Hx, Hy.
  assert (x = y) as ->.
  { pose proof (proj1 (He x)) as Hxin. pose proof (proj2 (He y)) as Hyin.
    rewrite !elem_of_cons in Hxin, Hyin.
    destruct (Hxin (or_introl eq_refl)) as [->|Hx']; [done|].
    destruct (Hyin (or_introl eq_refl)) as [->|Hy']; [done|].
    specialize (Hx y Hy'). specialize (Hy x Hx').
    rewrite Compare_antisym in Hx. lia. }
  f_equal. apply IH; [done|]. intros z. specialize (He z). rewrite !elem_of_cons in He.
  assert (Hirr : forall w, Compare w w = 0) by (intros w; by apply Compare_eq).
  split; intros Hz.
  - destruct (proj1 He (or_intror Hz)) as [->|]; [|done].
    specialize (Hx y Hz). rewrite Hirr in Hx. lia.
  - destruct (proj2 He (or_intror Hz)) as [->|]; [|done].
    specialize (Hy y Hz). rewrite Hirr in Hy. lia.
Qed.
End LibFacts.
