(* ===== verification/Helpers.v ===== *)
(** * Helpers: the pure functions of controllers/loadbalancer_controller.go

    Constants, resource names, tags, request comparison, the enum translations
    and the order-insensitive slice comparison. *)

From Stdlib Require Import ZArith Lia.
From stdpp Require Import base list strings gmap pretty.
From S2P Require Import Prelude GoLib ApiTypes Cloudscale Effects External.
Open Scope string_scope.
Open Scope Z_scope.
Open Scope list_scope.

(** ** Constants *)

Definition LoadBalancerFinalizer : string := "loadbalancer.cloudscale.appuio.io/finalizer".

Definition controllerAdoptedTag : string := "appuio_io_loadbalancer_controller__adopted".
Definition controllerManagedTag : string := "appuio_io_loadbalancer_controller__managed".
Definition controllerCreationKubernetesUIDTag : string :=
  "appuio_io_loadbalancer_controller__creation_kubernetes_uid".
Definition controllerNodeNameTag : string := "appuio_io_loadbalancer_controller__node_name".
Definition controllerServerNameTag : string := "appuio_io_loadbalancer_controller__server_name".

Definition cloudscaleProviderIDPrefix : string := "cloudscale://".

Definition cloudscaleLoadBalancerFlavor : string := "lb-standard".

(** ** Names and tags *)

Definition cloudscaleLoadbalancerName (lb : v1beta1.LoadBalancer) : string :=
  "appuio_io_loadbalancer_controller-" +:+ v1beta1.Namespace lb +:+ "-" +:+ v1beta1.Name lb.

Definition baseTagMap : gmap string string := {[ controllerManagedTag := "true" ]}.

(** ** Comparisons *)

Definition comparablePtrEqual {T} `{EqDecision T} (a b : option T) : bool :=
  match a, b with
  | None, None => true
  | None, _ | _, None => false
  | Some x, Some y => bool_decide (x = y)
  end.

(** [slicesMatch] at element type string, its only instantiation. *)
Definition slicesMatch (a b : list string) : bool :=
  if negb (Nat.eqb (length a) (length b)) then false
  else Equal (Sort a) (Sort b).

Definition loadBalancerPoolRequestEqual (a b : cloudscale.LoadBalancerPoolRequest) : bool :=
  str_eqb (cloudscale.poolr_Name a) (cloudscale.poolr_Name b) &&
  str_eqb (cloudscale.poolr_LoadBalancer a) (cloudscale.poolr_LoadBalancer b) &&
  str_eqb (cloudscale.poolr_Algorithm a) (cloudscale.poolr_Algorithm b) &&
  str_eqb (cloudscale.poolr_Protocol a) (cloudscale.poolr_Protocol b).

Definition loadBalancerPoolMemberToRequest (member : cloudscale.LoadBalancerPoolMember)
    : cloudscale.LoadBalancerPoolMemberRequest :=
  {| cloudscale.memr_Tags := Some (cloudscale.mem_Tags member);
     cloudscale.memr_Name := cloudscale.mem_Name member;
     cloudscale.memr_Enabled := Some (cloudscale.mem_Enabled member);
     cloudscale.memr_ProtocolPort := cloudscale.mem_ProtocolPort member;
     cloudscale.memr_MonitorPort := cloudscale.mem_MonitorPort member;
     cloudscale.memr_Address := cloudscale.mem_Address member;
     cloudscale.memr_Subnet := cloudscale.mem_Subnet member |}.

Definition loadBalancerPoolMemberRequestEqual
    (a b : cloudscale.LoadBalancerPoolMemberRequest) : bool :=
  comparablePtrEqual (cloudscale.memr_Enabled a) (cloudscale.memr_Enabled b) &&
  (cloudscale.memr_ProtocolPort a =? cloudscale.memr_ProtocolPort b) &&
  (cloudscale.memr_MonitorPort a =? cloudscale.memr_MonitorPort b) &&
  str_eqb (cloudscale.memr_Address a) (cloudscale.memr_Address b) &&
  str_eqb (cloudscale.memr_Subnet a) (cloudscale.memr_Subnet b).

(** A pool of the manifest with the cloudscale pool that implements it. *)
Record poolMapping := {
  pm_Ours : v1beta1.Pool;
  pm_Theirs : cloudscale.LoadBalancerPool;
}.

(** ** Errors *)

(** [errors.As(err, &res)] at type [*cloudscale.ErrorResponse]: the first such
    error on the chain of wrapped errors. *)
Fixpoint As_ErrorResponse (err : goerror) : option Z :=
  match err with
  | ErrorResponse code => Some code
  | ExternalError _ (Some e) => As_ErrorResponse e
  | ExternalError _ None => None
  | Errorf _ _ => None
  | ErrorfW _ _ e => As_ErrorResponse e
  end.

Definition StatusNotFound : Z := 404.

Definition IsCloudscaleNotFoundErr (err : goerror) : bool :=
  match As_ErrorResponse err with
  | Some code => code =? StatusNotFound
  | None => false
  end.

(** ** Translation of the enumerations *)

Definition poolAlgorithmToCloudscalePoolAlgorithm (alg : string) : string :=
  if str_eqb alg "RoundRobin" then "round_robin"
  else if str_eqb alg "LeastConnections" then "least_connections"
  else if str_eqb alg "SourceIP" then "source_ip"
  else alg.

Definition listenerProtocolToCloudscaleListenerProtocol (proto : string) : string :=
  if str_eqb proto "TCP" then "tcp" else proto.

Definition poolProtocolToCloudscalePoolProtocol (proto : string) : string :=
  if str_eqb proto "TCP" then "tcp"
  else if str_eqb proto "Proxy" then "proxy"
  else if str_eqb proto "ProxyV2" then "proxyv2"
  else proto.

Definition healthMonitorTypeToCloudscaleHealthMonitorType (typ : string) : string :=
  if str_eqb typ "Ping" then "ping"
  else if str_eqb typ "HTTP" then "http"
  else if str_eqb typ "HTTPS" then "https"
  else if str_eqb typ "TCP" then "tcp"
  else if str_eqb typ "TLSHello" then "tls-hello"
  else typ.

(** ** The interval of periodic reconciliation *)

Definition maxReconcileInterval (MaxReconcileInterval : Duration) : Duration :=
  if MaxReconcileInterval =? 0 then 5 * Minute else MaxReconcileInterval.

(** ** Update blocks

    The shape [if have != want { if err := Update(...); err != nil { return ... };
    Eventf(...); have = want }] that the health monitor and listener code repeat
    once per attribute; [r] is the update call. *)
Definition updateBlock {T} (same : bool) (r : req) (errformat : string) (errargs : list fmtarg)
    (reason evformat : string) (evargs : list fmtarg) (old new : T) : M T :=
  if same then mret old
  else
    _ ← wrap errformat errargs (call r);
    _ ← Eventf EventTypeNormal reason evformat evargs;
    mret new.

(** ** Facts *)

(** Counting the attributes a request sets. *)
Definition is_set (b : bool) : nat := if b then 1 else 0.

Lemma is_set_le b : (is_set b <= 1)%nat.
Proof. destruct b; cbn; lia. Qed.

(** An integer attribute of an update request is omitted when it is zero. *)
Definition if_set (v old : Z) : Z := if v =? 0 then old else v.

Lemma if_set_set v old : v <> 0 -> if_set v old = v.
Proof. intros Hv. unfold if_set. by rewrite (proj2 (Z.eqb_neq _ _)). Qed.

Lemma updateBlock_only {T} (P : req -> Prop) same r ef ea rs vf va (old new : T) :
  P r -> only P (updateBlock same r ef ea rs vf va old new).
Proof. intros HP. unfold updateBlock. only_steps. done. Qed.

Lemma updateBlock_hist {T} same r ef ea rs vf va (old new : T) (h : list action) :
  wp (updateBlock same r ef ea rs vf va old new) h (fun h' o => match o with
    | Returned v => v = (if same then old else new) /\ extends h (if same then [] else [r]) h'
    | Failed _ => True
    | Panicked _ => False
    end).
Proof.
  unfold updateBlock. destruct same; [split; [done|apply extends_refl]|].
  wp_steps; hist; [|done]. split; [done|]. apply extends_event, extends_call.
Qed.

(** When "already as wanted" means that the assignment changes nothing, the
    local copy after a block is the assigned one. *)
Lemma updateBlock_set {T} same r ef ea rs vf va (old new : T) (h : list action) :
  (same = true -> old = new) ->
  wp (updateBlock same r ef ea rs vf va old new) h (fun h' o => match o with
    | Returned v => v = new /\ extends h (if same then [] else [r]) h'
    | Failed _ => True
    | Panicked _ => False
    end).
Proof.
  intros Hs. eapply wp_mono; [|apply updateBlock_hist].
  intros h' [v|e|s]; [|done|done]. intros [-> Hx]. split; [|done]. destruct same; auto.
Qed.

Lemma comparablePtrEqual_true {T} `{EqDecision T} (a b : option T) :
  comparablePtrEqual a b = true <-> a = b.
Proof.
  destruct a, b; cbn; try (split; congruence || done).
  rewrite bool_decide_eq_true. naive_solver.
Qed.

(** [slicesMatch] decides equality up to order, with multiplicities. *)
Lemma slicesMatch_perm a b : slicesMatch a b = true <-> a ≡ₚ b.
Proof.
  unfold slicesMatch. destruct (Nat.eqb_spec (length a) (length b)) as [El|El]; cbn.
  - by rewrite Equal_true, Sort_eq_iff.
  - split; [done|]. intros Hp. by apply Permutation_length in Hp.
Qed.

Lemma slicesMatch_refl a : slicesMatch a a = true.
Proof. by apply slicesMatch_perm. Qed.

Lemma loadBalancerPoolRequestEqual_true a b :
  loadBalancerPoolRequestEqual a b = true <->
  cloudscale.poolr_Name a = cloudscale.poolr_Name b /\
  cloudscale.poolr_LoadBalancer a = cloudscale.poolr_LoadBalancer b /\
  cloudscale.poolr_Algorithm a = cloudscale.poolr_Algorithm b /\
  cloudscale.poolr_Protocol a = cloudscale.poolr_Protocol b.
Proof. unfold loadBalancerPoolRequestEqual. rewrite !andb_true_iff, !str_eqb_true. tauto. Qed.

Lemma loadBalancerPoolRequestEqual_sym a b :
  loadBalancerPoolRequestEqual a b = loadBalancerPoolRequestEqual b a.
Proof.
  apply eq_true_iff_eq. rewrite !loadBalancerPoolRequestEqual_true. naive_solver.
Qed.

(** What two member requests agree on when the controller takes them as equal. *)
Definition member_key (r : cloudscale.LoadBalancerPoolMemberRequest)
    : option bool * Z * Z * string * string :=
  (cloudscale.memr_Enabled r, cloudscale.memr_ProtocolPort r, cloudscale.memr_MonitorPort r,
   cloudscale.memr_Address r, cloudscale.memr_Subnet r).

Lemma loadBalancerPoolMemberRequestEqual_true a b :
  loadBalancerPoolMemberRequestEqual a b = true <-> member_key a = member_key b.
Proof.
  unfold loadBalancerPoolMemberRequestEqual, member_key.
  rewrite !andb_true_iff, !str_eqb_true, !Z.eqb_eq, comparablePtrEqual_true.
  split; [intros; des; congruence|]. intros [= -> -> -> -> ->]. done.
Qed.

(** Wrapping with [%w] does not hide a not-found answer. *)
Lemma IsCloudscaleNotFoundErr_wrap format args e :
  IsCloudscaleNotFoundErr (ErrorfW format args e) = IsCloudscaleNotFoundErr e.
Proof. done. Qed.

(** ** Faults: the answers that make a pass fail

    An answer is a fault when it is an error (a server that does not exist is
    none) or a nil pointer where the code needs an object. *)

Definition nil_answer (r : req) : val r -> Prop :=
  match r return val r -> Prop with
  | LBGet _ | LBCreate _ | PoolCreate _ | MemberCreate _ _ | ListenerCreate _ | HealthMonitorCreate _ =>
      fun v => v = None
  | _ => fun _ => False
  end.

Definition fault (a : action) : Prop :=
  match a with
  | ACall r (Err e) => match r with ServerGet _ => IsCloudscaleNotFoundErr e = false | _ => True end
  | ACall r (Ok v) => nil_answer r v
  | AEvent _ => False
  end.

Definition faulted (h : list action) : Prop := Exists fault h.

Lemma faulted_last h a : fault a -> faulted (h ++ [a]).
Proof. intros Ha. apply Exists_app. right. by constructor. Qed.

Lemma faulted_app h t : faulted h -> faulted (h ++ t).
Proof. intros Hh. apply Exists_app. by left. Qed.

#[export] Hint Resolve faulted_last faulted_app : lbc.

Ltac faults := fails_steps; try (intros; apply faulted_last; done).

Lemma updateBlock_fails {T} same r ef ea rs vf va (old new : T) :
  (forall e, fault (ACall r (Err e))) ->
  fails_only faulted (updateBlock same r ef ea rs vf va old new).
Proof. intros Hr. unfold updateBlock. faults. Qed.

(** Two pools of one load balancer have the same cloudscale name only if they
    have the same name in the manifest. *)
Lemma pool_name_inj lb n1 n2 :
  cloudscaleLoadbalancerName lb +:+ "-" +:+ n1 = cloudscaleLoadbalancerName lb +:+ "-" +:+ n2 ->
  n1 = n2.
Proof. intros H%string_app_inj_l%string_app_inj_l. done. Qed.

#[export] Hint Rewrite @comparablePtrEqual_true slicesMatch_perm loadBalancerPoolRequestEqual_true
  loadBalancerPoolMemberRequestEqual_true : lbc_rw.
