(* ===== verification/Startup.v ===== *)
(** * Startup: main.go and the registration of the parts

    The command line, the environment and the calls that put the program
    together, in their order.  What the libraries do on a call is not modelled;
    whether it succeeds is the parameter [answer].  A failed step ends the process
    with the exit code the source gives. *)

From Stdlib Require Import ZArith Lia.
From stdpp Require Import base list strings sets pretty.
From S2P Require Import Prelude GoLib GoFlag ApiTypes Cloudscale Effects Helpers.
Open Scope string_scope.
Open Scope Z_scope.
Open Scope list_scope.

(** ** groupversion_info.go *)

Record schema_GroupVersion := { gv_Group : string; gv_Version : string }.

Definition GroupVersion : schema_GroupVersion :=
  {| gv_Group := "cloudscale.appuio.io"; gv_Version := "v1beta1" |}.

(** The Go types that name resources to the libraries. *)
Inductive GoType := TLoadBalancer | TLoadBalancerList | TNode.

(** A scheme.Builder: the group it registers for, and the types registered. *)
Record SchemeBuilder_t := { sb_GroupVersion : schema_GroupVersion; sb_types : list GoType }.

Definition Register (b : SchemeBuilder_t) (types : list GoType) : SchemeBuilder_t :=
  {| sb_GroupVersion := sb_GroupVersion b; sb_types := sb_types b ++ types |}.

(** The builder after the init function of loadbalancer_types.go. *)
Definition SchemeBuilder : SchemeBuilder_t :=
  Register {| sb_GroupVersion := GroupVersion; sb_types := [] |} [TLoadBalancer; TLoadBalancerList].

(** ** The command line *)

Record Flags := {
  metricsAddr : string;
  probeAddr : string;
  enableLeaderElection : bool;
  secureMetrics : bool;
  metricsCertPath : string;
  metricsCertName : string;
  metricsCertKey : string;
  webhookCertPath : string;
  webhookCertName : string;
  webhookCertKey : string;
  maxReconcileIntervalFlag : Duration;
}.

Definition defaultFlags : Flags :=
  {| metricsAddr := ":8080"; probeAddr := ":8081"; enableLeaderElection := false; secureMetrics := true;
     metricsCertPath := ""; metricsCertName := "tls.crt"; metricsCertKey := "tls.key";
     webhookCertPath := ""; webhookCertName := "tls.crt"; webhookCertKey := "tls.key";
     maxReconcileIntervalFlag := 5 * Minute |}.

(** [&metricsAddr] and so on: writing through the pointer a flag was given. *)
Section Set_.
Context (c : Flags).
Definition set_metricsAddr (v : string) : Flags :=
  {| metricsAddr := v; probeAddr := probeAddr c; enableLeaderElection := enableLeaderElection c; secureMetrics := secureMetrics c;
     metricsCertPath := metricsCertPath c; metricsCertName := metricsCertName c; metricsCertKey := metricsCertKey c;
     webhookCertPath := webhookCertPath c; webhookCertName := webhookCertName c; webhookCertKey := webhookCertKey c;
     maxReconcileIntervalFlag := maxReconcileIntervalFlag c |}.
Definition set_probeAddr (v : string) : Flags :=
  {| metricsAddr := metricsAddr c; probeAddr := v; enableLeaderElection := enableLeaderElection c; secureMetrics := secureMetrics c;
     metricsCertPath := metricsCertPath c; metricsCertName := metricsCertName c; metricsCertKey := metricsCertKey c;
     webhookCertPath := webhookCertPath c; webhookCertName := webhookCertName c; webhookCertKey := webhookCertKey c;
     maxReconcileIntervalFlag := maxReconcileIntervalFlag c |}.
Definition set_enableLeaderElection (v : bool) : Flags :=
  {| metricsAddr := metricsAddr c; probeAddr := probeAddr c; enableLeaderElection := v; secureMetrics := secureMetrics c;
     metricsCertPath := metricsCertPath c; metricsCertName := metricsCertName c; metricsCertKey := metricsCertKey c;
     webhookCertPath := webhookCertPath c; webhookCertName := webhookCertName c; webhookCertKey := webhookCertKey c;
     maxReconcileIntervalFlag := maxReconcileIntervalFlag c |}.
Definition set_secureMetrics (v : bool) : Flags :=
  {| metricsAddr := metricsAddr c; probeAddr := probeAddr c; enableLeaderElection := enableLeaderElection c; secureMetrics := v;
     metricsCertPath := metricsCertPath c; metricsCertName := metricsCertName c; metricsCertKey := metricsCertKey c;
     webhookCertPath := webhookCertPath c; webhookCertName := webhookCertName c; webhookCertKey := webhookCertKey c;
     maxReconcileIntervalFlag := maxReconcileIntervalFlag c |}.
(** The certificate flags of the metrics server and of the webhook. *)
Definition set_metricsCert (path name key : string) : Flags :=
  {| metricsAddr := metricsAddr c; probeAddr := probeAddr c; enableLeaderElection := enableLeaderElection c; secureMetrics := secureMetrics c;
     metricsCertPath := path; metricsCertName := name; metricsCertKey := key;
     webhookCertPath := webhookCertPath c; webhookCertName := webhookCertName c; webhookCertKey := webhookCertKey c;
     maxReconcileIntervalFlag := maxReconcileIntervalFlag c |}.
Definition set_webhookCert (path name key : string) : Flags :=
  {| metricsAddr := metricsAddr c; probeAddr := probeAddr c; enableLeaderElection := enableLeaderElection c; secureMetrics := secureMetrics c;
     metricsCertPath := metricsCertPath c; metricsCertName := metricsCertName c; metricsCertKey := metricsCertKey c;
     webhookCertPath := path; webhookCertName := name; webhookCertKey := key;
     maxReconcileIntervalFlag := maxReconcileIntervalFlag c |}.
Definition set_maxReconcileInterval (v : Duration) : Flags :=
  {| metricsAddr := metricsAddr c; probeAddr := probeAddr c; enableLeaderElection := enableLeaderElection c; secureMetrics := secureMetrics c;
     metricsCertPath := metricsCertPath c; metricsCertName := metricsCertName c; metricsCertKey := metricsCertKey c;
     webhookCertPath := webhookCertPath c; webhookCertName := webhookCertName c; webhookCertKey := webhookCertKey c;
     maxReconcileIntervalFlag := v |}.
End Set_.

(** The flags of main.go, in the order they are defined. *)
Definition mainFlags : list (Flag Flags) :=
  [ StringVar "metrics-bind-address" set_metricsAddr;
    StringVar "health-probe-bind-address" set_probeAddr;
    BoolVar "leader-elect" set_enableLeaderElection;
    BoolVar "metrics-secure" set_secureMetrics;
    StringVar "metrics-cert-path" (fun c v => set_metricsCert c v (metricsCertName c) (metricsCertKey c));
    StringVar "metrics-cert-name" (fun c v => set_metricsCert c (metricsCertPath c) v (metricsCertKey c));
    StringVar "metrics-cert-key" (fun c v => set_metricsCert c (metricsCertPath c) (metricsCertName c) v);
    StringVar "webhook-cert-path" (fun c v => set_webhookCert c v (webhookCertName c) (webhookCertKey c));
    StringVar "webhook-cert-name" (fun c v => set_webhookCert c (webhookCertPath c) v (webhookCertKey c));
    StringVar "webhook-cert-key" (fun c v => set_webhookCert c (webhookCertPath c) (webhookCertName c) v);
    DurationVar "max-reconcile-interval" set_maxReconcileInterval ].

(** ** What the program puts together *)

(** A certificate watcher, by the elements [filepath.Join] makes its two paths of. *)
Record CertWatcher := { cw_cert : list string; cw_key : list string }.

(** [metricsserver.Options]: the TLS options are given by the watcher whose
    GetCertificate they install. *)
Record MetricsOptions := {
  mo_BindAddress : string;
  mo_SecureServing : bool;
  mo_TLSOpts : list CertWatcher;
  (** filters.WithAuthenticationAndAuthorization is set as FilterProvider *)
  mo_FilterProvider : bool;
}.

Record ManagerOptions := {
  mgr_Scheme : list (option SchemeBuilder_t);   (** what was added, as in [AddToScheme] *)
  mgr_Metrics : MetricsOptions;
  mgr_WebhookTLSOpts : list CertWatcher;
  mgr_HealthProbeBindAddress : string;
  mgr_LeaderElection : bool;
  mgr_LeaderElectionID : string;
  mgr_LeaderElectionReleaseOnCancel : bool;
}.

(** The client of the cloudscale SDK, and which of its services a field holds. *)
Record CloudClient := { cc_AccessToken : string; cc_UserAgent : string }.

Inductive CloudService := SvcServers | SvcFloatingIPs | SvcLoadBalancers | SvcLoadBalancerHealthMonitors
| SvcLoadBalancerListeners | SvcLoadBalancerPools | SvcLoadBalancerPoolMembers.

(** What is taken from the manager. *)
Inductive FromManager := GetClient | GetScheme | GetEventRecorderFor (name : string).

Record LoadBalancerReconciler := {
  Client : FromManager;
  Scheme : FromManager;
  Recorder : FromManager;
  MaxReconcileInterval : Duration;
  ServerClient : CloudClient * CloudService;
  FloatingIPsClient : CloudClient * CloudService;
  LoadbalancerClient : CloudClient * CloudService;
  LoadbalancerHealthMonitorClient : CloudClient * CloudService;
  LoadbalancerListenerClient : CloudClient * CloudService;
  LoadbalancerPoolClient : CloudClient * CloudService;
  LoadbalancerPoolMemberClient : CloudClient * CloudService;
}.

(** The other parts that are registered: each holds the manager's client. *)
Record nodeUpdateHandler := { handler_client : FromManager }.
Record LoadBalancerCustomValidator := { validator_Client : FromManager }.
Record LoadBalancerStatusCollector := { collector_Client : FromManager }.

(** The calls into libraries that can fail. *)
Inductive setup_call :=
| AddToScheme (b : option SchemeBuilder_t)   (** [None]: clientgoscheme *)
| CertwatcherNew (w : CertWatcher)
| GetConfig
| NewManager (o : ManagerOptions)
| RegisterCollector (c : LoadBalancerStatusCollector)
| CompleteController (name : string) (For : GoType) (Watches : list (GoType * nodeUpdateHandler)) (r : LoadBalancerReconciler)
| CompleteWebhook (For : GoType) (v : LoadBalancerCustomValidator)
| MgrAdd (w : CertWatcher)
| AddHealthzCheck (name : string)
| AddReadyzCheck (name : string)
| MgrStart.

(** The process: the calls made so far, and a value or an exit code. *)
Definition Proc (A : Type) : Type := list setup_call -> list setup_call * (A + Z).

#[export] Instance Proc_ret : MRet Proc := fun A a t => (t, inl a).
#[export] Instance Proc_bind : MBind Proc := fun A B f m t =>
  match m t with (t, inl a) => f a t | (t, inr code) => (t, inr code) end.

Definition os_Exit {A} (code : Z) : Proc A := fun t => (t, inr code).

Section Main.
Context (answer : setup_call -> option goerror).
(** The flags of zap and of controller-runtime; none of them changes [Flags]. *)
Context (libFlags : list (Flag Flags)).
Context (Getenv : string -> string) (ReadBuildInfo : option (string * string)).

Definition attempt (c : setup_call) : Proc (option goerror) := fun t => (t ++ [c], inl (answer c)).

(** [if err := c; err != nil { setupLog.Error(err, ...); os.Exit(code) }]. *)
Definition must (code : Z) (m : Proc (option goerror)) : Proc unit :=
  err ← m; match err with Some _ => os_Exit code | None => mret tt end.

(** main's init: utilruntime.Must panics, which ends the process with code 2. *)
Definition init : Proc unit :=
  _ ← must 2 (attempt (AddToScheme None));
  must 2 (attempt (AddToScheme (Some SchemeBuilder))).

(** [flag.Parse] on flag.CommandLine, which exits on errors. *)
Definition flag_Parse (args : list string) : Proc Flags :=
  match Parse (mainFlags ++ libFlags) defaultFlags args with
  | Parsed c _ => mret c
  | ErrHelp => os_Exit 0
  | ParseError _ => os_Exit 2
  end.

(** A watcher, when a path is given. *)
Definition newWatcher (path name key : string) : Proc (option CertWatcher) :=
  if negb (str_empty path) then
    let w := {| cw_cert := [path; name]; cw_key := [path; key] |} in
    _ ← must 1 (attempt (CertwatcherNew w)); mret (Some w)
  else mret None.

Definition tlsOpts (w : option CertWatcher) : list CertWatcher := match w with Some w => [w] | None => [] end.

Definition metricsServerOptions (c : Flags) (w : option CertWatcher) : MetricsOptions :=
  {| mo_BindAddress := metricsAddr c; mo_SecureServing := secureMetrics c; mo_TLSOpts := tlsOpts w;
     mo_FilterProvider := secureMetrics c |}.

Definition managerOptions (c : Flags) (metricsW webhookW : option CertWatcher) : ManagerOptions :=
  {| mgr_Scheme := [None; Some SchemeBuilder]; mgr_Metrics := metricsServerOptions c metricsW;
     mgr_WebhookTLSOpts := tlsOpts webhookW; mgr_HealthProbeBindAddress := probeAddr c;
     mgr_LeaderElection := enableLeaderElection c; mgr_LeaderElectionID := "59eb1b2a.appuio.io";
     mgr_LeaderElectionReleaseOnCancel := true |}.

Definition versionString : string :=
  match ReadBuildInfo with Some (version, goVersion) => version +:+ " (" +:+ goVersion +:+ ")" | None => "unknown" end.

Definition cloudscaleClient (token : string) : CloudClient :=
  {| cc_AccessToken := token; cc_UserAgent := "cloudscale-loadbalancer-controller.appuio.io/" +:+ versionString |}.

Definition reconciler (c : Flags) (client : CloudClient) : LoadBalancerReconciler :=
  {| Client := GetClient; Scheme := GetScheme; Recorder := GetEventRecorderFor "loadbalancer-controller";
     MaxReconcileInterval := maxReconcileIntervalFlag c;
     ServerClient := (client, SvcServers); FloatingIPsClient := (client, SvcFloatingIPs);
     LoadbalancerClient := (client, SvcLoadBalancers);
     LoadbalancerHealthMonitorClient := (client, SvcLoadBalancerHealthMonitors);
     LoadbalancerListenerClient := (client, SvcLoadBalancerListeners);
     LoadbalancerPoolClient := (client, SvcLoadBalancerPools);
     LoadbalancerPoolMemberClient := (client, SvcLoadBalancerPoolMembers) |}.

(** [LoadBalancerReconciler.SetupWithManager]. *)
Definition SetupWithManager (r : LoadBalancerReconciler) (name : string) : Proc (option goerror) :=
  attempt (CompleteController name TLoadBalancer [(TNode, {| handler_client := GetClient |})] r).

Definition SetupLoadBalancerWebhookWithManager : Proc (option goerror) :=
  attempt (CompleteWebhook TLoadBalancer {| validator_Client := GetClient |}).

(** [if watcher != nil { mgr.Add(watcher) }]. *)
Definition addWatcher (w : option CertWatcher) : Proc unit :=
  match w with Some w => must 1 (attempt (MgrAdd w)) | None => mret tt end.

Definition main (args : list string) : Proc unit :=
  _ ← init;
  c ← flag_Parse args;
  webhookCertWatcher ← newWatcher (webhookCertPath c) (webhookCertName c) (webhookCertKey c);
  metricsCertWatcher ← newWatcher (metricsCertPath c) (metricsCertName c) (metricsCertKey c);
  _ ← must 1 (attempt GetConfig);
  _ ← must 1 (attempt (NewManager (managerOptions c metricsCertWatcher webhookCertWatcher)));
  _ ← must 1 (attempt (RegisterCollector {| collector_Client := GetClient |}));
  let cloudscaleAPIToken := Getenv "CLOUDSCALE_API_TOKEN" in
  if str_empty cloudscaleAPIToken then os_Exit 1
  else
    _ ← must 1 (SetupWithManager (reconciler c (cloudscaleClient cloudscaleAPIToken)) "loadbalancer");
    _ ← (if negb (str_eqb (Getenv "ENABLE_WEBHOOKS") "false")
         then must 1 SetupLoadBalancerWebhookWithManager else mret tt);
    _ ← addWatcher metricsCertWatcher;
    _ ← addWatcher webhookCertWatcher;
    _ ← must 1 (attempt (AddHealthzCheck "healthz"));
    _ ← must 1 (attempt (AddReadyzCheck "readyz"));
    must 1 (attempt MgrStart).
End Main.

(** ** The plan of a start *)

Section Plan.
Context (answer : setup_call -> option goerror) (libFlags : list (Flag Flags)).
Context (Getenv : string -> string) (ReadBuildInfo : option (string * string)).

Definition watcher (path name key : string) : option CertWatcher :=
  if str_empty path then None else Some {| cw_cert := [path; name]; cw_key := [path; key] |}.
Definition webhookWatcher (c : Flags) := watcher (webhookCertPath c) (webhookCertName c) (webhookCertKey c).
Definition metricsWatcher (c : Flags) := watcher (metricsCertPath c) (metricsCertName c) (metricsCertKey c).

Definition schemes : list setup_call := [AddToScheme None; AddToScheme (Some SchemeBuilder)].

(** Up to the manager and the collector. *)
Definition preparation (c : Flags) : list setup_call :=
  map CertwatcherNew (tlsOpts (webhookWatcher c)) ++ map CertwatcherNew (tlsOpts (metricsWatcher c)) ++
  [GetConfig; NewManager (managerOptions c (metricsWatcher c) (webhookWatcher c));
   RegisterCollector {| collector_Client := GetClient |}].

(** From the controller to the start. *)
Definition assembly (c : Flags) : list setup_call :=
  [CompleteController "loadbalancer" TLoadBalancer [(TNode, {| handler_client := GetClient |})]
     (reconciler c (cloudscaleClient ReadBuildInfo (Getenv "CLOUDSCALE_API_TOKEN")))] ++
  (if str_eqb (Getenv "ENABLE_WEBHOOKS") "false" then [] else [CompleteWebhook TLoadBalancer {| validator_Client := GetClient |}]) ++
  map MgrAdd (tlsOpts (metricsWatcher c)) ++ map MgrAdd (tlsOpts (webhookWatcher c)) ++
  [AddHealthzCheck "healthz"; AddReadyzCheck "readyz"; MgrStart].

(** Calls in a row, until one fails. *)
Fixpoint run_calls (code : Z) (l : list setup_call) : Proc unit :=
  match l with
  | [] => mret tt
  | c :: l => _ ← must code (attempt answer c); run_calls code l
  end.

Lemma must_attempt {A} code c (k : unit -> Proc A) t :
  (u ← must code (attempt answer c); k u) t = match answer c with Some _ => (t ++ [c], inr code) | None => k tt (t ++ [c]) end.
Proof. unfold mbind, Proc_bind, must, attempt, mbind, Proc_bind. by destruct (answer c). Qed.

(** What a row of calls does: all succeed, or the last one made is the first to fail. *)
Lemma run_calls_spec code l t :
  match run_calls code l t with
  | (t', inl _) => t' = t ++ l /\ Forall (fun c => answer c = None) l
  | (t', inr code') => code' = code /\ exists pre c rest, l = pre ++ c :: rest /\ t' = t ++ pre ++ [c] /\
      Forall (fun c => answer c = None) pre /\ answer c <> None
  end.
Proof.
  revert t. induction l as [|c l IH]; intros t; [cbn; by rewrite app_nil_r|].
  cbn [run_calls]. rewrite must_attempt. destruct (answer c) eqn:Ea.
  - split; [done|]. exists [], c, l. repeat split; [constructor|by rewrite Ea].
  - specialize (IH (t ++ [c])). destruct (run_calls code l (t ++ [c])) as [t' [u|code']].
    + destruct IH as [-> Hf]. rewrite <- app_assoc. split; [done|]. by constructor.
    + destruct IH as (-> & pre & c' & rest & -> & -> & Hf & Hc). split; [done|].
      exists (c :: pre), c', rest. rewrite <- app_assoc. split; [done|]. split; [done|]. split; [by constructor|done].
Qed.

(** main is its plan, run in order, with the test of the token in between. *)
Lemma main_plan args t :
  main answer libFlags Getenv ReadBuildInfo args t =
  (_ ← run_calls 2 schemes;
   c ← flag_Parse libFlags args;
   _ ← run_calls 1 (preparation c);
   if str_empty (Getenv "CLOUDSCALE_API_TOKEN") then os_Exit 1 else run_calls 1 (assembly c)) t.
Proof.
  unfold main, init, schemes, SetupWithManager, SetupLoadBalancerWebhookWithManager, addWatcher, newWatcher, os_Exit, must, attempt.
  cbn [run_calls]. unfold must, attempt, mbind, Proc_bind, mret, Proc_ret.
  destruct (answer (AddToScheme None)); [done|]. destruct (answer (AddToScheme (Some SchemeBuilder))); [done|].
  destruct (flag_Parse libFlags args _) as [t1 [c|code]]; [|done].
  unfold preparation, assembly, webhookWatcher, metricsWatcher, watcher.
  destruct (str_empty (webhookCertPath c)), (str_empty (metricsCertPath c)), (str_empty (Getenv "CLOUDSCALE_API_TOKEN")),
    (str_eqb (Getenv "ENABLE_WEBHOOKS") "false");
    cbn [negb tlsOpts map app run_calls]; unfold must, attempt, mbind, Proc_bind, mret, Proc_ret;
    repeat (match goal with |- context [answer ?q] => destruct (answer q) end; [done|]); done.
Qed.

Local Abbreviation token := (Getenv "CLOUDSCALE_API_TOKEN").
Local Abbreviation ok := (fun c => answer c = None).

(** The first call that failed is the last one made. *)
Definition stopped (plan made : list setup_call) : Prop :=
  exists pre c rest, plan = pre ++ c :: rest /\ made = pre ++ [c] /\ Forall ok pre /\ answer c <> None.

(** How a start ends, with the calls made: all calls succeeded and the manager has
    run; or a call failed, and none was made after it; or the command line was
    refused; or the token is missing. *)
Definition start_outcome (args : list string) (made : list setup_call) (end_ : unit + Z) : Prop :=
  match Parse (mainFlags ++ libFlags) defaultFlags args with
  | Parsed c _ =>
      match end_ with
      | inl _ => token <> "" /\ made = schemes ++ preparation c ++ assembly c /\ Forall ok made
      | inr code =>
          (code = 2 /\ stopped schemes made) \/
          (code = 1 /\ Forall ok schemes /\ exists m, made = schemes ++ m /\
             (stopped (preparation c) m \/
              (Forall ok (preparation c) /\
               ((token = "" /\ m = preparation c) \/
                (token <> "" /\ exists m', m = preparation c ++ m' /\ stopped (assembly c) m')))))
      end
  | ErrHelp => (end_ = inr 0 /\ made = schemes /\ Forall ok schemes) \/ (end_ = inr 2 /\ stopped schemes made)
  | ParseError _ => (end_ = inr 2 /\ made = schemes /\ Forall ok schemes) \/ (end_ = inr 2 /\ stopped schemes made)
  end.

Lemma main_outcome args :
  start_outcome args (fst (main answer libFlags Getenv ReadBuildInfo args [])) (snd (main answer libFlags Getenv ReadBuildInfo args [])).
Proof.
  rewrite main_plan. unfold start_outcome, flag_Parse, mbind, Proc_bind.
  pose proof (run_calls_spec 2 schemes []) as Hs. destruct (run_calls 2 schemes []) as [t1 [u1|code1]].
  2: { destruct Hs as [-> Hs]. assert (stopped schemes t1) by exact Hs. destruct (Parse _ _ args); cbn; auto. }
  destruct Hs as [-> Hs]. cbn [app]. destruct (Parse _ _ args) as [c rest| |e]; [|by left|by left].
  cbn [mret Proc_ret]. pose proof (run_calls_spec 1 (preparation c) schemes) as Hp.
  destruct (run_calls 1 (preparation c) schemes) as [t2 [u2|code2]].
  2: { destruct Hp as [-> (pre & q & r & E & -> & Hf & Hq)]. cbn. right. split; [done|]. split; [done|].
       exists (pre ++ [q]). split; [done|]. left. by exists pre, q, r. }
  destruct Hp as [-> Hp]. destruct (str_empty token) eqn:Et; str_prop.
  { cbn. right. split; [done|]. split; [done|]. exists (preparation c). split; [done|]. right. split; [done|]. by left. }
  pose proof (run_calls_spec 1 (assembly c) (schemes ++ preparation c)) as Ha.
  destruct (run_calls 1 (assembly c) (schemes ++ preparation c)) as [t3 [u3|code3]]; cbn [fst snd].
  - destruct Ha as [-> Ha]. rewrite <- app_assoc. split; [done|]. split; [done|]. by rewrite !Forall_app.
  - destruct Ha as [-> (pre & q & r & E & -> & Hf & Hq)]. right. split; [done|]. split; [done|].
    exists (preparation c ++ pre ++ [q]). rewrite <- app_assoc. split; [done|]. right. split; [done|]. right. split; [done|].
    exists (pre ++ [q]). split; [done|]. by exists pre, q, r.
Qed.
End Plan.

(** C20: a start does exactly its plan: it registers the schemes, parses the
    command line, prepares certificate watchers, manager and collector, and, when
    the API token is set, sets up the controller, the webhook unless it is
    disabled, the watchers and the health checks, and starts the manager, in this
    order.  The first call that fails is the last one made and ends the process
    with code 1 (2 for the schemes); a bad command line ends it with 2, a request
    for help with 0, a missing token with 1. *)
Theorem startup_exact answer libFlags Getenv ReadBuildInfo args :
  start_outcome answer libFlags Getenv ReadBuildInfo args
    (fst (main answer libFlags Getenv ReadBuildInfo args [])) (snd (main answer libFlags Getenv ReadBuildInfo args [])).
Proof. apply main_outcome. Qed.

(** The manager is started by the last call of the plan only. *)
Definition assembled Getenv ReadBuildInfo c : list setup_call :=
  match assembly Getenv ReadBuildInfo c with l => removelast l end.

Lemma assembly_split Getenv ReadBuildInfo c :
  assembly Getenv ReadBuildInfo c = assembled Getenv ReadBuildInfo c ++ [MgrStart] /\
  MgrStart ∉ schemes ++ preparation c ++ assembled Getenv ReadBuildInfo c.
Proof.
  unfold assembled, assembly, preparation, schemes, webhookWatcher, metricsWatcher, watcher.
  destruct (str_empty (webhookCertPath c)), (str_empty (metricsCertPath c)), (str_eqb (Getenv "ENABLE_WEBHOOKS") "false");
    (split; [reflexivity|]); cbn; intros Hin%list_elem_of_In; cbn in Hin; naive_solver.
Qed.

Lemma stopped_before answer (plan body made : list setup_call) last :
  plan = body ++ [last] -> last ∉ body -> last ∈ made -> stopped answer plan made ->
  made = plan /\ Forall (fun c => answer c = None) body.
Proof.
  intros -> Hn Hin (pre & c & rest & E & -> & Hf & Hc).
  destruct rest as [|r rest] using rev_ind.
  - apply app_inj_2 in E as [-> E]; [|done]. by rewrite E.
  - clear IHrest. rewrite app_comm_cons, app_assoc in E. apply app_inj_2 in E as [E _]; [|done].
    destruct Hn. rewrite E. apply elem_of_app in Hin as [Hin|Hin]; set_solver.
Qed.

(** When the manager is started, everything before it was done: the command
    line was accepted, the token is set, and every step of the plan, from the
    schemes to the ready check, was made and succeeded, none left out and none
    repeated. *)
Lemma started_complete answer libFlags Getenv ReadBuildInfo args :
  let made := fst (main answer libFlags Getenv ReadBuildInfo args []) in
  MgrStart ∈ made ->
  exists c rest, Parse (mainFlags ++ libFlags) defaultFlags args = Parsed c rest /\
    Getenv "CLOUDSCALE_API_TOKEN" <> "" /\
    made = schemes ++ preparation c ++ assembled Getenv ReadBuildInfo c ++ [MgrStart] /\
    Forall (fun q => answer q = None) (schemes ++ preparation c ++ assembled Getenv ReadBuildInfo c).
Proof.
  intros made Hin. pose proof (main_outcome answer libFlags Getenv ReadBuildInfo args) as Ho. fold made in Ho.
  unfold start_outcome in Ho. destruct (Parse _ _ args) as [c rest| |e].
  2,3: exfalso; assert (Hns : MgrStart ∉ schemes) by (intros [E|[E|[]]]%list_elem_of_In; discriminate);
       assert (Hst : stopped answer schemes made -> False)
         by (intros (pre & q & r & E & Em & _); apply Hns; rewrite E; rewrite Em in Hin; set_solver);
       destruct Ho as [(_ & Em & _)|(_ & Hs)]; [rewrite Em in Hin; by apply Hns|by apply Hst].
  destruct (assembly_split Getenv ReadBuildInfo c) as [Ea Hn]. exists c, rest. split; [done|].
  rewrite !not_elem_of_app in Hn. destruct Hn as (Hn1 & Hn2 & Hn3).
  assert (Hstop : forall plan m, MgrStart ∉ plan -> MgrStart ∈ m -> stopped answer plan m -> False).
  { intros plan m Hnp Hm (pre & q & r & -> & -> & _). set_solver. }
  destruct (snd _) as [u|code].
  - destruct Ho as (Ht & Em & Hok). rewrite Ea in Em. split; [done|]. split; [by rewrite Em|].
    rewrite Em in Hok. rewrite !Forall_app in *. naive_solver.
  - destruct Ho as [[_ Hs]|(_ & Hok1 & m & Em & Ho)]; [by destruct (Hstop _ _ Hn1 Hin Hs)|].
    rewrite Em in Hin. apply elem_of_app in Hin as [Hin|Hin]; [done|].
    destruct Ho as [Hs|(Hok2 & [[_ ->]|(Ht & m' & -> & Hs)])]; [by destruct (Hstop _ _ Hn2 Hin Hs)|done|].
    apply elem_of_app in Hin as [Hin|Hin]; [done|].
    destruct (stopped_before answer _ _ _ _ Ea Hn3 Hin Hs) as [-> Hok3]. split; [done|]. rewrite Em, Ea. split; [done|].
    by rewrite !Forall_app.
Qed.

(** ** The command line, written out *)

Definition Sprint_t (b : bool) : string := if b then "true" else "false".

Definition render (c : Flags) : list string :=
  map (fun '(n, v) => "--" +:+ n +:+ "=" +:+ v)
    [ ("metrics-bind-address", metricsAddr c); ("health-probe-bind-address", probeAddr c);
      ("leader-elect", Sprint_t (enableLeaderElection c)); ("metrics-secure", Sprint_t (secureMetrics c));
      ("metrics-cert-path", metricsCertPath c); ("metrics-cert-name", metricsCertName c);
      ("metrics-cert-key", metricsCertKey c); ("webhook-cert-path", webhookCertPath c);
      ("webhook-cert-name", webhookCertName c); ("webhook-cert-key", webhookCertKey c);
      ("max-reconcile-interval", pretty (maxReconcileIntervalFlag c) +:+ "ns") ].

(** C21: the command line is a faithful rendering of the configuration: whatever
    flags the libraries add, each setting given on the command line arrives in its
    own variable, for every text and every interval of an int64. *)
Theorem flags_roundtrip libFlags (c : Flags) :
  - 2 ^ 63 <= maxReconcileIntervalFlag c < 2 ^ 63 ->
  Parse (mainFlags ++ libFlags) defaultFlags (render c) = Parsed c [].
Proof.
  intros Hd. unfold render. cbn [map].
  assert (Hb : forall b, ParseBool (Sprint_t b) = Some b) by (by intros []).
  do 10 (erewrite Parse_value; [|reflexivity|reflexivity|cbn [flag_Set StringVar BoolVar]; rewrite ?Hb; reflexivity]).
  erewrite Parse_value; [|reflexivity|reflexivity|cbn [flag_Set DurationVar]; rewrite ParseDuration_ns by done; reflexivity].
  cbn. by destruct c.
Qed.

Lemma flags_roundtrip_witness :
  - 2 ^ 63 <= maxReconcileIntervalFlag defaultFlags < 2 ^ 63 /\
  Parse (mainFlags ++ []) defaultFlags (render (set_probeAddr defaultFlags ":9440")) = Parsed (set_probeAddr defaultFlags ":9440") [].
Proof.
  split; [vm_compute; split; [discriminate|reflexivity]|].
  apply (flags_roundtrip [] (set_probeAddr defaultFlags ":9440")). vm_compute. split; [discriminate|reflexivity].
Defined.
