(* ===== verification/Samples.v ===== *)
(** * Samples: concrete objects for evaluating the definitions

    The fixtures of controllers/loadbalancer_controller_test.go: a load balancer
    with the pools [http] and [https] over the nodes labelled [role=infra], the
    nodes and the servers behind them. *)

From Stdlib Require Import ZArith.
From stdpp Require Import base list strings gmap.
From S2P Require Import Prelude GoLib ApiTypes Cloudscale.
Open Scope string_scope.
Open Scope Z_scope.
Open Scope list_scope.

Definition sample_selector (role : string) : v1beta1.LabelSelector :=
  {| v1beta1.ls_MatchLabels := {[ "role" := role ]}; v1beta1.ls_MatchExpressions := [] |}.

Definition sample_http : v1beta1.HTTPHealthMonitor :=
  {| v1beta1.http_Method := ""; v1beta1.http_Path := ""; v1beta1.http_Host := "";
     v1beta1.http_Version := ""; v1beta1.http_StatusCodes := [] |}.

Definition sample_health_monitor (typ : string) : v1beta1.HealthMonitor :=
  {| v1beta1.hm_Port := 0; v1beta1.hm_Type := typ; v1beta1.hm_Delay := 0; v1beta1.hm_Timeout := 0;
     v1beta1.hm_SuccessThreshold := 0; v1beta1.hm_FailureThreshold := 0;
     v1beta1.hm_HTTP := sample_http |}.

Definition sample_pool (name : string) (port : Z) : v1beta1.Pool :=
  {| v1beta1.pool_Name := name;
     v1beta1.pool_Algorithm := "";
     v1beta1.pool_Frontend :=
       {| v1beta1.fe_Protocol := ""; v1beta1.fe_Port := port; v1beta1.fe_AllowedCIDRs := [];
          v1beta1.fe_DataTimeout := 0 |};
     v1beta1.pool_Backend :=
       {| v1beta1.be_Port := port; v1beta1.be_Protocol := "";
          v1beta1.be_HealthMonitor := sample_health_monitor "";
          v1beta1.be_NodeSelector := sample_selector "infra";
          v1beta1.be_DataTimeout := 0; v1beta1.be_ConnectTimeout := 0;
          v1beta1.be_AllowedSubnets := [] |} |}.

Definition sample_meta : v1beta1.ObjectMeta :=
  {| v1beta1.meta_Namespace := "default"; v1beta1.meta_Name := "test-lb"; v1beta1.meta_UID := "uid-1";
     v1beta1.meta_Finalizers := []; v1beta1.meta_DeletionTimestamp := None |}.

(** Its key. *)
Definition sample_key : v1beta1.NamespacedName :=
  {| v1beta1.nn_Namespace := "default"; v1beta1.nn_Name := "test-lb" |}.

Definition sample_status : v1beta1.LoadBalancerStatus :=
  {| v1beta1.status_CloudscaleStatus := ""; v1beta1.status_VirtualIPAddresses := [];
     v1beta1.status_FloatingIPAddresses := []; v1beta1.status_Pools := [] |}.

Definition sample_lb (uuid zone : string) : v1beta1.LoadBalancer :=
  {| v1beta1.lb_Meta := sample_meta;
     v1beta1.lb_Spec :=
       {| v1beta1.spec_UUID := uuid; v1beta1.spec_Zone := zone;
          v1beta1.spec_VirtualIPAddresses := [];
          v1beta1.spec_FloatingIPAddresses :=
            [ {| v1beta1.fip_CIDR := "222.238.68.109/32" |};
              {| v1beta1.fip_CIDR := "a9d8:05d2:f5b7:7588:c167:c4ee:976f:ff06/128" |} ];
          v1beta1.spec_Pools := [sample_pool "http" 80; sample_pool "https" 443] |};
     v1beta1.lb_Status := sample_status |}.

Definition sample_node (name id : string) : corev1.Node :=
  {| corev1.node_Name := name; corev1.node_Labels := {[ "role" := "infra" ]};
     corev1.node_ProviderID := "cloudscale://" +:+ id |}.

Definition sample_server (name zone : string) (addrs : list string) : cloudscale.Server :=
  {| cloudscale.srv_UUID := "srv-" +:+ name;
     cloudscale.srv_Name := name;
     cloudscale.srv_Zone := zone;
     cloudscale.srv_Interfaces :=
       [ {| cloudscale.if_Type := "public"; cloudscale.if_Addresses := [] |};
         {| cloudscale.if_Type := "private";
            cloudscale.if_Addresses := [ {| cloudscale.addr_Address := "10.45.12.27";
                                            cloudscale.addr_Subnet := "" |} ] |};
         {| cloudscale.if_Type := "private";
            cloudscale.if_Addresses :=
              map (fun a => {| cloudscale.addr_Address := a;
                               cloudscale.addr_Subnet := "subnet-1" |}) addrs |} ] |}.
