(* ===== verification/Nodes.v ===== *)
(** * Nodes: from node selectors to cloudscale servers

    [matchingNodes], [cloudscaleServersForNodes] and [guessLoadbalancerZone] of
    controllers/loadbalancer_controller.go. *)

From Stdlib Require Import ZArith Lia Sorting.Sorted.
From stdpp Require Import base list strings gmap.
From S2P Require Import Prelude GoLib ApiTypes Cloudscale Effects External Helpers Samples.
Open Scope string_scope.
Open Scope Z_scope.
Open Scope list_scope.

Record nodeServerMapping := {
  nsm_Node : corev1.Node;
  nsm_Server : cloudscale.Server;
}.

Definition matchingNodes (ls : v1beta1.LabelSelector) : M (list corev1.Node) :=
  _ ← wrap "failed to convert node selector: %w" [] (call (LabelSelectorAsSelector ls));
  nodes ← wrap "failed to list nodes: %w" [] (call (K8sListNodes ls));
  mret (SortFunc (on_key corev1.node_Name) nodes).

(** One iteration of the loop of [cloudscaleServersForNodes]. *)
Definition serverForNode (acc : list nodeServerMapping * list text) (node : corev1.Node)
    : M (list nodeServerMapping * list text) :=
  let '(servers, warnings) := acc in
  let name := corev1.node_Name node in
  let providerID := corev1.node_ProviderID node in
  if str_empty providerID then
    mret (servers, warnings ++ [Sprintf "node %q does not have a provider ID" [AStr name]])
  else if negb (HasPrefix providerID cloudscaleProviderIDPrefix) then
    mret (servers, warnings ++
      [Sprintf "node %q does not have a cloudscale provider ID (%q)" [AStr name; AStr providerID]])
  else
    let id := TrimPrefix providerID cloudscaleProviderIDPrefix in
    server ← call_err (ServerGet id);
    match server with
    | Err err =>
        if IsCloudscaleNotFoundErr err then
          mret (servers, warnings ++
            [Sprintf "node %q(%q) does not have a cloudscale server " [AStr name; AStr id]])
        else Throw (ErrorfW "failed to get cloudscale server for node %q: %w" [AStr name] err)
    | Ok None =>
        mret (servers, warnings ++
          [Sprintf "cloudscale returned empty server for node %q(%q) " [AStr name; AStr id]])
    | Ok (Some server) =>
        mret (servers ++ [{| nsm_Node := node; nsm_Server := server |}], warnings)
    end.

Definition cloudscaleServersForNodes (nodes : list corev1.Node)
    : M (list nodeServerMapping * list text) :=
  foldM nodes ([], []) serverForNode.

Section Zone.
Context {L : Lib}.

(** The inner loop of [guessLoadbalancerZone]: zones of the servers of a pool. *)
Definition insertZones (zoneSet : StringSet) (servers : list nodeServerMapping) : StringSet :=
  fold_left (fun zs server =>
    let zone := cloudscale.srv_Zone (nsm_Server server) in
    if negb (str_empty zone) then sets_Insert zs zone else zs) servers zoneSet.

Definition guessLoadbalancerZone (lb : v1beta1.LoadBalancer) : M string :=
  zoneSet ← foldM (v1beta1.spec_Pools (v1beta1.lb_Spec lb)) sets_New (fun zoneSet pool =>
    backends ← wrap "failed to get matching nodes: %w" []
      (matchingNodes (v1beta1.be_NodeSelector (v1beta1.pool_Backend pool)));
    '(servers, _) ← wrap "failed to get cloudscale servers for nodes: %w" []
      (cloudscaleServersForNodes backends);
    mret (insertZones zoneSet servers));
  let zones := sets_List zoneSet in
  match zones with
  | [] => fail "no zone specified and no servers with zone information found" []
  | [zone] => mret zone
  | _ => fail "no zone specified and multiple zones found in backends: %v" [AStrs zones]
  end.
End Zone.

(** ** What the nodes come to

    Relations between nodes, the calls made for them, and the result; the calls and
    the texts are written out. *)

(** One node: without a call, a warning that it has no provider ID or a foreign one; or one lookup of the server with
    the ID behind "cloudscale://", which gives the server or a warning. *)
Inductive accounted (node : corev1.Node) : list action -> list nodeServerMapping -> list text -> Prop :=
| acc_none : corev1.node_ProviderID node = "" ->
    accounted node [] [] [Sprintf "node %q does not have a provider ID" [AStr (corev1.node_Name node)]]
| acc_foreign : corev1.node_ProviderID node <> "" -> (forall id, corev1.node_ProviderID node <> "cloudscale://" +:+ id) ->
    accounted node [] [] [Sprintf "node %q does not have a cloudscale provider ID (%q)"
                            [AStr (corev1.node_Name node); AStr (corev1.node_ProviderID node)]]
| acc_server id s : corev1.node_ProviderID node = "cloudscale://" +:+ id ->
    accounted node [ACall (ServerGet id) (Ok (Some s))] [{| nsm_Node := node; nsm_Server := s |}] []
| acc_empty id : corev1.node_ProviderID node = "cloudscale://" +:+ id ->
    accounted node [ACall (ServerGet id) (Ok None)] []
      [Sprintf "cloudscale returned empty server for node %q(%q) " [AStr (corev1.node_Name node); AStr id]]
| acc_missing id e : corev1.node_ProviderID node = "cloudscale://" +:+ id -> As_ErrorResponse e = Some 404 ->
    accounted node [ACall (ServerGet id) (Err e)] []
      [Sprintf "node %q(%q) does not have a cloudscale server " [AStr (corev1.node_Name node); AStr id]].

(** The nodes one after the other. *)
Inductive accounts : list corev1.Node -> list action -> list nodeServerMapping -> list text -> Prop :=
| accounts_nil : accounts [] [] [] []
| accounts_snoc nodes node t t' servers servers' warnings warnings' :
    accounts nodes t servers warnings -> accounted node t' servers' warnings' ->
    accounts (nodes ++ [node]) (t ++ t') (servers ++ servers') (warnings ++ warnings').

(** A lookup that failed with anything but 404, after the nodes before it. *)
Definition lookup_failed (nodes : list corev1.Node) (t : list action) : Prop :=
  exists pre node post t' servers warnings id e, nodes = pre ++ node :: post /\ accounts pre t' servers warnings /\
    corev1.node_ProviderID node = "cloudscale://" +:+ id /\ As_ErrorResponse e <> Some 404 /\
    t = t' ++ [ACall (ServerGet id) (Err e)].

(** The servers behind the selector of a pool: its nodes were listed and all of them looked up. *)
Definition pool_looked_up (pool : v1beta1.Pool) (t : list action) (servers : list nodeServerMapping) : Prop :=
  let sel := v1beta1.be_NodeSelector (v1beta1.pool_Backend pool) in
  exists nodes sorted t' warnings,
    t = ACall (LabelSelectorAsSelector sel) (Ok tt) :: ACall (K8sListNodes sel) (Ok nodes) :: t' /\
    sorted ≡ₚ nodes /\ accounts sorted t' servers warnings.

Inductive pools_looked_up : list v1beta1.Pool -> list action -> list nodeServerMapping -> Prop :=
| looked_up_nil : pools_looked_up [] [] []
| looked_up_snoc pools pool t t' servers servers' :
    pools_looked_up pools t servers -> pool_looked_up pool t' servers' ->
    pools_looked_up (pools ++ [pool]) (t ++ t') (servers ++ servers').

Definition zones (servers : list nodeServerMapping) : list string := map (fun m => cloudscale.srv_Zone (nsm_Server m)) servers.

(** The only zone of the servers, those without zone aside; none, or several. *)
Definition single_zone (servers : list nodeServerMapping) (z : string) : Prop :=
  z <> "" /\ z ∈ zones servers /\ forall x, x ∈ zones servers -> x = "" \/ x = z.

Definition no_single_zone (servers : list nodeServerMapping) : Prop :=
  (forall x, x ∈ zones servers -> x = "") \/
  exists x y, x ∈ zones servers /\ y ∈ zones servers /\ x <> "" /\ y <> "" /\ x <> y.

(** What a guess must be: the servers behind all pools were looked up, and have one zone, or not. *)
Definition zone_guess_post (lb : v1beta1.LoadBalancer) (h h' : list action) (o : outcome string) : Prop :=
  match o with
  | Returned z => exists t servers, h' = h ++ t /\
      pools_looked_up (v1beta1.spec_Pools (v1beta1.lb_Spec lb)) t servers /\ single_zone servers z
  | Failed (Errorf _ _) => exists t servers, h' = h ++ t /\
      pools_looked_up (v1beta1.spec_Pools (v1beta1.lb_Spec lb)) t servers /\ no_single_zone servers
  | Failed (ErrorfW _ _ _) => faulted h'
  | Failed _ => False
  | Panicked _ => False
  end.

(** ** Facts *)

Lemma NotFound_404 e : IsCloudscaleNotFoundErr e = true <-> As_ErrorResponse e = Some 404.
Proof.
  unfold IsCloudscaleNotFoundErr, StatusNotFound. destruct (As_ErrorResponse e); [|done]. rewrite Z.eqb_eq. naive_solver.
Qed.

Lemma matchingNodes_spec ls (h : list action) Q :
  (forall h' nodes, h' = h ++ [ACall (LabelSelectorAsSelector ls) (Ok tt); ACall (K8sListNodes ls) (Ok nodes)] ->
     Q h' (Returned (SortFunc (on_key corev1.node_Name) nodes))) ->
  (forall h' e, faulted h' -> Q h' (Failed e)) ->
  wp (matchingNodes ls) h Q.
Proof.
  intros HR HF. unfold matchingNodes.
  wp_steps; hist.
  - rewrite <- app_assoc. destruct v. by apply HR.
  - apply HF. by apply faulted_last.
  - apply HF. by apply faulted_last.
Qed.

(** One iteration: the node is accounted for, or its lookup failed. *)
Lemma serverForNode_accounted servers warnings node h :
  wp (serverForNode (servers, warnings) node) h (fun h' o => match o with
    | Returned acc => exists t s w, h' = h ++ t /\ acc = (servers ++ s, warnings ++ w) /\ accounted node t s w
    | Failed e => IsCloudscaleNotFoundErr e = false /\ exists id e', corev1.node_ProviderID node = "cloudscale://" +:+ id /\
        As_ErrorResponse e' <> Some 404 /\ h' = h ++ [ACall (ServerGet id) (Err e')]
    | Panicked _ => False
    end).
Proof.
  unfold serverForNode. case_if; str_prop.
  { cbn. eexists [], [], [_]. rewrite !app_nil_r. split; [done|]. split; [done|]. by constructor. }
  destruct (HasPrefix _ _) eqn:Ep; cbn [negb].
  - apply HasPrefix_split in Ep. set (id := TrimPrefix _ _) in *. cbn. intros [[server|]|err] h' ->.
    + cbn. eexists [_], [_], []. rewrite !app_nil_r. split; [done|]. split; [done|]. by constructor.
    + cbn. eexists [_], [], [_]. rewrite !app_nil_r. split; [done|]. split; [done|]. by constructor.
    + destruct (IsCloudscaleNotFoundErr err) eqn:En; cbn.
      * eexists [_], [], [_]. rewrite !app_nil_r. split; [done|]. split; [done|]. constructor; [done|]. by apply NotFound_404.
      * split; [done|]. exists id, err. split; [done|]. split; [|done]. rewrite <- NotFound_404. by rewrite En.
  - cbn. eexists [], [], [_]. rewrite !app_nil_r. split; [done|]. split; [done|]. constructor; [done|].
    intros id Hid. rewrite Hid, HasPrefix_app in Ep. done.
Qed.

Lemma matchingNodes_fails ls : fails_only faulted (matchingNodes ls).
Proof. unfold matchingNodes. faults. Qed.

Lemma cloudscaleServersForNodes_spec nodes (h : list action) :
  wp (cloudscaleServersForNodes nodes) h (fun h' o => match o with
    | Returned (servers, warnings) => exists t, h' = h ++ t /\ accounts nodes t servers warnings
    | Failed e => IsCloudscaleNotFoundErr e = false /\ exists t, h' = h ++ t /\ lookup_failed nodes t
    | Panicked _ => False
    end).
Proof.
  unfold cloudscaleServersForNodes.
  apply wp_foldM with (I := fun pre acc h' => exists t, h' = h ++ t /\ accounts pre t acc.1 acc.2).
  - exists []. rewrite app_nil_r. split; [done|constructor].
  - intros pre node rest [servers warnings] h1 -> (t & -> & Ha). eapply wp_mono; [|apply serverForNode_accounted].
    intros h2 [acc|e|s]; [| |done].
    + intros (t' & s & w & -> & -> & Hn). exists (t ++ t'). rewrite <- app_assoc. split; [done|]. by constructor.
    + intros (He & id & e' & Hid & H4 & ->). split; [done|]. eexists. rewrite <- app_assoc. split; [done|].
      by exists pre, node, rest, t, servers, warnings, id, e'.
  - intros [servers warnings] h1 Ha. exact Ha.
Qed.

Lemma lookup_failed_faulted nodes h t : lookup_failed nodes t -> faulted (h ++ t).
Proof.
  intros (pre & node & post & t' & ss & ws & id & e & _ & _ & _ & He & ->). rewrite app_assoc. apply faulted_last.
  cbn. apply not_true_iff_false. by rewrite NotFound_404.
Qed.

Lemma cloudscaleServersForNodes_fails nodes : fails_only faulted (cloudscaleServersForNodes nodes).
Proof.
  intros h. eapply wp_mono; [|apply cloudscaleServersForNodes_spec]. intros h' [[]|e|s]; try done.
  intros (_ & t & -> & Hf). by eapply lookup_failed_faulted.
Qed.

(** C34: every node is accounted for, in the order given: a node without provider ID, or with a foreign one, is reported
    in a warning that names it and its ID, without a call; any other is looked up once, by exactly the ID behind
    "cloudscale://", and is mapped to the server the API answers, or reported in a warning that names it and the ID when
    the API answers 404 or nothing.  There are no other calls, servers or warnings.  The function fails only when a
    lookup is answered with another error, right after it, and it never panics. *)
Theorem servers_for_nodes_accounts nodes (h : list action) :
  wp (cloudscaleServersForNodes nodes) h (fun h' o => match o with
    | Returned (servers, warnings) => exists t, h' = h ++ t /\ accounts nodes t servers warnings
    | Failed e => IsCloudscaleNotFoundErr e = false /\ exists t, h' = h ++ t /\ lookup_failed nodes t
    | Panicked _ => False
    end).
Proof. apply cloudscaleServersForNodes_spec. Qed.

Section ZoneFacts.
Context {L : Lib} {LL : LibLaws L}.

Lemma elem_of_insertZones servers zs x :
  x ∈ sets_List (insertZones zs servers) <-> (x <> "" /\ x ∈ zones servers) \/ x ∈ sets_List zs.
Proof.
  unfold insertZones, zones. revert zs. induction servers as [|m servers IH]; intros zs; cbn; [set_solver|].
  rewrite IH. destruct (str_empty _) eqn:E; cbn; str_prop.
  - rewrite E. set_solver.
  - rewrite elem_of_Insert. set_solver.
Qed.

(** Invariant of the loop over the pools: the set holds the zones of the servers so far. *)
Definition zone_inv (h0 : list action) (pools : list v1beta1.Pool) (zs : StringSet) (h : list action) : Prop :=
  exists t servers, h = h0 ++ t /\ pools_looked_up pools t servers /\
    forall x, x ∈ sets_List zs <-> x <> "" /\ x ∈ zones servers.

(** What the sorted set of zones says about the servers. *)
Lemma zones_verdict (zl : list string) servers :
  StronglySorted str_lt zl -> (forall x, x ∈ zl <-> x <> "" /\ x ∈ zones servers) ->
  match zl with [z] => single_zone servers z | _ => no_single_zone servers end.
Proof.
  intros Hsort Hzs. destruct zl as [|z [|z' zl]].
  - left. intros x Hx. destruct (decide (x = "")); [done|]. specialize (Hzs x). set_solver.
  - destruct (proj1 (Hzs z)) as [Hz Hin]; [set_solver|]. split; [done|]. split; [done|].
    intros x Hx. destruct (decide (x = "")); [by left|]. right. specialize (Hzs x). set_solver.
  - right. exists z, z'. destruct (proj1 (Hzs z)) as [Hz Hin]; [set_solver|].
    destruct (proj1 (Hzs z')) as [Hz' Hin']; [set_solver|]. repeat (split; [done|]). intros ->.
    inversion Hsort as [|? ? _ Hf]; subst. rewrite Forall_forall in Hf.
    specialize (Hf z'). unfold str_lt in Hf. rewrite (proj2 (Compare_eq z' z')) in Hf by done.
    assert (0 < 0); [apply Hf; set_solver|lia].
Qed.

Lemma zone_guess lb (h : list action) :
  wp (guessLoadbalancerZone lb) h (zone_guess_post lb h).
Proof.
  unfold guessLoadbalancerZone. apply wp_bind.
  apply wp_foldM with (I := zone_inv h).
  - exists [], []. rewrite app_nil_r. split; [done|]. split; [constructor|]. intros x. rewrite elem_of_New. set_solver.
  - intros pre pool rest zs h1 _ (t & servers & -> & Hp & Hzs). apply wp_bind, wp_wrap, matchingNodes_spec; [|done].
    intros h2 nodes ->. cbn [wrapped continue]. apply wp_bind, wp_wrap.
    eapply wp_mono; [|apply cloudscaleServersForNodes_spec].
    intros h3 [[servers' warnings]|e|s]; cbn [wrapped continue]; [| |done].
    + intros (t' & -> & Ha). eexists _, (servers ++ servers'). split; [by rewrite <- !app_assoc|]. split.
      * constructor; [done|]. eexists nodes, _, t', warnings. split; [done|]. split; [apply SortFunc_perm|done].
      * intros x. rewrite elem_of_insertZones, Hzs. unfold zones. rewrite map_app, elem_of_app. tauto.
    + intros (_ & t' & -> & Hf). by eapply lookup_failed_faulted.
  - intros zs h1 (t & servers & -> & Hp & Hzs). cbn [continue].
    pose proof (zones_verdict (sets_List zs) servers (List_sorted zs) Hzs) as Hv.
    destruct (sets_List zs) as [|z [|z' zl]]; cbn; by exists t, servers.
Qed.

(** C33: a guess looks at every pool of the manifest, in its order: it lists the nodes behind the pool's selector and
    looks up the server of each of them.  The guessed zone is then the only non-empty zone among all these servers; the
    guess is refused when they have none or more than one, and fails otherwise only after the API answered an error.  The
    guess never panics. *)
Theorem guess_zone_unique lb (h : list action) :
  wp (guessLoadbalancerZone lb) h (zone_guess_post lb h).
Proof. apply zone_guess. Qed.
End ZoneFacts.

Lemma guess_zone_unique_witness :
  LibLaws ref_lib /\ wp (guessLoadbalancerZone (sample_lb "" "")) [] (zone_guess_post (sample_lb "" "") []).
Proof. split; [exact ref_lib_laws|]. apply (guess_zone_unique (sample_lb "" "") []). Defined.
