(* ===== verification/FloatingIPs.v ===== *)
(** * FloatingIPs: [attachFloatingIPs] of controllers/loadbalancer_controller.go *)

From Stdlib Require Import ZArith Lia Sorting.Sorted.
From stdpp Require Import base list strings gmap.
From S2P Require Import Prelude GoLib ApiTypes Cloudscale Effects External Helpers Samples.
Open Scope string_scope.
Open Scope Z_scope.
Open Scope list_scope.

(** The update API wants the IP without the /32 or /128 suffix. *)
Definition floatingAddr (cidr : string) : string := TrimSuffix (TrimSuffix cidr "/32") "/128".

Section Attach.
Context {L : Lib}.

(** Does the list of floating IPs show [cidr] attached to the load balancer? *)
Definition floatingIPAttached (actualIPs : list cloudscale.FloatingIP) (uuid cidr : string) : bool :=
  ContainsFunc actualIPs (fun ip =>
    str_eqb (cloudscale.fip_Network ip) cidr &&
    str_eqb (cloudscale.lbs_UUID
               (ptr_Deref (cloudscale.fip_LoadBalancer ip) {| cloudscale.lbs_UUID := "" |})) uuid).

Definition attachFloatingIPs (lb : v1beta1.LoadBalancer) : M (list string) :=
  match v1beta1.spec_FloatingIPAddresses (v1beta1.lb_Spec lb) with
  | [] => mret []
  | wantIPs =>
      actualIPs ← wrap "failed to list floating IPs: %w" [] (call FloatingIPList);
      haveIPs ← foldM wantIPs sets_New (fun haveIPs wantIP =>
        let cidr := v1beta1.fip_CIDR wantIP in
        if floatingIPAttached actualIPs (v1beta1.UUID lb) cidr then mret (sets_Insert haveIPs cidr)
        else
          let wantAddr := floatingAddr cidr in
          _ ← wrap "failed to update floating IP %q: %w" [AStr wantAddr]
            (call (FloatingIPUpdate wantAddr
               {| cloudscale.fipr_LoadBalancer := v1beta1.UUID lb |}));
          _ ← Eventf EventTypeNormal "FloatingIPAttached"
            "Attached floating IP %q to load balancer %q" [AStr wantAddr; AStr (v1beta1.UUID lb)];
          mret (sets_Insert haveIPs cidr));
      mret (sets_List haveIPs)
  end.
End Attach.

(** The wanted networks, as written in the manifest. *)
Definition wantedCIDRs (lb : v1beta1.LoadBalancer) : list string :=
  map v1beta1.fip_CIDR (v1beta1.spec_FloatingIPAddresses (v1beta1.lb_Spec lb)).

(** ** What the controller relies on from the floating IP service

    [GET /v1/floating-ips] lists all floating IPs.  [PATCH /v1/floating-ips/<ip>]
    assigns one to a load balancer and succeeds only when there is one: a floating
    IP whose network is a single address goes by that address alone, "without the
    /32 or /128 suffix", any other by its network.  Any call may fail; a failed
    update leaves the assignments unchanged. *)

Definition goes_by (ip network : string) : bool :=
  str_eqb network (ip +:+ "/32") || str_eqb network (ip +:+ "/128") ||
  (str_eqb network ip && negb (HasSuffix network "/32") && negb (HasSuffix network "/128")).

Definition assign (ip uuid : string) (f : cloudscale.FloatingIP) : cloudscale.FloatingIP :=
  if goes_by ip (cloudscale.fip_Network f)
  then {| cloudscale.fip_Network := cloudscale.fip_Network f;
          cloudscale.fip_LoadBalancer := Some {| cloudscale.lbs_UUID := uuid |} |}
  else f.

Class FloatingIPAPI (W : Type) `{World W} := {
  floating_ips : W -> list cloudscale.FloatingIP;
  fip_list w l w' : answers w FloatingIPList (Ok l) w' -> l = floating_ips w /\ floating_ips w' = floating_ips w;
  fip_list_err w e w' : answers w FloatingIPList (Err e) w' -> floating_ips w' = floating_ips w;
  fip_update w ip r w' : answers w (FloatingIPUpdate ip r) (Ok tt) w' ->
    floating_ips w' = map (assign ip (cloudscale.fipr_LoadBalancer r)) (floating_ips w) /\
    exists f, f ∈ floating_ips w /\ goes_by ip (cloudscale.fip_Network f) = true;
  fip_update_err w ip r e w' : answers w (FloatingIPUpdate ip r) (Err e) w' ->
    floating_ips w' = floating_ips w;
  fip_recorded w ev : floating_ips (recorded w ev) = floating_ips w;
  fip_unique w : NoDup (map cloudscale.fip_Network (floating_ips w));
}.

(** A network with one prefix length; the webhook refuses any other text. *)
Definition one_length (cidr : string) : Prop := HasSuffix cidr "/128/32" = false.

(** The same floating IP: networks that go by the same address. *)
Definition same_floating (c n : string) : Prop := exists ip, goes_by ip c = true /\ goes_by ip n = true.

Definition attached_to (uuid : string) (f : cloudscale.FloatingIP) : Prop :=
  cloudscale.fip_LoadBalancer f = Some {| cloudscale.lbs_UUID := uuid |}.

(** ** Facts *)

(** The address the controller sends is the one the floating IP goes by. *)
Lemma goes_by_floatingAddr c : one_length c -> goes_by (floatingAddr c) c = true.
Proof.
  unfold one_length, floatingAddr, goes_by. intros Ho. destruct (HasSuffix c "/32") eqn:E1.
  - apply HasSuffix_split in E1. destruct (HasSuffix (TrimSuffix c "/32") "/128") eqn:E2.
    + apply HasSuffix_split in E2. rewrite E1, E2 in Ho.
      rewrite <- string_app_assoc, (HasSuffix_app _ "/128/32") in Ho. done.
    + rewrite (TrimSuffix_none _ _ E2), <- E1, str_eqb_refl. done.
  - rewrite (TrimSuffix_none _ _ E1). destruct (HasSuffix c "/128") eqn:E2.
    + apply HasSuffix_split in E2. by rewrite <- E2, str_eqb_refl, orb_true_r.
    + by rewrite (TrimSuffix_none _ _ E2), str_eqb_refl, orb_true_r.
Qed.

Section Facts.
Context {L : Lib} {LL : LibLaws L}.

Lemma floatingIPAttached_true ips uuid cidr :
  floatingIPAttached ips uuid cidr = true ->
  exists f, f ∈ ips /\ cloudscale.fip_Network f = cidr /\
    (cloudscale.fip_LoadBalancer f = Some {| cloudscale.lbs_UUID := uuid |} \/
     cloudscale.fip_LoadBalancer f = None /\ uuid = "").
Proof.
  unfold floatingIPAttached, ContainsFunc. rewrite existsb_elem. intros (f & Hf & Hb).
  bool_to_prop. str_prop. exists f. repeat split; [done|done|].
  destruct (cloudscale.fip_LoadBalancer f) as [[u]|]; rewrite ?Deref_Some, ?Deref_None in *; cbn in *; subst; eauto.
Qed.

(** On success the reported list is the sorted, duplicate-free list of
    the networks of the manifest, whatever the API answered on the way. *)
Lemma attach_result_sorted {W} `{World W} lb (w : W) :
  wp (attachFloatingIPs lb) w (fun _ o => match o with
    | Returned cidrs => StronglySorted str_lt cidrs /\ forall c, c ∈ cidrs <-> c ∈ wantedCIDRs lb
    | Failed _ => wantedCIDRs lb <> []
    | Panicked _ => False
    end).
Proof.
  unfold attachFloatingIPs, wantedCIDRs.
  destruct (v1beta1.spec_FloatingIPAddresses _) as [|ip0 ips0]; [cbn; split; [constructor|set_solver]|].
  set (wantIPs := ip0 :: ips0). wp_steps; [|done].
  apply wp_foldM with (I := fun pre have _ => forall c, c ∈ sets_List have <-> c ∈ map v1beta1.fip_CIDR pre).
  - intros c. rewrite elem_of_New. set_solver.
  - intros pre x rest have w1 _ HI. wp_steps; try done;
      intros c; rewrite elem_of_Insert, HI, map_app; set_solver.
  - intros have w1 HI. cbn. split; [apply List_sorted|]. intros c. by rewrite HI.
Qed.

(** The updates that a list of networks calls for. *)
Definition attachCalls (actual : list cloudscale.FloatingIP) (uuid : string) (cidrs : list string) : list req :=
  map (fun c => FloatingIPUpdate (floatingAddr c) {| cloudscale.fipr_LoadBalancer := uuid |})
    (List.filter (fun c => negb (floatingIPAttached actual uuid c)) cidrs).

Lemma attachCalls_snoc actual uuid cidrs c :
  attachCalls actual uuid (cidrs ++ [c]) =
  attachCalls actual uuid cidrs ++ attachCalls actual uuid [c].
Proof. unfold attachCalls. by rewrite List.filter_app, map_app. Qed.

Lemma attach_hist lb (h : list action) :
  wp (attachFloatingIPs lb) h (fun h' o => match o with
    | Returned _ =>
        (wantedCIDRs lb = [] /\ h' = h) \/
        exists actual t, h' = h ++ ACall FloatingIPList (Ok actual) :: t /\
          calls t = attachCalls actual (v1beta1.UUID lb) (wantedCIDRs lb)
    | Failed _ => True
    | Panicked _ => False
    end).
Proof.
  unfold attachFloatingIPs, wantedCIDRs.
  destruct (v1beta1.spec_FloatingIPAddresses _) as [|ip0 ips0]; [cbn; by left|].
  set (wantIPs := ip0 :: ips0). wp_steps; hist; [|done].
  apply wp_foldM with (I := fun pre _ h' => exists t, h' = h ++ ACall FloatingIPList (Ok v) :: t /\
    calls t = attachCalls v (v1beta1.UUID lb) (map v1beta1.fip_CIDR pre)).
  - by exists [].
  - intros pre x rest have h1 _ (t & -> & Ht).
    destruct (floatingIPAttached v (v1beta1.UUID lb) (v1beta1.fip_CIDR x)) eqn:E; cbn [wp mret M_ret].
    + exists t. split; [done|]. rewrite map_app. cbn [map]. rewrite attachCalls_snoc, Ht.
      unfold attachCalls at 3. cbn. by rewrite E, app_nil_r.
    + wp_steps; hist; [|done]. cbn [recorded history].
      eexists (t ++ [_; _]). rewrite <- !app_assoc. split; [done|].
      rewrite calls_app, map_app. cbn [map]. rewrite attachCalls_snoc, Ht. f_equal.
      unfold attachCalls. cbn. by rewrite E.
  - intros have h1 (t & -> & Ht). cbn. right. eauto.
Qed.

Lemma attachFloatingIPs_fails lb : fails_only faulted (attachFloatingIPs lb).
Proof. unfold attachFloatingIPs. faults. Qed.

(** The calls are exact: nothing when the manifest names no floating IP,
    otherwise one listing and then, in the order of the manifest, one update for
    each network the listing does not show attached to this load balancer.  In
    particular a pass that finds everything attached writes nothing.  The function
    fails only after a call failed, and never panics. *)
Lemma attach_calls_exact lb (h : list action) :
  wp (attachFloatingIPs lb) h (fun h' o => match o with
    | Returned _ =>
        (wantedCIDRs lb = [] /\ h' = h) \/
        exists actual t, h' = h ++ ACall FloatingIPList (Ok actual) :: t /\
          calls t = attachCalls actual (v1beta1.UUID lb) (wantedCIDRs lb)
    | Failed _ => faulted h'
    | Panicked _ => False
    end).
Proof.
  eapply wp_mono; [|exact (wp_and _ _ _ _ (attach_hist lb h) (attachFloatingIPs_fails lb h))].
  by intros h' [] [].
Qed.

Context {W : Type} `{World W} `{!FloatingIPAPI W}.

(** What holds of the assignments after the networks [pre] were processed: each of them is a floating IP the service
    holds, attached to the load balancer; and what is not attached is as it was. *)
Definition attach_inv (actual : list cloudscale.FloatingIP) (uuid : string) (pre : list string) (w : W) : Prop :=
  (forall f, f ∈ floating_ips w ->
    (cloudscale.fip_Network f ∈ pre -> attached_to uuid f) /\ (attached_to uuid f \/ f ∈ actual)) /\
  (forall c, c ∈ pre -> exists f, f ∈ floating_ips w /\ same_floating c (cloudscale.fip_Network f) /\ attached_to uuid f) /\
  map cloudscale.fip_Network (floating_ips w) = map cloudscale.fip_Network actual.

Lemma attach_inv_attached actual uuid pre w cidr :
  uuid <> "" -> NoDup (map cloudscale.fip_Network actual) -> one_length cidr ->
  floatingIPAttached actual uuid cidr = true ->
  attach_inv actual uuid pre w -> attach_inv actual uuid (pre ++ [cidr]) w.
Proof.
  intros Hne Hnd Ho (f0 & Hf0 & Hnet & [Hlb|[_ ?]])%floatingIPAttached_true (Hinv & Hex & Hm); [|done].
  assert (Hc : forall f, f ∈ floating_ips w -> cloudscale.fip_Network f = cidr -> attached_to uuid f).
  { intros f Hf Heq. destruct (Hinv f Hf) as [_ [Ha|Hin]]; [done|].
    assert (f = f0) as -> by (eapply NoDup_map_inj; eauto; congruence). done. }
  split; [|split; [|done]].
  - intros f Hf. destruct (Hinv f Hf) as [Hpre Hold]. split; [|done].
    rewrite elem_of_app, list_elem_of_singleton. intros [Hin|Heq]; auto.
  - intros c. rewrite elem_of_app, list_elem_of_singleton. intros [Hin| ->]; [auto|].
    assert (cidr ∈ map cloudscale.fip_Network (floating_ips w)) as (f & Ef & Hf)%list_elem_of_fmap
      by (rewrite Hm, <- Hnet; by apply list_elem_of_fmap_2).
    exists f. split; [done|]. split; [|by apply Hc]. exists (floatingAddr cidr). rewrite <- Ef. by rewrite goes_by_floatingAddr.
Qed.

Lemma attach_inv_update actual uuid pre w w' cidr :
  one_length cidr ->
  floating_ips w' = map (assign (floatingAddr cidr) uuid) (floating_ips w) ->
  (exists f, f ∈ floating_ips w /\ goes_by (floatingAddr cidr) (cloudscale.fip_Network f) = true) ->
  attach_inv actual uuid pre w -> attach_inv actual uuid (pre ++ [cidr]) w'.
Proof.
  intros Ho Hw' (g & Hg & Hby) (Hinv & Hex & Hm). set (a := assign (floatingAddr cidr) uuid) in *.
  assert (Hnet : forall f, cloudscale.fip_Network (a f) = cloudscale.fip_Network f) by (intros f; unfold a, assign; by case_if).
  assert (Hatt : forall f, attached_to uuid f -> attached_to uuid (a f)) by (intros f Hf; unfold a, assign; by case_if).
  assert (Hin : forall f, f ∈ floating_ips w -> a f ∈ floating_ips w') by (intros f Hf; rewrite Hw'; by apply list_elem_of_fmap_2).
  split; [|split].
  - intros f. rewrite Hw', list_elem_of_In, in_map_iff. intros (f0 & <- & Hf0%list_elem_of_In).
    destruct (Hinv f0 Hf0) as [Hpre Hold]. rewrite Hnet. split.
    + rewrite elem_of_app, list_elem_of_singleton. intros [Hc|Hc]; [by apply Hatt, Hpre|].
      unfold a, assign, attached_to. by rewrite Hc, goes_by_floatingAddr.
    + unfold a, assign. case_if; [by left|done].
  - intros c. rewrite elem_of_app, list_elem_of_singleton. intros [Hc| ->].
    + destruct (Hex c Hc) as (f & Hf & Hs & Ha). exists (a f). rewrite Hnet. auto.
    + exists (a g). rewrite Hnet. split; [auto|]. split; [exists (floatingAddr cidr); by rewrite goes_by_floatingAddr|].
      unfold a, assign, attached_to. by rewrite Hby.
  - rewrite <- Hm, Hw', map_map. apply map_ext. done.
Qed.

Lemma attach_done lb (w : W) :
  v1beta1.UUID lb <> "" -> Forall one_length (wantedCIDRs lb) ->
  wp (attachFloatingIPs lb) w (fun w' o => match o with
    | Returned _ =>
        (forall c, c ∈ wantedCIDRs lb -> exists f, f ∈ floating_ips w' /\ same_floating c (cloudscale.fip_Network f) /\
           attached_to (v1beta1.UUID lb) f) /\
        (forall f, f ∈ floating_ips w' -> cloudscale.fip_Network f ∈ wantedCIDRs lb -> attached_to (v1beta1.UUID lb) f)
    | _ => True
    end).
Proof.
  intros Hne Hone. unfold attachFloatingIPs, wantedCIDRs in *. rewrite Forall_forall in Hone.
  destruct (v1beta1.spec_FloatingIPAddresses _) as [|ip0 ips0]; [cbn; set_solver|].
  set (wantIPs := ip0 :: ips0) in *. wp_steps; [|done].
  match goal with Ha : answers _ _ (Ok ?l) _ |- _ => apply fip_list in Ha as [-> Hw] end.
  apply wp_foldM with (I := fun pre _ => attach_inv (floating_ips w) (v1beta1.UUID lb) (map v1beta1.fip_CIDR pre)).
  - rewrite <- Hw. split; [intros f Hf; split; [set_solver|auto]|]. split; [set_solver|done].
  - intros pre x rest have w1 E HI. rewrite map_app.
    assert (Ho : one_length (v1beta1.fip_CIDR x)) by (apply Hone; rewrite E, map_app; set_solver).
    destruct (floatingIPAttached _ _ _) eqn:Ea; cbn [wp mret M_ret].
    + apply attach_inv_attached; auto using fip_unique.
    + wp_steps; [|done]. cbn [map].
      match goal with Ha : answers _ (FloatingIPUpdate _ _) _ _, v : val _ |- _ =>
        destruct v; apply fip_update in Ha as [Ha Hg] end.
      eapply attach_inv_update; [done| |exact Hg|exact HI]. by rewrite fip_recorded.
  - intros have w1 (H1 & H2 & _). cbn. split; [done|]. intros f Hf Hin. by apply H1.
Qed.

(** C14: against a floating IP service that behaves as documented - a floating IP with a single address goes by that
    address, without the /32 or /128, and an update of an unknown address fails - success means that every floating IP
    of the manifest is held by the service, under the address the manifest names, and attached to this load balancer, and
    that whatever is listed with a network of the manifest is.  Manifests with a UUID, whose networks have one prefix
    length each, as the webhook ensures.  Calls may fail at any point; the function fails only when one did, and never
    panics. *)
Theorem attach_converges lb (w : W) :
  v1beta1.UUID lb <> "" -> Forall one_length (wantedCIDRs lb) ->
  wp (attachFloatingIPs lb) (w, []) (fun '(w', h') o => match o with
    | Returned _ =>
        (forall c, c ∈ wantedCIDRs lb -> exists f, f ∈ floating_ips w' /\ same_floating c (cloudscale.fip_Network f) /\
           attached_to (v1beta1.UUID lb) f) /\
        (forall f, f ∈ floating_ips w' -> cloudscale.fip_Network f ∈ wantedCIDRs lb -> attached_to (v1beta1.UUID lb) f)
    | Failed _ => faulted h'
    | Panicked _ => False
    end).
Proof.
  intros Hu Ho. eapply wp_mono; [|exact (wp_traced _ _ _ _ _ (attach_done lb w Hu Ho)
    (wp_and _ _ _ _ (attach_hist lb []) (attachFloatingIPs_fails lb [])))].
  intros [w' h'] []; naive_solver.
Qed.
End Facts.
