(* ===== verification/PoolMembers.v ===== *)
(** * PoolMembers: [ensureLoadBalancerPoolMembers] of controllers/loadbalancer_controller.go *)

From Stdlib Require Import ZArith Lia.
From stdpp Require Import base list strings gmap.
From S2P Require Import Prelude GoLib ApiTypes Cloudscale Effects External Helpers Samples Nodes.
Open Scope string_scope.
Open Scope Z_scope.
Open Scope list_scope.

Section Members.
Context (lb : v1beta1.LoadBalancer) (pool : poolMapping).

Local Definition backend : v1beta1.PoolBackend := v1beta1.pool_Backend (pm_Ours pool).

(** The tags of a member: managed, and the node and server it stands for. *)
Definition memberTags (server : nodeServerMapping) : gmap string string :=
  <[ controllerServerNameTag := cloudscale.srv_Name (nsm_Server server) ]>
    (<[ controllerNodeNameTag := corev1.node_Name (nsm_Node server) ]> baseTagMap).

(** The request for one address of a server. *)
Definition memberRequest (server : nodeServerMapping) (addr : cloudscale.Address)
    : cloudscale.LoadBalancerPoolMemberRequest :=
  {| cloudscale.memr_Tags := Some (Some (memberTags server));
     cloudscale.memr_Name := cloudscaleLoadbalancerName lb +:+ "-" +:+ v1beta1.pool_Name (pm_Ours pool)
       +:+ "-" +:+ cloudscale.addr_Address addr +:+ "-" +:+ Sprint_d (v1beta1.be_Port backend);
     cloudscale.memr_Enabled := Some true;
     cloudscale.memr_ProtocolPort := v1beta1.be_Port backend;
     cloudscale.memr_MonitorPort := v1beta1.hm_Port (v1beta1.be_HealthMonitor backend);
     cloudscale.memr_Address := cloudscale.addr_Address addr;
     cloudscale.memr_Subnet := cloudscale.addr_Subnet addr |}.

(** [a := AllowedSubnets; len(a) > 0 && !slices.ContainsFunc(a, ...)]. *)
Definition subnetRefused (subnet : string) : bool :=
  let a := v1beta1.be_AllowedSubnets backend in
  Nat.ltb 0 (length a) && negb (ContainsFunc a (fun s => str_eqb (v1beta1.asub_UUID s) subnet)).

(** The loops that compute the wanted members. *)
Definition shouldPoolMembers (servers : list nodeServerMapping)
    : list cloudscale.LoadBalancerPoolMemberRequest :=
  flat_map (fun server =>
    flat_map (fun inf =>
      if str_eqb (cloudscale.if_Type inf) "public" then []
      else flat_map (fun addr =>
        if str_empty (cloudscale.addr_Subnet addr) then []
        else if subnetRefused (cloudscale.addr_Subnet addr) then []
        else [memberRequest server addr]) (cloudscale.if_Addresses inf))
      (cloudscale.srv_Interfaces (nsm_Server server))) servers.

Definition membersToDelete (should : list cloudscale.LoadBalancerPoolMemberRequest)
    (actual : list cloudscale.LoadBalancerPoolMember) : list cloudscale.LoadBalancerPoolMember :=
  List.filter (fun member => negb (ContainsFunc should (fun s =>
    loadBalancerPoolMemberRequestEqual (loadBalancerPoolMemberToRequest member) s))) actual.

Definition membersToCreate (should : list cloudscale.LoadBalancerPoolMemberRequest)
    (actual : list cloudscale.LoadBalancerPoolMember) : list cloudscale.LoadBalancerPoolMemberRequest :=
  List.filter (fun member => negb (ContainsFunc actual (fun s =>
    loadBalancerPoolMemberRequestEqual member (loadBalancerPoolMemberToRequest s)))) should.

Definition ensureLoadBalancerPoolMembers (servers : list nodeServerMapping)
    : M (list cloudscale.LoadBalancerPoolMember) :=
  let should := shouldPoolMembers servers in
  let poolUUID := cloudscale.pool_UUID (pm_Theirs pool) in
  actual ← wrap "failed to list load balancer pool members: %w" [] (call (MemberList poolUUID));
  _ ← forM_ (membersToDelete should actual) (fun member =>
    _ ← wrap "failed to delete load balancer pool member %s: %w" [AStr (cloudscale.mem_UUID member)]
      (call (MemberDelete (cloudscale.mem_Pool member) (cloudscale.mem_UUID member)));
    Eventf EventTypeNormal "PoolMemberDeleted" "Deleted load balancer pool member %q"
      [AStr (cloudscale.mem_UUID member)]);
  _ ← forM_ (membersToCreate should actual) (fun member =>
    created ← wrap "failed to create load balancer pool member: %w" []
      (call (MemberCreate poolUUID member));
    createdMember ← non_nil created "cloudscale returned empty load balancer pool member";
    Eventf EventTypeNormal "PoolMemberCreated" "Created load balancer pool member %q"
      [AStr (cloudscale.mem_UUID createdMember)]);
  wrap "failed to list load balancer pool members: %w" [] (call (MemberList poolUUID)).
End Members.

(** ** What the pool should hold

    Written down without the comparison and the loops of the code. *)

(** A member implements a request: it has the requested state, ports, address and subnet. *)
Record implements (m : cloudscale.LoadBalancerPoolMember) (r : cloudscale.LoadBalancerPoolMemberRequest) : Prop := {
  impl_enabled : cloudscale.memr_Enabled r = Some (cloudscale.mem_Enabled m);
  impl_port : cloudscale.mem_ProtocolPort m = cloudscale.memr_ProtocolPort r;
  impl_monitor : cloudscale.mem_MonitorPort m = cloudscale.memr_MonitorPort r;
  impl_address : cloudscale.mem_Address m = cloudscale.memr_Address r;
  impl_subnet : cloudscale.mem_Subnet m = cloudscale.memr_Subnet r;
}.

(** The comparison of the code, from the member and from the request. *)
Lemma equal_implements m r :
  loadBalancerPoolMemberRequestEqual (loadBalancerPoolMemberToRequest m) r = true <-> implements m r.
Proof.
  rewrite loadBalancerPoolMemberRequestEqual_true. unfold member_key. cbn.
  split; [intros [= E1 E2 E3 E4 E5]; by split|]. by intros [-> -> -> -> ->].
Qed.

Lemma implements_equal m r :
  loadBalancerPoolMemberRequestEqual r (loadBalancerPoolMemberToRequest m) = true <-> implements m r.
Proof. rewrite <- equal_implements, !loadBalancerPoolMemberRequestEqual_true. done. Qed.

#[export] Instance implements_dec m r : Decision (implements m r).
Proof.
  destruct (loadBalancerPoolMemberRequestEqual (loadBalancerPoolMemberToRequest m) r) eqn:E;
    [left; by apply equal_implements|right]. rewrite <- equal_implements. by rewrite E.
Defined.

(** The addresses that get a member, with their server: those of its non-public interfaces that lie in a subnet,
    and in an allowed one when the pool names any. *)
Definition eligible (pool : poolMapping) (addr : cloudscale.Address) : Prop :=
  let allowed := v1beta1.be_AllowedSubnets (v1beta1.pool_Backend (pm_Ours pool)) in
  cloudscale.addr_Subnet addr <> "" /\
  (allowed = [] \/ cloudscale.addr_Subnet addr ∈ map v1beta1.asub_UUID allowed).

#[export] Instance eligible_dec pool addr : Decision (eligible pool addr).
Proof.
  unfold eligible. cbn zeta. destruct (v1beta1.be_AllowedSubnets _) as [|a l]; [|apply _].
  destruct (decide (cloudscale.addr_Subnet addr = "")) as [E|E]; [right|left; auto]. by intros [? _].
Defined.

Definition candidates (pool : poolMapping) (servers : list nodeServerMapping)
    : list (nodeServerMapping * cloudscale.Address) :=
  server ← servers;
  inf ← filter (fun inf => cloudscale.if_Type inf <> "public") (cloudscale.srv_Interfaces (nsm_Server server));
  addr ← filter (eligible pool) (cloudscale.if_Addresses inf);
  [(server, addr)].

(** The request for an address: enabled, on the backend's port, probed on the health monitor's, named after load
    balancer, pool, address and port, and tagged as managed and with its node and server. *)
Record requests (lb : v1beta1.LoadBalancer) (pool : poolMapping) (c : nodeServerMapping * cloudscale.Address)
    (r : cloudscale.LoadBalancerPoolMemberRequest) : Prop := {
  rq_enabled : cloudscale.memr_Enabled r = Some true;
  rq_port : cloudscale.memr_ProtocolPort r = v1beta1.be_Port (v1beta1.pool_Backend (pm_Ours pool));
  rq_monitor : cloudscale.memr_MonitorPort r =
    v1beta1.hm_Port (v1beta1.be_HealthMonitor (v1beta1.pool_Backend (pm_Ours pool)));
  rq_address : cloudscale.memr_Address r = cloudscale.addr_Address c.2;
  rq_subnet : cloudscale.memr_Subnet r = cloudscale.addr_Subnet c.2;
  rq_name : cloudscale.memr_Name r = "appuio_io_loadbalancer_controller-" +:+ v1beta1.Namespace lb +:+ "-" +:+
    v1beta1.Name lb +:+ "-" +:+ v1beta1.pool_Name (pm_Ours pool) +:+ "-" +:+ cloudscale.addr_Address c.2 +:+ "-" +:+
    Sprint_d (v1beta1.be_Port (v1beta1.pool_Backend (pm_Ours pool)));
  rq_tags : exists tags, cloudscale.memr_Tags r = Some (Some tags) /\ forall k v, tags !! k = Some v <->
    (k = "appuio_io_loadbalancer_controller__managed" /\ v = "true") \/
    (k = "appuio_io_loadbalancer_controller__node_name" /\ v = corev1.node_Name (nsm_Node c.1)) \/
    (k = "appuio_io_loadbalancer_controller__server_name" /\ v = cloudscale.srv_Name (nsm_Server c.1));
}.

(** ** What the controller relies on from the pool member service

    Listing shows the members of the pool and changes nothing; a successful
    delete removes exactly the member named; a successful create adds one member
    with the requested settings; identifiers are unique within a pool. *)

Class MemberAPI (W : Type) `{World W} := {
  members : W -> string -> list cloudscale.LoadBalancerPoolMember;
  mem_list w p l w' : answers w (MemberList p) (Ok l) w' ->
    l = members w p /\ members w' p = members w p;
  mem_delete w p u w' : answers w (MemberDelete p u) (Ok tt) w' ->
    members w' p = List.filter (fun m => negb (str_eqb (cloudscale.mem_UUID m) u)) (members w p);
  mem_create w p r m w' : answers w (MemberCreate p r) (Ok (Some m)) w' ->
    members w' p ≡ₚ m :: members w p /\
    (is_Some (cloudscale.memr_Enabled r) -> implements m r);
  mem_recorded w ev p : members (recorded w ev) p = members w p;
  mem_unique w p : NoDup (map cloudscale.mem_UUID (members w p));
  mem_in_pool w p m : m ∈ members w p -> cloudscale.mem_Pool m = p;
}.

(** ** Facts *)

Lemma membersToDelete_unmatched should actual :
  membersToDelete should actual = filter (fun m => Forall (fun r => ~ implements m r) should) actual.
Proof.
  apply List_filter_filter. intros m. unfold ContainsFunc. rewrite negb_true_iff, existsb_not_elem, Forall_forall.
  setoid_rewrite <- equal_implements. by setoid_rewrite not_true_iff_false.
Qed.

Lemma membersToCreate_unmatched should actual :
  membersToCreate should actual = filter (fun r => Forall (fun m => ~ implements m r) actual) should.
Proof.
  apply List_filter_filter. intros r. unfold ContainsFunc. rewrite negb_true_iff, existsb_not_elem, Forall_forall.
  setoid_rewrite <- implements_equal. by setoid_rewrite not_true_iff_false.
Qed.

Lemma elem_of_membersToDelete should actual m :
  m ∈ membersToDelete should actual <-> m ∈ actual /\ forall r, r ∈ should -> ~ implements m r.
Proof. rewrite membersToDelete_unmatched, list_elem_of_filter, Forall_forall. tauto. Qed.

Lemma elem_of_membersToCreate should actual r :
  r ∈ membersToCreate should actual <-> r ∈ should /\ forall m, m ∈ actual -> ~ implements m r.
Proof. rewrite membersToCreate_unmatched, list_elem_of_filter, Forall_forall. tauto. Qed.

(** Every wanted request has its Enabled flag set. *)
Lemma shouldPoolMembers_elem lb pool servers r :
  r ∈ shouldPoolMembers lb pool servers <->
  exists server inf addr, server ∈ servers /\ inf ∈ cloudscale.srv_Interfaces (nsm_Server server) /\
    addr ∈ cloudscale.if_Addresses inf /\ cloudscale.if_Type inf <> "public" /\
    cloudscale.addr_Subnet addr <> "" /\ subnetRefused pool (cloudscale.addr_Subnet addr) = false /\
    r = memberRequest lb pool server addr.
Proof.
  unfold shouldPoolMembers. rewrite list_elem_of_In, in_flat_map.
  setoid_rewrite in_flat_map. setoid_rewrite <- list_elem_of_In. split.
  - intros (server & Hs & inf & Hi & Hr). case_if_in Hr; [set_solver|]. str_prop.
    apply list_elem_of_In, in_flat_map in Hr as (addr & Ha%list_elem_of_In & Hr).
    apply list_elem_of_In in Hr. case_if_in Hr; [set_solver|]. case_if_in Hr; [set_solver|].
    apply list_elem_of_singleton in Hr. str_prop. exists server, inf, addr. done.
  - intros (server & inf & addr & Hs & Hi & Ha & Ht & Hsub & Hok & ->).
    exists server. split; [done|]. exists inf. split; [done|].
    rewrite (proj2 (str_eqb_false _ _)) by done.
    apply list_elem_of_In, in_flat_map. exists addr. split; [by apply list_elem_of_In|].
    rewrite (proj2 (str_empty_false _)) by done. rewrite Hok. by left.
Qed.

Lemma subnetRefused_false pool subnet :
  subnetRefused pool subnet = false <->
  v1beta1.be_AllowedSubnets (backend pool) = [] \/
  subnet ∈ map v1beta1.asub_UUID (v1beta1.be_AllowedSubnets (backend pool)).
Proof.
  unfold subnetRefused, ContainsFunc. rewrite andb_false_iff, negb_false_iff, existsb_elem.
  setoid_rewrite str_eqb_true. split.
  - intros [Hl|(s & Hs & <-)].
    + left. by destruct (v1beta1.be_AllowedSubnets (backend pool)).
    + right. by apply list_elem_of_In, in_map, list_elem_of_In.
  - intros [->|Hin]; [by left|]. right.
    apply list_elem_of_In, in_map_iff in Hin as (s & <- & Hs%list_elem_of_In). eauto.
Qed.

(** The wanted members of a pool are exactly the addresses of non-public
    interfaces of the servers that lie in a known and allowed subnet (all subnets
    when none are listed), each requested enabled, on the backend port, with the
    health monitor's port, and tagged with its node and server. *)
Lemma should_members_exact lb pool servers r :
  r ∈ shouldPoolMembers lb pool servers <->
  exists server inf addr, server ∈ servers /\ inf ∈ cloudscale.srv_Interfaces (nsm_Server server) /\
    addr ∈ cloudscale.if_Addresses inf /\ cloudscale.if_Type inf <> "public" /\
    cloudscale.addr_Subnet addr <> "" /\
    (v1beta1.be_AllowedSubnets (v1beta1.pool_Backend (pm_Ours pool)) = [] \/
     cloudscale.addr_Subnet addr ∈
       map v1beta1.asub_UUID (v1beta1.be_AllowedSubnets (v1beta1.pool_Backend (pm_Ours pool)))) /\
    r = memberRequest lb pool server addr.
Proof.
  rewrite shouldPoolMembers_elem. setoid_rewrite subnetRefused_false. done.
Qed.

Lemma members_hist lb pool servers (h : list action) :
  let p := cloudscale.pool_UUID (pm_Theirs pool) in
  let should := shouldPoolMembers lb pool servers in
  wp (ensureLoadBalancerPoolMembers lb pool servers) h (fun h' o => match o with
    | Returned result => exists actual t,
        h' = h ++ ACall (MemberList p) (Ok actual) :: t ++ [ACall (MemberList p) (Ok result)] /\
        calls t =
          map (fun m => MemberDelete (cloudscale.mem_Pool m) (cloudscale.mem_UUID m))
            (membersToDelete should actual) ++
          map (MemberCreate p) (membersToCreate should actual)
    | Failed _ => True
    | Panicked _ => False
    end).
Proof.
  intros p should. unfold ensureLoadBalancerPoolMembers. fold p should. wp_steps; hist; [|done].
  apply wp_forM_ with (I := fun pre h' => exists t, h' = h ++ ACall (MemberList p) (Ok v) :: t /\
    calls t = map (fun m => MemberDelete (cloudscale.mem_Pool m) (cloudscale.mem_UUID m)) pre).
  - by exists [].
  - intros pre m rest h1 _ (t & -> & Ht). wp_steps; hist; [|done].
    cbn [recorded history]. eexists (t ++ [_; _]). rewrite <- !app_assoc. split; [done|].
    by rewrite calls_app, Ht, map_app.
  - intros h1 (t1 & -> & Ht1). cbn [continue]. apply wp_bind.
    apply wp_forM_ with (I := fun pre h' => exists t, h' = h ++ ACall (MemberList p) (Ok v) :: t1 ++ t /\
      calls t = map (MemberCreate p) pre).
    + exists []. by rewrite app_nil_r.
    + intros pre r rest h2 _ (t & -> & Ht). wp_steps; hist; [|done].
      destruct v0 as [m|]; cbn; [|done]. eexists (t ++ [_; _]).
      rewrite <- !app_assoc. cbn. rewrite <- !app_assoc. split; [done|].
      by rewrite calls_app, Ht, map_app.
    + intros h2 (t2 & -> & Ht2). cbn [continue]. wp_steps; hist; [|done].
      exists v, (t1 ++ t2). split; [by rewrite <- !app_assoc; cbn; rewrite <- !app_assoc|].
      by rewrite calls_app, Ht1, Ht2.
Qed.

Lemma ensureLoadBalancerPoolMembers_fails lb pool servers :
  fails_only faulted (ensureLoadBalancerPoolMembers lb pool servers).
Proof. unfold ensureLoadBalancerPoolMembers. faults. Qed.

Lemma memberRequest_requests lb pool c : requests lb pool c (memberRequest lb pool c.1 c.2).
Proof.
  split; try done.
  - cbn. unfold cloudscaleLoadbalancerName. by rewrite !string_app_assoc.
  - exists (memberTags c.1). split; [done|]. intros k v. unfold memberTags, baseTagMap.
    change controllerManagedTag with "appuio_io_loadbalancer_controller__managed".
    change controllerNodeNameTag with "appuio_io_loadbalancer_controller__node_name".
    change controllerServerNameTag with "appuio_io_loadbalancer_controller__server_name".
    rewrite !lookup_insert_Some, lookup_singleton_Some. naive_solver.
Qed.

(** The loops of the code go through the candidates in their order. *)
Lemma shouldPoolMembers_candidates lb pool servers :
  Forall2 (requests lb pool) (candidates pool servers) (shouldPoolMembers lb pool servers).
Proof.
  unfold candidates, shouldPoolMembers. apply Forall2_flat_map. intros server. apply Forall2_flat_map_filter.
  - intros inf Hi. rewrite (proj2 (str_eqb_false _ _) Hi). apply Forall2_flat_map_filter.
    + intros addr [Hs Ha]. rewrite (proj2 (str_empty_false _) Hs), (proj2 (subnetRefused_false pool _) Ha).
      constructor; [apply (memberRequest_requests _ _ (server, addr))|constructor].
    + intros addr Hn. unfold eligible in Hn. destruct (str_empty _) eqn:E; [done|]. str_prop.
      destruct (subnetRefused _ _) eqn:Er; [done|]. apply subnetRefused_false in Er. by destruct Hn.
  - intros inf Hi. by rewrite (proj2 (str_eqb_true _ _)) by (by apply dec_stable).
Qed.

(** C30: the calls are exact: list, delete the members that implement no wanted request, create the wanted
    requests that no listed member implements, list again.  One request is wanted per address of a non-public
    interface of a server that lies in a subnet the pool allows ([candidates]), with the ports of the manifest, enabled,
    tagged with node and server ([requests]).  Deletions come before creations, both in the order of the lists, and
    when members and requests match nothing is written.  The function fails only after a call failed or a creation
    answered nil, and never panics. *)
Theorem members_calls_exact lb pool servers (h : list action) :
  let p := cloudscale.pool_UUID (pm_Theirs pool) in
  wp (ensureLoadBalancerPoolMembers lb pool servers) h (fun h' o => match o with
    | Returned result => exists actual should t,
        h' = h ++ ACall (MemberList p) (Ok actual) :: t ++ [ACall (MemberList p) (Ok result)] /\
        Forall2 (requests lb pool) (candidates pool servers) should /\
        calls t =
          map (fun m => MemberDelete (cloudscale.mem_Pool m) (cloudscale.mem_UUID m))
            (filter (fun m => Forall (fun r => ~ implements m r) should) actual) ++
          map (MemberCreate p) (filter (fun r => Forall (fun m => ~ implements m r) actual) should) /\
        (Forall (fun m => Exists (implements m) should) actual ->
         Forall (fun r => Exists (fun m => implements m r) actual) should -> calls t = [])
    | Failed _ => faulted h'
    | Panicked _ => False
    end).
Proof.
  intros p. eapply wp_mono; [|exact (wp_and _ _ _ _ (members_hist lb pool servers h)
    (ensureLoadBalancerPoolMembers_fails lb pool servers h))].
  intros h' [result| |] [Hh Hf]; [|done|done]. destruct Hh as (actual & t & -> & Ht).
  rewrite membersToDelete_unmatched, membersToCreate_unmatched in Ht.
  exists actual, (shouldPoolMembers lb pool servers), t. split; [done|].
  split; [apply shouldPoolMembers_candidates|]. split; [done|]. intros Hm Hr. rewrite Ht.
  rewrite !filter_none; [done|..]; eapply Forall_impl; try done; intros x; rewrite Exists_exists, Forall_forall; naive_solver.
Qed.

Section Convergence.
Context {W : Type} `{World W} `{!MemberAPI W}.
Context (lb : v1beta1.LoadBalancer) (pool : poolMapping) (servers : list nodeServerMapping).

Local Abbreviation p := (cloudscale.pool_UUID (pm_Theirs pool)).
Local Abbreviation should := (shouldPoolMembers lb pool servers).

(** The members that stay: those some wanted request matches. *)
Local Definition kept (actual : list cloudscale.LoadBalancerPoolMember)
    (m : cloudscale.LoadBalancerPoolMember) : Prop :=
  m ∈ actual /\ exists r, r ∈ should /\ implements m r.

Lemma should_enabled r : r ∈ should -> is_Some (cloudscale.memr_Enabled r).
Proof.
  rewrite shouldPoolMembers_elem. intros (server & inf & addr & _ & _ & _ & _ & _ & _ & ->).
  by eexists.
Qed.

(** After the deletions exactly the matched members remain. *)
Lemma delete_phase_done (actual cur : list cloudscale.LoadBalancerPoolMember) :
  NoDup (map cloudscale.mem_UUID actual) ->
  (forall m, m ∈ cur <-> m ∈ actual /\
     cloudscale.mem_UUID m ∉ map cloudscale.mem_UUID (membersToDelete should actual)) ->
  forall m, m ∈ cur <-> kept actual m.
Proof.
  intros Hnd Hcur m. rewrite Hcur. unfold kept. apply and_iff_under. intros Hm.
  destruct (existsb (fun r => bool_decide (implements m r)) should) eqn:E.
  - apply existsb_elem in E as (r & Hr & Hi%bool_decide_eq_true). split; [eauto|].
    intros _ (m' & Em & Hm')%list_elem_of_In%in_map_iff. apply list_elem_of_In in Hm'.
    apply elem_of_membersToDelete in Hm' as [Hin Hno].
    assert (m' = m) as -> by (by eapply NoDup_map_inj).
    by apply (Hno r).
  - rewrite existsb_not_elem in E. setoid_rewrite bool_decide_eq_false in E. split.
    + intros Hn. exfalso. apply Hn. apply list_elem_of_In, in_map, list_elem_of_In.
      apply elem_of_membersToDelete. done.
    + intros (r & Hr & Hi). by apply E in Hr.
Qed.

(** Invariant of the creations, after the requests [pre]. *)
Definition create_inv (actual : list cloudscale.LoadBalancerPoolMember)
    (pre : list cloudscale.LoadBalancerPoolMemberRequest) (w : W) : Prop :=
  (forall m, m ∈ members w p -> exists r, r ∈ should /\ implements m r) /\
  (forall m, kept actual m -> m ∈ members w p) /\
  (forall r, r ∈ pre -> exists m, m ∈ members w p /\ implements m r).

Lemma create_inv_step actual pre r m w w' :
  r ∈ should -> members w' p ≡ₚ m :: members w p -> implements m r ->
  create_inv actual pre w -> create_inv actual (pre ++ [r]) w'.
Proof.
  intros Hr Hw' Hi (H1 & H2 & H3). split; [|split].
  - intros m'. rewrite Hw', elem_of_cons. intros [->|Hm']; eauto.
  - intros m' Hm'. rewrite Hw', elem_of_cons. eauto.
  - intros r'. rewrite elem_of_app, list_elem_of_singleton. setoid_rewrite Hw'. setoid_rewrite elem_of_cons.
    intros [Hr'| ->]; [|by eauto]. destruct (H3 r' Hr') as (m' & ? & ?). eauto.
Qed.

Lemma create_phase_done actual w :
  create_inv actual (membersToCreate should actual) w ->
  (forall m, m ∈ members w p -> exists r, r ∈ should /\ implements m r) /\
  (forall r, r ∈ should -> exists m, m ∈ members w p /\ implements m r).
Proof.
  intros (H1 & H2 & H3). split; [done|]. intros r Hr.
  destruct (existsb (fun m => bool_decide (implements m r)) actual) eqn:E.
  - apply existsb_elem in E as (m & Hm & Hi%bool_decide_eq_true).
    exists m. split; [|done]. apply H2. split; [done|]. eauto.
  - apply H3, elem_of_membersToCreate. split; [done|].
    rewrite existsb_not_elem in E. setoid_rewrite bool_decide_eq_false in E. done.
Qed.

Lemma members_done (w : W) :
  wp (ensureLoadBalancerPoolMembers lb pool servers) w (fun w' o => match o with
    | Returned result =>
        result = members w' p /\
        (forall m, m ∈ result -> exists r, r ∈ should /\ implements m r) /\
        (forall r, r ∈ should -> exists m, m ∈ result /\ implements m r)
    | _ => True
    end).
Proof.
  unfold ensureLoadBalancerPoolMembers. wp_steps; [|done].
  match goal with Ha : answers _ (MemberList _) _ _ |- _ => apply mem_list in Ha as [-> Hw] end.
  set (actual := members w p) in *.
  apply wp_forM_ with (I := fun pre w' => forall m, m ∈ members w' p <->
    m ∈ actual /\ cloudscale.mem_UUID m ∉ map cloudscale.mem_UUID pre).
  - intros m. rewrite Hw. cbn. set_solver.
  - intros pre m rest w1 Hl HI. wp_steps; [|done].
    match goal with Ha : answers _ (MemberDelete _ _) _ _, v : val _ |- _ => destruct v; rename Ha into Hd end.
    assert (Hin : m ∈ actual).
    { apply (elem_of_membersToDelete should actual m). rewrite Hl. set_solver. }
    rewrite (mem_in_pool w p m Hin) in Hd. apply mem_delete in Hd.
    intros m'. rewrite mem_recorded, Hd, elem_of_List_filter, HI, negb_true_iff, str_eqb_false, map_app.
    cbn. set_solver.
  - intros w1 HI. cbn [continue]. apply wp_bind.
    pose proof (delete_phase_done actual (members w1 p) (mem_unique w p) HI) as Hkept.
    apply wp_forM_ with (I := create_inv actual).
    + split; [|split]; [|by intros m Hm; apply Hkept|set_solver].
      intros m Hm%Hkept. apply Hm.
    + intros pre r rest w2 Hl HI2. wp_steps; [|done].
      match goal with v : val (MemberCreate _ _) |- _ => destruct v as [m|]; [|done] end.
      cbn [non_nil wp continue Eventf mret M_ret].
      assert (Hr : r ∈ should).
      { apply (elem_of_membersToCreate should actual r). rewrite Hl. set_solver. }
      match goal with Ha : answers _ (MemberCreate _ _) _ _ |- _ => apply mem_create in Ha as [Hp He] end.
      eapply create_inv_step; [done|by rewrite mem_recorded|  |done].
      apply He, should_enabled, Hr.
    + intros w2 HI2. cbn [continue]. wp_steps; [|done].
      match goal with Ha : answers _ (MemberList _) _ _ |- _ => apply mem_list in Ha as [-> Hw'] end.
      rewrite Hw'. split; [done|]. by eapply create_phase_done.
Qed.

(** C11: against a pool member service that behaves as documented, a
    successful pass leaves the pool with exactly the wanted members: every member
    returned matches a wanted request, every wanted request has a member, and the
    list returned is the one the service holds.  The pass fails only when a call
    failed. *)
Theorem members_converge (w : W) :
  wp (ensureLoadBalancerPoolMembers lb pool servers) (w, []) (fun '(w', h') o => match o with
    | Returned result =>
        result = members w' p /\
        (forall m, m ∈ result -> exists r, r ∈ should /\ implements m r) /\
        (forall r, r ∈ should -> exists m, m ∈ result /\ implements m r)
    | Failed _ => faulted h'
    | Panicked _ => False
    end).
Proof.
  eapply wp_mono; [|exact (wp_traced _ _ _ _ _ (members_done w) (wp_and _ _ _ _ (members_hist lb pool servers [])
    (ensureLoadBalancerPoolMembers_fails lb pool servers [])))].
  intros [w' h'] []; naive_solver.
Qed.
End Convergence.
