(* ===== verification/HealthMonitor.v ===== *)
(** * HealthMonitor: [ensureLoadBalancerHealthMonitor] of controllers/loadbalancer_controller.go *)

From Stdlib Require Import ZArith Lia.
From stdpp Require Import base list strings gmap.
From S2P Require Import Prelude GoLib ApiTypes Cloudscale Effects External Helpers Samples.
Open Scope string_scope.
Open Scope Z_scope.
Open Scope list_scope.

(** ** Field assignments on the local copy of the monitor *)

Section Assign.
Context (m : cloudscale.LoadBalancerHealthMonitor).

Definition set_attrs (delay timeout up down : Z) (http : option cloudscale.LoadBalancerHealthMonitorHTTP)
    : cloudscale.LoadBalancerHealthMonitor :=
  {| cloudscale.hm_UUID := cloudscale.hm_UUID m; cloudscale.hm_Tags := cloudscale.hm_Tags m;
     cloudscale.hm_Pool := cloudscale.hm_Pool m; cloudscale.hm_DelayS := delay;
     cloudscale.hm_TimeoutS := timeout; cloudscale.hm_UpThreshold := up;
     cloudscale.hm_DownThreshold := down; cloudscale.hm_Type := cloudscale.hm_Type m;
     cloudscale.hm_HTTP := http |}.

Definition set_DelayS (v : Z) := set_attrs v (cloudscale.hm_TimeoutS m)
  (cloudscale.hm_UpThreshold m) (cloudscale.hm_DownThreshold m) (cloudscale.hm_HTTP m).
Definition set_TimeoutS (v : Z) := set_attrs (cloudscale.hm_DelayS m) v
  (cloudscale.hm_UpThreshold m) (cloudscale.hm_DownThreshold m) (cloudscale.hm_HTTP m).
Definition set_UpThreshold (v : Z) := set_attrs (cloudscale.hm_DelayS m) (cloudscale.hm_TimeoutS m)
  v (cloudscale.hm_DownThreshold m) (cloudscale.hm_HTTP m).
Definition set_DownThreshold (v : Z) := set_attrs (cloudscale.hm_DelayS m) (cloudscale.hm_TimeoutS m)
  (cloudscale.hm_UpThreshold m) v (cloudscale.hm_HTTP m).
Definition set_HTTP (v : option cloudscale.LoadBalancerHealthMonitorHTTP) :=
  set_attrs (cloudscale.hm_DelayS m) (cloudscale.hm_TimeoutS m) (cloudscale.hm_UpThreshold m)
    (cloudscale.hm_DownThreshold m) v.
End Assign.

Section AssignHTTP.
Context (h : cloudscale.LoadBalancerHealthMonitorHTTP).

Definition http_set (codes : list string) (method path version : string) (host : option string)
    : cloudscale.LoadBalancerHealthMonitorHTTP :=
  {| cloudscale.hmh_ExpectedCodes := codes; cloudscale.hmh_Method := method;
     cloudscale.hmh_UrlPath := path; cloudscale.hmh_Version := version; cloudscale.hmh_Host := host |}.

Definition set_Method (v : string) := http_set (cloudscale.hmh_ExpectedCodes h) v
  (cloudscale.hmh_UrlPath h) (cloudscale.hmh_Version h) (cloudscale.hmh_Host h).
Definition set_UrlPath (v : string) := http_set (cloudscale.hmh_ExpectedCodes h)
  (cloudscale.hmh_Method h) v (cloudscale.hmh_Version h) (cloudscale.hmh_Host h).
Definition set_Version (v : string) := http_set (cloudscale.hmh_ExpectedCodes h)
  (cloudscale.hmh_Method h) (cloudscale.hmh_UrlPath h) v (cloudscale.hmh_Host h).
Definition set_Host (v : option string) := http_set (cloudscale.hmh_ExpectedCodes h)
  (cloudscale.hmh_Method h) (cloudscale.hmh_UrlPath h) (cloudscale.hmh_Version h) v.
Definition set_ExpectedCodes (v : list string) := http_set v (cloudscale.hmh_Method h)
  (cloudscale.hmh_UrlPath h) (cloudscale.hmh_Version h) (cloudscale.hmh_Host h).
End AssignHTTP.

(** ** Requests that carry one attribute *)

Definition req_attrs (delay timeout up down : Z)
    (http : option cloudscale.LoadBalancerHealthMonitorHTTPRequest) : cloudscale.LoadBalancerHealthMonitorRequest :=
  {| cloudscale.hmr_Tags := None; cloudscale.hmr_Pool := ""; cloudscale.hmr_DelayS := delay;
     cloudscale.hmr_TimeoutS := timeout; cloudscale.hmr_UpThreshold := up;
     cloudscale.hmr_DownThreshold := down; cloudscale.hmr_Type := ""; cloudscale.hmr_HTTP := http |}.

Definition req_http (codes : list string) (method path version : string) (host : option string)
    : cloudscale.LoadBalancerHealthMonitorRequest :=
  req_attrs 0 0 0 0
    (Some {| cloudscale.hmhr_ExpectedCodes := codes; cloudscale.hmhr_Method := method;
             cloudscale.hmhr_UrlPath := path; cloudscale.hmhr_Version := version;
             cloudscale.hmhr_Host := host |}).

Section Ensure.
Context (lb : v1beta1.LoadBalancer) (pool : poolMapping).

Definition monitor : v1beta1.HealthMonitor := v1beta1.be_HealthMonitor (v1beta1.pool_Backend (pm_Ours pool)).

(** [var httpHost *string; if h := ...HTTP.Host; h != "" { httpHost = &h }]. *)
Definition httpHost : option string :=
  let h := v1beta1.http_Host (v1beta1.hm_HTTP monitor) in
  if negb (str_empty h) then Some h else None.

Definition monitorType : string :=
  healthMonitorTypeToCloudscaleHealthMonitorType (v1beta1.HealthMonitor_GetType monitor).

Definition httpConfigAllowed : bool := str_eqb monitorType "http" || str_eqb monitorType "https".

Definition healthMonitorReq : cloudscale.LoadBalancerHealthMonitorRequest :=
  {| cloudscale.hmr_Tags := Some (Some baseTagMap);
     cloudscale.hmr_Pool := cloudscale.pool_UUID (pm_Theirs pool);
     cloudscale.hmr_DelayS := int_of_float64 (Seconds (v1beta1.HealthMonitor_GetDelay monitor));
     cloudscale.hmr_TimeoutS := int_of_float64 (Seconds (v1beta1.HealthMonitor_GetTimeout monitor));
     cloudscale.hmr_UpThreshold := v1beta1.HealthMonitor_GetUpThreshold monitor;
     cloudscale.hmr_DownThreshold := v1beta1.HealthMonitor_GetDownThreshold monitor;
     cloudscale.hmr_Type := monitorType;
     cloudscale.hmr_HTTP :=
       if httpConfigAllowed then
         Some {| cloudscale.hmhr_ExpectedCodes := v1beta1.http_StatusCodes (v1beta1.hm_HTTP monitor);
                 cloudscale.hmhr_Method := v1beta1.HTTPHealthMonitor_GetMethod (v1beta1.hm_HTTP monitor);
                 cloudscale.hmhr_UrlPath := v1beta1.HTTPHealthMonitor_GetPath (v1beta1.hm_HTTP monitor);
                 cloudscale.hmhr_Version := v1beta1.HTTPHealthMonitor_GetVersion (v1beta1.hm_HTTP monitor);
                 cloudscale.hmhr_Host := httpHost |}
       else None |}.

Definition createHealthMonitor : M cloudscale.LoadBalancerHealthMonitor :=
  created ← wrap "failed to create load balancer health monitor: %w" []
    (call (HealthMonitorCreate healthMonitorReq));
  healthMonitor ← non_nil created "cloudscale returned empty load balancer health monitor";
  _ ← Eventf EventTypeNormal "HealthMonitorCreated" "Created load balancer health monitor %q"
    [AStr (cloudscale.hm_UUID healthMonitor)];
  mret healthMonitor.

(** One of the nine blocks [if have != want { Update(...); Eventf(...); have = want }]. *)
Definition updateAttr {T} (same : bool) (uuid attr : string) (req : cloudscale.LoadBalancerHealthMonitorRequest)
    (evformat : string) (evargs : list fmtarg) (old new : T) : M T :=
  updateBlock same (HealthMonitorUpdate uuid req)
    ("failed to update load balancer health monitor %s `" +:+ attr +:+ "`: %w") [AStr uuid]
    "HealthMonitorUpdated" evformat evargs old new.

Definition updated (attr : string) : string :=
  "Updated load balancer health monitor %q `" +:+ attr +:+ "`".

(** The blocks for the attributes every monitor has. *)
Definition updateBase (hm : cloudscale.LoadBalancerHealthMonitor) : M cloudscale.LoadBalancerHealthMonitor :=
  let uuid := cloudscale.hm_UUID hm in
  let delay := cloudscale.hmr_DelayS healthMonitorReq in
  let timeout := cloudscale.hmr_TimeoutS healthMonitorReq in
  let up := cloudscale.hmr_UpThreshold healthMonitorReq in
  let down := cloudscale.hmr_DownThreshold healthMonitorReq in
  hm ← updateAttr (cloudscale.hm_DelayS hm =? delay) uuid "delay_s" (req_attrs delay 0 0 0 None)
    (updated "delay_s") [AStr uuid] hm (set_DelayS hm delay);
  hm ← updateAttr (cloudscale.hm_TimeoutS hm =? timeout) uuid "timeout_s" (req_attrs 0 timeout 0 0 None)
    (updated "timeout_s") [AStr uuid] hm (set_TimeoutS hm timeout);
  hm ← updateAttr (cloudscale.hm_UpThreshold hm =? up) uuid "up_threshold" (req_attrs 0 0 up 0 None)
    (updated "up_threshold" +:+ ": %w") [AStr uuid; AInt up] hm (set_UpThreshold hm up);
  updateAttr (cloudscale.hm_DownThreshold hm =? down) uuid "down_threshold" (req_attrs 0 0 0 down None)
    (updated "down_threshold" +:+ ": %w") [AStr uuid; AInt down] hm (set_DownThreshold hm down).

(** The blocks for the HTTP attributes, on [healthMonitor.HTTP]. *)
Definition updateHTTP (uuid : string) (h : cloudscale.LoadBalancerHealthMonitorHTTP)
    (want : cloudscale.LoadBalancerHealthMonitorHTTPRequest) : M cloudscale.LoadBalancerHealthMonitorHTTP :=
  let method := cloudscale.hmhr_Method want in
  let path := cloudscale.hmhr_UrlPath want in
  let version := cloudscale.hmhr_Version want in
  let host := cloudscale.hmhr_Host want in
  let codes := cloudscale.hmhr_ExpectedCodes want in
  h ← updateAttr (str_eqb (cloudscale.hmh_Method h) method) uuid "http.method"
    (req_http [] method "" "" None) (updated "http.method") [AStr uuid] h (set_Method h method);
  h ← updateAttr (str_eqb (cloudscale.hmh_UrlPath h) path) uuid "http.url_path"
    (req_http [] "" path "" None) (updated "http.url_path") [AStr uuid] h (set_UrlPath h path);
  h ← updateAttr (str_eqb (cloudscale.hmh_Version h) version) uuid "http.version"
    (req_http [] "" "" version None) (updated "http.version") [AStr uuid] h (set_Version h version);
  h ← updateAttr (comparablePtrEqual (cloudscale.hmh_Host h) host) uuid "http.host"
    (req_http [] "" "" "" host) (updated "http.host") [AStr uuid] h (set_Host h host);
  updateAttr (slicesMatch (cloudscale.hmh_ExpectedCodes h) codes) uuid "http.expected_codes"
    (req_http codes "" "" "" None) (updated "http.expected_codes") [AStr uuid] h (set_ExpectedCodes h codes).

Definition ensureLoadBalancerHealthMonitor : M cloudscale.LoadBalancerHealthMonitor :=
  let poolUUID := cloudscale.pool_UUID (pm_Theirs pool) in
  allHealthMonitors ← wrap "failed to list load balancer health monitors: %w" [] (call HealthMonitorList);
  let healthMonitors := List.filter (fun m => str_eqb (cloudscale.hm_Pool m) poolUUID) allHealthMonitors in
  match healthMonitors with
  | [] => createHealthMonitor
  | [healthMonitor] =>
      let uuid := cloudscale.hm_UUID healthMonitor in
      if negb (str_eqb (cloudscale.hm_Type healthMonitor) (cloudscale.hmr_Type healthMonitorReq)) then
        _ ← Eventf EventTypeWarning "HealthMonitorChanged"
          "Load balancer health monitor %q has changed type (was: %s, now: %s), recreating healthMonitor"
          [AStr uuid; AStr (cloudscale.hm_Type healthMonitor); AStr (cloudscale.hmr_Type healthMonitorReq)];
        _ ← wrap "failed to delete load balancer health monitor %s: %w" [AStr uuid]
          (call (HealthMonitorDelete uuid));
        _ ← Eventf EventTypeNormal "HealthMonitorDeleted" "Deleted load balancer health monitor %q" [AStr uuid];
        createHealthMonitor
      else
        healthMonitor ← updateBase healthMonitor;
        if httpConfigAllowed then
          let http := match cloudscale.hm_HTTP healthMonitor with
                      | None => cloudscale.zero_HTTP | Some h => h end in
          match cloudscale.hmr_HTTP healthMonitorReq with
          | None => Panic "nil pointer dereference: healthMonitorReq.HTTP"
          | Some want =>
              http ← updateHTTP uuid http want;
              mret (set_HTTP healthMonitor (Some http))
          end
        else mret healthMonitor
  | _ => fail "found multiple load balancer health monitors for load balancer %s and pool %s: %v"
           [AStr (v1beta1.UUID lb); AStr poolUUID; AHealthMonitors healthMonitors]
  end.
End Ensure.

(** ** Updates carry at most one attribute *)

(** The number of attributes a request sets. *)
Definition attr_count (r : cloudscale.LoadBalancerHealthMonitorRequest) : nat :=
  is_set (negb (is_nil (cloudscale.hmr_Tags r))) + is_set (negb (str_empty (cloudscale.hmr_Pool r))) +
  is_set (negb (cloudscale.hmr_DelayS r =? 0)%Z) + is_set (negb (cloudscale.hmr_TimeoutS r =? 0)%Z) +
  is_set (negb (cloudscale.hmr_UpThreshold r =? 0)%Z) + is_set (negb (cloudscale.hmr_DownThreshold r =? 0)%Z) +
  is_set (negb (str_empty (cloudscale.hmr_Type r))) +
  match cloudscale.hmr_HTTP r with
  | None => 0
  | Some q =>
      is_set (negb (Nat.eqb (length (cloudscale.hmhr_ExpectedCodes q)) 0)) +
      is_set (negb (str_empty (cloudscale.hmhr_Method q))) +
      is_set (negb (str_empty (cloudscale.hmhr_UrlPath q))) +
      is_set (negb (str_empty (cloudscale.hmhr_Version q))) +
      is_set (negb (is_nil (cloudscale.hmhr_Host q)))
  end.

Lemma updateAttr_only {T} (P : req -> Prop) same uuid attr rq evf eva (old new : T) :
  P (HealthMonitorUpdate uuid rq) -> only P (updateAttr same uuid attr rq evf eva old new).
Proof. apply updateBlock_only. Qed.

(** The calls the health monitor code may make. *)
Definition monitor_call (pool : poolMapping) (r : req) : Prop :=
  match r with
  | HealthMonitorList | HealthMonitorDelete _ => True
  | HealthMonitorCreate q => q = healthMonitorReq pool
  | HealthMonitorUpdate _ q => (attr_count q <= 1)%nat
  | _ => False
  end.

Lemma createHealthMonitor_only pool : only (monitor_call pool) (createHealthMonitor pool).
Proof. unfold createHealthMonitor. only_steps. done. Qed.

Ltac one_attr := cbn; rewrite ?Nat.add_0_r; apply is_set_le.

Lemma updateBase_only pool hm : only (monitor_call pool) (updateBase pool hm).
Proof. unfold updateBase. only_steps; apply updateAttr_only; one_attr. Qed.

Lemma updateHTTP_only pool uuid h want : only (monitor_call pool) (updateHTTP uuid h want).
Proof. unfold updateHTTP. only_steps; apply updateAttr_only; one_attr. Qed.

Lemma ensureLoadBalancerHealthMonitor_only lb pool :
  only (monitor_call pool) (ensureLoadBalancerHealthMonitor lb pool).
Proof.
  unfold ensureLoadBalancerHealthMonitor.
  only_steps; try done; auto using createHealthMonitor_only, updateBase_only, updateHTTP_only.
Qed.

(** The cloudscale API does not allow updating more than one attribute at
    a time: whatever the service answers, every health monitor update that is sent
    sets at most one attribute, every creation asks for the monitor of the manifest,
    and no other kind of resource is touched. *)
Lemma monitor_updates_single lb pool (h : list action) :
  wp (ensureLoadBalancerHealthMonitor lb pool) h (fun h' _ =>
    exists t, h' = h ++ t /\ Forall (monitor_call pool) (calls t)).
Proof. apply only_history, ensureLoadBalancerHealthMonitor_only. Qed.

(** ** The plan: which updates a monitor needs *)

Definition unless (same : bool) (r : cloudscale.LoadBalancerHealthMonitorRequest)
    : list cloudscale.LoadBalancerHealthMonitorRequest := if same then [] else [r].

Definition planBase (want : cloudscale.LoadBalancerHealthMonitorRequest)
    (m : cloudscale.LoadBalancerHealthMonitor) : list cloudscale.LoadBalancerHealthMonitorRequest :=
  let delay := cloudscale.hmr_DelayS want in
  let timeout := cloudscale.hmr_TimeoutS want in
  let up := cloudscale.hmr_UpThreshold want in
  let down := cloudscale.hmr_DownThreshold want in
  unless (cloudscale.hm_DelayS m =? delay) (req_attrs delay 0 0 0 None) ++
  unless (cloudscale.hm_TimeoutS m =? timeout) (req_attrs 0 timeout 0 0 None) ++
  unless (cloudscale.hm_UpThreshold m =? up) (req_attrs 0 0 up 0 None) ++
  unless (cloudscale.hm_DownThreshold m =? down) (req_attrs 0 0 0 down None).

Definition planHTTP (want : cloudscale.LoadBalancerHealthMonitorHTTPRequest)
    (h : cloudscale.LoadBalancerHealthMonitorHTTP) : list cloudscale.LoadBalancerHealthMonitorRequest :=
  unless (str_eqb (cloudscale.hmh_Method h) (cloudscale.hmhr_Method want))
    (req_http [] (cloudscale.hmhr_Method want) "" "" None) ++
  unless (str_eqb (cloudscale.hmh_UrlPath h) (cloudscale.hmhr_UrlPath want))
    (req_http [] "" (cloudscale.hmhr_UrlPath want) "" None) ++
  unless (str_eqb (cloudscale.hmh_Version h) (cloudscale.hmhr_Version want))
    (req_http [] "" "" (cloudscale.hmhr_Version want) None) ++
  unless (comparablePtrEqual (cloudscale.hmh_Host h) (cloudscale.hmhr_Host want))
    (req_http [] "" "" "" (cloudscale.hmhr_Host want)) ++
  unless (slicesMatch (cloudscale.hmh_ExpectedCodes h) (cloudscale.hmhr_ExpectedCodes want))
    (req_http (cloudscale.hmhr_ExpectedCodes want) "" "" "" None).

Definition http_of (m : cloudscale.LoadBalancerHealthMonitor) : cloudscale.LoadBalancerHealthMonitorHTTP :=
  match cloudscale.hm_HTTP m with None => cloudscale.zero_HTTP | Some h => h end.

(** All updates for a monitor of the wanted type. *)
Definition plan (want : cloudscale.LoadBalancerHealthMonitorRequest)
    (m : cloudscale.LoadBalancerHealthMonitor) : list cloudscale.LoadBalancerHealthMonitorRequest :=
  planBase want m ++
  match cloudscale.hmr_HTTP want with None => [] | Some q => planHTTP q (http_of m) end.

(** A monitor that agrees with a request on every attribute (expected status
    codes up to order). *)
Definition http_agrees (want : cloudscale.LoadBalancerHealthMonitorHTTPRequest)
    (h : cloudscale.LoadBalancerHealthMonitorHTTP) : Prop :=
  cloudscale.hmh_Method h = cloudscale.hmhr_Method want /\
  cloudscale.hmh_UrlPath h = cloudscale.hmhr_UrlPath want /\
  cloudscale.hmh_Version h = cloudscale.hmhr_Version want /\
  cloudscale.hmh_Host h = cloudscale.hmhr_Host want /\
  cloudscale.hmh_ExpectedCodes h ≡ₚ cloudscale.hmhr_ExpectedCodes want.

Definition monitor_agrees (want : cloudscale.LoadBalancerHealthMonitorRequest)
    (m : cloudscale.LoadBalancerHealthMonitor) : Prop :=
  cloudscale.hm_Type m = cloudscale.hmr_Type want /\
  cloudscale.hm_DelayS m = cloudscale.hmr_DelayS want /\
  cloudscale.hm_TimeoutS m = cloudscale.hmr_TimeoutS want /\
  cloudscale.hm_UpThreshold m = cloudscale.hmr_UpThreshold want /\
  cloudscale.hm_DownThreshold m = cloudscale.hmr_DownThreshold want /\
  match cloudscale.hmr_HTTP want with
  | None => True
  | Some q => exists h, cloudscale.hm_HTTP m = Some h /\ http_agrees q h
  end.

(** The monitors of a pool in a listing. *)
Definition monitors_of (p : string) (l : list cloudscale.LoadBalancerHealthMonitor)
    : list cloudscale.LoadBalancerHealthMonitor :=
  List.filter (fun m => str_eqb (cloudscale.hm_Pool m) p) l.

Lemma healthMonitorReq_HTTP pool :
  httpConfigAllowed pool = negb (is_nil (cloudscale.hmr_HTTP (healthMonitorReq pool))).
Proof. cbn. by destruct (httpConfigAllowed pool). Qed.

(** ** The calls, exactly *)

Lemma updateAttr_hist {T} same uuid attr rq evf eva (old new : T) (h : list action) :
  wp (updateAttr same uuid attr rq evf eva old new) h (fun h' o => match o with
    | Returned v => v = (if same then old else new) /\
        extends h (map (HealthMonitorUpdate uuid) (unless same rq)) h'
    | Failed _ => True
    | Panicked _ => False
    end).
Proof.
  replace (map _ (unless same rq)) with (if same then [] else [HealthMonitorUpdate uuid rq])
    by (by destruct same). apply updateBlock_hist.
Qed.

Lemma updateAttr_set {T} same uuid attr rq evf eva (old new : T) (h : list action) :
  (same = true -> old = new) ->
  wp (updateAttr same uuid attr rq evf eva old new) h (fun h' o => match o with
    | Returned v => v = new /\ extends h (map (HealthMonitorUpdate uuid) (unless same rq)) h'
    | Failed _ => True
    | Panicked _ => False
    end).
Proof.
  replace (map _ (unless same rq)) with (if same then [] else [HealthMonitorUpdate uuid rq])
    by (by destruct same). apply updateBlock_set.
Qed.

(** Chain the blocks of one update sequence. *)
Ltac chain_update :=
  eapply wp_mono; [|apply updateAttr_set];
  [ intros ? [?|?|?]; cbn [continue]; [|done|done];
    let X := fresh "X" in intros [-> X]
  | let E := fresh "E" in intros E; rewrite ?Z.eqb_eq, ?str_eqb_true, ?comparablePtrEqual_true in E;
    rewrite <- E ].

Lemma updateBase_hist pool hm (h : list action) :
  wp (updateBase pool hm) h (fun h' o => match o with
    | Returned hm' =>
        extends h (map (HealthMonitorUpdate (cloudscale.hm_UUID hm)) (planBase (healthMonitorReq pool) hm)) h' /\
        hm' = set_attrs hm (cloudscale.hmr_DelayS (healthMonitorReq pool))
          (cloudscale.hmr_TimeoutS (healthMonitorReq pool)) (cloudscale.hmr_UpThreshold (healthMonitorReq pool))
          (cloudscale.hmr_DownThreshold (healthMonitorReq pool)) (cloudscale.hm_HTTP hm)
    | Failed _ => True
    | Panicked _ => False
    end).
Proof.
  unfold updateBase. destruct hm as [u tg p d ti up dn ty ht].
  apply wp_bind. chain_update; [|done]. apply wp_bind. chain_update; [|done].
  apply wp_bind. chain_update; [|done]. chain_update; [|done].
  split; [|done]. unfold planBase. rewrite !map_app.
  repeat (eapply extends_trans; [eassumption|]). done.
Qed.

Lemma updateHTTP_hist uuid ht want (h : list action) :
  wp (updateHTTP uuid ht want) h (fun h' o => match o with
    | Returned ht' => extends h (map (HealthMonitorUpdate uuid) (planHTTP want ht)) h' /\ http_agrees want ht'
    | Failed _ => True
    | Panicked _ => False
    end).
Proof.
  unfold updateHTTP. destruct ht as [co me pa ve ho].
  apply wp_bind. chain_update; [|done]. apply wp_bind. chain_update; [|done].
  apply wp_bind. chain_update; [|done]. apply wp_bind. chain_update; [|done].
  eapply wp_mono; [|apply updateAttr_hist]. intros h' [v|e|s]; [|done|done]. intros [-> Xc]. split.
  - unfold planHTTP. rewrite !map_app. repeat (eapply extends_trans; [eassumption|]). done.
  - cbn in *. destruct (slicesMatch co _) eqn:Ec; [|done].
    apply slicesMatch_perm in Ec. done.
Qed.

Lemma createHealthMonitor_hist pool (h : list action) :
  wp (createHealthMonitor pool) h (fun h' o =>
    extends h [HealthMonitorCreate (healthMonitorReq pool)] h' /\ forall s, o <> Panicked s).
Proof.
  unfold createHealthMonitor. wp_steps; hist; [|by split; [apply extends_call|]].
  destruct v as [m|]; cbn; (split; [|done]); auto with lbc.
Qed.

(** What one pass does, given the listing [all] it got: the calls [cs] after the
    listing and the outcome. *)
Definition monitor_pass (pool : poolMapping) (all : list cloudscale.LoadBalancerHealthMonitor)
    (cs : list req) (o : outcome cloudscale.LoadBalancerHealthMonitor) : Prop :=
  let want := healthMonitorReq pool in
  match monitors_of (cloudscale.pool_UUID (pm_Theirs pool)) all with
  | [] => cs = [HealthMonitorCreate want] /\ forall s, o <> Panicked s
  | [m0] =>
      match o with
      | Returned m =>
          if str_eqb (cloudscale.hm_Type m0) (cloudscale.hmr_Type want)
          then cs = map (HealthMonitorUpdate (cloudscale.hm_UUID m0)) (plan want m0) /\
               cloudscale.hm_UUID m = cloudscale.hm_UUID m0 /\ monitor_agrees want m
          else cs = [HealthMonitorDelete (cloudscale.hm_UUID m0); HealthMonitorCreate want]
      | Failed _ => True
      | Panicked _ => False
      end
  | _ => cs = [] /\ exists e, o = Failed e
  end.

Lemma update_path_hist pool m0 (h : list action) :
  cloudscale.hm_Type m0 = cloudscale.hmr_Type (healthMonitorReq pool) ->
  wp (hm ← updateBase pool m0;
      if httpConfigAllowed pool then
        let http := match cloudscale.hm_HTTP hm with None => cloudscale.zero_HTTP | Some h => h end in
        match cloudscale.hmr_HTTP (healthMonitorReq pool) with
        | None => Panic "nil pointer dereference: healthMonitorReq.HTTP"
        | Some want => http ← updateHTTP (cloudscale.hm_UUID m0) http want; mret (set_HTTP hm (Some http))
        end
      else mret hm) h (fun h' o => match o with
    | Returned m => extends h (map (HealthMonitorUpdate (cloudscale.hm_UUID m0)) (plan (healthMonitorReq pool) m0)) h' /\
        cloudscale.hm_UUID m = cloudscale.hm_UUID m0 /\ monitor_agrees (healthMonitorReq pool) m
    | Failed _ => exists cs, extends h cs h'
    | Panicked _ => False
    end).
Proof.
  intros Hty. apply wp_bind.
  eapply wp_mono; [|apply (wp_and _ _ _ _ (updateBase_hist pool m0 h) (only_history _ _ h (updateBase_only pool m0)))].
  intros h1 [hm|e|s]; cbn [continue]; [|intros (_ & t & -> & _); by exists (calls t), t|by intros [[] _]].
  intros ((Hx & ->) & _). rewrite healthMonitorReq_HTTP. unfold plan, monitor_agrees. cbn [set_attrs cloudscale.hm_HTTP].
  destruct (cloudscale.hmr_HTTP (healthMonitorReq pool)) as [want|]; cbn [is_nil negb].
  - apply wp_bind.
    eapply wp_mono; [|apply (wp_and _ _ _ _ (updateHTTP_hist (cloudscale.hm_UUID m0) (http_of m0) want h1)
      (only_history _ _ h1 (updateHTTP_only pool (cloudscale.hm_UUID m0) (http_of m0) want)))].
    intros h2 [ht|e|s]; cbn [continue]; [| |by intros [[] _]].
    + intros ((Hx2 & Ha) & _). cbn. split; [rewrite map_app; by eapply extends_trans|].
      repeat split; try done. eauto.
    + intros (_ & t & -> & _). eexists. eapply extends_trans; [exact Hx|]. by exists t.
  - cbn. rewrite app_nil_r. repeat split; done.
Qed.

Lemma monitor_hist lb pool (h : list action) :
  wp (ensureLoadBalancerHealthMonitor lb pool) h (fun h' o =>
    (exists e e', h' = h ++ [ACall HealthMonitorList (Err e)] /\ o = Failed e') \/
    exists all cs, extends (h ++ [ACall HealthMonitorList (Ok all)]) cs h' /\ monitor_pass pool all cs o).
Proof.
  unfold ensureLoadBalancerHealthMonitor. do 3 wp_step; cbn beta iota zeta; hist; [|by left; eauto].
  set (h1 := h ++ [ACall HealthMonitorList (Ok v)]).
  change (List.filter (λ m, str_eqb (cloudscale.hm_Pool m) (cloudscale.pool_UUID (pm_Theirs pool))) v)
    with (monitors_of (cloudscale.pool_UUID (pm_Theirs pool)) v).
  destruct (monitors_of (cloudscale.pool_UUID (pm_Theirs pool)) v) as [|m0 [|m1 ms]] eqn:Em.
  - eapply wp_mono; [|apply createHealthMonitor_hist]. intros h2 o [Hx Hp]. right.
    eexists v, _. split; [exact Hx|]. unfold monitor_pass. by rewrite Em.
  - destruct (str_eqb (cloudscale.hm_Type m0) (cloudscale.hmr_Type (healthMonitorReq pool))) eqn:Et; cbn [negb].
    + eapply wp_mono; [|apply update_path_hist; by apply str_eqb_true].
      intros h2 o Ho. right. exists v. unfold monitor_pass. rewrite Em, Et.
      destruct o as [m|e|s]; [|by destruct Ho as [cs Hx]; eauto|done].
      destruct Ho as (Hx & Hu & Ha). eauto.
    + wp_steps; hist.
      * eapply wp_mono; [|apply createHealthMonitor_hist]. intros h2 o [Hx Hp]. right.
        exists v, [HealthMonitorDelete (cloudscale.hm_UUID m0); HealthMonitorCreate (healthMonitorReq pool)].
        split; [|unfold monitor_pass; rewrite Em, Et; destruct o; try done; by eapply Hp].
        eapply (extends_trans _ [_] _ [_]); [|exact Hx]. apply extends_event.
        eapply (extends_trans _ [] _ [_]); [apply extends_event, extends_refl|apply extends_call].
      * right. exists v, [HealthMonitorDelete (cloudscale.hm_UUID m0)].
        unfold monitor_pass. rewrite Em. split; [|done].
        eapply (extends_trans _ [] _ [_]); [apply extends_event, extends_refl|apply extends_call].
  - cbn. right. exists v, []. unfold monitor_pass. rewrite Em. split; [apply extends_refl|eauto].
Qed.

(** A listing showed several health monitors for one pool. *)
Definition several_monitors (h : list action) : Prop :=
  exists p all, ACall HealthMonitorList (Ok all) ∈ h /\ (1 < length (monitors_of p all))%nat.

Lemma createHealthMonitor_fails pool : fails_only faulted (createHealthMonitor pool).
Proof. unfold createHealthMonitor. faults. Qed.

Lemma updateBase_fails pool m : fails_only faulted (updateBase pool m).
Proof. unfold updateBase. faults; by apply updateBlock_fails. Qed.

Lemma updateHTTP_fails uuid h want : fails_only faulted (updateHTTP uuid h want).
Proof. unfold updateHTTP. faults; by apply updateBlock_fails. Qed.

Lemma ensureLoadBalancerHealthMonitor_fails lb pool :
  fails_only (fun h => faulted h \/ several_monitors h) (ensureLoadBalancerHealthMonitor lb pool).
Proof.
  assert (Hf : forall A (m : M A), fails_only faulted m -> fails_only (fun h => faulted h \/ several_monitors h) m)
    by (intros A m; apply fails_only_mono; by left).
  apply fails_only_call_bind; [intros; left; by apply faulted_last|].
  intros h all. cbn zeta.
  destruct (List.filter _ all) as [|m [|m' ms]] eqn:Em.
  - apply fails_only_at, Hf, createHealthMonitor_fails.
  - apply fails_only_at, Hf. fails_steps; auto using createHealthMonitor_fails, updateBase_fails, updateHTTP_fails.
    intros. by apply faulted_last.
  - right. exists (cloudscale.pool_UUID (pm_Theirs pool)), all. unfold monitors_of. rewrite Em. cbn. split; [set_solver|lia].
Qed.

(** C32: what a pass over the health monitor of a pool does, exactly: it creates
    the monitor of the manifest when the listing has none for the pool; it refuses,
    writing nothing, when there are several; it deletes and recreates one of
    another type; and it brings one of the wanted type into agreement with the
    manifest by sending exactly the updates of the plan, so a monitor already in
    agreement is left alone.  It never panics, and
    fails only after a call failed, a creation answered nil, or the listing showed
    several monitors for the pool. *)
Theorem monitor_calls_exact lb pool (h : list action) :
  wp (ensureLoadBalancerHealthMonitor lb pool) h (fun h' o =>
    ((exists e e', h' = h ++ [ACall HealthMonitorList (Err e)] /\ o = Failed e') \/
     exists all cs, extends (h ++ [ACall HealthMonitorList (Ok all)]) cs h' /\ monitor_pass pool all cs o) /\
    match o with Failed _ => faulted h' \/ several_monitors h' | _ => True end).
Proof. apply wp_and; [apply monitor_hist|apply ensureLoadBalancerHealthMonitor_fails]. Qed.

Lemma ensureLoadBalancerHealthMonitor_total lb pool (h : list action) :
  wp (ensureLoadBalancerHealthMonitor lb pool) h (fun h' o => match o with
    | Returned _ => True
    | Failed _ => faulted h' \/ several_monitors h'
    | Panicked _ => False
    end).
Proof.
  eapply wp_mono; [|exact (wp_and _ _ _ _ (monitor_hist lb pool h) (ensureLoadBalancerHealthMonitor_fails lb pool h))].
  intros h' [m|e|s] [Hh Hf]; [done|done|].
  destruct Hh as [(e & e' & _ & [=])|(all & cs & _ & Hp)]. unfold monitor_pass in Hp.
  destruct (monitors_of _ all) as [|m0 [|m1 ms]]; [by eapply Hp|done|naive_solver].
Qed.

Lemma unless_nil same r : unless same r = [] <-> same = true.
Proof. by destruct same. Qed.

(** No update is planned exactly when the monitor already has every wanted
    attribute (status codes compared without their order); a pass over such a
    monitor is therefore free of writes. *)
Lemma monitor_plan_empty want m :
  plan want m = [] <->
  cloudscale.hm_DelayS m = cloudscale.hmr_DelayS want /\
  cloudscale.hm_TimeoutS m = cloudscale.hmr_TimeoutS want /\
  cloudscale.hm_UpThreshold m = cloudscale.hmr_UpThreshold want /\
  cloudscale.hm_DownThreshold m = cloudscale.hmr_DownThreshold want /\
  match cloudscale.hmr_HTTP want with None => True | Some q => http_agrees q (http_of m) end.
Proof.
  unfold plan, planBase, planHTTP, http_agrees.
  destruct (cloudscale.hmr_HTTP want) as [q|];
    rewrite !app_nil, !unless_nil, !Z.eqb_eq, ?str_eqb_true, ?comparablePtrEqual_true, ?slicesMatch_perm; tauto.
Qed.

(** ** What the controller relies on from the health monitor service

    Listing shows all monitors; a successful create adds a monitor of the
    requested pool and type with the attributes the request sets; a successful
    update sets exactly the attributes the request sets and leaves the others; a
    successful delete removes the monitor. *)

Definition if_set_str (v old : string) : string := if str_empty v then old else v.

Definition patch_http (q : cloudscale.LoadBalancerHealthMonitorHTTPRequest)
    (h : cloudscale.LoadBalancerHealthMonitorHTTP) : cloudscale.LoadBalancerHealthMonitorHTTP :=
  http_set
    (match cloudscale.hmhr_ExpectedCodes q with [] => cloudscale.hmh_ExpectedCodes h | c => c end)
    (if_set_str (cloudscale.hmhr_Method q) (cloudscale.hmh_Method h))
    (if_set_str (cloudscale.hmhr_UrlPath q) (cloudscale.hmh_UrlPath h))
    (if_set_str (cloudscale.hmhr_Version q) (cloudscale.hmh_Version h))
    (match cloudscale.hmhr_Host q with None => cloudscale.hmh_Host h | s => s end).

Definition patch_monitor (r : cloudscale.LoadBalancerHealthMonitorRequest)
    (m : cloudscale.LoadBalancerHealthMonitor) : cloudscale.LoadBalancerHealthMonitor :=
  set_attrs m
    (if_set (cloudscale.hmr_DelayS r) (cloudscale.hm_DelayS m))
    (if_set (cloudscale.hmr_TimeoutS r) (cloudscale.hm_TimeoutS m))
    (if_set (cloudscale.hmr_UpThreshold r) (cloudscale.hm_UpThreshold m))
    (if_set (cloudscale.hmr_DownThreshold r) (cloudscale.hm_DownThreshold m))
    (match cloudscale.hmr_HTTP r with
     | None => cloudscale.hm_HTTP m
     | Some q => Some (patch_http q (http_of m))
     end).

(** Agreement on the attributes a request sets. *)
Definition http_has (q : cloudscale.LoadBalancerHealthMonitorHTTPRequest)
    (h : cloudscale.LoadBalancerHealthMonitorHTTP) : Prop :=
  (cloudscale.hmhr_Method q <> "" -> cloudscale.hmh_Method h = cloudscale.hmhr_Method q) /\
  (cloudscale.hmhr_UrlPath q <> "" -> cloudscale.hmh_UrlPath h = cloudscale.hmhr_UrlPath q) /\
  (cloudscale.hmhr_Version q <> "" -> cloudscale.hmh_Version h = cloudscale.hmhr_Version q) /\
  (cloudscale.hmhr_Host q <> None -> cloudscale.hmh_Host h = cloudscale.hmhr_Host q) /\
  (cloudscale.hmhr_ExpectedCodes q <> [] -> cloudscale.hmh_ExpectedCodes h ≡ₚ cloudscale.hmhr_ExpectedCodes q).

Definition monitor_has (r : cloudscale.LoadBalancerHealthMonitorRequest)
    (m : cloudscale.LoadBalancerHealthMonitor) : Prop :=
  cloudscale.hm_Type m = cloudscale.hmr_Type r /\
  (cloudscale.hmr_DelayS r <> 0 -> cloudscale.hm_DelayS m = cloudscale.hmr_DelayS r) /\
  (cloudscale.hmr_TimeoutS r <> 0 -> cloudscale.hm_TimeoutS m = cloudscale.hmr_TimeoutS r) /\
  (cloudscale.hmr_UpThreshold r <> 0 -> cloudscale.hm_UpThreshold m = cloudscale.hmr_UpThreshold r) /\
  (cloudscale.hmr_DownThreshold r <> 0 -> cloudscale.hm_DownThreshold m = cloudscale.hmr_DownThreshold r) /\
  match cloudscale.hmr_HTTP r with None => True | Some q => http_has q (http_of m) end.

(** ** What a manifest asks of a health monitor

    Its values, with the documented defaults for what is not set. *)

(** The names the API has for the types of the manifest; any other text is used as it is. *)
Definition api_types : list (string * string) :=
  [("", "tcp"); ("TCP", "tcp"); ("Ping", "ping"); ("HTTP", "http"); ("HTTPS", "https"); ("TLSHello", "tls-hello")].

Definition type_named (t a : string) : Prop :=
  ((t, a) ∈ api_types) \/ (~ (t ∈ map fst api_types) /\ a = t).

(** The whole seconds of a duration are in place, unless there are none: a zero cannot be set. *)
Definition seconds_set (d : Duration) (got : Z) : Prop :=
  int_of_float64 (Seconds d) <> 0 -> got = int_of_float64 (Seconds d).

Definition http_meets (w : v1beta1.HTTPHealthMonitor) (h : cloudscale.LoadBalancerHealthMonitorHTTP) : Prop :=
  cloudscale.hmh_Method h = (if decide (v1beta1.http_Method w = "") then "GET" else v1beta1.http_Method w) /\
  cloudscale.hmh_UrlPath h = (if decide (v1beta1.http_Path w = "") then "/" else v1beta1.http_Path w) /\
  cloudscale.hmh_Version h = (if decide (v1beta1.http_Version w = "") then "1.1" else v1beta1.http_Version w) /\
  (v1beta1.http_Host w <> "" -> cloudscale.hmh_Host h = Some (v1beta1.http_Host w)) /\
  (v1beta1.http_StatusCodes w <> [] -> cloudscale.hmh_ExpectedCodes h ≡ₚ v1beta1.http_StatusCodes w).

Record monitor_meets (w : v1beta1.HealthMonitor) (m : cloudscale.LoadBalancerHealthMonitor) : Prop := {
  mt_type : type_named (v1beta1.hm_Type w) (cloudscale.hm_Type m);
  mt_delay : seconds_set (if decide (v1beta1.hm_Delay w = 0) then 2 * Second else v1beta1.hm_Delay w) (cloudscale.hm_DelayS m);
  mt_timeout : seconds_set (if decide (v1beta1.hm_Timeout w = 0) then 1 * Second else v1beta1.hm_Timeout w)
    (cloudscale.hm_TimeoutS m);
  mt_up : cloudscale.hm_UpThreshold m =
    if decide (v1beta1.hm_SuccessThreshold w = 0) then 2 else v1beta1.hm_SuccessThreshold w;
  mt_down : cloudscale.hm_DownThreshold m =
    if decide (v1beta1.hm_FailureThreshold w = 0) then 3 else v1beta1.hm_FailureThreshold w;
  mt_http : cloudscale.hm_Type m ∈ ["http"; "https"] -> 
    exists h, cloudscale.hm_HTTP m = Some h /\ http_meets (v1beta1.hm_HTTP w) h;
}.

Lemma default_str (s d : string) : (if str_empty s then d else s) = if decide (s = "") then d else s.
Proof. unfold str_empty. by case_bool_decide; case_decide. Qed.

Lemma default_Z (s d : Z) : (if s =? 0 then d else s) = if decide (s = 0) then d else s.
Proof. by destruct (Z.eqb_spec s 0); case_decide. Qed.

(** A value with a default is never the zero value. *)
Lemma default_str_set (s d : string) : d <> "" -> (if decide (s = "") then d else s) <> "".
Proof. by case_decide. Qed.

Lemma default_Z_set (s d : Z) : d <> 0 -> (if decide (s = 0) then d else s) <> 0.
Proof. by case_decide. Qed.

(** The request of the code carries these values. *)
Lemma monitorType_named pool : type_named (v1beta1.hm_Type (monitor pool)) (monitorType pool).
Proof.
  unfold monitorType, v1beta1.HealthMonitor_GetType, healthMonitorTypeToCloudscaleHealthMonitorType.
  set (t := v1beta1.hm_Type (monitor pool)). destruct (str_empty t) eqn:E0; str_prop; [left; rewrite E0; set_solver|].
  repeat (let E := fresh in destruct (str_eqb t _) eqn:E; str_prop; [left; rewrite E; set_solver|]).
  right. split; [|done]. set_solver.
Qed.

Lemma monitor_has_meets pool m : monitor_has (healthMonitorReq pool) m -> monitor_meets (monitor pool) m.
Proof.
  intros (Hty & Hd & Ht & Hu & Hdn & Hh). cbn [cloudscale.hmr_Type cloudscale.hmr_DelayS cloudscale.hmr_TimeoutS
    cloudscale.hmr_UpThreshold cloudscale.hmr_DownThreshold cloudscale.hmr_HTTP healthMonitorReq] in *.
  unfold v1beta1.HealthMonitor_GetDelay, v1beta1.HealthMonitor_GetTimeout, v1beta1.HealthMonitor_GetUpThreshold,
    v1beta1.HealthMonitor_GetDownThreshold in *. rewrite !default_Z in *.
  split; [rewrite Hty; apply monitorType_named|done|done|by apply Hu, default_Z_set|by apply Hdn, default_Z_set|].
  intros Hin.
  replace (httpConfigAllowed pool) with true in Hh
    by (symmetry; unfold httpConfigAllowed; rewrite Hty in Hin; apply orb_true_iff; rewrite !str_eqb_true; set_solver).
  destruct Hh as (Hm & Hpa & Hv & Hho & Hco). cbn [cloudscale.hmhr_Method cloudscale.hmhr_UrlPath cloudscale.hmhr_Version
    cloudscale.hmhr_Host cloudscale.hmhr_ExpectedCodes] in *.
  unfold v1beta1.HTTPHealthMonitor_GetMethod, v1beta1.HTTPHealthMonitor_GetPath, v1beta1.HTTPHealthMonitor_GetVersion in *.
  rewrite !default_str in *. unfold http_of in *. destruct (cloudscale.hm_HTTP m) as [h|].
  2: { cbn in Hm. exfalso. eapply default_str_set; [|symmetry; by apply Hm, default_str_set]. done. }
  exists h. split; [done|]. split; [by apply Hm, default_str_set|]. split; [by apply Hpa, default_str_set|].
  split; [by apply Hv, default_str_set|]. split; [|done]. intros Hne. unfold httpHost in Hho.
  rewrite (proj2 (str_empty_false _) Hne) in Hho. by apply Hho.
Qed.

Class HealthMonitorAPI (W : Type) `{World W} := {
  monitors : W -> list cloudscale.LoadBalancerHealthMonitor;
  hm_list w l w' : answers w HealthMonitorList (Ok l) w' -> l = monitors w /\ monitors w' = monitors w;
  hm_create w r m w' : answers w (HealthMonitorCreate r) (Ok (Some m)) w' ->
    monitors w' ≡ₚ m :: monitors w /\ cloudscale.hm_Pool m = cloudscale.hmr_Pool r /\ monitor_has r m;
  hm_update w u r w' : answers w (HealthMonitorUpdate u r) (Ok tt) w' ->
    monitors w' = map (fun m => if str_eqb (cloudscale.hm_UUID m) u then patch_monitor r m else m) (monitors w);
  hm_delete w u w' : answers w (HealthMonitorDelete u) (Ok tt) w' ->
    monitors w' = List.filter (fun m => negb (str_eqb (cloudscale.hm_UUID m) u)) (monitors w);
  hm_recorded w ev : monitors (recorded w ev) = monitors w;
}.

Section Convergence.
Context {W : Type} `{World W} `{!HealthMonitorAPI W}.
Context (lb : v1beta1.LoadBalancer) (pool : poolMapping).

Local Abbreviation p := (cloudscale.pool_UUID (pm_Theirs pool)).
Local Abbreviation want := (healthMonitorReq pool).

(** The service holds exactly the monitor [m] for the pool. *)
Definition sole (m : cloudscale.LoadBalancerHealthMonitor) (w : W) : Prop :=
  monitors_of p (monitors w) = [m].

Lemma sole_recorded m w ev : sole m (recorded w ev) <-> sole m w.
Proof. unfold sole. by rewrite hm_recorded. Qed.

Lemma sole_update m u r w w' :
  cloudscale.hm_UUID m = u -> answers w (HealthMonitorUpdate u r) (Ok tt) w' ->
  sole m w -> sole (patch_monitor r m) w'.
Proof.
  intros <- Hu%hm_update. unfold sole, monitors_of. intros Hs. rewrite Hu.
  rewrite List_filter_map_comm, Hs; [cbn; by rewrite str_eqb_refl|].
  intros m'. by destruct (str_eqb (cloudscale.hm_UUID m') (cloudscale.hm_UUID m)).
Qed.

(** A block against the service: the stored monitor takes the attribute if the
    request sets it. *)
Lemma updateAttr_service {T} same uuid attr rq evf eva (old new : T) m w :
  cloudscale.hm_UUID m = uuid -> sole m w ->
  wp (updateAttr same uuid attr rq evf eva old new) w (fun w' o => match o with
    | Returned v => v = (if same then old else new) /\
                    sole (if same then m else patch_monitor rq m) w'
    | _ => True
    end).
Proof.
  intros Hu Hs. unfold updateAttr, updateBlock. destruct same; [done|].
  wp_steps; [|done]. split; [done|].
  match goal with v : val _, Ha : answers _ (HealthMonitorUpdate _ _) _ _ |- _ =>
    destruct v; rewrite sole_recorded; by eapply sole_update end.
Qed.

Lemma updateAttr_service_set {T} same uuid attr rq evf eva (old new : T) m w :
  cloudscale.hm_UUID m = uuid -> sole m w -> (same = true -> old = new) ->
  wp (updateAttr same uuid attr rq evf eva old new) w (fun w' o => match o with
    | Returned v => v = new /\ sole (if same then m else patch_monitor rq m) w'
    | _ => True
    end).
Proof.
  intros Hu Hs Hn. eapply wp_mono; [|by apply updateAttr_service].
  intros w' [v|e|s]; [|done|done]. intros [-> Hs']. split; [|done]. destruct same; auto.
Qed.

(** Read the attributes of the stored monitor after a sequence of blocks. *)
Ltac solve_has :=
  repeat match goal with |- context [if ?b then _ else _] => destruct b eqn:? end;
  cbn; unfold if_set, if_set_str; bool_to_prop; str_prop;
  repeat match goal with
  | |- context [?v =? 0] => destruct (Z.eqb_spec v 0)
  | |- context [str_empty ?v] => destruct (str_empty v) eqn:?; str_prop
  end; cbn; try done; try lia.

Ltac chain_service :=
  eapply wp_mono; [|eapply updateAttr_service_set];
  [ intros ? [?|?|?]; cbn [continue]; [|done|done];
    let X := fresh "X" in intros [-> X]
  | | eassumption
  | let E := fresh "E" in intros E; rewrite ?Z.eqb_eq, ?str_eqb_true, ?comparablePtrEqual_true in E;
    rewrite <- E ].

Lemma updateBase_service m0 w :
  sole m0 w ->
  wp (updateBase pool m0) w (fun w' o => match o with
    | Returned hm => cloudscale.hm_HTTP hm = cloudscale.hm_HTTP m0 /\ exists m, sole m w' /\
        cloudscale.hm_UUID m = cloudscale.hm_UUID m0 /\ cloudscale.hm_Type m = cloudscale.hm_Type m0 /\
        cloudscale.hm_HTTP m = cloudscale.hm_HTTP m0 /\
        (cloudscale.hmr_DelayS want <> 0 -> cloudscale.hm_DelayS m = cloudscale.hmr_DelayS want) /\
        (cloudscale.hmr_TimeoutS want <> 0 -> cloudscale.hm_TimeoutS m = cloudscale.hmr_TimeoutS want) /\
        (cloudscale.hmr_UpThreshold want <> 0 -> cloudscale.hm_UpThreshold m = cloudscale.hmr_UpThreshold want) /\
        (cloudscale.hmr_DownThreshold want <> 0 -> cloudscale.hm_DownThreshold m = cloudscale.hmr_DownThreshold want)
    | _ => True
    end).
Proof.
  intros Hs. unfold updateBase. destruct m0 as [u tg q d ti up dn ty ht].
  cbn [cloudscale.hm_UUID cloudscale.hm_Type cloudscale.hm_HTTP].
  generalize (cloudscale.hmr_DelayS want) (cloudscale.hmr_TimeoutS want)
    (cloudscale.hmr_UpThreshold want) (cloudscale.hmr_DownThreshold want). intros wd wt wu wn.
  apply wp_bind. chain_service; [|done|done]. apply wp_bind. chain_service; [|by case_if|done].
  apply wp_bind. chain_service; [|by repeat case_if|done]. chain_service; [|by repeat case_if|done].
  cbn in *. split; [done|]. eexists. split; [eassumption|].
  repeat match goal with |- _ /\ _ => split end; try intros Hne; solve_has.
Qed.

(** Two monitors that differ at most in their HTTP attributes. *)
Definition same_base (m m' : cloudscale.LoadBalancerHealthMonitor) : Prop :=
  m' = set_HTTP m (cloudscale.hm_HTTP m').

Lemma patch_http_same_base codes method path version host m m' :
  same_base m m' -> same_base m (patch_monitor (req_http codes method path version host) m').
Proof. unfold same_base. intros ->. done. Qed.

Lemma if_same_base (b : bool) m m1 m2 :
  same_base m m1 -> same_base m m2 -> same_base m (if b then m1 else m2).
Proof. by destruct b. Qed.

Lemma http_of_patch codes method path version host m :
  http_of (patch_monitor (req_http codes method path version host) m) =
  http_set (match codes with [] => cloudscale.hmh_ExpectedCodes (http_of m) | c => c end)
    (if_set_str method (cloudscale.hmh_Method (http_of m)))
    (if_set_str path (cloudscale.hmh_UrlPath (http_of m)))
    (if_set_str version (cloudscale.hmh_Version (http_of m)))
    (match host with None => cloudscale.hmh_Host (http_of m) | s => s end).
Proof. unfold patch_monitor, patch_http. cbn. by destruct codes, host. Qed.

Lemma same_base_UUID m m' : same_base m m' -> cloudscale.hm_UUID m' = cloudscale.hm_UUID m.
Proof. by intros ->. Qed.

Lemma same_base_attrs m m' : same_base m m' ->
  cloudscale.hm_Type m' = cloudscale.hm_Type m /\ cloudscale.hm_DelayS m' = cloudscale.hm_DelayS m /\
  cloudscale.hm_TimeoutS m' = cloudscale.hm_TimeoutS m /\
  cloudscale.hm_UpThreshold m' = cloudscale.hm_UpThreshold m /\
  cloudscale.hm_DownThreshold m' = cloudscale.hm_DownThreshold m.
Proof. intros ->. done. Qed.

Lemma updateHTTP_service m q w :
  sole m w ->
  wp (updateHTTP (cloudscale.hm_UUID m) (http_of m) q) w (fun w' o => match o with
    | Returned _ => exists m', sole m' w' /\ same_base m m' /\ http_has q (http_of m')
    | _ => True
    end).
Proof.
  intros Hs. unfold updateHTTP. destruct (http_of m) as [co me pa ve ho] eqn:Eh.
  assert (Hb : same_base m m) by (by destruct m).
  apply wp_bind. chain_service; [|done|done].
  apply wp_bind. chain_service; [|by apply same_base_UUID; auto using if_same_base, patch_http_same_base|done].
  apply wp_bind. chain_service; [|by apply same_base_UUID; auto 6 using if_same_base, patch_http_same_base|done].
  apply wp_bind. chain_service; [|by apply same_base_UUID; auto 8 using if_same_base, patch_http_same_base|done].
  eapply wp_mono; [|eapply updateAttr_service; [|eassumption];
    by apply same_base_UUID; auto 10 using if_same_base, patch_http_same_base].
  intros w' [ht|e|s]; [|done|done]. intros [_ Hs']. cbn in Hs'. eexists. split; [exact Hs'|].
  split; [auto 12 using if_same_base, patch_http_same_base|]. clear Hs' X X0 X1 X2.
  unfold http_has. destruct q as [qc qm qp qv qh]; cbn.
  repeat match goal with |- context [if ?b then _ else _] => destruct b eqn:? end;
    rewrite ?http_of_patch, ?Eh; cbn; unfold if_set_str; bool_to_prop; str_prop;
    repeat match goal with E : comparablePtrEqual _ _ = true |- _ => apply comparablePtrEqual_true in E
                         | E : slicesMatch _ _ = true |- _ => apply slicesMatch_perm in E end; subst;
    repeat split; intros; try done;
    repeat match goal with |- context [str_empty ?v] => destruct (str_empty v) eqn:?; str_prop end;
    try done; try (by destruct qh); try (by destruct qc).
Qed.

Lemma create_service w :
  monitors_of p (monitors w) = [] ->
  wp (createHealthMonitor pool) w (fun w' o => match o with
    | Returned _ => exists m, sole m w' /\ monitor_has want m
    | _ => True
    end).
Proof.
  intros H0. unfold createHealthMonitor. wp_steps; [|done].
  match goal with v : val (HealthMonitorCreate _) |- _ => destruct v as [m|]; [|done] end.
  cbn [non_nil wp continue Eventf mret M_ret].
  match goal with Ha : answers _ (HealthMonitorCreate _) _ _ |- _ => apply hm_create in Ha as (Hp & Hpool & Hh) end.
  exists m. split; [|done]. apply sole_recorded. unfold sole, monitors_of in *.
  apply (List_filter_perm (fun x => str_eqb (cloudscale.hm_Pool x) p)) in Hp.
  cbn [List.filter] in Hp. rewrite Hpool in Hp. cbn in Hp. rewrite str_eqb_refl, H0 in Hp.
  by apply Permutation_singleton_r in Hp.
Qed.

Lemma monitor_done w :
  wp (ensureLoadBalancerHealthMonitor lb pool) w (fun w' o => match o with
    | Returned _ => exists m, monitors_of p (monitors w') = [m] /\ monitor_has want m
    | _ => True
    end).
Proof.
  unfold ensureLoadBalancerHealthMonitor. do 3 wp_step; cbn beta iota zeta; [|done].
  match goal with Ha : answers _ HealthMonitorList _ _ |- _ => apply hm_list in Ha as [-> Hw] end.
  fold (monitors_of p (monitors w)). rewrite <- Hw.
  destruct (monitors_of p (monitors w')) as [|m0 [|m1 ms]] eqn:Em; [by apply create_service| |done].
  destruct (str_eqb (cloudscale.hm_Type m0) _) eqn:Et; cbn [negb].
  - str_prop. apply wp_bind. eapply wp_mono; [|by apply updateBase_service].
    intros w1 [hm|e|s]; cbn [continue]; [|done|done].
    intros (Eh & m & Hs & Hu & Hty & Hht & Hrest). rewrite healthMonitorReq_HTTP. unfold monitor_has.
    destruct (cloudscale.hmr_HTTP want) as [q|] eqn:Eq; cbn [is_nil negb].
    + rewrite Eh, <- Hht, <- Hu. fold (http_of m). apply wp_bind.
      eapply wp_mono; [|by apply updateHTTP_service].
      intros w2 [ht|e|s]; cbn -[healthMonitorReq]; [|done|done].
      intros (m' & Hs' & Hb%same_base_attrs & Hh').
      exists m'. split; [done|]. destruct Hb as (-> & -> & -> & -> & ->). split; [congruence|]. naive_solver.
    + cbn -[healthMonitorReq]. exists m. split; [done|]. split; [congruence|]. naive_solver.
  - wp_steps; [|done]. apply create_service.
    match goal with v : val _, Ha : answers _ (HealthMonitorDelete _) _ _ |- _ => destruct v; apply hm_delete in Ha as Hd end.
    rewrite hm_recorded, Hd, hm_recorded. unfold monitors_of in *.
    rewrite List_filter_comm, Em. cbn. by rewrite str_eqb_refl.
Qed.

(** C13: against a health monitor service that behaves as documented, a successful pass leaves exactly one
    monitor for the pool: of the type of the manifest, with its thresholds and, for HTTP and HTTPS, its method, path and
    version (defaults where the manifest has none); with its delay and timeout, truncated to whole seconds, unless that
    leaves zero, which the API cannot be asked for; with the host and, up to order, the status codes the manifest
    names, and any others when it names none.  The pass fails only when a call failed or the listing had several
    monitors for the pool, and never panics. *)
Theorem monitor_converges w :
  wp (ensureLoadBalancerHealthMonitor lb pool) (w, []) (fun '(w', h') o => match o with
    | Returned _ => exists m, monitors_of p (monitors w') = [m] /\
        monitor_meets (v1beta1.be_HealthMonitor (v1beta1.pool_Backend (pm_Ours pool))) m
    | Failed _ => faulted h' \/ several_monitors h'
    | Panicked _ => False
    end).
Proof.
  eapply wp_mono; [|exact (wp_traced _ _ _ _ _ (monitor_done w) (ensureLoadBalancerHealthMonitor_total lb pool []))].
  intros [w' h'] [] [Hd Ht]; [|done|done]. destruct Hd as (m & Hm & Hh). exists m. split; [done|]. by apply monitor_has_meets.
Qed.
End Convergence.

(** ** Durations *)

(** C39: delays and timeouts of a whole number of seconds reach the API exactly,
    although the code converts them through a float64. *)
Theorem monitor_seconds_exact pool k j :
  0 < k < 2 ^ 53 -> 0 < j < 2 ^ 53 ->
  v1beta1.hm_Delay (monitor pool) = k * Second -> v1beta1.hm_Timeout (monitor pool) = j * Second ->
  cloudscale.hmr_DelayS (healthMonitorReq pool) = k /\ cloudscale.hmr_TimeoutS (healthMonitorReq pool) = j.
Proof.
  intros Hk Hj Hd Ht. cbn. unfold v1beta1.HealthMonitor_GetDelay, v1beta1.HealthMonitor_GetTimeout.
  rewrite Hd, Ht.
  assert (Hnz : forall z, 0 < z -> (z * Second =? 0) = false) by (intros z Hz; unfold Second; lia).
  rewrite !Hnz by lia. split; by apply Seconds_whole.
Qed.

(** The sample pool with a health monitor that differs from the default. *)
Definition sample_mapping (hm : v1beta1.HealthMonitor) : poolMapping :=
  let pl := sample_pool "http" 80 in
  let be := v1beta1.pool_Backend pl in
  {| pm_Ours :=
       {| v1beta1.pool_Name := v1beta1.pool_Name pl; v1beta1.pool_Algorithm := v1beta1.pool_Algorithm pl;
          v1beta1.pool_Frontend := v1beta1.pool_Frontend pl;
          v1beta1.pool_Backend :=
            {| v1beta1.be_Port := v1beta1.be_Port be; v1beta1.be_Protocol := v1beta1.be_Protocol be;
               v1beta1.be_HealthMonitor := hm; v1beta1.be_NodeSelector := v1beta1.be_NodeSelector be;
               v1beta1.be_DataTimeout := 0; v1beta1.be_ConnectTimeout := 0; v1beta1.be_AllowedSubnets := [] |} |};
     pm_Theirs :=
       {| cloudscale.pool_UUID := "pool-1"; cloudscale.pool_Name := "appuio_io_loadbalancer_controller-default-test-lb-http";
          cloudscale.pool_Tags := Some baseTagMap; cloudscale.pool_LoadBalancer := "lb-1";
          cloudscale.pool_Algorithm := "round_robin"; cloudscale.pool_Protocol := "tcp" |} |}.

Definition sample_timed (delay timeout : Duration) : v1beta1.HealthMonitor :=
  {| v1beta1.hm_Port := 0; v1beta1.hm_Type := "HTTP"; v1beta1.hm_Delay := delay; v1beta1.hm_Timeout := timeout;
     v1beta1.hm_SuccessThreshold := 0; v1beta1.hm_FailureThreshold := 0; v1beta1.hm_HTTP := sample_http |}.

Lemma monitor_seconds_exact_witness :
  cloudscale.hmr_DelayS (healthMonitorReq (sample_mapping (sample_timed (17 * Second) (3 * Second)))) = 17 /\
  cloudscale.hmr_TimeoutS (healthMonitorReq (sample_mapping (sample_timed (17 * Second) (3 * Second)))) = 3.
Proof. apply (monitor_seconds_exact _ 17 3); [lia|lia|reflexivity|reflexivity]. Defined.

(** A delay that truncates to zero seconds never settles.  For a monitor
    whose delay the service keeps non-zero, the plan of every pass contains an
    update that sets no attribute at all, and such an update changes nothing. *)
Lemma subsecond_delay_never_settles pool m :
  int_of_float64 (Seconds (v1beta1.HealthMonitor_GetDelay (monitor pool))) = 0 ->
  cloudscale.hm_DelayS m <> 0 ->
  exists r, r ∈ plan (healthMonitorReq pool) m /\ attr_count r = 0%nat /\
    forall m', patch_monitor r m' = m'.
Proof.
  intros Hz Hm. exists (req_attrs 0 0 0 0 None). split; [|split; [done|by intros []]].
  unfold plan, planBase. cbn -[planHTTP]. rewrite Hz, (proj2 (Z.eqb_neq _ _)) by done. cbn. by left.
Qed.

Definition sample_monitor : cloudscale.LoadBalancerHealthMonitor :=
  {| cloudscale.hm_UUID := "hm-1"; cloudscale.hm_Tags := Some baseTagMap; cloudscale.hm_Pool := "pool-1";
     cloudscale.hm_DelayS := 2; cloudscale.hm_TimeoutS := 1; cloudscale.hm_UpThreshold := 2;
     cloudscale.hm_DownThreshold := 3; cloudscale.hm_Type := "http"; cloudscale.hm_HTTP := None |}.

(** A delay of 500 milliseconds is such a delay. *)
(** The documented default of the expected status codes is not applied: an
    HTTP monitor whose manifest lists no codes is requested with none, while
    [GetStatusCodes], which supplies [["200"]], is not what the request uses. *)
Lemma status_codes_default_unused pool :
  httpConfigAllowed pool = true -> v1beta1.http_StatusCodes (v1beta1.hm_HTTP (monitor pool)) = [] ->
  (cloudscale.hmhr_ExpectedCodes <$> cloudscale.hmr_HTTP (healthMonitorReq pool)) = Some [] /\
  v1beta1.HTTPHealthMonitor_GetStatusCodes (v1beta1.hm_HTTP (monitor pool)) = ["200"].
Proof.
  intros Ha Hc. cbn. rewrite Ha. cbn. unfold v1beta1.HTTPHealthMonitor_GetStatusCodes. by rewrite Hc.
Qed.
