(* ===== verification/Listener.v ===== *)
(** * Listener: [ensureLoadBalancerListener] of controllers/loadbalancer_controller.go *)

From Stdlib Require Import ZArith Lia.
From stdpp Require Import base list strings gmap pretty.
From S2P Require Import Prelude GoLib ApiTypes Cloudscale Effects External Helpers Samples.
Open Scope string_scope.
Open Scope Z_scope.
Open Scope list_scope.

(** ** Field assignments on the local copy of the listener *)

Section Assign.
Context (l : cloudscale.LoadBalancerListener).

Definition set_listener (cidrs : list string) (client connect data : Z) : cloudscale.LoadBalancerListener :=
  {| cloudscale.lst_UUID := cloudscale.lst_UUID l; cloudscale.lst_Name := cloudscale.lst_Name l;
     cloudscale.lst_Tags := cloudscale.lst_Tags l; cloudscale.lst_Pool := cloudscale.lst_Pool l;
     cloudscale.lst_Protocol := cloudscale.lst_Protocol l;
     cloudscale.lst_ProtocolPort := cloudscale.lst_ProtocolPort l;
     cloudscale.lst_AllowedCIDRs := cidrs; cloudscale.lst_TimeoutClientDataMS := client;
     cloudscale.lst_TimeoutMemberConnectMS := connect; cloudscale.lst_TimeoutMemberDataMS := data |}.

Definition set_AllowedCIDRs (v : list string) := set_listener v (cloudscale.lst_TimeoutClientDataMS l)
  (cloudscale.lst_TimeoutMemberConnectMS l) (cloudscale.lst_TimeoutMemberDataMS l).
Definition set_TimeoutClientDataMS (v : Z) := set_listener (cloudscale.lst_AllowedCIDRs l) v
  (cloudscale.lst_TimeoutMemberConnectMS l) (cloudscale.lst_TimeoutMemberDataMS l).
Definition set_TimeoutMemberConnectMS (v : Z) := set_listener (cloudscale.lst_AllowedCIDRs l)
  (cloudscale.lst_TimeoutClientDataMS l) v (cloudscale.lst_TimeoutMemberDataMS l).
Definition set_TimeoutMemberDataMS (v : Z) := set_listener (cloudscale.lst_AllowedCIDRs l)
  (cloudscale.lst_TimeoutClientDataMS l) (cloudscale.lst_TimeoutMemberConnectMS l) v.
End Assign.

(** A listener request that carries only the attributes an update may set. *)
Definition listener_attrs (cidrs : option (list string)) (client connect data : Z)
    : cloudscale.LoadBalancerListenerRequest :=
  {| cloudscale.lstr_Tags := None; cloudscale.lstr_Name := ""; cloudscale.lstr_Pool := "";
     cloudscale.lstr_Protocol := ""; cloudscale.lstr_ProtocolPort := 0;
     cloudscale.lstr_AllowedCIDRs := cidrs; cloudscale.lstr_TimeoutClientDataMS := client;
     cloudscale.lstr_TimeoutMemberConnectMS := connect; cloudscale.lstr_TimeoutMemberDataMS := data |}.

(** [for _, listener := range allListeners { if listener.Pool.UUID == ... }]:
    [listener.Pool] is a pointer. *)
Definition listenersOfPool (poolUUID : string) (allListeners : list cloudscale.LoadBalancerListener)
    : M (list cloudscale.LoadBalancerListener) :=
  foldM allListeners [] (fun listeners listener =>
    match cloudscale.lst_Pool listener with
    | None => Panic "nil pointer dereference: listener.Pool"
    | Some stub =>
        if str_eqb (cloudscale.ps_UUID stub) poolUUID then mret (listeners ++ [listener])
        else mret listeners
    end).

Section Ensure.
Context (lb : v1beta1.LoadBalancer) (pool : poolMapping).

Definition frontend : v1beta1.PoolFrontend := v1beta1.pool_Frontend (pm_Ours pool).

Definition allowedCIDRs : list string :=
  Sort (map v1beta1.acidr_CIDR (v1beta1.fe_AllowedCIDRs frontend)).

Definition listenerReq : cloudscale.LoadBalancerListenerRequest :=
  {| cloudscale.lstr_Tags := Some (Some baseTagMap);
     cloudscale.lstr_Name := cloudscaleLoadbalancerName lb +:+ "-" +:+ Sprint_d (v1beta1.fe_Port frontend);
     cloudscale.lstr_Pool := cloudscale.pool_UUID (pm_Theirs pool);
     cloudscale.lstr_Protocol :=
       listenerProtocolToCloudscaleListenerProtocol (v1beta1.PoolFrontend_GetProtocol frontend);
     cloudscale.lstr_ProtocolPort := v1beta1.fe_Port frontend;
     cloudscale.lstr_AllowedCIDRs := Some allowedCIDRs;
     cloudscale.lstr_TimeoutClientDataMS := Milliseconds (v1beta1.PoolFrontend_GetDataTimeout frontend);
     cloudscale.lstr_TimeoutMemberConnectMS :=
       Milliseconds (v1beta1.PoolBackend_GetConnectTimeout (v1beta1.pool_Backend (pm_Ours pool)));
     cloudscale.lstr_TimeoutMemberDataMS :=
       Milliseconds (v1beta1.PoolBackend_GetDataTimeout (v1beta1.pool_Backend (pm_Ours pool))) |}.

Definition createListener : M cloudscale.LoadBalancerListener :=
  created ← wrap "failed to create load balancer listener: %w" [] (call (ListenerCreate listenerReq));
  listener ← non_nil created "cloudscale returned empty load balancer listener";
  _ ← Eventf EventTypeNormal "ListenerCreated" "Created load balancer listener %q for pool %q"
    [AStr (cloudscale.lst_UUID listener); AStr (cloudscale.pool_UUID (pm_Theirs pool))];
  mret listener.

Definition updateListenerAttr (same : bool) (uuid attr : string)
    (req : cloudscale.LoadBalancerListenerRequest) (old new : cloudscale.LoadBalancerListener)
    : M cloudscale.LoadBalancerListener :=
  updateBlock same (ListenerUpdate uuid req)
    ("failed to update load balancer listener %s `" +:+ attr +:+ "`: %w") [AStr uuid]
    "ListenerUpdated" ("Updated load balancer listener %q `" +:+ attr +:+ "`") [AStr uuid] old new.

(** The four attribute updates of a listener with the wanted protocol and port. *)
Definition updateListener (listener : cloudscale.LoadBalancerListener) : M cloudscale.LoadBalancerListener :=
  let uuid := cloudscale.lst_UUID listener in
  let client := cloudscale.lstr_TimeoutClientDataMS listenerReq in
  let connect := cloudscale.lstr_TimeoutMemberConnectMS listenerReq in
  let data := cloudscale.lstr_TimeoutMemberDataMS listenerReq in
  let actualAllowedCIDRs := Sort (cloudscale.lst_AllowedCIDRs listener) in
  l ← updateListenerAttr (Equal actualAllowedCIDRs allowedCIDRs) uuid "allowed_cidrs"
    (listener_attrs (Some allowedCIDRs) 0 0 0) listener (set_AllowedCIDRs listener allowedCIDRs);
  l ← updateListenerAttr (cloudscale.lst_TimeoutClientDataMS l =? client) uuid "timeout_client_data_ms"
    (listener_attrs None client 0 0) l (set_TimeoutClientDataMS l client);
  l ← updateListenerAttr (cloudscale.lst_TimeoutMemberConnectMS l =? connect) uuid "timeout_member_connect_ms"
    (listener_attrs None 0 connect 0) l (set_TimeoutMemberConnectMS l connect);
  updateListenerAttr (cloudscale.lst_TimeoutMemberDataMS l =? data) uuid "timeout_member_data_ms"
    (listener_attrs None 0 0 data) l (set_TimeoutMemberDataMS l data).

Definition ensureLoadBalancerListener : M cloudscale.LoadBalancerListener :=
  let poolUUID := cloudscale.pool_UUID (pm_Theirs pool) in
  allListeners ← wrap "failed to list load balancer listeners: %w" [] (call ListenerList);
  listeners ← listenersOfPool poolUUID allListeners;
  match listeners with
  | [] => createListener
  | [listener] =>
      let uuid := cloudscale.lst_UUID listener in
      if negb (str_eqb (cloudscale.lst_Protocol listener) (cloudscale.lstr_Protocol listenerReq)) ||
         negb (cloudscale.lst_ProtocolPort listener =? cloudscale.lstr_ProtocolPort listenerReq) then
        _ ← Eventf EventTypeWarning "ListenerChanged"
          "Load balancer listener %q has changed protocol (was: %s/%d, now: %s/%d), recreating listener"
          [AStr uuid; AStr (cloudscale.lst_Protocol listener); AInt (cloudscale.lst_ProtocolPort listener);
           AStr (cloudscale.lstr_Protocol listenerReq); AInt (cloudscale.lstr_ProtocolPort listenerReq)];
        _ ← wrap "failed to delete load balancer listener %s: %w" [AStr uuid] (call (ListenerDelete uuid));
        _ ← Eventf EventTypeNormal "ListenerDeleted" "Deleted load balancer listener %q" [AStr uuid];
        createListener
      else updateListener listener
  | _ => fail "found multiple load balancer listeners for load balancer %s and pool %s: %v"
           [AStr (v1beta1.UUID lb); AStr poolUUID; AListeners listeners]
  end.
End Ensure.

(** ** Specification vocabulary *)

(** The listeners of a pool in a listing. *)
Definition listeners_of (p : string) (l : list cloudscale.LoadBalancerListener)
    : list cloudscale.LoadBalancerListener :=
  List.filter (fun x => match cloudscale.lst_Pool x with
                        | Some s => str_eqb (cloudscale.ps_UUID s) p | None => false end) l.

(** Every listener of the listing names its pool. *)
Definition all_pooled (l : list cloudscale.LoadBalancerListener) : bool :=
  forallb (fun x => negb (is_nil (cloudscale.lst_Pool x))) l.

Definition same_endpoint (want : cloudscale.LoadBalancerListenerRequest) (l : cloudscale.LoadBalancerListener) : bool :=
  str_eqb (cloudscale.lst_Protocol l) (cloudscale.lstr_Protocol want) &&
  (cloudscale.lst_ProtocolPort l =? cloudscale.lstr_ProtocolPort want).

Definition unless_l (same : bool) (r : cloudscale.LoadBalancerListenerRequest)
    : list cloudscale.LoadBalancerListenerRequest := if same then [] else [r].

(** The updates a listener needs. *)
Definition listener_plan (want : cloudscale.LoadBalancerListenerRequest) (cidrs : list string)
    (l : cloudscale.LoadBalancerListener) : list cloudscale.LoadBalancerListenerRequest :=
  let client := cloudscale.lstr_TimeoutClientDataMS want in
  let connect := cloudscale.lstr_TimeoutMemberConnectMS want in
  let data := cloudscale.lstr_TimeoutMemberDataMS want in
  unless_l (Equal (Sort (cloudscale.lst_AllowedCIDRs l)) cidrs) (listener_attrs (Some cidrs) 0 0 0) ++
  unless_l (cloudscale.lst_TimeoutClientDataMS l =? client) (listener_attrs None client 0 0) ++
  unless_l (cloudscale.lst_TimeoutMemberConnectMS l =? connect) (listener_attrs None 0 connect 0) ++
  unless_l (cloudscale.lst_TimeoutMemberDataMS l =? data) (listener_attrs None 0 0 data).

(** A listener in agreement with the manifest. *)
Definition listener_agrees (want : cloudscale.LoadBalancerListenerRequest) (cidrs : list string)
    (l : cloudscale.LoadBalancerListener) : Prop :=
  cloudscale.lst_Protocol l = cloudscale.lstr_Protocol want /\
  cloudscale.lst_ProtocolPort l = cloudscale.lstr_ProtocolPort want /\
  cloudscale.lst_AllowedCIDRs l ≡ₚ cidrs /\
  cloudscale.lst_TimeoutClientDataMS l = cloudscale.lstr_TimeoutClientDataMS want /\
  cloudscale.lst_TimeoutMemberConnectMS l = cloudscale.lstr_TimeoutMemberConnectMS want /\
  cloudscale.lst_TimeoutMemberDataMS l = cloudscale.lstr_TimeoutMemberDataMS want.

(** ** Updates carry at most one attribute *)

Definition listener_attr_count (r : cloudscale.LoadBalancerListenerRequest) : nat :=
  is_set (negb (is_nil (cloudscale.lstr_Tags r))) + is_set (negb (str_empty (cloudscale.lstr_Name r))) +
  is_set (negb (str_empty (cloudscale.lstr_Pool r))) + is_set (negb (str_empty (cloudscale.lstr_Protocol r))) +
  is_set (negb (cloudscale.lstr_ProtocolPort r =? 0)%Z) + is_set (negb (is_nil (cloudscale.lstr_AllowedCIDRs r))) +
  is_set (negb (cloudscale.lstr_TimeoutClientDataMS r =? 0)%Z) +
  is_set (negb (cloudscale.lstr_TimeoutMemberConnectMS r =? 0)%Z) +
  is_set (negb (cloudscale.lstr_TimeoutMemberDataMS r =? 0)%Z).

(** The calls the listener code may make. *)
Definition listener_call (lb : v1beta1.LoadBalancer) (pool : poolMapping) (r : req) : Prop :=
  match r with
  | ListenerList | ListenerDelete _ => True
  | ListenerCreate q => q = listenerReq lb pool
  | ListenerUpdate _ q => (listener_attr_count q <= 1)%nat
  | _ => False
  end.

Lemma listenersOfPool_eq p all :
  listenersOfPool p all =
  if all_pooled all then mret (listeners_of p all) else Panic "nil pointer dereference: listener.Pool".
Proof.
  unfold listenersOfPool.
  cut (forall acc, foldM all acc (fun listeners listener =>
    match cloudscale.lst_Pool listener with
    | None => Panic "nil pointer dereference: listener.Pool"
    | Some stub =>
        if str_eqb (cloudscale.ps_UUID stub) p then mret (listeners ++ [listener]) else mret listeners
    end) = if all_pooled all then mret (acc ++ listeners_of p all)
           else Panic "nil pointer dereference: listener.Pool").
  { intros ->. done. }
  induction all as [|x all IH]; intros acc; cbn; [by rewrite app_nil_r|].
  destruct (cloudscale.lst_Pool x) as [s|]; cbn; [|done].
  destruct (str_eqb (cloudscale.ps_UUID s) p); cbn; rewrite IH; [|done].
  by rewrite <- app_assoc.
Qed.

Lemma createListener_only lb pool : only (listener_call lb pool) (createListener lb pool).
Proof. unfold createListener. only_steps. done. Qed.

Lemma updateListener_only lb pool l : only (listener_call lb pool) (updateListener lb pool l).
Proof.
  unfold updateListener, updateListenerAttr.
  only_steps; apply updateBlock_only; cbn; rewrite ?Nat.add_0_r; apply is_set_le || done.
Qed.

Lemma ensureLoadBalancerListener_only lb pool :
  only (listener_call lb pool) (ensureLoadBalancerListener lb pool).
Proof.
  unfold ensureLoadBalancerListener. apply only_bind; [by only_steps|]. intros all.
  rewrite listenersOfPool_eq.
  only_steps; try done; auto using createListener_only, updateListener_only.
Qed.

(** Whatever the service answers, every listener update that is sent sets
    at most one attribute, as the cloudscale API demands; every creation asks for the
    listener of the manifest; no other kind of resource is touched. *)
Lemma listener_updates_single lb pool (h : list action) :
  wp (ensureLoadBalancerListener lb pool) h (fun h' _ =>
    exists t, h' = h ++ t /\ Forall (listener_call lb pool) (calls t)).
Proof. apply only_history, ensureLoadBalancerListener_only. Qed.

(** ** The calls, exactly *)

Lemma unless_l_map same u r :
  map (ListenerUpdate u) (unless_l same r) = if same then [] else [ListenerUpdate u r].
Proof. by destruct same. Qed.

Lemma unless_l_nil same r : unless_l same r = [] <-> same = true.
Proof. by destruct same. Qed.

Lemma Sort_Equal_perm a cidrs : Equal (Sort a) (Sort cidrs) = true <-> a ≡ₚ cidrs.
Proof. by rewrite Equal_true, Sort_eq_iff. Qed.

Lemma allowedCIDRs_perm pool : allowedCIDRs pool ≡ₚ map v1beta1.acidr_CIDR (v1beta1.fe_AllowedCIDRs (frontend pool)).
Proof. apply SortFunc_perm. Qed.

Lemma Equal_allowedCIDRs pool a :
  Equal (Sort a) (allowedCIDRs pool) = true <-> a ≡ₚ allowedCIDRs pool.
Proof. unfold allowedCIDRs at 1. rewrite Sort_Equal_perm. by rewrite allowedCIDRs_perm. Qed.

(** No update is planned exactly when the listener already has the
    allowed CIDRs (in any order) and the timeouts of the manifest. *)
Lemma listener_plan_empty lb pool l :
  listener_plan (listenerReq lb pool) (allowedCIDRs pool) l = [] <->
  cloudscale.lst_AllowedCIDRs l ≡ₚ map v1beta1.acidr_CIDR (v1beta1.fe_AllowedCIDRs (frontend pool)) /\
  cloudscale.lst_TimeoutClientDataMS l = cloudscale.lstr_TimeoutClientDataMS (listenerReq lb pool) /\
  cloudscale.lst_TimeoutMemberConnectMS l = cloudscale.lstr_TimeoutMemberConnectMS (listenerReq lb pool) /\
  cloudscale.lst_TimeoutMemberDataMS l = cloudscale.lstr_TimeoutMemberDataMS (listenerReq lb pool).
Proof.
  unfold listener_plan. rewrite !app_nil, !unless_l_nil, !Z.eqb_eq, Equal_allowedCIDRs, allowedCIDRs_perm. tauto.
Qed.

Ltac chain_listener :=
  eapply wp_mono; [|apply updateBlock_set];
  [ intros ? [?|?|?]; cbn [continue]; [|done|done];
    let X := fresh "X" in intros [-> X]; rewrite <- unless_l_map in X
  | let E := fresh "E" in intros E; rewrite ?Z.eqb_eq in E; rewrite <- E ].

Lemma updateListener_hist lb pool l (h : list action) :
  wp (updateListener lb pool l) h (fun h' o => match o with
    | Returned l' =>
        extends h (map (ListenerUpdate (cloudscale.lst_UUID l))
          (listener_plan (listenerReq lb pool) (allowedCIDRs pool) l)) h' /\
        l' = set_listener l
          (if Equal (Sort (cloudscale.lst_AllowedCIDRs l)) (allowedCIDRs pool)
           then cloudscale.lst_AllowedCIDRs l else allowedCIDRs pool)
          (cloudscale.lstr_TimeoutClientDataMS (listenerReq lb pool))
          (cloudscale.lstr_TimeoutMemberConnectMS (listenerReq lb pool))
          (cloudscale.lstr_TimeoutMemberDataMS (listenerReq lb pool))
    | Failed _ => True
    | Panicked _ => False
    end).
Proof.
  unfold updateListener, updateListenerAttr. destruct l as [u nm tg pl pr po ci cl co da].
  apply wp_bind. eapply wp_mono; [|apply updateBlock_hist].
  intros h1 [l1|e|s]; cbn [continue]; [|done|done]. intros [-> X0]. rewrite <- unless_l_map in X0.
  apply wp_bind. chain_listener; [|by cbn; case_if]. apply wp_bind. chain_listener; [|by cbn; case_if].
  chain_listener; [|by cbn; case_if]. cbn -[listener_plan] in *. split.
  - unfold listener_plan. cbn. rewrite !map_app.
    eapply extends_trans; [exact X0|]. destruct (Equal (Sort ci) _);
      repeat (eapply extends_trans; [eassumption|]); done.
  - by case_if.
Qed.

Lemma createListener_hist lb pool (h : list action) :
  wp (createListener lb pool) h (fun h' o =>
    extends h [ListenerCreate (listenerReq lb pool)] h' /\ forall s, o <> Panicked s).
Proof.
  unfold createListener. wp_steps; hist; [|by split; [apply extends_call|]].
  destruct v as [m|]; cbn; (split; [|done]); auto with lbc.
Qed.

(** What one pass does, given the listing [all] it got: the calls [cs] after the
    listing and the outcome. *)
Definition listener_pass (lb : v1beta1.LoadBalancer) (pool : poolMapping)
    (all : list cloudscale.LoadBalancerListener)
    (cs : list req) (o : outcome cloudscale.LoadBalancerListener) : Prop :=
  let want := listenerReq lb pool in
  if negb (all_pooled all) then cs = [] /\ exists s, o = Panicked s
  else match listeners_of (cloudscale.pool_UUID (pm_Theirs pool)) all with
  | [] => cs = [ListenerCreate want] /\ forall s, o <> Panicked s
  | [l0] =>
      match o with
      | Returned l =>
          if same_endpoint want l0
          then cs = map (ListenerUpdate (cloudscale.lst_UUID l0)) (listener_plan want (allowedCIDRs pool) l0) /\
               cloudscale.lst_UUID l = cloudscale.lst_UUID l0 /\ listener_agrees want (allowedCIDRs pool) l
          else cs = [ListenerDelete (cloudscale.lst_UUID l0); ListenerCreate want]
      | Failed _ => True
      | Panicked _ => False
      end
  | _ => cs = [] /\ exists e, o = Failed e
  end.

Lemma update_listener_agrees lb pool l (h : list action) :
  same_endpoint (listenerReq lb pool) l = true ->
  wp (updateListener lb pool l) h (fun h' o => match o with
    | Returned l' =>
        extends h (map (ListenerUpdate (cloudscale.lst_UUID l))
          (listener_plan (listenerReq lb pool) (allowedCIDRs pool) l)) h' /\
        cloudscale.lst_UUID l' = cloudscale.lst_UUID l /\
        listener_agrees (listenerReq lb pool) (allowedCIDRs pool) l'
    | Failed _ => exists cs, extends h cs h'
    | Panicked _ => False
    end).
Proof.
  unfold same_endpoint. rewrite andb_true_iff, str_eqb_true, Z.eqb_eq. intros [Hp Hq].
  eapply wp_mono; [|apply (wp_and _ _ _ _ (updateListener_hist lb pool l h)
    (only_history _ _ h (updateListener_only lb pool l)))].
  intros h' [l'|e|s]; [|by intros (_ & t & -> & _); exists (calls t), t|by intros [[] _]].
  intros [[Hx ->] _]. split; [done|]. split; [done|]. repeat split; try done. cbn.
  destruct (Equal _ _) eqn:E; [by apply Equal_allowedCIDRs|done].
Qed.

Lemma listener_hist lb pool (h : list action) :
  wp (ensureLoadBalancerListener lb pool) h (fun h' o =>
    (exists e e', h' = h ++ [ACall ListenerList (Err e)] /\ o = Failed e') \/
    exists all cs, extends (h ++ [ACall ListenerList (Ok all)]) cs h' /\ listener_pass lb pool all cs o).
Proof.
  unfold ensureLoadBalancerListener. do 3 wp_step; cbn beta iota zeta; hist; [|by left; eauto].
  set (h1 := h ++ [ACall ListenerList (Ok v)]). rewrite listenersOfPool_eq. unfold listener_pass.
  destruct (all_pooled v) eqn:Ep; cbn [negb];
    [|right; exists v, []; rewrite Ep; split; [apply extends_refl|by cbn; eauto]].
  apply wp_bind. cbn [wp mret M_ret continue].
  destruct (listeners_of (cloudscale.pool_UUID (pm_Theirs pool)) v) as [|l0 [|l1 ls]] eqn:El.
  - eapply wp_mono; [|apply createListener_hist]. intros h2 o [Hx Hp]. right.
    eexists v, _. split; [exact Hx|]. rewrite Ep, El. done.
  - rewrite <- negb_andb. fold (same_endpoint (listenerReq lb pool) l0).
    destruct (same_endpoint (listenerReq lb pool) l0) eqn:Et; cbn [negb].
    + eapply wp_mono; [|by apply update_listener_agrees].
      intros h2 o Ho. right. exists v. rewrite Ep, El, Et. cbn [negb].
      destruct o as [m|e|s]; [|by destruct Ho as [cs Hx]; eauto|done].
      destruct Ho as (Hx & Hu & Ha). eauto.
    + wp_steps; hist.
      * eapply wp_mono; [|apply createListener_hist]. intros h2 o [Hx Hp]. right.
        exists v, [ListenerDelete (cloudscale.lst_UUID l0); ListenerCreate (listenerReq lb pool)].
        rewrite Ep, El, Et. split; [|destruct o; try done; by eapply Hp].
        eapply (extends_trans _ [_] _ [_]); [|exact Hx]. apply extends_event.
        eapply (extends_trans _ [] _ [_]); [apply extends_event, extends_refl|apply extends_call].
      * right. exists v, [ListenerDelete (cloudscale.lst_UUID l0)].
        rewrite Ep, El. split; [|done].
        eapply (extends_trans _ [] _ [_]); [apply extends_event, extends_refl|apply extends_call].
  - cbn. right. exists v, []. rewrite Ep, El. split; [apply extends_refl|by cbn; eauto].
Qed.

(** A listing showed several listeners for one pool. *)
Definition several_listeners (h : list action) : Prop :=
  exists p all, ACall ListenerList (Ok all) ∈ h /\ (1 < length (listeners_of p all))%nat.

Lemma createListener_fails lb pool : fails_only faulted (createListener lb pool).
Proof. unfold createListener. faults. Qed.

Lemma updateListener_fails lb pool l : fails_only faulted (updateListener lb pool l).
Proof. unfold updateListener. faults; by apply updateBlock_fails. Qed.

Lemma ensureLoadBalancerListener_fails lb pool :
  fails_only (fun h => faulted h \/ several_listeners h) (ensureLoadBalancerListener lb pool).
Proof.
  assert (Hf : forall A (m : M A), fails_only faulted m -> fails_only (fun h => faulted h \/ several_listeners h) m)
    by (intros A m; apply fails_only_mono; by left).
  apply fails_only_call_bind; [intros; left; by apply faulted_last|].
  intros h all. rewrite listenersOfPool_eq. destruct (all_pooled all); [|done].
  destruct (listeners_of _ all) as [|l [|l' ls]] eqn:El; cbn [mbind M_bind mret M_ret].
  - apply fails_only_at, Hf, createListener_fails.
  - apply fails_only_at, Hf. fails_steps; auto using createListener_fails, updateListener_fails.
    intros. by apply faulted_last.
  - right. exists (cloudscale.pool_UUID (pm_Theirs pool)), all. rewrite El. cbn. split; [set_solver|lia].
Qed.

(** C31: what a pass over the listener of a pool does, exactly: it creates the
    listener of the manifest when the listing has none for the pool; it refuses,
    writing nothing, when there are several; it deletes and recreates one on
    another protocol or port; and it brings one on the wanted endpoint into
    agreement by sending exactly the planned updates.  The one way it panics is a
    listing that holds a listener without a pool, whatever load balancer that
    listener belongs to: its Pool pointer is dereferenced unchecked.  It fails only
    after a call failed, a creation answered nil, or the listing showed several
    listeners for the pool. *)
Theorem listener_calls_exact lb pool (h : list action) :
  wp (ensureLoadBalancerListener lb pool) h (fun h' o =>
    ((exists e e', h' = h ++ [ACall ListenerList (Err e)] /\ o = Failed e') \/
     exists all cs, extends (h ++ [ACall ListenerList (Ok all)]) cs h' /\ listener_pass lb pool all cs o) /\
    match o with Failed _ => faulted h' \/ several_listeners h' | _ => True end).
Proof. apply wp_and; [apply listener_hist|apply ensureLoadBalancerListener_fails]. Qed.

(** A listing showed a listener without a pool. *)
Definition poolless_listed (h : list action) : Prop :=
  exists all, ACall ListenerList (Ok all) ∈ h /\ all_pooled all = false.

Lemma ensureLoadBalancerListener_total lb pool (h : list action) :
  wp (ensureLoadBalancerListener lb pool) h (fun h' o => match o with
    | Returned _ => True
    | Failed _ => faulted h' \/ several_listeners h'
    | Panicked _ => poolless_listed h'
    end).
Proof.
  eapply wp_mono; [|exact (wp_and _ _ _ _ (listener_hist lb pool h) (ensureLoadBalancerListener_fails lb pool h))].
  intros h' [l|e|s] [Hh Hf]; [done|done|].
  destruct Hh as [(e & e' & _ & [=])|(all & cs & (t & -> & _) & Hp)]. unfold listener_pass in Hp.
  destruct (all_pooled all) eqn:Ep; cbn [negb] in Hp; [exfalso|exists all; set_solver].
  destruct (listeners_of _ all) as [|l0 [|l1 ls]]; [by eapply Hp|done|naive_solver].
Qed.

(** ** What the controller relies on from the listener service

    As for health monitors: an update sets exactly the attributes the request
    sets, a create adds a listener of the requested pool, protocol and port. *)

Definition patch_listener (r : cloudscale.LoadBalancerListenerRequest)
    (l : cloudscale.LoadBalancerListener) : cloudscale.LoadBalancerListener :=
  set_listener l
    (match cloudscale.lstr_AllowedCIDRs r with None => cloudscale.lst_AllowedCIDRs l | Some c => c end)
    (if_set (cloudscale.lstr_TimeoutClientDataMS r) (cloudscale.lst_TimeoutClientDataMS l))
    (if_set (cloudscale.lstr_TimeoutMemberConnectMS r) (cloudscale.lst_TimeoutMemberConnectMS l))
    (if_set (cloudscale.lstr_TimeoutMemberDataMS r) (cloudscale.lst_TimeoutMemberDataMS l)).

(** Agreement on the attributes a request sets. *)
Definition listener_has (r : cloudscale.LoadBalancerListenerRequest) (l : cloudscale.LoadBalancerListener) : Prop :=
  cloudscale.lst_Protocol l = cloudscale.lstr_Protocol r /\
  cloudscale.lst_ProtocolPort l = cloudscale.lstr_ProtocolPort r /\
  (forall c, cloudscale.lstr_AllowedCIDRs r = Some c -> cloudscale.lst_AllowedCIDRs l ≡ₚ c) /\
  (cloudscale.lstr_TimeoutClientDataMS r <> 0 ->
     cloudscale.lst_TimeoutClientDataMS l = cloudscale.lstr_TimeoutClientDataMS r) /\
  (cloudscale.lstr_TimeoutMemberConnectMS r <> 0 ->
     cloudscale.lst_TimeoutMemberConnectMS l = cloudscale.lstr_TimeoutMemberConnectMS r) /\
  (cloudscale.lstr_TimeoutMemberDataMS r <> 0 ->
     cloudscale.lst_TimeoutMemberDataMS l = cloudscale.lstr_TimeoutMemberDataMS r).

Class ListenerAPI (W : Type) `{World W} := {
  listeners : W -> list cloudscale.LoadBalancerListener;
  lst_list w l w' : answers w ListenerList (Ok l) w' -> l = listeners w /\ listeners w' = listeners w;
  lst_create w r l w' : answers w (ListenerCreate r) (Ok (Some l)) w' ->
    listeners w' ≡ₚ l :: listeners w /\
    cloudscale.lst_Pool l = Some {| cloudscale.ps_UUID := cloudscale.lstr_Pool r |} /\ listener_has r l;
  lst_update w u r w' : answers w (ListenerUpdate u r) (Ok tt) w' ->
    listeners w' = map (fun l => if str_eqb (cloudscale.lst_UUID l) u then patch_listener r l else l) (listeners w);
  lst_delete w u w' : answers w (ListenerDelete u) (Ok tt) w' ->
    listeners w' = List.filter (fun l => negb (str_eqb (cloudscale.lst_UUID l) u)) (listeners w);
  lst_recorded w ev : listeners (recorded w ev) = listeners w;
}.

Section Convergence.
Context {W : Type} `{World W} `{!ListenerAPI W}.
Context (lb : v1beta1.LoadBalancer) (pool : poolMapping).

Local Abbreviation p := (cloudscale.pool_UUID (pm_Theirs pool)).
Local Abbreviation want := (listenerReq lb pool).

(** The service holds exactly the listener [l] for the pool. *)
Definition sole_listener (l : cloudscale.LoadBalancerListener) (w : W) : Prop :=
  listeners_of p (listeners w) = [l].

Lemma sole_listener_recorded l w ev : sole_listener l (recorded w ev) <-> sole_listener l w.
Proof. unfold sole_listener. by rewrite lst_recorded. Qed.

Lemma sole_listener_update l u r w w' :
  cloudscale.lst_UUID l = u -> answers w (ListenerUpdate u r) (Ok tt) w' ->
  sole_listener l w -> sole_listener (patch_listener r l) w'.
Proof.
  intros <- Hu%lst_update. unfold sole_listener, listeners_of. intros Hs. rewrite Hu.
  rewrite List_filter_map_comm, Hs; [cbn; by rewrite str_eqb_refl|].
  intros l'. by destruct (str_eqb (cloudscale.lst_UUID l') (cloudscale.lst_UUID l)).
Qed.

(** A block against the service. *)
Lemma updateListenerAttr_service same u attr rq old new l w :
  cloudscale.lst_UUID l = u -> sole_listener l w ->
  wp (updateListenerAttr same u attr rq old new) w (fun w' o => match o with
    | Returned v => v = (if same then old else new) /\
                    sole_listener (if same then l else patch_listener rq l) w'
    | _ => True
    end).
Proof.
  intros Hu Hs. unfold updateListenerAttr, updateBlock. destruct same; [done|].
  wp_steps; [|done]. split; [done|].
  match goal with v : val _, Ha : answers _ (ListenerUpdate _ _) _ _ |- _ =>
    destruct v; rewrite sole_listener_recorded; by eapply sole_listener_update end.
Qed.

Ltac chain_service :=
  eapply wp_mono; [|eapply updateListenerAttr_service; [|eassumption]];
  [ intros ? [?|?|?]; cbn [continue]; [|done|done];
    let X := fresh "X" in intros [-> X] | ].

Lemma updateListener_service l0 w :
  same_endpoint want l0 = true -> sole_listener l0 w ->
  wp (updateListener lb pool l0) w (fun w' o => match o with
    | Returned _ => exists l, sole_listener l w' /\ listener_has want l
    | _ => True
    end).
Proof.
  unfold same_endpoint. rewrite andb_true_iff, str_eqb_true, Z.eqb_eq. intros [Hpr Hpo] Hs.
  unfold updateListener, listener_has. destruct l0 as [u nm tg pl pr po ci cl co da].
  change (cloudscale.lstr_AllowedCIDRs want) with (Some (allowedCIDRs pool)).
  cbn [cloudscale.lst_Protocol cloudscale.lst_ProtocolPort] in Hpr, Hpo.
  generalize dependent (cloudscale.lstr_TimeoutClientDataMS want).
  generalize dependent (cloudscale.lstr_TimeoutMemberConnectMS want).
  generalize dependent (cloudscale.lstr_TimeoutMemberDataMS want). intros wd wo wc.
  apply wp_bind. chain_service; [|done]. apply wp_bind. chain_service; [|by case_if].
  apply wp_bind. chain_service; [|by repeat case_if]. chain_service; [|by repeat case_if].
  eexists. split; [eassumption|]. clear X X0 X1 X2.
  destruct (Equal (Sort _) _) eqn:Ec; [apply Equal_allowedCIDRs in Ec|]; cbn in *;
    repeat (match goal with |- context [?a =? ?b] => destruct (Z.eqb_spec a b) end; cbn);
    repeat split; intros; simplify_eq; auto using if_set_set.
Qed.

Lemma createListener_service w :
  listeners_of p (listeners w) = [] ->
  wp (createListener lb pool) w (fun w' o => match o with
    | Returned _ => exists l, sole_listener l w' /\ listener_has want l
    | _ => True
    end).
Proof.
  intros H0. unfold createListener. wp_steps; [|done].
  match goal with v : val (ListenerCreate _) |- _ => destruct v as [l|]; [|done] end.
  cbn [non_nil wp continue Eventf mret M_ret].
  match goal with Ha : answers _ (ListenerCreate _) _ _ |- _ => apply lst_create in Ha as (Hp & Hpool & Hh) end.
  exists l. split; [|done]. apply sole_listener_recorded. unfold sole_listener, listeners_of in *.
  apply (List_filter_perm (fun x => match cloudscale.lst_Pool x with
    | Some s => str_eqb (cloudscale.ps_UUID s) p | None => false end)) in Hp.
  cbn [List.filter] in Hp. rewrite Hpool in Hp. cbn in Hp. rewrite str_eqb_refl, H0 in Hp.
  by apply Permutation_singleton_r in Hp.
Qed.

Lemma listener_done w :
  wp (ensureLoadBalancerListener lb pool) w (fun w' o => match o with
    | Returned _ => exists l, listeners_of p (listeners w') = [l] /\ listener_has want l
    | _ => True
    end).
Proof.
  unfold ensureLoadBalancerListener. do 3 wp_step; cbn beta iota zeta; [|done].
  match goal with Ha : answers _ ListenerList _ _ |- _ => apply lst_list in Ha as [-> Hw] end.
  rewrite listenersOfPool_eq, <- Hw. destruct (all_pooled _); [|done].
  apply wp_bind. cbn [wp mret M_ret continue].
  destruct (listeners_of p (listeners w')) as [|l0 [|l1 ls]] eqn:El; [by apply createListener_service| |done].
  rewrite <- negb_andb. fold (same_endpoint want l0).
  destruct (same_endpoint want l0) eqn:Et; cbn [negb].
  - by apply updateListener_service.
  - wp_steps; [|done]. apply createListener_service.
    match goal with v : val _, Ha : answers _ (ListenerDelete _) _ _ |- _ => destruct v; apply lst_delete in Ha as Hd end.
    rewrite lst_recorded, Hd, lst_recorded. unfold listeners_of in *.
    rewrite List_filter_comm, El. cbn. by rewrite str_eqb_refl.
Qed.

End Convergence.
