(* ===== verification/Pools.v ===== *)
(** * Pools: [ensureLoadBalancerPools] of controllers/loadbalancer_controller.go *)

From Stdlib Require Import ZArith Lia.
From stdpp Require Import base list strings gmap.
From S2P Require Import Prelude GoLib ApiTypes Cloudscale Effects External Helpers Samples.
Open Scope string_scope.
Open Scope Z_scope.
Open Scope list_scope.

Section Pools.
Context (lb : v1beta1.LoadBalancer).

(** The request for a pool of the manifest. *)
Definition poolRequest (pool : v1beta1.Pool) : cloudscale.LoadBalancerPoolRequest :=
  {| cloudscale.poolr_Tags := Some (Some baseTagMap);
     cloudscale.poolr_Name := cloudscaleLoadbalancerName lb +:+ "-" +:+ v1beta1.pool_Name pool;
     cloudscale.poolr_LoadBalancer := v1beta1.UUID lb;
     cloudscale.poolr_Algorithm := poolAlgorithmToCloudscalePoolAlgorithm (v1beta1.Pool_GetAlgorithm pool);
     cloudscale.poolr_Protocol :=
       poolProtocolToCloudscalePoolProtocol (v1beta1.PoolBackend_GetProtocol (v1beta1.pool_Backend pool)) |}.

(** The request an existing pool stands for. *)
Definition actualRequest (a : cloudscale.LoadBalancerPool) : cloudscale.LoadBalancerPoolRequest :=
  {| cloudscale.poolr_Tags := None;
     cloudscale.poolr_Name := cloudscale.pool_Name a;
     cloudscale.poolr_LoadBalancer := cloudscale.pool_LoadBalancer a;
     cloudscale.poolr_Algorithm := cloudscale.pool_Algorithm a;
     cloudscale.poolr_Protocol := cloudscale.pool_Protocol a |}.

Definition shouldPools : list cloudscale.LoadBalancerPoolRequest :=
  map poolRequest (v1beta1.spec_Pools (v1beta1.lb_Spec lb)).

Definition actualPools (allPools : list cloudscale.LoadBalancerPool) : list cloudscale.LoadBalancerPool :=
  List.filter (fun pool => str_eqb (cloudscale.pool_LoadBalancer pool) (v1beta1.UUID lb)) allPools.

(** The body of the loop that deletes pools. *)
Definition deleteUnwanted (actualPool : cloudscale.LoadBalancerPool) : M unit :=
  if ContainsFunc shouldPools (fun s => loadBalancerPoolRequestEqual (actualRequest actualPool) s)
  then mret tt
  else
    _ ← wrap "failed to delete load balancer pool %q (%q): %w"
      [AStr (cloudscale.pool_Name actualPool); AStr (cloudscale.pool_UUID actualPool)]
      (call (PoolDelete (cloudscale.pool_UUID actualPool)));
    Eventf EventTypeNormal "PoolDeleted" "Deleted load balancer pool %q (%q)"
      [AStr (cloudscale.pool_Name actualPool); AStr (cloudscale.pool_UUID actualPool)].

(** The body of the loop that maps or creates pools; [i] is the loop's index
    into [lb.Spec.Pools], [ai] an index into [actualPools]. *)
Definition ensurePool (actual : list cloudscale.LoadBalancerPool) (i : nat)
    (shouldPool : cloudscale.LoadBalancerPoolRequest) : M poolMapping :=
  match v1beta1.spec_Pools (v1beta1.lb_Spec lb) !! i with
  | None => Panic "index out of range: lb.Spec.Pools[i]"
  | Some ours =>
      match IndexFunc actual (fun a => loadBalancerPoolRequestEqual shouldPool (actualRequest a)) with
      | Some ai =>
          match actual !! ai with
          | None => Panic "index out of range: actualPools[ai]"
          | Some theirs => mret {| pm_Ours := ours; pm_Theirs := theirs |}
          end
      | None =>
          created ← wrap "failed to create load balancer pool: %w" [] (call (PoolCreate shouldPool));
          pool ← non_nil created "cloudscale returned empty load balancer pool";
          _ ← Eventf EventTypeNormal "PoolCreated" "Created load balancer pool %q (%q)"
            [AStr (cloudscale.pool_Name pool); AStr (cloudscale.pool_UUID pool)];
          mret {| pm_Ours := ours; pm_Theirs := pool |}
      end
  end.

Definition ensureLoadBalancerPools : M (list poolMapping) :=
  allPools ← wrap "failed to list load balancer pools: %w" [] (call PoolList);
  let actual := actualPools allPools in
  _ ← forM_ actual deleteUnwanted;
  mapM (imap (fun i s => (i, s)) shouldPools) (fun '(i, s) => ensurePool actual i s).
End Pools.

(** ** Specification vocabulary *)

(** A cloudscale pool implements a request when the controller takes them as equal. *)
Definition pool_implements (a : cloudscale.LoadBalancerPool) (r : cloudscale.LoadBalancerPoolRequest) : Prop :=
  cloudscale.pool_Name a = cloudscale.poolr_Name r /\
  cloudscale.pool_LoadBalancer a = cloudscale.poolr_LoadBalancer r /\
  cloudscale.pool_Algorithm a = cloudscale.poolr_Algorithm r /\
  cloudscale.pool_Protocol a = cloudscale.poolr_Protocol r.

#[export] Instance pool_implements_dec a r : Decision (pool_implements a r).
Proof. unfold pool_implements. apply _. Defined.

Definition unwantedPools (should : list cloudscale.LoadBalancerPoolRequest)
    (actual : list cloudscale.LoadBalancerPool) : list cloudscale.LoadBalancerPool :=
  List.filter (fun a => negb (existsb (fun s => bool_decide (pool_implements a s)) should)) actual.

Definition missingPools (should : list cloudscale.LoadBalancerPoolRequest)
    (actual : list cloudscale.LoadBalancerPool) : list cloudscale.LoadBalancerPoolRequest :=
  List.filter (fun s => negb (existsb (fun a => bool_decide (pool_implements a s)) actual)) should.

(** The writes that bring a listing to the manifest: deletions first. *)
Definition pool_plan (lb : v1beta1.LoadBalancer) (all : list cloudscale.LoadBalancerPool) : list req :=
  map (fun a => PoolDelete (cloudscale.pool_UUID a)) (unwantedPools (shouldPools lb) (actualPools lb all)) ++
  map PoolCreate (missingPools (shouldPools lb) (actualPools lb all)).

(** ** Facts *)

Lemma actualRequest_Equal a r :
  loadBalancerPoolRequestEqual (actualRequest a) r = bool_decide (pool_implements a r).
Proof.
  apply eq_true_iff_eq. rewrite loadBalancerPoolRequestEqual_true, bool_decide_eq_true. done.
Qed.

Lemma Contains_wanted should a :
  ContainsFunc should (fun s => loadBalancerPoolRequestEqual (actualRequest a) s) =
  existsb (fun s => bool_decide (pool_implements a s)) should.
Proof.
  unfold ContainsFunc. induction should as [|s should IH]; cbn; [done|].
  by rewrite IH, actualRequest_Equal.
Qed.

Lemma Index_actual actual s :
  match IndexFunc actual (fun a => loadBalancerPoolRequestEqual s (actualRequest a)) with
  | Some ai => exists a, actual !! ai = Some a /\ pool_implements a s
  | None => existsb (fun a => bool_decide (pool_implements a s)) actual = false
  end.
Proof.
  destruct (IndexFunc _ _) as [ai|] eqn:E.
  - apply IndexFunc_Some in E as (a & Ha & Hr). exists a. split; [done|].
    rewrite loadBalancerPoolRequestEqual_sym, actualRequest_Equal in Hr. by apply bool_decide_eq_true in Hr.
  - apply IndexFunc_None in E. unfold ContainsFunc in E. rewrite existsb_not_elem in *.
    intros a Ha. rewrite <- actualRequest_Equal, loadBalancerPoolRequestEqual_sym. by apply E.
Qed.

Lemma elem_of_unwantedPools should actual a :
  a ∈ unwantedPools should actual <-> a ∈ actual /\ forall r, r ∈ should -> ~ pool_implements a r.
Proof.
  unfold unwantedPools. rewrite elem_of_List_filter, negb_true_iff, existsb_not_elem.
  setoid_rewrite bool_decide_eq_false. done.
Qed.

Lemma elem_of_missingPools should actual r :
  r ∈ missingPools should actual <-> r ∈ should /\ forall a, a ∈ actual -> ~ pool_implements a r.
Proof.
  unfold missingPools. rewrite elem_of_List_filter, negb_true_iff, existsb_not_elem.
  setoid_rewrite bool_decide_eq_false. done.
Qed.

Lemma elem_of_actualPools lb all a :
  a ∈ actualPools lb all <-> a ∈ all /\ cloudscale.pool_LoadBalancer a = v1beta1.UUID lb.
Proof. unfold actualPools. by rewrite elem_of_List_filter, str_eqb_true. Qed.

(** The index of the create loop is always in range. *)
Lemma loop_index lb pre i s rest :
  imap (fun i s => (i, s)) (shouldPools lb) = pre ++ (i, s) :: rest ->
  exists ours, v1beta1.spec_Pools (v1beta1.lb_Spec lb) !! i = Some ours /\ s = poolRequest lb ours /\
    i = length pre.
Proof.
  intros E. assert (Hl : imap (fun i s => (i, s)) (shouldPools lb) !! length pre = Some (i, s)).
  { rewrite E. by apply list_lookup_middle. }
  rewrite list_lookup_imap in Hl. unfold shouldPools in Hl. rewrite list_lookup_fmap in Hl.
  destruct (v1beta1.spec_Pools (v1beta1.lb_Spec lb) !! length pre) as [ours|] eqn:Eo; cbn in Hl; [|done].
  injection Hl as <- <-. eauto.
Qed.

Lemma imap_snd_app lb pre i s rest :
  imap (fun i s => (i, s)) (shouldPools lb) = pre ++ (i, s) :: rest ->
  shouldPools lb = map snd pre ++ s :: map snd rest.
Proof.
  intros E. assert (Hs : map snd (imap (fun i s => (i, s)) (shouldPools lb)) = shouldPools lb).
  { apply list_eq. intros n. rewrite list_lookup_fmap, list_lookup_imap. by destruct (shouldPools lb !! n). }
  by rewrite <- Hs, E, map_app.
Qed.

(** What a mapping of the result stands for, given the listing's pools and what
    happened since: the pool was there and implements the request, or it is the
    answer to the request's creation. *)
Definition mapping_ok (lb : v1beta1.LoadBalancer) (actual : list cloudscale.LoadBalancerPool)
    (t : list action) (m : poolMapping) : Prop :=
  (pm_Theirs m ∈ actual /\ pool_implements (pm_Theirs m) (poolRequest lb (pm_Ours m))) \/
  ACall (PoolCreate (poolRequest lb (pm_Ours m))) (Ok (Some (pm_Theirs m))) ∈ t.

Lemma mapping_ok_app lb actual t t' m : mapping_ok lb actual t m -> mapping_ok lb actual (t ++ t') m.
Proof. unfold mapping_ok. set_solver. Qed.

Definition creates (actual : list cloudscale.LoadBalancerPool) (should : list cloudscale.LoadBalancerPoolRequest)
    : list req := map PoolCreate (missingPools should actual).

Lemma creates_app actual s1 s2 : creates actual (s1 ++ s2) = creates actual s1 ++ creates actual s2.
Proof. unfold creates, missingPools. by rewrite List.filter_app, map_app. Qed.

(** One iteration of the create loop. *)
Lemma ensurePool_hist lb actual i ours (h : list action) :
  v1beta1.spec_Pools (v1beta1.lb_Spec lb) !! i = Some ours ->
  wp (ensurePool lb actual i (poolRequest lb ours)) h (fun h' o => exists t, h' = h ++ t /\
    calls t = creates actual [poolRequest lb ours] /\
    match o with
    | Returned m => pm_Ours m = ours /\ mapping_ok lb actual t m
    | Failed _ => True
    | Panicked _ => False
    end).
Proof.
  intros Hi. unfold ensurePool, creates, missingPools. rewrite Hi. cbn [List.filter].
  pose proof (Index_actual actual (poolRequest lb ours)) as Hx. destruct (IndexFunc _ _) as [ai|].
  - destruct Hx as (a & Ha & Himp). rewrite Ha. cbn. exists [].
    rewrite app_nil_r. split; [done|]. assert (Hin : a ∈ actual) by (by eapply list_elem_of_lookup_2).
    assert (existsb (fun a => bool_decide (pool_implements a (poolRequest lb ours))) actual = true) as ->
      by (apply existsb_elem; exists a; split; [done|]; by apply bool_decide_eq_true).
    split; [done|]. split; [done|]. by left.
  - rewrite Hx. wp_steps; hist; [|by eexists].
    destruct v as [pl|]; cbn; [|by eexists].
    eexists [_; _]. rewrite <- app_assoc. split; [done|]. split; [done|]. split; [done|]. right. by left.
Qed.

(** The delete loop. *)
Lemma deleteUnwanted_hist lb a (h : list action) :
  wp (deleteUnwanted lb a) h (fun h' o => exists t, h' = h ++ t /\
    calls t = map (fun a => PoolDelete (cloudscale.pool_UUID a)) (unwantedPools (shouldPools lb) [a]) /\
    forall s, o <> Panicked s).
Proof.
  unfold deleteUnwanted, unwantedPools. rewrite Contains_wanted. cbn [List.filter].
  destruct (existsb _ _); cbn [negb].
  - cbn. exists []. by rewrite app_nil_r.
  - wp_steps; hist; [|by eexists]. cbn. eexists [_; _]. by rewrite <- app_assoc.
Qed.

(** The result has one entry per pool of the manifest, in its order. *)
Lemma ensureLoadBalancerPools_ours lb (h : list action) :
  wp (ensureLoadBalancerPools lb) h (fun _ o => match o with
    | Returned ms => map pm_Ours ms = v1beta1.spec_Pools (v1beta1.lb_Spec lb) | _ => True end).
Proof.
  unfold ensureLoadBalancerPools. do 2 (apply wp_bind_any; [done|done|]; intros ? ?).
  apply wp_mapM with (I := fun pre ms _ => map pm_Ours ms = take (length pre) (v1beta1.spec_Pools (v1beta1.lb_Spec lb))).
  - done.
  - intros pre [i s] rest ms h1 El Ho. destruct (loop_index _ _ _ _ _ El) as (ours & Hi & -> & ->).
    eapply wp_mono; [|by apply ensurePool_hist]. intros h2 [m|e|s] (t & _ & _ & Hm); [|done|done].
    rewrite map_app, Ho, length_app, Nat.add_1_r. cbn. destruct Hm as [-> _]. symmetry. by apply take_S_r.
  - intros ms _ ->. rewrite length_imap. unfold shouldPools. rewrite length_map. apply firstn_all.
Qed.

(** What a pass may have done when it ends, given the listing it got. *)
Definition pools_pass (lb : v1beta1.LoadBalancer) (all : list cloudscale.LoadBalancerPool)
    (t : list action) (o : outcome (list poolMapping)) : Prop :=
  match o with
  | Returned pools =>
      calls t = pool_plan lb all /\
      map pm_Ours pools = v1beta1.spec_Pools (v1beta1.lb_Spec lb) /\
      Forall (mapping_ok lb (actualPools lb all) t) pools
  | Failed _ => calls t `prefix_of` pool_plan lb all
  | Panicked _ => False
  end.

Lemma unwanted_app should l1 l2 :
  unwantedPools should (l1 ++ l2) = unwantedPools should l1 ++ unwantedPools should l2.
Proof. apply List.filter_app. Qed.

Lemma delete_loop_hist lb all (h : list action) (Q : list action -> outcome unit -> Prop) :
  (forall h' e t, h' = h ++ t -> calls t `prefix_of` pool_plan lb all -> Q h' (Failed e)) ->
  (forall h' t, h' = h ++ t ->
     calls t = map (fun a => PoolDelete (cloudscale.pool_UUID a)) (unwantedPools (shouldPools lb) (actualPools lb all)) ->
     Q h' (Returned tt)) ->
  wp (forM_ (actualPools lb all) (deleteUnwanted lb)) h Q.
Proof.
  intros HF HR.
  apply wp_forM_ with (I := fun pre h' => exists t, h' = h ++ t /\
    calls t = map (fun a => PoolDelete (cloudscale.pool_UUID a)) (unwantedPools (shouldPools lb) pre)).
  - exists []. by rewrite app_nil_r.
  - intros pre a rest h1 El (t & -> & Ht). eapply wp_mono; [|apply deleteUnwanted_hist].
    intros h2 o (t2 & -> & Ht2 & Hp).
    assert (Hc : calls (t ++ t2) = map (fun a => PoolDelete (cloudscale.pool_UUID a))
      (unwantedPools (shouldPools lb) (pre ++ [a]))) by (by rewrite calls_app, Ht, Ht2, unwanted_app, map_app).
    destruct o as [[]|e|s]; [exists (t ++ t2); by rewrite app_assoc| |by destruct (Hp s)].
    apply (HF _ _ (t ++ t2)); [by rewrite app_assoc|]. rewrite Hc. unfold pool_plan. rewrite El.
    rewrite (cons_middle a pre rest), app_assoc, (unwanted_app _ (pre ++ [a])), map_app, <- app_assoc.
    by eexists.
  - intros h1 (t & -> & Ht). eauto.
Qed.

Lemma pools_hist lb (h : list action) :
  wp (ensureLoadBalancerPools lb) h (fun h' o =>
    (exists e e', h' = h ++ [ACall PoolList (Err e)] /\ o = Failed e') \/
    exists all t, h' = h ++ ACall PoolList (Ok all) :: t /\ pools_pass lb all t o).
Proof.
  unfold ensureLoadBalancerPools. do 3 wp_step; cbn beta iota zeta; hist; [|by left; eauto].
  rename v into all. set (acts := actualPools lb all). apply wp_bind. apply delete_loop_hist; cbn [continue].
  { intros h' e t -> Ht. right. exists all, t. by rewrite <- app_assoc. }
  intros h' t -> Ht. set (specs := v1beta1.spec_Pools (v1beta1.lb_Spec lb)).
  apply wp_mapM with (I := fun pre ys h' => exists t2, h' = h ++ ACall PoolList (Ok all) :: t ++ t2 /\
    calls t2 = creates acts (map snd pre) /\ map pm_Ours ys = take (length pre) specs /\
    Forall (mapping_ok lb acts (t ++ t2)) ys).
  - exists []. rewrite app_nil_r, <- app_assoc. split; [done|]. split; [done|]. split; [done|constructor].
  - intros pre [i s] rest ys h1 El (t2 & -> & Ht2 & Ho & Hm).
    pose proof (imap_snd_app _ _ _ _ _ El) as Es.
    destruct (loop_index _ _ _ _ _ El) as (ours & Hi & -> & ->).
    eapply wp_mono; [|by apply ensurePool_hist]. intros h2 o (t3 & -> & Ht3 & Hres).
    assert (Hc : calls (t2 ++ t3) = creates acts (map snd (pre ++ [(length pre, poolRequest lb ours)])))
      by (by rewrite calls_app, Ht2, Ht3, map_app, creates_app).
    destruct o as [m|e|?]; [| |done].
    + destruct Hres as [Hours Hok]. exists (t2 ++ t3). split; [|split; [done|split]].
      * rewrite <- !app_assoc. cbn. by rewrite <- !app_assoc.
      * rewrite map_app, Ho, length_app, Nat.add_1_r. cbn. rewrite Hours. symmetry. by apply take_S_r.
      * rewrite app_assoc. apply Forall_app. split.
        -- eapply Forall_impl; [exact Hm|]. intros m' Hm'. by apply mapping_ok_app.
        -- constructor; [|constructor]. destruct Hok as [Hok|Hok]; [by left|]. right. set_solver.
    + right. exists all, (t ++ t2 ++ t3). split; [by rewrite <- !app_assoc; cbn; rewrite <- !app_assoc|]. cbn.
      rewrite calls_app, Ht, Hc. unfold pool_plan. apply prefix_app. change (map PoolCreate _) with (creates acts (shouldPools lb)).
      rewrite Es, (cons_middle _ (map snd pre)), app_assoc, (creates_app _ (map snd pre ++ _)), map_app. by eexists.
  - intros ys h1 (t2 & -> & Ht2 & Ho & Hm). right. exists all, (t ++ t2). split; [done|]. split; [|split; [|done]].
    + rewrite calls_app, Ht, Ht2. unfold pool_plan. f_equal.
      replace (map snd _) with (shouldPools lb); [done|].
      apply list_eq. intros n. rewrite list_lookup_fmap, list_lookup_imap. by destruct (shouldPools lb !! n).
    + rewrite Ho, length_imap. unfold shouldPools. rewrite length_map. apply firstn_all.
Qed.

Lemma ensureLoadBalancerPools_fails lb : fails_only faulted (ensureLoadBalancerPools lb).
Proof. unfold ensureLoadBalancerPools, deleteUnwanted, ensurePool. faults. Qed.

Lemma ensureLoadBalancerPools_total lb (h : list action) :
  wp (ensureLoadBalancerPools lb) h (fun h' o => match o with
    | Returned _ => True | Failed _ => faulted h' | Panicked _ => False end).
Proof.
  eapply wp_mono; [|exact (wp_and _ _ _ _ (pools_hist lb h) (ensureLoadBalancerPools_fails lb h))].
  intros h' [ms|e|s] [Hh Hf]; [done|done|]. by destruct Hh as [(e & e' & _ & [=])|(all & t & _ & Hp)].
Qed.


(** ** What the controller relies on from the pool service

    Listing shows all pools; a successful create adds a pool with the requested
    name, load balancer, algorithm and protocol; a successful delete removes the
    pool named; identifiers are unique. *)

Class PoolAPI (W : Type) `{World W} := {
  pools : W -> list cloudscale.LoadBalancerPool;
  pool_list w l w' : answers w PoolList (Ok l) w' -> l = pools w /\ pools w' = pools w;
  pool_create w r a w' : answers w (PoolCreate r) (Ok (Some a)) w' ->
    pools w' ≡ₚ a :: pools w /\ pool_implements a r;
  pool_delete w u w' : answers w (PoolDelete u) (Ok tt) w' ->
    pools w' = List.filter (fun a => negb (str_eqb (cloudscale.pool_UUID a) u)) (pools w);
  pool_recorded w ev : pools (recorded w ev) = pools w;
  pool_unique w : NoDup (map cloudscale.pool_UUID (pools w));
}.

Section Convergence.
Context {W : Type} `{World W} `{!PoolAPI W}.
Context (lb : v1beta1.LoadBalancer).

Local Abbreviation should := (shouldPools lb).
Local Abbreviation specs := (v1beta1.spec_Pools (v1beta1.lb_Spec lb)).

(** After the deletions: exactly the unwanted pools of this load balancer are gone. *)
Definition pruned (before after : W) : Prop :=
  forall a, a ∈ pools after <->
    a ∈ pools before /\ a ∉ unwantedPools should (actualPools lb (pools before)).

Lemma deleteUnwanted_service a w :
  wp (deleteUnwanted lb a) w (fun w' o => match o with
    | Returned _ => forall b, b ∈ pools w' <->
        b ∈ pools w /\ cloudscale.pool_UUID b ∉ map cloudscale.pool_UUID (unwantedPools should [a])
    | _ => True
    end).
Proof.
  unfold deleteUnwanted, unwantedPools. rewrite Contains_wanted. cbn [List.filter].
  destruct (existsb _ _); cbn [negb]; [cbn; set_solver|].
  wp_steps; [|done]. intros b.
  match goal with v : val _, Ha : answers _ (PoolDelete _) _ _ |- _ => destruct v; apply pool_delete in Ha as Hd end.
  rewrite pool_recorded, Hd, elem_of_List_filter, negb_true_iff, str_eqb_false. cbn. set_solver.
Qed.

Lemma delete_loop_service w w0 :
  pools w0 = pools w ->
  wp (forM_ (actualPools lb (pools w)) (deleteUnwanted lb)) w0 (fun w' o => match o with
    | Returned _ => pruned w w'
    | _ => True
    end).
Proof.
  intros Hw0. apply wp_forM_ with (I := fun pre w' => forall b, b ∈ pools w' <->
    b ∈ pools w /\ cloudscale.pool_UUID b ∉ map cloudscale.pool_UUID (unwantedPools should pre)).
  - intros b. rewrite Hw0. cbn. set_solver.
  - intros pre a rest w1 _ HI. eapply wp_mono; [|apply deleteUnwanted_service].
    intros w2 [[]|e|s]; [|done|done]. intros Hb b. rewrite Hb, HI, unwanted_app, map_app. set_solver.
  - intros w1 HI b. rewrite HI. apply and_iff_under. intros Hb.
    split; intros Hn Hu; apply Hn.
    + by apply list_elem_of_In, in_map, list_elem_of_In.
    + apply list_elem_of_In, in_map_iff in Hu as (a & Ea & Ha%list_elem_of_In).
      assert (Hall : a ∈ pools w) by (apply elem_of_unwantedPools in Ha as [Ha _]; apply elem_of_actualPools in Ha as [Ha _]; exact Ha).
      by rewrite <- (NoDup_map_inj _ _ _ _ (pool_unique w) Hall Hb Ea).
Qed.

(** What holds while pools are mapped and created, starting from [before]. *)
Definition creating (before : W) (ms : list poolMapping) (w : W) : Prop :=
  (forall a, a ∈ pools before -> a ∈ pools w) /\
  (forall a, a ∈ pools w -> a ∈ pools before \/ exists s, s ∈ should /\ pool_implements a s) /\
  (forall m, m ∈ ms -> pm_Theirs m ∈ pools w /\ pool_implements (pm_Theirs m) (poolRequest lb (pm_Ours m))).

Lemma ensurePool_service w actual before i ours ms w1 :
  (forall a, a ∈ actual -> a ∈ pools w) ->
  (forall a s, a ∈ actual -> s ∈ should -> pool_implements a s -> a ∈ pools before) ->
  specs !! i = Some ours -> creating before ms w1 ->
  wp (ensurePool lb actual i (poolRequest lb ours)) w1 (fun w' o => match o with
    | Returned m => pm_Ours m = ours /\ creating before (ms ++ [m]) w'
    | _ => True
    end).
Proof.
  intros Hact Hkeep Hi (Hold & Hnew & Hms). unfold ensurePool. rewrite Hi.
  assert (Hs : poolRequest lb ours ∈ should).
  { apply list_elem_of_In, in_map, list_elem_of_In. by eapply list_elem_of_lookup_2. }
  pose proof (Index_actual actual (poolRequest lb ours)) as Hx. destruct (IndexFunc _ _) as [ai|].
  - destruct Hx as (a & Ha & Himp). rewrite Ha. cbn. split; [done|].
    apply list_elem_of_lookup_2 in Ha. split; [done|]. split; [done|].
    intros m. rewrite elem_of_app, list_elem_of_singleton. intros [Hm| ->]; [by apply Hms|]. cbn. eauto.
  - wp_steps; [|done].
    match goal with v : val (PoolCreate _) |- _ => destruct v as [a|]; [|done] end.
    cbn [non_nil wp continue Eventf mret M_ret].
    match goal with Ha : answers _ (PoolCreate _) _ _ |- _ => apply pool_create in Ha as [Hp Himp] end.
    split; [done|]. unfold creating.
    match goal with |- context [pools (recorded ?u ?ev)] =>
      assert (Hin : forall b, b ∈ pools (recorded u ev) <-> b = a \/ b ∈ pools w1)
        by (intros b; rewrite pool_recorded, Hp; apply elem_of_cons) end.
    setoid_rewrite Hin.
    split; [eauto|]. split; [intros b [->|Hb]; eauto|].
    intros m. rewrite elem_of_app, list_elem_of_singleton. intros [Hm| ->]; [destruct (Hms m Hm); split; [by right|done]|]. cbn. eauto.
Qed.

Lemma pools_service w :
  wp (ensureLoadBalancerPools lb) w (fun w' o => match o with
    | Returned ms => map pm_Ours ms = specs /\ exists w1, pruned w w1 /\ creating w1 ms w'
    | _ => True
    end).
Proof.
  unfold ensureLoadBalancerPools. do 3 wp_step; cbn beta iota zeta; [|done].
  match goal with Ha : answers _ PoolList _ _ |- _ => apply pool_list in Ha as [-> Hw] end.
  apply wp_bind. eapply wp_mono; [|by apply delete_loop_service].
  intros w1 [[]|e|s]; cbn [continue]; [|done|done]. intros Hpr.
  apply wp_mapM with (I := fun pre ms w2 => map pm_Ours ms = take (length pre) specs /\ creating w1 ms w2).
  - split; [done|]. split; [done|]. split; [auto|set_solver].
  - intros pre [i s] rest ms w2 El [Ho Hc].
    destruct (loop_index _ _ _ _ _ El) as (ours & Hi & -> & ->).
    eapply wp_mono; [|apply (ensurePool_service w _ w1 _ _ ms); try done].
    + intros w3 [m|e|?]; [|done|done]. intros [Em Hc3]. split; [|done].
      rewrite map_app, Ho, length_app, Nat.add_1_r. cbn. rewrite Em. symmetry. by apply take_S_r.
    + intros a Ha. by apply elem_of_actualPools in Ha as [Ha _].
    + intros a s Ha Hs Himp. apply Hpr. split; [by apply elem_of_actualPools in Ha as [Ha _]|].
      intros [_ Hno]%elem_of_unwantedPools. by apply (Hno s).
  - intros ms w2 [Ho Hc]. split; [|eauto].
    rewrite Ho, length_imap. unfold shouldPools. rewrite length_map. apply firstn_all.
Qed.

Lemma should_LoadBalancer s : s ∈ should -> cloudscale.poolr_LoadBalancer s = v1beta1.UUID lb.
Proof. intros (pl & <- & _)%list_elem_of_In%in_map_iff. done. Qed.

Lemma pools_done w :
  wp (ensureLoadBalancerPools lb) w (fun w' o => match o with
    | Returned ms =>
        map pm_Ours ms = specs /\
        (forall m, m ∈ ms -> pm_Theirs m ∈ pools w' /\
           pool_implements (pm_Theirs m) (poolRequest lb (pm_Ours m))) /\
        (forall a, a ∈ pools w' -> cloudscale.pool_LoadBalancer a = v1beta1.UUID lb ->
           exists s, s ∈ should /\ pool_implements a s) /\
        (forall a, cloudscale.pool_LoadBalancer a <> v1beta1.UUID lb -> a ∈ pools w' <-> a ∈ pools w)
    | _ => True
    end).
Proof.
  eapply wp_mono; [|apply pools_service]. intros w' [ms|e|s]; [|done|done].
  intros (Ho & w1 & Hpr & Hold & Hnew & Hms). split; [done|]. split; [done|]. split.
  - intros a Ha Hlb. destruct (Hnew a Ha) as [[Hin Hnu]%Hpr|Hs]; [|done].
    destruct (existsb (fun s => bool_decide (pool_implements a s)) should) eqn:E.
    + apply existsb_elem in E as (s & Hs & Hi%bool_decide_eq_true). eauto.
    + rewrite existsb_not_elem in E. setoid_rewrite bool_decide_eq_false in E.
      destruct Hnu. apply elem_of_unwantedPools. split; [by apply elem_of_actualPools|done].
  - intros a Hne. split.
    + intros Ha. destruct (Hnew a Ha) as [Hin%Hpr|(s & Hs & Hi)]; [by apply Hin|].
      destruct Hne. destruct Hi as (_ & -> & _). by apply should_LoadBalancer.
    + intros Ha. apply Hold, Hpr. split; [done|].
      intros [Hu _]%elem_of_unwantedPools. by apply elem_of_actualPools in Hu as [_ Hu].
Qed.


Lemma pools_done_distinct w :
  NoDup (map v1beta1.pool_Name specs) ->
  wp (ensureLoadBalancerPools lb) w (fun w' o => match o with
    | Returned ms => NoDup (map (fun m => cloudscale.pool_UUID (pm_Theirs m)) ms)
    | _ => True
    end).
Proof.
  intros Hnd. eapply wp_mono; [|apply pools_service]. intros w' [ms|e|s]; [|done|done].
  intros (Ho & w1 & _ & _ & _ & Hms). rewrite <- Ho, map_map in Hnd. clear Ho.
  induction ms as [|m ms IH]; [constructor|]. cbn in *. apply NoDup_cons in Hnd as [Hn Hnd].
  apply NoDup_cons. split; [|apply IH; [done|by intros m' Hm'; apply Hms; right]].
  intros (m' & Em & Hm'%list_elem_of_In)%list_elem_of_In%in_map_iff. apply Hn.
  destruct (Hms m) as [Hin (Hnm & _)]; [by left|]. destruct (Hms m') as [Hin' (Hnm' & _)]; [by right|].
  rewrite (NoDup_map_inj _ _ _ _ (pool_unique w') Hin' Hin Em), Hnm in Hnm'.
  apply pool_name_inj in Hnm' as ->. apply list_elem_of_In, in_map_iff. exists m'.
  split; [done|]. by apply list_elem_of_In.
Qed.

(** When the pool names of the manifest are distinct, no two pools of the
    manifest are mapped to the same cloudscale pool, so listeners, health monitors
    and members of different pools never interfere. *)
Lemma pools_distinct w :
  NoDup (map v1beta1.pool_Name specs) ->
  wp (ensureLoadBalancerPools lb) (w, []) (fun '(w', h') o => match o with
    | Returned ms => NoDup (map (fun m => cloudscale.pool_UUID (pm_Theirs m)) ms)
    | Failed _ => faulted h'
    | Panicked _ => False
    end).
Proof.
  intros Hn. eapply wp_mono; [|exact (wp_traced _ _ _ _ _ (pools_done_distinct w Hn) (ensureLoadBalancerPools_total lb []))].
  by intros [w' h'] [] [].
Qed.
End Convergence.
