(* ===== verification/LoadBalancers.v ===== *)
(** * LoadBalancers: [ensureLoadBalancer] and [cleanupLoadBalancer] of
    controllers/loadbalancer_controller.go *)

From Stdlib Require Import ZArith Lia.
From stdpp Require Import base list strings gmap.
From S2P Require Import Prelude GoLib ApiTypes Cloudscale Effects External Helpers Samples Nodes.
Open Scope string_scope.
Open Scope Z_scope.
Open Scope list_scope.

Section Create.
Context (lb : v1beta1.LoadBalancer).

(** The tags of a created load balancer. *)
Definition creationTags : gmap string string :=
  <[ controllerCreationKubernetesUIDTag := v1beta1.UID lb ]> baseTagMap.

(** A nil pointer when the manifest lists no virtual IP address. *)
Definition vips : option (list cloudscale.VIPAddressRequest) :=
  let vs := v1beta1.spec_VirtualIPAddresses (v1beta1.lb_Spec lb) in
  if Nat.ltb 0 (length vs)
  then Some (map (fun vip => {| cloudscale.vipr_Subnet := v1beta1.vip_SubnetID vip;
                                cloudscale.vipr_Address := v1beta1.vip_Address vip |}) vs)
  else None.

Definition shouldLB (zone : string) : cloudscale.LoadBalancerRequest :=
  {| cloudscale.lbr_Name := cloudscaleLoadbalancerName lb;
     cloudscale.lbr_Flavor := cloudscaleLoadBalancerFlavor;
     cloudscale.lbr_VIPAddresses := vips;
     cloudscale.lbr_Zone := zone;
     cloudscale.lbr_Tags := Some (Some creationTags) |}.

(** [for _, existingLB := range ll { if existingLB.Name == name { return } }]. *)
Definition findByName (ll : list cloudscale.LoadBalancer) : option cloudscale.LoadBalancer :=
  List.find (fun existingLB => str_eqb (cloudscale.lb_Name existingLB) (cloudscaleLoadbalancerName lb)) ll.
End Create.

(** [if clb.Tags == nil { clb.Tags = make(...) }; clb.Tags[managed] = "true"; ...]. *)
Definition adoptedTags (tags : cloudscale.TagMap) : gmap string string :=
  <[ controllerAdoptedTag := "true" ]> (<[ controllerManagedTag := "true" ]> (default ∅ tags)).

Definition with_Tags (clb : cloudscale.LoadBalancer) (tags : cloudscale.TagMap) : cloudscale.LoadBalancer :=
  {| cloudscale.lb_UUID := cloudscale.lb_UUID clb; cloudscale.lb_Name := cloudscale.lb_Name clb;
     cloudscale.lb_Zone := cloudscale.lb_Zone clb; cloudscale.lb_Flavor := cloudscale.lb_Flavor clb;
     cloudscale.lb_Tags := tags; cloudscale.lb_Status := cloudscale.lb_Status clb;
     cloudscale.lb_VIPAddresses := cloudscale.lb_VIPAddresses clb |}.

(** An update request that sets only the tags. *)
Definition tagsRequest (tags : cloudscale.TagMap) : cloudscale.LoadBalancerRequest :=
  {| cloudscale.lbr_Name := ""; cloudscale.lbr_Flavor := ""; cloudscale.lbr_VIPAddresses := None;
     cloudscale.lbr_Zone := ""; cloudscale.lbr_Tags := Some tags |}.

Section Ensure.
Context {L : Lib} (lb : v1beta1.LoadBalancer).

(** The branch for a manifest without UUID. *)
Definition findOrCreate : M cloudscale.LoadBalancer :=
  ll ← wrap "failed to list load balancers: %w" []
    (call (LBList [(controllerCreationKubernetesUIDTag, v1beta1.UID lb)]));
  match findByName lb ll with
  | Some existingLB => mret existingLB
  | None =>
      let zone := v1beta1.Zone lb in
      zone ← (if str_empty zone
              then wrap "failed to guess load balancer zone: %w" [] (guessLoadbalancerZone lb)
              else mret zone);
      created ← wrap "failed to create cloudscale load balancer: %w" [] (call (LBCreate (shouldLB lb zone)));
      non_nil created "cloudscale returned empty load balancer"
  end.

(** The end of the branch for a manifest with a UUID: adoption of [clb]. *)
Definition adopt (clb : cloudscale.LoadBalancer) : M cloudscale.LoadBalancer :=
  let uuid := cloudscale.lb_UUID clb in
  if Nat.ltb 0 (length (v1beta1.spec_VirtualIPAddresses (v1beta1.lb_Spec lb))) then
    fail "refusing to adopt load balancer %q: VIPAddresses must be empty to adopt" [AStr uuid]
  else if negb (str_eqb (cloudscale.lb_Flavor clb) cloudscaleLoadBalancerFlavor) then
    fail "refusing to adopt load balancer %q with different flavor (want: %q, have: %q)"
      [AStr uuid; AStr cloudscaleLoadBalancerFlavor; AStr (cloudscale.lb_Flavor clb)]
  else if negb (str_empty (v1beta1.Zone lb)) && negb (str_eqb (cloudscale.lb_Zone clb) (v1beta1.Zone lb)) then
    fail "refusing to adopt load balancer %q in different zone (want: %q, have: %q)"
      [AStr uuid; AStr (v1beta1.Zone lb); AStr (cloudscale.lb_Zone clb)]
  else
    let clb := with_Tags clb (Some (adoptedTags (cloudscale.lb_Tags clb))) in
    _ ← wrap "failed to update cloudscale load balancer: %w" []
      (call (LBUpdate uuid (tagsRequest (cloudscale.lb_Tags clb))));
    _ ← Eventf EventTypeNormal "LoadBalancerAdopted" "Adopted cloudscale load balancer %q (%q)"
      [AStr uuid; AStr (v1beta1.Name lb)];
    mret clb.

Definition ensureLoadBalancer : M cloudscale.LoadBalancer :=
  if str_empty (v1beta1.UUID lb) then findOrCreate
  else
    got ← wrap "failed to get cloudscale load balancer: %w" [] (call (LBGet (v1beta1.UUID lb)));
    clb ← non_nil got "cloudscale returned empty load balancer";
    if str_eqb (cloudscale.tag (cloudscale.lb_Tags clb) controllerManagedTag) "true" then mret clb
    else adopt clb.
End Ensure.

Section Cleanup.
Context (lb : v1beta1.LoadBalancer).

(** "Cleanup load balancers that were created but manifest save failed." *)
Definition cleanupUnsaved : M unit :=
  lbs ← wrap "failed to list cloudscale load balancers: %w" []
    (call (LBList [(controllerManagedTag, v1beta1.UID lb)]));
  let toDelete := List.filter (fun e => str_eqb (cloudscale.lb_Name e) (cloudscaleLoadbalancerName lb)) lbs in
  forM_ toDelete (fun del =>
    wrap "failed to delete cloudscale load balancer %s: %w" [AStr (cloudscale.lb_UUID del)]
      (call (LBDelete (cloudscale.lb_UUID del)))).

Definition cleanupLoadBalancer : M unit :=
  let uuid := v1beta1.UUID lb in
  if negb (str_empty uuid) then
    answer ← call_err (LBDelete uuid);
    match answer with
    | Err err =>
        if IsCloudscaleNotFoundErr err then mret tt
        else Throw (ErrorfW "failed to delete cloudscale load balancer %s: %w" [AStr uuid] err)
    | Ok _ => cleanupUnsaved
    end
  else cleanupUnsaved.
End Cleanup.

(** ** Facts *)

Lemma matchingNodes_reads ls : only is_read (matchingNodes ls).
Proof. unfold matchingNodes. only_steps; done. Qed.

Lemma cloudscaleServersForNodes_reads nodes : only is_read (cloudscaleServersForNodes nodes).
Proof. unfold cloudscaleServersForNodes, serverForNode. only_steps; done. Qed.

Lemma guessLoadbalancerZone_reads {L : Lib} lb : only is_read (guessLoadbalancerZone lb).
Proof.
  unfold guessLoadbalancerZone.
  only_steps; auto using matchingNodes_reads, cloudscaleServersForNodes_reads.
Qed.

Lemma guessLoadbalancerZone_panic_free {L : Lib} lb : panic_free (guessLoadbalancerZone lb).
Proof.
  unfold guessLoadbalancerZone, matchingNodes, cloudscaleServersForNodes, serverForNode. panic_steps.
Qed.

Definition managed (clb : cloudscale.LoadBalancer) : Prop :=
  cloudscale.tag (cloudscale.lb_Tags clb) controllerManagedTag = "true".

(** The conditions under which a load balancer is adopted. *)
Definition adoptable (lb : v1beta1.LoadBalancer) (clb : cloudscale.LoadBalancer) : Prop :=
  v1beta1.spec_VirtualIPAddresses (v1beta1.lb_Spec lb) = [] /\
  cloudscale.lb_Flavor clb = cloudscaleLoadBalancerFlavor /\
  (v1beta1.Zone lb = "" \/ cloudscale.lb_Zone clb = v1beta1.Zone lb).

Definition adoption (clb : cloudscale.LoadBalancer) : req :=
  LBUpdate (cloudscale.lb_UUID clb) (tagsRequest (Some (adoptedTags (cloudscale.lb_Tags clb)))).

(** The name and the tags of the load balancer of an object, written out. *)
Definition resource_name (lb : v1beta1.LoadBalancer) : string :=
  "appuio_io_loadbalancer_controller-" +:+ v1beta1.Namespace lb +:+ "-" +:+ v1beta1.Name lb.

Definition uid_tag : string := "appuio_io_loadbalancer_controller__creation_kubernetes_uid".
Definition managed_tag : string := "appuio_io_loadbalancer_controller__managed".

(** The request says what the manifest says. *)
Record created_as (lb : v1beta1.LoadBalancer) (zone : string) (r : cloudscale.LoadBalancerRequest) : Prop := {
  as_name : cloudscale.lbr_Name r = resource_name lb;
  as_flavor : cloudscale.lbr_Flavor r = "lb-standard";
  as_zone : cloudscale.lbr_Zone r = zone;
  (** one virtual IP per entry of the manifest, in its order; no list at all when there is none *)
  as_vips : match cloudscale.lbr_VIPAddresses r with
    | None => v1beta1.spec_VirtualIPAddresses (v1beta1.lb_Spec lb) = []
    | Some l => l <> [] /\ Forall2 (fun v q => cloudscale.vipr_Subnet q = v1beta1.vip_SubnetID v /\
                                              cloudscale.vipr_Address q = v1beta1.vip_Address v)
                  (v1beta1.spec_VirtualIPAddresses (v1beta1.lb_Spec lb)) l
    end;
  as_tags : exists tags, cloudscale.lbr_Tags r = Some (Some tags) /\
    forall k v, tags !! k = Some v <-> (k = managed_tag /\ v = "true") \/ (k = uid_tag /\ v = v1beta1.UID lb);
}.

(** The zone of the manifest, without a call; or the single zone of the servers behind all its pools. *)
Definition zone_chosen (lb : v1beta1.LoadBalancer) (zone : string) (t : list action) : Prop :=
  (v1beta1.Zone lb <> "" /\ zone = v1beta1.Zone lb /\ t = []) \/
  (v1beta1.Zone lb = "" /\ exists servers,
     pools_looked_up (v1beta1.spec_Pools (v1beta1.lb_Spec lb)) t servers /\ single_zone servers zone).

(** Outcome of looking for or creating the load balancer of a manifest without
    UUID, given the listing [ll] and the rest of the history [t]. *)
Definition find_or_create_pass (lb : v1beta1.LoadBalancer) (ll : list cloudscale.LoadBalancer)
    (t : list action) (o : outcome cloudscale.LoadBalancer) : Prop :=
  (exists pre e post, ll = pre ++ e :: post /\ cloudscale.lb_Name e = resource_name lb /\
     Forall (fun c => cloudscale.lb_Name c <> resource_name lb) pre /\ t = [] /\ o = Returned e) \/
  (Forall (fun c => cloudscale.lb_Name c <> resource_name lb) ll /\
   match o with
   | Returned clb => exists zone r t', t = t' ++ [ACall (LBCreate r) (Ok (Some clb))] /\
       created_as lb zone r /\ zone_chosen lb zone t'
   | Failed _ => (v1beta1.Zone lb = "" /\ writes t = []) \/
       exists zone r x t', t = t' ++ [ACall (LBCreate r) x] /\ created_as lb zone r /\ zone_chosen lb zone t'
   | Panicked _ => False
   end).

Lemma shouldLB_created lb zone : created_as lb zone (shouldLB lb zone).
Proof.
  split; [done|done|done| |].
  - cbn. unfold vips. destruct (v1beta1.spec_VirtualIPAddresses _) as [|v vs]; [done|]. cbn [length Nat.ltb Nat.leb].
    split; [done|]. apply Forall2_fmap_r, Forall_Forall2_diag, Forall_forall. done.
  - exists (creationTags lb). split; [done|]. intros k v. unfold creationTags, baseTagMap.
    change controllerManagedTag with managed_tag. change controllerCreationKubernetesUIDTag with uid_tag.
    destruct (decide (k = uid_tag)) as [->|Hk].
    + rewrite lookup_insert_eq. split; [naive_solver|]. intros [[Hn _]|[_ ->]]; [discriminate Hn|done].
    + rewrite lookup_insert_ne, lookup_singleton_Some by done. naive_solver.
Qed.

Lemma findByName_first lb ll : match findByName lb ll with
  | Some e => exists pre post, ll = pre ++ e :: post /\ cloudscale.lb_Name e = resource_name lb /\
      Forall (fun c => cloudscale.lb_Name c <> resource_name lb) pre
  | None => Forall (fun c => cloudscale.lb_Name c <> resource_name lb) ll end.
Proof.
  unfold findByName. change (cloudscaleLoadbalancerName lb) with (resource_name lb).
  induction ll as [|c ll IH]; cbn; [constructor|]. destruct (str_eqb _ _) eqn:E; str_prop; [by exists [], ll|].
  destruct (List.find _ ll); [|by constructor]. destruct IH as (pre & post & -> & Hn & Hf). exists (c :: pre), post.
  split; [done|]. split; [done|by constructor].
Qed.

(** The choice of the zone. *)
Lemma choose_zone {L : Lib} {LL : LibLaws L} lb format args (h : list action) :
  wp (if str_empty (v1beta1.Zone lb) then wrap format args (guessLoadbalancerZone lb) else mret (v1beta1.Zone lb)) h
    (fun h' o => exists t, h' = h ++ t /\ match o with
      | Returned zone => zone_chosen lb zone t
      | Failed _ => v1beta1.Zone lb = "" /\ writes t = []
      | Panicked _ => False end).
Proof.
  destruct (str_empty (v1beta1.Zone lb)) eqn:Ez; str_prop.
  - apply wp_wrap. eapply wp_mono; [|exact (wp_and _ _ _ _ (zone_guess lb h)
      (only_reads_history _ _ (guessLoadbalancerZone_reads lb)))].
    intros h' [z|e|s] [Hz (t & -> & _ & Ht)]; cbn [wrapped]; exists t; (split; [done|]); [|done|done].
    destruct Hz as (t' & servers & E & Hp & Hs). apply app_inv_head in E as <-. right. eauto.
  - exists []. rewrite app_nil_r. split; [done|]. by left.
Qed.

(** C26: without a UUID in the manifest, the controller first lists the load balancers tagged with the UID of this very
    object; the first of them that has its name is reused and nothing is written, so a lost manifest update does not
    create a second load balancer.  Otherwise exactly one is created: with the name made of namespace and name, the
    standard flavor, the virtual IPs of the manifest, the managed tag and the UID as its only tags, in the manifest's zone
    when it names one and else in the single zone of the servers behind all pools.  A failure has
    written nothing, or ends with the creation that failed. *)
Theorem find_or_create_exact {L : Lib} {LL : LibLaws L} lb (h : list action) :
  v1beta1.UUID lb = "" ->
  wp (ensureLoadBalancer lb) h (fun h' o =>
    let lookup := LBList [(uid_tag, v1beta1.UID lb)] in
    (exists e, h' = h ++ [ACall lookup (Err e)] /\ exists e', o = Failed e') \/
    exists ll t, h' = h ++ ACall lookup (Ok ll) :: t /\ find_or_create_pass lb ll t o).
Proof.
  intros Hu. unfold ensureLoadBalancer. rewrite (proj2 (str_empty_true _) Hu). cbn zeta. unfold findOrCreate.
  do 3 wp_step; cbn beta iota zeta; hist; [|by left; eauto]. rename v into ll. unfold find_or_create_pass.
  change controllerCreationKubernetesUIDTag with uid_tag.
  pose proof (findByName_first lb ll) as Hn. destruct (findByName lb ll) as [e|].
  { destruct Hn as (pre & post & El & He & Hf). cbn. right. exists ll, []. split; [done|]. left. by exists pre, e, post. }
  apply wp_bind. eapply wp_mono; [|apply choose_zone].
  intros h' [zone|e|s] (t & -> & Hz); cbn [continue]; [| |done].
  - pose proof (shouldLB_created lb zone) as Hc. wp_steps; hist.
    + destruct v as [clb|]; cbn; right; eexists ll, _; (split; [by rewrite <- !app_assoc|]); right; (split; [done|]).
      * by exists zone, (shouldLB lb zone), t.
      * right. by eexists zone, (shouldLB lb zone), _, t.
    + right. eexists ll, _. split; [by rewrite <- !app_assoc|]. right. split; [done|]. right.
      by eexists zone, (shouldLB lb zone), _, t.
  - right. exists ll, t. split; [by rewrite <- app_assoc|]. right. split; [done|]. by left.
Qed.

(** Reads of the controller's own tags after adoption. *)
Lemma adoptedTags_managed tags : cloudscale.tag (Some (adoptedTags tags)) controllerManagedTag = "true".
Proof. done || (cbn; unfold adoptedTags; by rewrite lookup_insert_ne, lookup_insert_eq by done). Qed.

(** C27: with a UUID in the manifest the controller reads the load balancer of
    that UUID.  One it manages is returned as it is, without a write.  Any other is
    adopted by a single update of its tags if and only if the manifest lists no
    virtual IPs, the flavor is the supported one and the zone is not another than
    the manifest's; a refused adoption writes nothing. *)
Theorem adoption_exact {L : Lib} lb (h : list action) :
  v1beta1.UUID lb <> "" ->
  wp (ensureLoadBalancer lb) h (fun h' o => exists x t,
    h' = h ++ ACall (LBGet (v1beta1.UUID lb)) x :: t /\
    match x with
    | Ok (Some clb) =>
        (managed clb /\ t = [] /\ o = Returned clb) \/
        (~ managed clb /\ ~ adoptable lb clb /\ t = [] /\ exists e, o = Failed e) \/
        (~ managed clb /\ adoptable lb clb /\ calls t = [adoption clb] /\
         (o = Returned (with_Tags clb (Some (adoptedTags (cloudscale.lb_Tags clb)))) \/ exists e, o = Failed e))
    | _ => t = [] /\ exists e, o = Failed e
    end).
Proof.
  intros Hu. unfold ensureLoadBalancer. rewrite (proj2 (str_empty_false _) Hu).
  do 3 wp_step; cbn beta iota zeta; hist; [|eexists (Err _), []; by split; [done|]; eauto].
  destruct v as [clb|]; cbn [non_nil mbind M_bind]; [|cbn; exists (Ok None), []; by split; [done|]; eauto].
  destruct (str_eqb (cloudscale.tag _ _) "true") eqn:Em; str_prop;
    [cbn; eexists _, []; split; [done|]; by left|].
  assert (Hm : ~ managed clb) by done. unfold adopt, adoptable.
  destruct (v1beta1.spec_VirtualIPAddresses _) as [|v vs]; cbn [length Nat.ltb Nat.leb];
    [|cbn; eexists _, []; split; [done|]; right; left; naive_solver].
  destruct (str_eqb (cloudscale.lb_Flavor clb) _) eqn:Ef; str_prop; cbn [negb];
    [|cbn; eexists _, []; split; [done|]; right; left; naive_solver].
  destruct (negb (str_empty (v1beta1.Zone lb)) && _) eqn:Ez.
  { bool_to_prop. str_prop. cbn. eexists _, []. split; [done|]. right. left. naive_solver. }
  assert (Hz : v1beta1.Zone lb = "" \/ cloudscale.lb_Zone clb = v1beta1.Zone lb)
    by (apply andb_false_iff in Ez as [Ez|Ez]; apply negb_false_iff in Ez; str_prop; auto).
  wp_steps; hist; cbn [recorded history]; (eexists (Ok (Some clb)), _; split; [by rewrite <- ?app_assoc|];
    right; right; split; [done|]; split; [done|]; split; [done|]; eauto).
Qed.

(** ** Why ensuring or cleaning up a load balancer can fail *)

(** The load balancer of the manifest's UUID was read and must not be adopted. *)
Definition adoption_refused (lb : v1beta1.LoadBalancer) (h : list action) : Prop :=
  exists c, ACall (LBGet (v1beta1.UUID lb)) (Ok (Some c)) ∈ h /\ ~ managed c /\ ~ adoptable lb c.

(** The manifest has no zone, no own load balancer is listed, and the servers behind all pools have no zone or several. *)
Definition zone_unclear (lb : v1beta1.LoadBalancer) (h : list action) : Prop :=
  v1beta1.UUID lb = "" /\ v1beta1.Zone lb = "" /\
  exists h0 ll t servers rest, h = h0 ++ ACall (LBList [(uid_tag, v1beta1.UID lb)]) (Ok ll) :: t ++ rest /\
    pools_looked_up (v1beta1.spec_Pools (v1beta1.lb_Spec lb)) t servers /\ no_single_zone servers /\ calls rest = [].

Definition ensure_reason (lb : v1beta1.LoadBalancer) (h : list action) : Prop :=
  faulted h \/ adoption_refused lb h \/ zone_unclear lb h.

Lemma adopt_refuses lb clb (h : list action) :
  wp (adopt lb clb) h (fun h' o => match o with Failed _ => faulted h' \/ (h' = h /\ ~ adoptable lb clb) | _ => True end).
Proof.
  unfold adopt, adoptable. destruct (v1beta1.spec_VirtualIPAddresses _) as [|v vs]; cbn [length Nat.ltb Nat.leb];
    [|cbn; right; naive_solver].
  destruct (str_eqb (cloudscale.lb_Flavor clb) _) eqn:Ef; str_prop; cbn [negb]; [|cbn; right; naive_solver].
  destruct (negb (str_empty (v1beta1.Zone lb)) && _) eqn:Ez.
  { bool_to_prop. str_prop. cbn. right. naive_solver. }
  wp_steps; hist; [done|]. left. by apply faulted_last.
Qed.

Lemma cleanupLoadBalancer_fails lb : fails_only faulted (cleanupLoadBalancer lb).
Proof.
  assert (Hu : fails_only faulted (cleanupUnsaved lb)) by (unfold cleanupUnsaved; faults).
  unfold cleanupLoadBalancer. cbn zeta. case_if; [|done].
  intros h x h' ->. destruct x; cbn; [apply Hu|]. case_if; cbn; [done|]. by apply faulted_last.
Qed.

Lemma cleanupLoadBalancer_total lb (h : list action) :
  wp (cleanupLoadBalancer lb) h (fun h' o => match o with
    | Returned _ => True | Failed _ => faulted h' | Panicked _ => False end).
Proof.
  assert (Hp : panic_free (cleanupLoadBalancer lb))
    by (unfold cleanupLoadBalancer, cleanupUnsaved; panic_steps).
  eapply wp_mono; [|exact (wp_and _ _ _ _ (panic_free_history _ h Hp) (cleanupLoadBalancer_fails lb h))].
  intros h' [a|e|s] [Hs Hf]; [done|done|]. by destruct (Hs s).
Qed.

Lemma ensureLoadBalancer_panic_free {L : Lib} lb : panic_free (ensureLoadBalancer lb).
Proof.
  unfold ensureLoadBalancer, findOrCreate, adopt. panic_steps; apply guessLoadbalancerZone_panic_free.
Qed.

(** Adoption adds exactly the two tags of the controller and keeps every
    other tag of the load balancer, also when it had no tag map at all. *)
Lemma adoption_keeps_tags (tags : cloudscale.TagMap) k :
  cloudscale.tag (Some (adoptedTags tags)) k =
  if bool_decide (k = controllerManagedTag \/ k = controllerAdoptedTag) then "true" else cloudscale.tag tags k.
Proof.
  unfold adoptedTags. cbn. destruct (decide (k = controllerAdoptedTag)) as [->|H1].
  { by rewrite lookup_insert_eq, bool_decide_true by auto. }
  rewrite lookup_insert_ne by done. destruct (decide (k = controllerManagedTag)) as [->|H2].
  { by rewrite lookup_insert_eq, bool_decide_true by auto. }
  rewrite lookup_insert_ne, bool_decide_false by naive_solver. by destruct tags.
Qed.

Section EnsureFails.
Context {L : Lib} {LL : LibLaws L} (lb : v1beta1.LoadBalancer).

(** A refused guess: what the servers behind the pools say. *)
Lemma guess_zone_fails (h : list action) :
  wp (guessLoadbalancerZone lb) h (fun h' o => match o with
    | Failed _ => faulted h' \/ exists t servers, h' = h ++ t /\
        pools_looked_up (v1beta1.spec_Pools (v1beta1.lb_Spec lb)) t servers /\ no_single_zone servers
    | _ => True
    end).
Proof. eapply wp_mono; [|apply zone_guess]. intros h' [z|e|s] Hz; try done. destruct e; try done; [by right|by left]. Qed.

Lemma ensureLoadBalancer_fails : fails_only (ensure_reason lb) (ensureLoadBalancer lb).
Proof.
  unfold ensureLoadBalancer. destruct (str_empty (v1beta1.UUID lb)) eqn:Eu; str_prop.
  - apply fails_only_call_bind; [intros; left; by apply faulted_last|]. intros h ll.
    destruct (findByName lb ll); [done|]. cbn zeta. apply wp_bind.
    eapply wp_mono with (Q := fun h' o => match o with Failed _ => ensure_reason lb h' | _ => True end).
    { intros h' [zone|e|s]; cbn [continue]; try done. intros _. revert h'.
      change (fails_only (ensure_reason lb) (created ← wrap "failed to create cloudscale load balancer: %w" []
        (call (LBCreate (shouldLB lb zone))); non_nil created "cloudscale returned empty load balancer")).
      fails_steps; intros; left; by apply faulted_last. }
    destruct (str_empty (v1beta1.Zone lb)) eqn:Ez; str_prop; [|done].
    apply wp_wrap. eapply wp_mono; [|apply guess_zone_fails].
    intros h' [z|e|s]; cbn; try done. intros [Hf|(t & servers & -> & Ht & Hz)]; [by left|]. right. right.
    split; [done|]. split; [done|]. exists h, ll, t, servers, []. by rewrite <- app_assoc, app_nil_r.
  - apply fails_only_call_bind; [intros; left; by apply faulted_last|]. intros h [clb|]; cbn [non_nil mbind M_bind];
      [|cbn; left; by apply faulted_last].
    destruct (str_eqb (cloudscale.tag _ _) "true") eqn:Em; str_prop; [done|].
    eapply wp_mono; [|apply adopt_refuses]. intros h' [c|e|s]; try done.
    intros [Hf|[-> Ha]]; [by left|]. right. left. exists clb. split; [set_solver|done].
Qed.

(** Two passes with the same manifest. *)
Lemma ensure_twice_total (h : list action) :
  wp (a ← ensureLoadBalancer lb; b ← ensureLoadBalancer lb; mret (a, b)) h (fun h' o => match o with
    | Returned _ => True | Failed _ => ensure_reason lb h' | Panicked _ => False end).
Proof.
  assert (Hp : panic_free (a ← ensureLoadBalancer lb; b ← ensureLoadBalancer lb; mret (a, b)))
    by (panic_steps; apply ensureLoadBalancer_panic_free).
  assert (Hf : fails_only (ensure_reason lb) (a ← ensureLoadBalancer lb; b ← ensureLoadBalancer lb; mret (a, b)))
    by (fails_steps; apply ensureLoadBalancer_fails).
  eapply wp_mono; [|exact (wp_and _ _ _ _ (panic_free_history _ h Hp) (Hf h))].
  intros h' [a|e|s] [Hs Hr]; [done|done|]. by destruct (Hs s).
Qed.
End EnsureFails.

(** ** What the controller relies on from the load balancer service

    Listing with a tag filter shows the load balancers that carry the tags; a
    get answers the load balancer of the UUID; a create adds one with the requested
    name, flavor, zone and tags; an update of the tags replaces them; a delete
    removes the load balancer, and answers 404 only when there is none of that UUID.
    No other call changes load balancers. *)

Definition has_tags (f : TagFilter) (c : cloudscale.LoadBalancer) : bool :=
  forallb (fun kv => bool_decide ((default ∅ (cloudscale.lb_Tags c)) !! kv.1 = Some kv.2)) f.

Definition is_lb_write (r : req) : bool :=
  match r with LBCreate _ | LBUpdate _ _ | LBDelete _ => true | _ => false end.

Class LoadBalancerAPI (W : Type) `{World W} := {
  lbs : W -> list cloudscale.LoadBalancer;
  lb_list w f l w' : answers w (LBList f) (Ok l) w' -> l = List.filter (has_tags f) (lbs w);
  lb_get w u c w' : answers w (LBGet u) (Ok (Some c)) w' -> c ∈ lbs w /\ cloudscale.lb_UUID c = u;
  lb_create w r c w' : answers w (LBCreate r) (Ok (Some c)) w' ->
    lbs w' ≡ₚ c :: lbs w /\ cloudscale.lb_Name c = cloudscale.lbr_Name r /\
    cloudscale.lb_Flavor c = cloudscale.lbr_Flavor r /\ cloudscale.lb_Zone c = cloudscale.lbr_Zone r /\
    forall t, cloudscale.lbr_Tags r = Some t -> cloudscale.lb_Tags c = t;
  lb_update w u t w' : answers w (LBUpdate u (tagsRequest t)) (Ok tt) w' ->
    lbs w' = map (fun c => if str_eqb (cloudscale.lb_UUID c) u then with_Tags c t else c) (lbs w);
  lb_delete w u w' : answers w (LBDelete u) (Ok tt) w' ->
    lbs w' = List.filter (fun c => negb (str_eqb (cloudscale.lb_UUID c) u)) (lbs w);
  lb_delete_404 w u e w' : answers w (LBDelete u) (Err e) w' -> IsCloudscaleNotFoundErr e = true ->
    (u ∉ map cloudscale.lb_UUID (lbs w)) /\ lbs w' = lbs w;
  lb_frame w r x w' : is_lb_write r = false -> answers w r x w' -> lbs w' = lbs w;
  lb_recorded w ev : lbs (recorded w ev) = lbs w;
  lb_unique w : NoDup (map cloudscale.lb_UUID (lbs w));
}.

Section Service.
Context {L : Lib} {W : Type} `{World W} `{!LoadBalancerAPI W}.
Context (lb : v1beta1.LoadBalancer).

(** The load balancers created for this object, as the lookup lists them. *)
Definition own (w : W) : list cloudscale.LoadBalancer :=
  List.filter (has_tags [(controllerCreationKubernetesUIDTag, v1beta1.UID lb)]) (lbs w).

Lemma reads_keep {A} (m : M A) (l : list cloudscale.LoadBalancer) w :
  only is_read m -> lbs w = l -> wp m w (fun w' _ => lbs w' = l).
Proof.
  intros Hm. apply only_invariant with (P := is_read) (I := fun w => lbs w = l); [|by intros; rewrite lb_recorded|done].
  intros w1 r x w2 [Hr _] Hx <-. eapply lb_frame; [|exact Hx]. by destruct r.
Qed.

(** Finding an own load balancer is stable. *)
Lemma findOrCreate_found a w :
  findByName lb (own w) = Some a ->
  wp (findOrCreate lb) w (fun w' o => match o with
    | Returned b => b = a /\ lbs w' = lbs w
    | _ => True
    end).
Proof.
  intros Hf. unfold findOrCreate. do 3 wp_step; cbn beta iota zeta; [|done].
  match goal with Ha : answers _ (LBList _) _ _ |- _ =>
    pose proof (lb_list _ _ _ _ Ha) as ->; apply lb_frame in Ha as Hw; [|done] end.
  fold (own w). rewrite Hf. cbn. done.
Qed.

Lemma own_created a w w' :
  lbs w' ≡ₚ a :: lbs w -> cloudscale.lb_Name a = cloudscaleLoadbalancerName lb ->
  cloudscale.lb_Tags a = Some (creationTags lb) -> findByName lb (own w) = None ->
  findByName lb (own w') = Some a.
Proof.
  intros Hp Hn Ht Hnone. unfold own, findByName in *.
  assert (Hin : forall c, c ∈ own w' <-> c = a \/ c ∈ own w).
  { intros c. unfold own. rewrite !elem_of_List_filter, Hp, elem_of_cons. split; [naive_solver|].
    intros [->|]; [|naive_solver]. split; [by left|]. cbn. rewrite Ht. cbn. unfold creationTags.
    by rewrite lookup_insert_eq, bool_decide_true. }
  destruct (List.find _ (List.filter _ (lbs w'))) as [c|] eqn:E.
  - apply List.find_some in E as [Hc Hcn]. apply list_elem_of_In, Hin in Hc as [->|Hc]; [done|].
    exfalso. apply list_elem_of_In in Hc. apply (List.find_none _ _ Hnone) in Hc. cbn in Hc. congruence.
  - exfalso. assert (Ha : In a (own w')) by (apply list_elem_of_In, Hin; by left).
    apply (List.find_none _ _ E) in Ha. str_prop. done.
Qed.

Lemma findOrCreate_service w :
  wp (findOrCreate lb) w (fun w' o => match o with
    | Returned a => findByName lb (own w') = Some a /\ (lbs w' = lbs w \/ lbs w' ≡ₚ a :: lbs w)
    | _ => True
    end).
Proof.
  unfold findOrCreate. do 3 wp_step; cbn beta iota zeta; [|done].
  match goal with Ha : answers _ (LBList _) _ _ |- _ =>
    pose proof (lb_list _ _ _ _ Ha) as ->; apply lb_frame in Ha as Hw; [|done] end.
  fold (own w). destruct (findByName lb (own w)) as [e|] eqn:Ef.
  { cbn. unfold own. rewrite Hw. fold (own w). auto. }
  apply wp_bind. eapply wp_mono with (Q := fun w' _ => lbs w' = lbs w).
  - intros w1 [zone|e|s] Hw1; cbn [continue]; [|done|done]. wp_steps; [|done].
    match goal with v : val (LBCreate _) |- _ => destruct v as [a|]; [|done] end. cbn.
    match goal with Ha : answers _ (LBCreate _) _ _ |- _ => apply lb_create in Ha as (Hp & Hn & _ & _ & Ht) end.
    rewrite Hw1 in Hp. split; [|by right].
    eapply own_created; [exact Hp|exact Hn|by apply Ht|exact Ef].
  - case_if; [apply wp_wrap|done]. eapply wp_mono; [|apply reads_keep; [apply guessLoadbalancerZone_reads|exact Hw]].
    by intros w1 [].
Qed.

Lemma lost_update_done w :
  v1beta1.UUID lb = "" ->
  wp (a ← ensureLoadBalancer lb; b ← ensureLoadBalancer lb; mret (a, b)) w (fun w' o => match o with
    | Returned (a, b) => b = a /\ (lbs w' = lbs w \/ lbs w' ≡ₚ a :: lbs w)
    | _ => True
    end).
Proof.
  intros Hu. unfold ensureLoadBalancer. rewrite (proj2 (str_empty_true _) Hu).
  apply wp_bind. eapply wp_mono; [|apply findOrCreate_service].
  intros w1 [a|e|s]; cbn [continue]; [|done|done]. intros [Hf Hl].
  apply wp_bind. eapply wp_mono; [|by apply (findOrCreate_found a)].
  intros w2 [b|e|s]; cbn; [|done|done]. intros [-> ->]. done.
Qed.

(** C5: when the controller created a load balancer but the manifest was not
    updated with its UUID (a crash or a conflict), the next pass returns the same
    load balancer: after any two passes with the stale manifest at most one load
    balancer was created.  The passes fail only when a call failed or the zone
    cannot be guessed. *)
Theorem lost_update_recovers {LL : LibLaws L} w :
  v1beta1.UUID lb = "" ->
  wp (a ← ensureLoadBalancer lb; b ← ensureLoadBalancer lb; mret (a, b)) (w, []) (fun '(w', h') o => match o with
    | Returned (a, b) => b = a /\ (lbs w' = lbs w \/ lbs w' ≡ₚ a :: lbs w)
    | Failed _ => ensure_reason lb h'
    | Panicked _ => False
    end).
Proof.
  intros Hu. eapply wp_mono; [|exact (wp_traced _ _ _ _ _ (lost_update_done w Hu) (ensure_twice_total lb []))].
  by intros [w' h'] [[]| |] [].
Qed.

(** The load balancers the cleanup of unsaved ones lists and deletes. *)
Definition unsaved (w : W) : list cloudscale.LoadBalancer :=
  List.filter (fun e => str_eqb (cloudscale.lb_Name e) (cloudscaleLoadbalancerName lb))
    (List.filter (has_tags [(controllerManagedTag, v1beta1.UID lb)]) (lbs w)).

Lemma cleanupUnsaved_service w :
  wp (cleanupUnsaved lb) w (fun w' o => match o with
    | Returned _ => forall c, c ∈ lbs w' <-> c ∈ lbs w /\ c ∉ unsaved w
    | _ => True
    end).
Proof.
  unfold cleanupUnsaved. do 3 wp_step; cbn beta iota zeta; [|done].
  match goal with Ha : answers _ (LBList _) _ _ |- _ =>
    pose proof (lb_list _ _ _ _ Ha) as ->; apply lb_frame in Ha as Hw; [|done] end.
  fold (unsaved w). apply wp_forM_ with (I := fun pre w' => forall c, c ∈ lbs w' <->
    c ∈ lbs w /\ cloudscale.lb_UUID c ∉ map cloudscale.lb_UUID pre).
  - intros c. rewrite Hw. cbn. set_solver.
  - intros pre d rest w1 _ HI. wp_steps; [|done]. intros c.
    match goal with v : val _, Ha : answers _ (LBDelete _) _ _ |- _ => destruct v; apply lb_delete in Ha as Hd end.
    rewrite Hd, elem_of_List_filter, HI, negb_true_iff, str_eqb_false, map_app. cbn. set_solver.
  - intros w1 HI c. rewrite HI. apply and_iff_under. intros Hc. split; intros Hn Hu; apply Hn.
    + by apply list_elem_of_In, in_map, list_elem_of_In.
    + apply list_elem_of_In, in_map_iff in Hu as (d & Ed & Hd%list_elem_of_In).
      assert (Hall : d ∈ lbs w) by (unfold unsaved in Hd; rewrite !elem_of_List_filter in Hd; apply Hd).
      by rewrite <- (NoDup_map_inj _ _ _ _ (lb_unique w) Hall Hc Ed).
Qed.

Lemma cleanup_done w :
  v1beta1.UUID lb <> "" ->
  wp (cleanupLoadBalancer lb) w (fun w' o => match o with
    | Returned _ =>
        (v1beta1.UUID lb ∉ map cloudscale.lb_UUID (lbs w')) /\
        forall c, c ∈ lbs w -> cloudscale.lb_UUID c <> v1beta1.UUID lb -> c ∉ unsaved w -> c ∈ lbs w'
    | _ => True
    end).
Proof.
  intros Hu. unfold cleanupLoadBalancer. rewrite (proj2 (str_empty_false _) Hu). cbn [negb].
  intros [[]|e] w1 Ha; cbn [mbind M_bind call_err].
  - apply lb_delete in Ha as Hd. eapply wp_mono; [|apply cleanupUnsaved_service].
    intros w2 [[]|e|s]; [|done|done]. intros Hw2. split.
    + intros (c & Ec & Hc%list_elem_of_In%Hw2)%list_elem_of_In%in_map_iff. destruct Hc as [Hc _].
      rewrite Hd, elem_of_List_filter, negb_true_iff, str_eqb_false in Hc. naive_solver.
    + intros c Hc Hne Hns. apply Hw2. unfold unsaved in *. rewrite Hd.
      rewrite !elem_of_List_filter, negb_true_iff, str_eqb_false in *. naive_solver.
  - case_if; [|done]. apply lb_delete_404 in Ha as [Hn Hw]; [|done]. cbn. rewrite Hw. auto.
Qed.

(** C28: a successful cleanup leaves no load balancer of the manifest's UUID;
    an answer 404 to the deletion counts as success.  Every other load balancer
    survives, except those listed as created for this object whose UUID was not
    saved.  The cleanup fails only when a call failed. *)
Theorem cleanup_removes w :
  v1beta1.UUID lb <> "" ->
  wp (cleanupLoadBalancer lb) (w, []) (fun '(w', h') o => match o with
    | Returned _ =>
        (v1beta1.UUID lb ∉ map cloudscale.lb_UUID (lbs w')) /\
        forall c, c ∈ lbs w -> cloudscale.lb_UUID c <> v1beta1.UUID lb -> c ∉ unsaved w -> c ∈ lbs w'
    | Failed _ => faulted h'
    | Panicked _ => False
    end).
Proof.
  intros Hu. eapply wp_mono; [|exact (wp_traced _ _ _ _ _ (cleanup_done w Hu) (cleanupLoadBalancer_total lb []))].
  by intros [w' h'] [] [].
Qed.

Lemma leak_done w :
  v1beta1.UUID lb = "" -> v1beta1.UID lb <> "true" ->
  wp (cleanupLoadBalancer lb) w (fun w' o => match o with
    | Returned _ => forall c, c ∈ lbs w -> managed c -> c ∈ lbs w'
    | _ => True
    end).
Proof.
  intros Hu Hid. unfold cleanupLoadBalancer. rewrite (proj2 (str_empty_true _) Hu). cbn [negb].
  eapply wp_mono; [|apply cleanupUnsaved_service].
  intros w' [[]|e|s]; [|done|done]. intros Hw c Hc Hm. apply Hw. split; [done|].
  unfold unsaved, managed, cloudscale.tag in *. rewrite !elem_of_List_filter. cbn. rewrite andb_true_r, bool_decide_eq_true.
  intros [[_ Ht] _]. destruct (cloudscale.lb_Tags c) as [t|]; cbn in *; [|by rewrite lookup_empty in Ht].
  rewrite Ht in Hm. done.
Qed.

(** C40: load balancers whose UUID was never saved are not cleaned up.  The
    cleanup filters on the managed tag with the UID of the object as its value,
    but every load balancer the controller creates or adopts has that tag set to
    "true" (the UID is the value of the creation tag), so none of them is listed
    and all survive the cleanup, which reports success unless a call failed. *)
Theorem unsaved_lb_leaks w :
  v1beta1.UUID lb = "" -> v1beta1.UID lb <> "true" ->
  wp (cleanupLoadBalancer lb) (w, []) (fun '(w', h') o => match o with
    | Returned _ => forall c, c ∈ lbs w -> managed c -> c ∈ lbs w'
    | Failed _ => faulted h'
    | Panicked _ => False
    end).
Proof.
  intros Hu Hid. eapply wp_mono; [|exact (wp_traced _ _ _ _ _ (leak_done w Hu Hid) (cleanupLoadBalancer_total lb []))].
  by intros [w' h'] [] [].
Qed.
End Service.

Lemma creationTags_managed lb zone :
  exists t, cloudscale.lbr_Tags (shouldLB lb zone) = Some (Some t) /\
    t !! controllerManagedTag = Some "true" /\ t !! controllerCreationKubernetesUIDTag = Some (v1beta1.UID lb).
Proof.
  exists (creationTags lb). split; [done|]. unfold creationTags, baseTagMap.
  by rewrite lookup_insert_ne, lookup_singleton_eq, lookup_insert_eq by done.
Qed.
