(* ===== verification/Reconcile.v ===== *)
(** * Reconcile: [LoadBalancerReconciler.Reconcile] of controllers/loadbalancer_controller.go

    The reconciler's own logic: finalizer, deletion, persisting UUID and zone,
    status, the loop over the pools, and the deferred handling of result and error. *)

From Stdlib Require Import ZArith Lia Sorting.Sorted.
From stdpp Require Import base list strings gmap.
From S2P Require Import Prelude GoLib ApiTypes Cloudscale Effects External Helpers Samples.
From S2P Require Import Nodes FloatingIPs PoolMembers HealthMonitor Listener Pools LoadBalancers.
Open Scope string_scope.
Open Scope Z_scope.
Open Scope list_scope.

(** [ctrl.Result]. *)
Record Result := { Requeue : bool; RequeueAfter : Duration }.

Definition zero_Result : Result := {| Requeue := false; RequeueAfter := 0 |}.

#[export] Instance Result_eq : EqDecision Result.
Proof. solve_decision. Defined.

(** [r.Recorder.Event(&lb, type, reason, message)]. *)
Definition Event (t : EventType) (reason : string) (message : text) : M unit :=
  Emit {| ev_type := t; ev_reason := reason; ev_message := message |} (Ret tt).

(** The deferred function, on the named results of the body: an empty result
    without error is requeued after [interval], an error is recorded as an event. *)
Fixpoint deferred (interval : Duration) (body : M Result) : M Result :=
  match body with
  | Ret res => Ret (if bool_decide (res = zero_Result)
                    then {| Requeue := false; RequeueAfter := interval |} else res)
  | Throw err =>
      Emit {| ev_type := EventTypeWarning; ev_reason := "ReconcileFailed";
              ev_message := Sprintf "Reconciliation failed: %s" [AErr err] |} (Throw err)
  | Panic why => Panic why
  | Emit ev k => Emit ev (deferred interval k)
  | Call r k => Call r (fun x => deferred interval (k x))
  end.

(** ** The status the reconciler reports *)

Definition statusBackend (member : cloudscale.LoadBalancerPoolMember) : v1beta1.StatusBackend :=
  {| v1beta1.sb_NodeName := cloudscale.tag (cloudscale.mem_Tags member) controllerNodeNameTag;
     v1beta1.sb_ServerName := cloudscale.tag (cloudscale.mem_Tags member) controllerServerNameTag;
     v1beta1.sb_Address := cloudscale.mem_Address member;
     v1beta1.sb_Status := cloudscale.mem_MonitorStatus member |}.

Definition statusBackends (poolMembers : list cloudscale.LoadBalancerPoolMember) : list v1beta1.StatusBackend :=
  SortFunc (lex10 v1beta1.sb_NodeName v1beta1.sb_Address) (map statusBackend poolMembers).

Definition statusPoolEqual (a b : v1beta1.StatusPool) : bool :=
  str_eqb (v1beta1.sp_Name a) (v1beta1.sp_Name b) && Equal (v1beta1.sp_Backends a) (v1beta1.sp_Backends b).

Definition frontendIPs (ensuredLB : cloudscale.LoadBalancer) : list v1beta1.StatusVirtualIPAddress :=
  SortFunc (on_key v1beta1.svip_Address)
    (map (fun ip => {| v1beta1.svip_Address := cloudscale.vip_Address ip |}) (cloudscale.lb_VIPAddresses ensuredLB)).

(** [if !slices.Equal(...) { statusNeedsUpdate = true; lb.Status.X = x }], once for
    each computed part of the status: was it changed, and the object after it. *)
Definition refreshPools (lb : v1beta1.LoadBalancer) (poolStatus : list v1beta1.StatusPool)
    : bool * v1beta1.LoadBalancer :=
  if negb (EqualFunc (v1beta1.status_Pools (v1beta1.lb_Status lb)) poolStatus statusPoolEqual)
  then (true, v1beta1.with_StatusPools lb poolStatus) else (false, lb).

Definition refreshVIPs (lb : v1beta1.LoadBalancer) (ips : list v1beta1.StatusVirtualIPAddress)
    : bool * v1beta1.LoadBalancer :=
  if negb (Equal (v1beta1.status_VirtualIPAddresses (v1beta1.lb_Status lb)) ips)
  then (true, v1beta1.with_StatusVIPs lb ips) else (false, lb).

Definition refreshFloatingIPs (lb : v1beta1.LoadBalancer) (ips : list v1beta1.StatusFloatingIPAddress)
    : bool * v1beta1.LoadBalancer :=
  if negb (Equal (v1beta1.status_FloatingIPAddresses (v1beta1.lb_Status lb)) ips)
  then (true, v1beta1.with_StatusFloatingIPs lb ips) else (false, lb).

Section Reconcile.
Context {L : Lib} (MaxReconcileInterval : Duration).

(** One iteration of the loop over the pools. *)
Definition reconcilePool (lb : v1beta1.LoadBalancer) (pool : poolMapping) : M v1beta1.StatusPool :=
  _ ← wrap "failed to ensure load balancer listener: %w" [] (ensureLoadBalancerListener lb pool);
  _ ← wrap "failed to ensure load balancer health monitor: %w" [] (ensureLoadBalancerHealthMonitor lb pool);
  backends ← wrap "failed to get matching nodes: %w" []
    (matchingNodes (v1beta1.be_NodeSelector (v1beta1.pool_Backend (pm_Ours pool))));
  '(servers, warnings) ← wrap "failed to get cloudscale servers for nodes: %w" []
    (cloudscaleServersForNodes backends);
  _ ← (if Nat.ltb 0 (length warnings)
       then Event EventTypeWarning "BackendsIgnored" (Join warnings "; ") else mret tt);
  poolMembers ← wrap "failed to ensure load balancer pool members: %w" []
    (ensureLoadBalancerPoolMembers lb pool servers);
  mret {| v1beta1.sp_Name := v1beta1.pool_Name (pm_Ours pool);
          v1beta1.sp_Backends := statusBackends poolMembers |}.

(** From the pools to the end: pools, status of pools and virtual IPs, floating IPs. *)
Definition reconcileResources (lb : v1beta1.LoadBalancer) (ensuredLB : cloudscale.LoadBalancer) : M Result :=
  pools ← wrap "failed to ensure load balancer pool: %w" [] (ensureLoadBalancerPools lb);
  poolStatus ← mapM pools (reconcilePool lb);
  let '(poolsChanged, lb) := refreshPools lb poolStatus in
  let '(vipsChanged, lb) := refreshVIPs lb (frontendIPs ensuredLB) in
  attachedCIDRs ← wrap "failed to ensure load balancer floating IPs: %w" [] (attachFloatingIPs lb);
  let '(fipsChanged, lb) := refreshFloatingIPs lb (map (fun ip => {| v1beta1.sfip_CIDR := ip |}) attachedCIDRs) in
  let statusNeedsUpdate := poolsChanged || vipsChanged || fipsChanged in
  _ ← (if statusNeedsUpdate
       then _ ← wrap "failed to update LoadBalancer status: %w" [] (call (K8sStatusUpdate lb)); mret tt
       else mret tt);
  mret zero_Result.

(** After the load balancer is ensured: persist UUID and zone, record its status. *)
Definition reconcileEnsured (lb : v1beta1.LoadBalancer) (ensuredLB : cloudscale.LoadBalancer) : M Result :=
  if str_empty (v1beta1.UUID lb) then
    _ ← wrap "failed to update LoadBalancer with UUID and Zone: %w" []
      (call (K8sUpdate (v1beta1.with_UUID_Zone lb (cloudscale.lb_UUID ensuredLB) (cloudscale.lb_Zone ensuredLB))));
    mret {| Requeue := true; RequeueAfter := 0 |}
  else if str_empty (v1beta1.Zone lb) then
    _ ← wrap "failed to update LoadBalancer with Zone: %w" []
      (call (K8sUpdate (v1beta1.with_Zone lb (cloudscale.lb_Zone ensuredLB))));
    mret {| Requeue := true; RequeueAfter := 0 |}
  else
    lb ← (if negb (str_eqb (v1beta1.status_CloudscaleStatus (v1beta1.lb_Status lb)) (cloudscale.lb_Status ensuredLB))
          then wrap "failed to update LoadBalancer status: %w" []
                 (call (K8sStatusUpdate (v1beta1.with_CloudscaleStatus lb (cloudscale.lb_Status ensuredLB))))
          else mret lb);
    if str_eqb (cloudscale.lb_Status ensuredLB) "changing" then
      _ ← Event EventTypeNormal "LoadBalancerChanging" (Sprintf "Load balancer is currently changing" []);
      mret {| Requeue := false; RequeueAfter := 5 * Second |}
    else if negb (str_eqb (v1beta1.UUID lb) (cloudscale.lb_UUID ensuredLB)) then
      fail "load balancer UUID changed from %s to %s, which is not allowed"
        [AStr (v1beta1.UUID lb); AStr (cloudscale.lb_UUID ensuredLB)]
    else reconcileResources lb ensuredLB.

(** An object that is not being deleted. *)
Definition reconcileLive (lb : v1beta1.LoadBalancer) : M Result :=
  let '(finalizers, added) := AddFinalizer (v1beta1.Finalizers lb) LoadBalancerFinalizer in
  lb ← (if (added : bool)
        then wrap "failed to add finalizer: %w" [] (call (K8sUpdate (v1beta1.with_Finalizers lb finalizers)))
        else mret lb);
  ensuredLB ← wrap "failed to ensure load balancer: %w" [] (ensureLoadBalancer lb);
  reconcileEnsured lb ensuredLB.

(** An object that is being deleted and still has the finalizer. *)
Definition reconcileDeleted (lb : v1beta1.LoadBalancer) : M Result :=
  _ ← wrap "failed to cleanup load balancer: %w" [] (cleanupLoadBalancer lb);
  let '(finalizers, removed) := RemoveFinalizer (v1beta1.Finalizers lb) LoadBalancerFinalizer in
  _ ← (if (removed : bool)
       then _ ← wrap "failed to remove finalizer: %w" [] (call (K8sUpdate (v1beta1.with_Finalizers lb finalizers)));
            mret tt
       else mret tt);
  mret zero_Result.

Definition reconcileBody (lb : v1beta1.LoadBalancer) : M Result :=
  if negb (v1beta1.DeletionTimestamp_IsZero lb) && ContainsFinalizer (v1beta1.Finalizers lb) LoadBalancerFinalizer
  then reconcileDeleted lb
  else if negb (v1beta1.DeletionTimestamp_IsZero lb) then mret zero_Result
  else reconcileLive lb.

Definition Reconcile (req : v1beta1.NamespacedName) : M Result :=
  answer ← call_err (K8sGet req);
  match answer with
  | Err err =>
      match IgnoreNotFound err with
      | None => mret zero_Result
      | Some e => Throw e
      end
  | Ok lb => deferred (maxReconcileInterval MaxReconcileInterval) (reconcileBody lb)
  end.
End Reconcile.

(** ** The deferred function *)

Definition deferred_post {W} `{World W} (interval : Duration) (Q : W -> outcome Result -> Prop) :
    W -> outcome Result -> Prop :=
  fun w o => match o with
  | Returned res => Q w (Returned (if bool_decide (res = zero_Result)
                                   then {| Requeue := false; RequeueAfter := interval |} else res))
  | Failed err => Q (recorded w {| ev_type := EventTypeWarning; ev_reason := "ReconcileFailed";
                                   ev_message := Sprintf "Reconciliation failed: %s" [AErr err] |}) (Failed err)
  | Panicked s => Q w (Panicked s)
  end.

Lemma wp_deferred {W} `{World W} interval (m : M Result) (w : W) Q :
  wp (deferred interval m) w Q <-> wp m w (deferred_post interval Q).
Proof.
  revert w. induction m as [a|e|s|ev k IH|r k IH]; intros w; cbn; try done.
  setoid_rewrite <- IH. done.
Qed.

Lemma preceded_deferred P G interval (m : M Result) h :
  wp m h (fun h' _ => preceded P G h') -> wp (deferred interval m) h (fun h' _ => preceded P G h').
Proof.
  intros Hm. apply wp_deferred. eapply wp_mono; [|exact Hm].
  intros h' [r|e|s] Hp; cbn; try done. apply preceded_snoc; [done|]. by intros.
Qed.

(** ** Which part makes which calls *)

(** Calls on the resources below a load balancer. *)
Definition is_resource_write (r : req) : bool :=
  is_cloud_write r && negb (is_lb_write r).

Lemma ensureLoadBalancer_calls {L : Lib} lb :
  only (fun r => match r with
    | LBList _ | LBGet _ | LBCreate _ | LBUpdate _ _ => True | _ => is_read r end) (ensureLoadBalancer lb).
Proof.
  unfold ensureLoadBalancer, findOrCreate, adopt. only_steps; try done.
  eapply only_mono; [|apply guessLoadbalancerZone_reads]. intros r Hr. by destruct r.
Qed.

Lemma cleanupLoadBalancer_calls lb :
  only (fun r => match r with LBList _ | LBDelete _ => True | _ => False end) (cleanupLoadBalancer lb).
Proof. unfold cleanupLoadBalancer, cleanupUnsaved. only_steps; done. Qed.

Lemma attachFloatingIPs_calls {L : Lib} lb :
  only (fun r => match r with FloatingIPList | FloatingIPUpdate _ _ => True | _ => False end) (attachFloatingIPs lb).
Proof. unfold attachFloatingIPs. only_steps; done. Qed.

Lemma ensureLoadBalancerPools_calls lb :
  only (fun r => match r with PoolList | PoolCreate _ | PoolDelete _ => True | _ => False end)
    (ensureLoadBalancerPools lb).
Proof. unfold ensureLoadBalancerPools, deleteUnwanted, ensurePool. only_steps; done. Qed.

Lemma ensureLoadBalancerPoolMembers_calls lb pool servers :
  only (fun r => match r with MemberList _ | MemberCreate _ _ | MemberDelete _ _ => True | _ => False end)
    (ensureLoadBalancerPoolMembers lb pool servers).
Proof. unfold ensureLoadBalancerPoolMembers. only_steps; done. Qed.

(** The calls of the part that handles pools and what is below them. *)
Definition resource_call (r : req) : Prop :=
  is_k8s_write r = false /\ is_lb_write r = false.

Lemma reconcilePool_calls lb pool : only resource_call (reconcilePool lb pool).
Proof.
  unfold reconcilePool. only_steps; try exact I.
  - eapply only_mono; [|apply ensureLoadBalancerListener_only]. by intros [].
  - eapply only_mono; [|apply ensureLoadBalancerHealthMonitor_only]. by intros [].
  - eapply only_mono; [|apply matchingNodes_reads]. by intros [] [].
  - eapply only_mono; [|apply cloudscaleServersForNodes_reads]. by intros [] [].
  - eapply only_mono; [|apply ensureLoadBalancerPoolMembers_calls]. by intros [].
Qed.

Lemma reconcileResources_calls {L : Lib} lb e :
  only (fun r => is_lb_write r = false /\ forall l, r <> K8sUpdate l) (reconcileResources lb e).
Proof.
  unfold reconcileResources. only_steps; try done.
  - eapply only_mono; [|apply ensureLoadBalancerPools_calls]. by intros [].
  - eapply only_mono; [|apply reconcilePool_calls]. intros [] []; done.
  - eapply only_mono; [|apply attachFloatingIPs_calls]. by intros [].
Qed.

(** ** Ordering properties of a pass *)

Definition has_finalizer (lb : v1beta1.LoadBalancer) : Prop := LoadBalancerFinalizer ∈ v1beta1.Finalizers lb.

(** The API server holds the object with the finalizer: it was read so, or written so. *)
Definition finalizer_saved (req : v1beta1.NamespacedName) (a : action) : Prop :=
  (exists lb, a = ACall (K8sGet req) (Ok lb) /\ has_finalizer lb) \/
  (exists lb saved, a = ACall (K8sUpdate lb) (Ok saved) /\ has_finalizer lb).

(** The object was read, and it is being deleted and carries the finalizer. *)
Definition seen_deleting (req : v1beta1.NamespacedName) (a : action) : Prop :=
  exists lb, a = ACall (K8sGet req) (Ok lb) /\ v1beta1.DeletionTimestamp_IsZero lb = false /\ has_finalizer lb.

Definition is_LBDelete (r : req) : Prop := match r with LBDelete _ => True | _ => False end.

Section Ordering.
Context {L : Lib} {LL : LibLaws L} (interval : Duration).

(** The first step of a pass, for a property of the history. *)
Lemma Reconcile_preceded P G req :
  ~ P (K8sGet req) ->
  (forall lb, wp (reconcileBody lb) [ACall (K8sGet req) (Ok lb)] (fun h' _ => preceded P G h')) ->
  wp (Reconcile interval req) [] (fun h' _ => preceded P G h').
Proof.
  intros HnP Hb [lb|e] h' Hx; cbn in Hx; subst; cbn.
  - apply preceded_deferred, Hb.
  - assert (preceded P G [ACall (K8sGet req) (Err e)]).
    { by apply (preceded_snoc_other _ _ []); [apply preceded_nil|]. }
    by destruct (IgnoreNotFound e).
Qed.

Lemma preceded_get P G req x : ~ P (K8sGet req) -> preceded P G [ACall (K8sGet req) x].
Proof. intros HnP. by apply (preceded_snoc_other _ _ []); [apply preceded_nil|]. Qed.

(** C4: no pass changes anything at cloudscale before the finalizer is saved:
    every creation, update or deletion of a cloudscale resource comes after the
    object was read with the finalizer or successfully written with it. *)
Theorem finalizer_before_writes req :
  wp (Reconcile interval req) [] (fun h' _ =>
    preceded (fun r => is_cloud_write r = true) (finalizer_saved req) h').
Proof.
  apply Reconcile_preceded; [done|]. intros lb. unfold reconcileBody.
  assert (Hget : preceded (fun r => is_cloud_write r = true) (finalizer_saved req) [ACall (K8sGet req) (Ok lb)])
    by (by apply preceded_get).
  destruct (v1beta1.DeletionTimestamp_IsZero lb); cbn [negb andb].
  - unfold reconcileLive. destruct (AddFinalizer (v1beta1.Finalizers lb) LoadBalancerFinalizer) as [fs added] eqn:Ea.
    destruct added.
    + apply wp_bind, wp_wrap, wp_call; cbn [answers history wrapped continue].
      * intros h' saved ->. apply preceded_any.
        -- apply Exists_app. right. constructor. right. eexists _, saved. split; [done|].
           unfold has_finalizer. cbn. replace fs with (AddFinalizer (v1beta1.Finalizers lb) LoadBalancerFinalizer).1
             by (by rewrite Ea). apply AddFinalizer_in. by left.
        -- by apply preceded_snoc_other.
      * intros h' e ->. by apply preceded_snoc_other.
    + apply preceded_any; [|done]. constructor. left. exists lb. split; [done|].
      destruct (decide (has_finalizer lb)) as [|Hn]; [done|].
      apply AddFinalizer_updated in Hn. by rewrite Ea in Hn.
  - destruct (ContainsFinalizer _ _) eqn:Ec; [|done].
    apply preceded_any; [|done]. constructor. left. exists lb. split; [done|]. by apply ContainsFinalizer_spec.
Qed.

Lemma reconcileLive_no_delete lb : only (fun r => ~ is_LBDelete r) (reconcileLive lb).
Proof.
  unfold reconcileLive, reconcileEnsured. destruct (AddFinalizer _ _) as [fs added].
  only_steps; try done; try (by intros []).
  - eapply only_mono; [|apply ensureLoadBalancer_calls]. intros r Hr Hd. destruct r; try done. by destruct Hr.
  - eapply only_mono; [|apply reconcileResources_calls]. intros r [Hr _] Hd. by destruct r.
Qed.

(** C6: a pass deletes a load balancer only when it has read the object with
    a deletion timestamp and the controller's finalizer. *)
Theorem delete_only_when_deleting req :
  wp (Reconcile interval req) [] (fun h' _ => preceded is_LBDelete (seen_deleting req) h').
Proof.
  apply Reconcile_preceded; [by intros []|]. intros lb. unfold reconcileBody.
  assert (Hget : preceded is_LBDelete (seen_deleting req) [ACall (K8sGet req) (Ok lb)])
    by (apply preceded_get; by intros []).
  destruct (v1beta1.DeletionTimestamp_IsZero lb) eqn:Ed; cbn [negb andb].
  - by apply preceded_only; [apply reconcileLive_no_delete|].
  - destruct (ContainsFinalizer _ _) eqn:Ec; [|done].
    apply preceded_any; [|done]. constructor. exists lb. split; [done|]. split; [done|].
    by apply ContainsFinalizer_spec.
Qed.

(** The deletion of the load balancer is confirmed: done, or none of that UUID. *)
Definition deletion_confirmed (uuid : string) (a : action) : Prop :=
  exists x, a = ACall (LBDelete uuid) x /\
    match x with Ok _ => True | Err e => IsCloudscaleNotFoundErr e = true end.

Definition is_K8sUpdate (r : req) : Prop := match r with K8sUpdate _ => True | _ => False end.

(** A cleanup that succeeds has the deletion confirmed. *)
Lemma cleanup_confirms lb h :
  v1beta1.UUID lb <> "" ->
  wp (cleanupLoadBalancer lb) h (fun h' o => match o with
    | Returned _ => Exists (deletion_confirmed (v1beta1.UUID lb)) h' | _ => True end).
Proof.
  intros Hu. unfold cleanupLoadBalancer. rewrite (proj2 (str_empty_false _) Hu). cbn [negb].
  intros x h' ->. cbn [mbind M_bind call_err].
  assert (Hc : match x with Ok _ => True | Err e => IsCloudscaleNotFoundErr e = true end ->
    Exists (deletion_confirmed (v1beta1.UUID lb)) (h ++ [ACall (LBDelete (v1beta1.UUID lb)) x])).
  { intros Hx. apply Exists_app. right. constructor. by exists x. }
  destruct x as [[]|e].
  - eapply wp_mono; [|apply history_grows].
    intros h' [[]|e|s] [t ->]; [by apply Exists_snoc, Hc|done|done].
  - case_if; [|done]. cbn. by apply Hc.
Qed.

(** C7: for an object being deleted whose manifest has the UUID of its load balancer, the finalizer is
    removed only after the deletion of that load balancer was confirmed, by success or by a not-found answer; while
    the deletion fails, the object stays.  Without a UUID in the manifest no deletion needs to be confirmed: what the
    cleanup does then is C40. *)
Theorem finalizer_removed_after_cleanup lb :
  v1beta1.DeletionTimestamp_IsZero lb = false -> v1beta1.UUID lb <> "" ->
  wp (reconcileBody lb) [] (fun h' _ => preceded is_K8sUpdate (deletion_confirmed (v1beta1.UUID lb)) h').
Proof.
  intros Hd Hu. unfold reconcileBody. rewrite Hd. cbn [negb andb].
  destruct (ContainsFinalizer _ _); [|apply preceded_nil]. unfold reconcileDeleted.
  eapply preceded_bind with (K := fun _ => Exists (deletion_confirmed (v1beta1.UUID lb))).
  - assert (Hcalls : only (fun r => ~ is_K8sUpdate r) (cleanupLoadBalancer lb)).
    { eapply only_mono; [|apply cleanupLoadBalancer_calls]. intros r Hr Hk. by destruct r. }
    apply wp_wrap. eapply wp_mono; [|apply (wp_and _ _ _ _ (cleanup_confirms lb [] Hu)
      (preceded_only _ (deletion_confirmed (v1beta1.UUID lb)) _ [] Hcalls (preceded_nil _ _)))].
    intros h' [[]|e|s] [H1 H2]; done.
  - intros _ h' Hp HG. by apply preceded_any.
Qed.

(** The load balancer of the manifest was read and is not being changed. *)
Definition read_stable (a : action) : Prop :=
  exists uuid clb, a = ACall (LBGet uuid) (Ok (Some clb)) /\ cloudscale.lb_Status clb <> "changing".

Lemma ensureLoadBalancer_read lb h :
  v1beta1.UUID lb <> "" ->
  wp (ensureLoadBalancer lb) h (fun h' o => match o with
    | Returned e => cloudscale.lb_Status e <> "changing" -> Exists read_stable h' | _ => True end).
Proof.
  intros Hu. unfold ensureLoadBalancer. rewrite (proj2 (str_empty_false _) Hu).
  do 3 wp_step; cbn beta iota zeta; hist; [|done]. destruct v as [clb|]; [|done]. cbn [non_nil mbind M_bind].
  assert (Hr : forall t, cloudscale.lb_Status clb <> "changing" ->
    Exists read_stable ((h ++ [ACall (LBGet (v1beta1.UUID lb)) (Ok (Some clb))]) ++ t)).
  { intros t Hc. apply Exists_snoc, Exists_app. right. constructor. by eexists _, clb. }
  case_if; [intros Hc; specialize (Hr [] Hc); by rewrite app_nil_r in Hr|].
  unfold adopt. repeat case_if; try done. wp_steps; hist; [|done].
  intros Hc. cbn [recorded history]. rewrite <- app_assoc. by apply Hr.
Qed.

(** C9: pools, listeners, health monitors, members and floating IPs are
    changed only in a pass that has read the load balancer from cloudscale and
    found it settled; while it is "changing", or before its UUID is in the
    manifest, nothing below it is touched. *)
Theorem resources_only_when_stable req :
  wp (Reconcile interval req) [] (fun h' _ => preceded (fun r => is_resource_write r = true) read_stable h').
Proof.
  apply Reconcile_preceded; [done|]. intros lb. unfold reconcileBody.
  set (P := fun r => is_resource_write r = true).
  assert (Hget : preceded P read_stable [ACall (K8sGet req) (Ok lb)]) by (by apply preceded_get).
  destruct (v1beta1.DeletionTimestamp_IsZero lb); cbn [negb andb].
  - unfold reconcileLive. destruct (AddFinalizer _ _) as [fs added].
    eapply preceded_bind with (K := fun _ _ => True).
    { eapply wp_mono; [|apply preceded_only; [|exact Hget]]; [by intros h' []|]. only_steps; done. }
    intros lb1 h1 Hp1 _. eapply preceded_bind with (K := fun e h' =>
      v1beta1.UUID lb1 <> "" -> cloudscale.lb_Status e <> "changing" -> Exists read_stable h').
    { assert (Hcalls : only (fun r => ~ P r) (ensureLoadBalancer lb1)).
      { eapply only_mono; [|apply ensureLoadBalancer_calls]. intros r Hr Hd. by destruct r; try done; destruct Hr. }
      apply wp_wrap. destruct (decide (v1beta1.UUID lb1 = "")) as [Eu|Hu].
      - eapply wp_mono; [|by apply preceded_only]. by intros h' [].
      - eapply wp_mono; [|apply (wp_and _ _ _ _ (ensureLoadBalancer_read lb1 h1 Hu) (preceded_only _ _ _ _ Hcalls Hp1))].
        intros h' [] [? ?]; done. }
    intros e h2 Hp2 HK. unfold reconcileEnsured.
    destruct (str_empty (v1beta1.UUID lb1)) eqn:Eu; str_prop; [apply preceded_only; [by only_steps|done]|].
    destruct (str_empty (v1beta1.Zone lb1)); [apply preceded_only; [by only_steps|done]|].
    eapply preceded_bind with (K := fun _ h' => cloudscale.lb_Status e <> "changing" -> Exists read_stable h').
    { case_if; [|by split; [|auto]]. apply wp_wrap, wp_call; cbn; intros h' v ->;
        (split; [by apply preceded_snoc_other|]); [|done].
      intros Hc. apply Exists_snoc. auto. }
    intros lb2 h3 Hp3 HK3. destruct (str_eqb _ "changing") eqn:Ec; str_prop.
    + apply preceded_only; [|done]. unfold Event. only_steps. done.
    + case_if; [done|]. apply preceded_any; auto.
  - case_if; [|done]. apply preceded_only; [|done]. unfold reconcileDeleted.
    destruct (RemoveFinalizer _ _). only_steps; try done.
    eapply only_mono; [|apply cleanupLoadBalancer_calls]. intros r Hr Hd. by destruct r.
Qed.
End Ordering.

(** ** The outcome of a pass *)

Definition failed_event (err : goerror) : k8s_event :=
  {| ev_type := EventTypeWarning; ev_reason := "ReconcileFailed";
     ev_message := Sprintf "Reconciliation failed: %s" [AErr err] |}.

Definition requeue_now : Result := {| Requeue := true; RequeueAfter := 0 |}.
Definition requeue_in (d : Duration) : Result := {| Requeue := false; RequeueAfter := d |}.

Lemma reconcileBody_results {L : Lib} lb :
  yields (fun r => r = zero_Result \/ r = requeue_now \/ r = requeue_in (5 * Second)) (reconcileBody lb).
Proof.
  unfold reconcileBody, reconcileDeleted, reconcileLive, reconcileEnsured, reconcileResources.
  destruct (AddFinalizer _ _), (RemoveFinalizer _ _).
  repeat match goal with
  | |- yields _ (_ ≫= _) => apply yields_bind; intros ?
  | |- yields _ (if ?b then _ else _) => destruct b
  | |- yields _ (let '(_, _) := ?p in _) => destruct p
  | |- yields _ _ => cbn; by auto
  end.
Qed.

(** How a pass ends.  An object that no longer exists is not requeued.
    Every other successful pass is scheduled again: at once after the manifest was
    changed, in five seconds while the load balancer is changing, and after the
    maximal interval otherwise.  Every error, except one of reading the object, is
    recorded as the last event of the pass. *)
Lemma reconcile_outcome {L : Lib} {LL : LibLaws L} interval req (h : list action) :
  wp (Reconcile interval req) h (fun h' o => match o with
    | Returned res =>
        (res = zero_Result /\ exists e, h' = h ++ [ACall (K8sGet req) (Err e)] /\ IsNotFound e = true) \/
        res = requeue_now \/ res = requeue_in (5 * Second) \/ res = requeue_in (maxReconcileInterval interval)
    | Failed err =>
        (h' = h ++ [ACall (K8sGet req) (Err err)] /\ IsNotFound err = false) \/
        exists t, h' = t ++ [AEvent (failed_event err)]
    | Panicked _ => True
    end).
Proof.
  intros [lb|e] h' Hx; cbn in Hx; subst; cbn [mbind M_bind call_err].
  - apply wp_deferred. eapply wp_mono; [|apply yields_wp, (reconcileBody_results lb)].
    intros h' [res|err|s]; cbn; [|by intros _; right; eexists|done].
    intros [->|[->| ->]]; [by rewrite bool_decide_true by done; auto|auto..].
  - rewrite IgnoreNotFound_spec. destruct (IsNotFound e) eqn:E; cbn; left; [split; [done|]; by exists e|done].
Qed.

(** The UUID of a load balancer, and then its zone, are saved in the
    manifest before anything else is done: while one is missing, the only call
    after the load balancer was ensured is the update that stores it, and the pass
    asks to be run again. *)
Lemma uuid_saved_first {L : Lib} lb e (h : list action) :
  v1beta1.UUID lb = "" \/ v1beta1.Zone lb = "" ->
  wp (reconcileEnsured lb e) h (fun h' o => exists lb' x, h' = h ++ [ACall (K8sUpdate lb') x] /\
    v1beta1.UUID lb' = (if str_empty (v1beta1.UUID lb) then cloudscale.lb_UUID e else v1beta1.UUID lb) /\
    v1beta1.Zone lb' = cloudscale.lb_Zone e /\
    match x with Ok _ => o = Returned requeue_now | Err _ => exists e', o = Failed e' end).
Proof.
  intros Hm. unfold reconcileEnsured. destruct (str_empty (v1beta1.UUID lb)) eqn:Eu; str_prop.
  - wp_steps; hist; eexists _, _; eauto.
  - destruct Hm as [|Hz]; [done|]. rewrite (proj2 (str_empty_true _) Hz). wp_steps; hist; eexists _, _; eauto.
Qed.

(** ** Panics *)

(** The service listed a listener without a pool. *)
Definition poolless_listener_listed (a : action) : Prop :=
  exists all, a = ACall ListenerList (Ok all) /\ all_pooled all = false.

Lemma createListener_panic_free lb pool : panic_free (createListener lb pool).
Proof. unfold createListener. panic_steps. Qed.

Lemma updateListener_panic_free lb pool l : panic_free (updateListener lb pool l).
Proof. unfold updateListener, updateListenerAttr, updateBlock. panic_steps. Qed.

Lemma ensureLoadBalancerListener_panics lb pool :
  panics_after poolless_listener_listed (ensureLoadBalancerListener lb pool).
Proof.
  intros h. unfold ensureLoadBalancerListener. do 3 wp_step; cbn beta iota zeta; hist; [|done].
  rewrite listenersOfPool_eq. destruct (all_pooled v) eqn:Ep.
  - apply (panic_free_after poolless_listener_listed).
    panic_steps; auto using createListener_panic_free, updateListener_panic_free.
  - cbn. apply Exists_app. right. constructor. by exists v.
Qed.

Lemma updateAttr_panic_free {T} same uuid attr rq evf eva (old new : T) :
  panic_free (updateAttr same uuid attr rq evf eva old new).
Proof. unfold updateAttr, updateBlock. panic_steps. Qed.

Lemma ensureLoadBalancerHealthMonitor_panic_free lb pool :
  panic_free (ensureLoadBalancerHealthMonitor lb pool).
Proof.
  unfold ensureLoadBalancerHealthMonitor, createHealthMonitor, updateBase, updateHTTP.
  rewrite healthMonitorReq_HTTP. destruct (cloudscale.hmr_HTTP (healthMonitorReq pool)) as [want|] eqn:Ew;
    cbn [is_nil negb]; panic_steps; auto using @updateAttr_panic_free.
Qed.

Lemma ensureLoadBalancerPools_panics G lb : panics_after G (ensureLoadBalancerPools lb).
Proof.
  unfold ensureLoadBalancerPools. apply panics_after_bind; [by apply panic_free_after; panic_steps|].
  intros all. apply panics_after_bind; [apply panic_free_after; unfold deleteUnwanted; panic_steps|].
  intros _ h. apply wp_mapM with (I := fun _ _ _ => True); [done| |done].
  intros pre [i s] rest ys h1 El _. destruct (loop_index _ _ _ _ _ El) as (ours & Hi & -> & ->).
  eapply wp_mono; [|by apply ensurePool_hist]. intros h2 [m|e|s] (t & _ & _ & Ho); done.
Qed.

Lemma panics_after_if G {A} (b : bool) (m1 m2 : M A) :
  panics_after G m1 -> panics_after G m2 -> panics_after G (if b then m1 else m2).
Proof. by destruct b. Qed.

Lemma reconcilePool_panics lb pool : panics_after poolless_listener_listed (reconcilePool lb pool).
Proof.
  unfold reconcilePool.
  apply panics_after_bind; [apply panics_after_wrap, ensureLoadBalancerListener_panics|]. intros _.
  apply panic_free_after. unfold matchingNodes, cloudscaleServersForNodes, serverForNode,
    ensureLoadBalancerPoolMembers, Event.
  panic_steps; try exact I. apply ensureLoadBalancerHealthMonitor_panic_free.
Qed.

Lemma reconcileResources_panics {L : Lib} lb e :
  panics_after poolless_listener_listed (reconcileResources lb e).
Proof.
  unfold reconcileResources.
  apply panics_after_bind; [apply panics_after_wrap, ensureLoadBalancerPools_panics|]. intros pools.
  apply panics_after_bind; [apply panics_after_mapM; intros; apply reconcilePool_panics|]. intros ps.
  apply panic_free_after. unfold attachFloatingIPs. panic_steps.
Qed.

Lemma Reconcile_panics {L : Lib} interval req (h : list action) :
  wp (Reconcile interval req) h (fun h' o =>
    match o with Panicked _ => Exists poolless_listener_listed h' | _ => True end).
Proof.
  intros [lb|e] h' _; cbn [mbind M_bind call_err]; [|by destruct (IgnoreNotFound e)].
  apply wp_deferred. eapply wp_mono with (Q := fun h' o =>
    match o with Panicked _ => Exists poolless_listener_listed h' | _ => True end); [by intros h1 []|].
  revert h'. change (panics_after poolless_listener_listed (reconcileBody lb)).
  unfold reconcileBody, reconcileLive, reconcileDeleted, reconcileEnsured.
  destruct (AddFinalizer _ _), (RemoveFinalizer _ _).
  apply panics_after_if; [|apply panics_after_if; [done|]].
  - apply panic_free_after. unfold cleanupLoadBalancer, cleanupUnsaved. panic_steps.
  - apply panics_after_bind; [apply panic_free_after; panic_steps|]. intros lb1.
    apply panics_after_bind.
    { apply panic_free_after. unfold ensureLoadBalancer, findOrCreate, adopt.
      panic_steps; apply guessLoadbalancerZone_panic_free. }
    intros e. apply panics_after_if; [apply panic_free_after; panic_steps|].
    apply panics_after_if; [apply panic_free_after; panic_steps|].
    apply panics_after_bind; [apply panic_free_after; panic_steps|]. intros lb2.
    apply panics_after_if; [done|]. apply panics_after_if; [done|]. apply reconcileResources_panics.
Qed.

(** C16: the only way a pass can panic is a listing of listeners in which some
    listener has no pool; against every other behaviour of Kubernetes and of
    cloudscale, nil answers included, it returns a result or an error. *)
Theorem reconcile_panics_only {L : Lib} interval req (h : list action) :
  wp (Reconcile interval req) h (fun h' o =>
    match o with Panicked _ => Exists poolless_listener_listed h' | _ => True end).
Proof. apply Reconcile_panics. Qed.

(** ** Failures *)

(** Kubernetes answered with this state of the object. *)
Definition object_seen (h : list action) (lb : v1beta1.LoadBalancer) : Prop :=
  (exists k, ACall (K8sGet k) (Ok lb) ∈ h) \/ (exists o, ACall (K8sUpdate o) (Ok lb) ∈ h) \/
  (exists o, ACall (K8sStatusUpdate o) (Ok lb) ∈ h).

(** The load balancer read has another UUID than the manifest. *)
Definition uuid_differs (lb : v1beta1.LoadBalancer) (h : list action) : Prop :=
  exists u c, ACall (LBGet u) (Ok (Some c)) ∈ h /\ cloudscale.lb_UUID c <> v1beta1.UUID lb.

(** Why the part below the load balancer can fail. *)
Definition resource_reason (h : list action) : Prop :=
  faulted h \/ several_listeners h \/ several_monitors h.

(** Why a pass can fail. *)
Definition fail_reason (h : list action) : Prop :=
  resource_reason h \/
  exists lb, object_seen h lb /\ (adoption_refused lb h \/ zone_unclear lb h \/ uuid_differs lb h).

Lemma object_seen_app h t lb : object_seen h lb -> object_seen (h ++ t) lb.
Proof. unfold object_seen. setoid_rewrite elem_of_app. naive_solver. Qed.

Lemma fails_faulted {A} (m : M A) : fails_only faulted m -> fails_only resource_reason m.
Proof. apply fails_only_mono. by left. Qed.

Lemma reconcilePool_fails lb pool : fails_only resource_reason (reconcilePool lb pool).
Proof.
  unfold reconcilePool, Event. fails_steps; try (by intros h);
    try (apply fails_faulted; solve [apply matchingNodes_fails | apply cloudscaleServersForNodes_fails |
      apply ensureLoadBalancerPoolMembers_fails]).
  - eapply fails_only_mono; [|apply ensureLoadBalancerListener_fails]. unfold resource_reason. tauto.
  - eapply fails_only_mono; [|apply ensureLoadBalancerHealthMonitor_fails]. unfold resource_reason. tauto.
Qed.

Lemma reconcileResources_fails {L : Lib} lb e : fails_only resource_reason (reconcileResources lb e).
Proof.
  unfold reconcileResources. fails_steps; try (by intros h); auto using reconcilePool_fails.
  - apply fails_faulted, ensureLoadBalancerPools_fails.
  - apply fails_faulted, attachFloatingIPs_fails.
  - intros. left. by apply faulted_last.
Qed.

(** What was ensured for a manifest with a UUID was read from cloudscale. *)
Lemma ensureLoadBalancer_got {L : Lib} lb h :
  v1beta1.UUID lb <> "" ->
  wp (ensureLoadBalancer lb) h (fun h' o => match o with
    | Returned e => exists u c, ACall (LBGet u) (Ok (Some c)) ∈ h' /\ cloudscale.lb_UUID c = cloudscale.lb_UUID e
    | _ => True end).
Proof.
  intros Hu. unfold ensureLoadBalancer. rewrite (proj2 (str_empty_false _) Hu).
  do 3 wp_step; cbn beta iota zeta; hist; [|done]. destruct v as [clb|]; [|done]. cbn [non_nil mbind M_bind].
  case_if; [cbn; exists (v1beta1.UUID lb), clb; set_solver|].
  unfold adopt. repeat case_if; try done. wp_steps; hist; [|done]. exists (v1beta1.UUID lb), clb. cbn. set_solver.
Qed.

Lemma reconcileEnsured_fails {L : Lib} lb e (h : list action) :
  object_seen h lb ->
  (v1beta1.UUID lb <> "" -> exists u c, ACall (LBGet u) (Ok (Some c)) ∈ h /\ cloudscale.lb_UUID c = cloudscale.lb_UUID e) ->
  wp (reconcileEnsured lb e) h (fun h' o => match o with Failed _ => fail_reason h' | _ => True end).
Proof.
  intros Ho Hg. unfold reconcileEnsured. destruct (str_empty (v1beta1.UUID lb)) eqn:Eu; str_prop.
  { wp_steps; hist; [done|]. left. left. by apply faulted_last. }
  destruct (str_empty (v1beta1.Zone lb)). { wp_steps; hist; [done|]. left. left. by apply faulted_last. }
  apply wp_bind. eapply wp_mono with (Q := fun h' o => match o with
    | Returned lb' => object_seen h' lb' /\ exists t, h' = h ++ t
    | Failed _ => fail_reason h' | _ => True end).
  - intros h1 [lb1|err|s]; cbn [continue]; [|done|done]. intros [Ho1 [t ->]].
    case_if; [done|]. destruct (str_eqb (v1beta1.UUID lb1) _) eqn:Ed; str_prop; cbn [negb].
    + eapply wp_mono; [|apply reconcileResources_fails]. intros h2 [] Hr; try done. by left.
    + cbn. right. exists lb1. split; [done|]. right. right. destruct (Hg Eu) as (u & c & Hc & Ec).
      exists u, c. split; [set_solver|congruence].
  - case_if; [|split; [done|exists []; by rewrite app_nil_r]].
    wp_steps; hist; [|left; left; by apply faulted_last].
    split; [|by eexists]. right. right. eexists. apply elem_of_app. right. by left.
Qed.

Lemma reconcileLive_fails {L : Lib} {LL : LibLaws L} lb (h : list action) :
  object_seen h lb ->
  wp (reconcileLive lb) h (fun h' o => match o with Failed _ => fail_reason h' | _ => True end).
Proof.
  intros Ho. unfold reconcileLive. destruct (AddFinalizer _ _) as [fs added]. apply wp_bind.
  eapply wp_mono with (Q := fun h' o => match o with
    | Returned lb' => object_seen h' lb' | Failed _ => fail_reason h' | _ => True end).
  - intros h1 [lb1|err|s]; cbn [continue]; [|done|done]. intros Ho1. apply wp_bind, wp_wrap.
    eapply wp_mono with (Q := fun h' o => (exists t, h' = h1 ++ t) /\
      match o with Failed _ => ensure_reason lb1 h' | _ => True end /\
      match o with Returned e => v1beta1.UUID lb1 <> "" ->
        exists u c, ACall (LBGet u) (Ok (Some c)) ∈ h' /\ cloudscale.lb_UUID c = cloudscale.lb_UUID e | _ => True end).
    + intros h2 [e|err|s] ([t ->] & Hr & Hg); cbn [wrapped continue]; [|clear Hg|done].
      * apply reconcileEnsured_fails; [by apply object_seen_app|done].
      * destruct Hr as [Hr|Hr]; [left; by left|]. right. exists lb1. split; [by apply object_seen_app|tauto].
    + apply wp_and; [apply history_grows|]. apply wp_and; [apply ensureLoadBalancer_fails|].
      destruct (decide (v1beta1.UUID lb1 = "")); [|eapply wp_mono; [|by apply ensureLoadBalancer_got]; by intros h' []].
      eapply wp_mono; [|apply (history_grows _ h1)]. by intros h' [].
  - destruct added; [|done]. wp_steps; hist; [|left; left; by apply faulted_last].
    right. left. eexists. apply elem_of_app. right. by left.
Qed.

Lemma fail_reason_event h ev : fail_reason h -> fail_reason (h ++ [AEvent ev]).
Proof.
  unfold fail_reason, resource_reason, several_listeners, several_monitors, adoption_refused, uuid_differs.
  intros [[Hf|[(p & all & ? & ?)|(p & all & ? & ?)]]|(lb & Ho & Hr)].
  - left. left. by apply faulted_app.
  - left. right. left. exists p, all. set_solver.
  - left. right. right. exists p, all. set_solver.
  - right. exists lb. split; [by apply object_seen_app|].
    destruct Hr as [(c & ? & ?)|[(? & ? & h0 & ll & t & servers & rest & -> & ? & ? & Hc)|(u & c & ? & ?)]].
    + left. exists c. set_solver.
    + right. left. split; [done|]. split; [done|]. exists h0, ll, t, servers, (rest ++ [AEvent ev]).
      rewrite calls_app, Hc. split; [|done]. by rewrite <- app_assoc; cbn; rewrite <- app_assoc.
    + right. right. exists u, c. set_solver.
Qed.

Lemma Reconcile_fails {L : Lib} {LL : LibLaws L} interval req (h : list action) :
  wp (Reconcile interval req) h (fun h' o => match o with Failed _ => fail_reason h' | _ => True end).
Proof.
  intros [lb|e] h' ->; cbn [mbind M_bind call_err];
    [|destruct (IgnoreNotFound e); [|done]; left; left; by apply faulted_last].
  apply wp_deferred. eapply wp_mono with (Q := fun h' o => match o with Failed _ => fail_reason h' | _ => True end).
  { intros h' [r|e|s]; cbn; try done. apply fail_reason_event. }
  unfold reconcileBody. repeat case_if; [| done |].
  - eapply wp_mono with (Q := fun h' o => match o with Failed _ => faulted h' | _ => True end);
      [intros h' []; unfold fail_reason, resource_reason; tauto|].
    apply fails_only_at. unfold reconcileDeleted. destruct (RemoveFinalizer _ _).
    faults. apply cleanupLoadBalancer_fails.
  - apply reconcileLive_fails. left. exists req. set_solver.
Qed.

(** C15: a pass that returns no result has a reason in what it was answered.  An error: a call failed (a
    missing server aside) or answered nil; the listing showed several listeners or health monitors for one pool; the
    load balancer of the manifest may not be adopted or has another UUID; or the manifest has neither UUID nor zone, and
    the servers behind all its pools, every one of them looked up, have no zone or several.  A panic: a listing in which
    some listener has no pool.  In every other environment a pass succeeds. *)
Theorem reconcile_fails_only {L : Lib} {LL : LibLaws L} interval req :
  wp (Reconcile interval req) [] (fun h' o => match o with
    | Returned _ => True
    | Failed _ => fail_reason h'
    | Panicked _ => Exists poolless_listener_listed h'
    end).
Proof.
  eapply wp_mono; [|exact (wp_and _ _ _ _ (Reconcile_fails interval req []) (Reconcile_panics interval req []))].
  by intros h' [] [].
Qed.

Lemma reconcile_fails_only_witness :
  LibLaws ref_lib /\ wp (Reconcile 0 sample_key) [] (fun h' o => match o with
    | Returned _ => True
    | Failed _ => fail_reason h'
    | Panicked _ => Exists poolless_listener_listed h'
    end).
Proof. split; [exact ref_lib_laws|]. apply (reconcile_fails_only 0 sample_key). Defined.

(** ** The status a pass reports *)

(** The cloudscale pool of a pool of the manifest, as the calls [t] showed it: listed, or created. *)
Definition pool_of (lb : v1beta1.LoadBalancer) (pool : v1beta1.Pool) (q : cloudscale.LoadBalancerPool)
    (t : list action) : Prop :=
  let name := resource_name lb +:+ "-" +:+ v1beta1.pool_Name pool in
  (exists all, ACall PoolList (Ok all) ∈ t /\ q ∈ all /\
     cloudscale.pool_LoadBalancer q = v1beta1.UUID lb /\ cloudscale.pool_Name q = name) \/
  (exists r, ACall (PoolCreate r) (Ok (Some q)) ∈ t /\
     cloudscale.poolr_LoadBalancer r = v1beta1.UUID lb /\ cloudscale.poolr_Name r = name).

(** What is reported of a member: the node and the server of its tags, its address and its health. *)
Definition member_reported (m : cloudscale.LoadBalancerPoolMember) (b : v1beta1.StatusBackend) : Prop :=
  v1beta1.sb_NodeName b = cloudscale.tag (cloudscale.mem_Tags m) "appuio_io_loadbalancer_controller__node_name" /\
  v1beta1.sb_ServerName b = cloudscale.tag (cloudscale.mem_Tags m) "appuio_io_loadbalancer_controller__server_name" /\
  v1beta1.sb_Address b = cloudscale.mem_Address m /\
  v1beta1.sb_Status b = cloudscale.mem_MonitorStatus m.

(** Ordered by node, and by address on the same node. *)
Definition backend_before (a b : v1beta1.StatusBackend) : Prop :=
  str_lt (v1beta1.sb_NodeName a) (v1beta1.sb_NodeName b) \/
  (v1beta1.sb_NodeName a = v1beta1.sb_NodeName b /\ ~ str_lt (v1beta1.sb_Address b) (v1beta1.sb_Address a)).

(** The backends reported for a listing: one per member, and in order. *)
Definition backends_listed (l : list cloudscale.LoadBalancerPoolMember) (bs : list v1beta1.StatusBackend) : Prop :=
  StronglySorted backend_before bs /\ exists bs', bs ≡ₚ bs' /\ Forall2 member_reported l bs'.

(** The pools one after the other: the work on a pool ends with a listing of the members of its own cloudscale pool,
    and this listing is reported. *)
Inductive pools_reported (lb : v1beta1.LoadBalancer) (t0 : list action)
    : list v1beta1.Pool -> list action -> list v1beta1.StatusPool -> Prop :=
| reported_nil : pools_reported lb t0 [] t0 []
| reported_snoc pools pool h t q l ps bs :
    pools_reported lb t0 pools h ps -> pool_of lb pool q t0 -> backends_listed l bs ->
    pools_reported lb t0 (pools ++ [pool]) (h ++ t ++ [ACall (MemberList (cloudscale.pool_UUID q)) (Ok l)])
      (ps ++ [{| v1beta1.sp_Name := v1beta1.pool_Name pool; v1beta1.sp_Backends := bs |}]).

(** Afterwards there are only calls on floating IPs. *)
Definition is_floating_call (r : req) : Prop :=
  match r with FloatingIPList | FloatingIPUpdate _ _ => True | _ => False end.

(** What the status must say, for the load balancer found, the object, and the
    answers [t] the pass got. *)
Definition status_for (lb : v1beta1.LoadBalancer) (e : cloudscale.LoadBalancer) (t : list action)
    (st : v1beta1.LoadBalancerStatus) : Prop :=
  (exists t0 t1 t2, t = t1 ++ t2 /\ Forall is_floating_call (calls t2) /\
     pools_reported lb t0 (v1beta1.spec_Pools (v1beta1.lb_Spec lb)) t1 (v1beta1.status_Pools st)) /\
  map v1beta1.svip_Address (v1beta1.status_VirtualIPAddresses st) ≡ₚ map cloudscale.vip_Address (cloudscale.lb_VIPAddresses e) /\
  StronglySorted (fun a b => ~ str_lt b a) (map v1beta1.svip_Address (v1beta1.status_VirtualIPAddresses st)) /\
  StronglySorted str_lt (map v1beta1.sfip_CIDR (v1beta1.status_FloatingIPAddresses st)) /\
  (forall c, c ∈ map v1beta1.sfip_CIDR (v1beta1.status_FloatingIPAddresses st) <->
     c ∈ map v1beta1.fip_CIDR (v1beta1.spec_FloatingIPAddresses (v1beta1.lb_Spec lb))) /\
  v1beta1.status_CloudscaleStatus st = v1beta1.status_CloudscaleStatus (v1beta1.lb_Status lb).

(** The backends of the code are such a report. *)
Lemma statusBackends_listed l : backends_listed l (statusBackends l).
Proof.
  split.
  - eapply StronglySorted_weaken; [|apply SortFunc_sorted, _]. intros a b. cbn beta. rewrite lex10_le.
    unfold backend_before, str_lt. rewrite (Compare_antisym (v1beta1.sb_Address b)). intros [|[]]; [by left|right; split; [done|lia]].
  - exists (map statusBackend l). split; [apply SortFunc_perm|]. apply Forall2_fmap_r, Forall_Forall2_diag, Forall_forall.
    done.
Qed.

Lemma frontendIPs_listed e :
  map v1beta1.svip_Address (frontendIPs e) ≡ₚ map cloudscale.vip_Address (cloudscale.lb_VIPAddresses e) /\
  StronglySorted (fun a b => ~ str_lt b a) (map v1beta1.svip_Address (frontendIPs e)).
Proof.
  split.
  - unfold frontendIPs. rewrite SortFunc_perm, map_map. done.
  - apply StronglySorted_keys. eapply StronglySorted_weaken; [|apply SortFunc_sorted, _]. intros a b. unfold on_key, str_lt.
    rewrite (Compare_antisym (v1beta1.svip_Address b)). lia.
Qed.

Lemma statusPoolEqual_true a b : statusPoolEqual a b = true <-> a = b.
Proof.
  unfold statusPoolEqual. rewrite andb_true_iff, str_eqb_true, Equal_true.
  destruct a, b; cbn. naive_solver.
Qed.

(** One pool: no Kubernetes write, and its members as listed at the end. *)
Lemma reconcilePool_status lb pool (h : list action) :
  wp (reconcilePool lb pool) h (fun h' o => (exists t, h' = h ++ t /\ Forall resource_call (calls t)) /\
    match o with
    | Returned p => exists t l bs, h' = h ++ t ++ [ACall (MemberList (cloudscale.pool_UUID (pm_Theirs pool))) (Ok l)] /\
        backends_listed l bs /\ p = {| v1beta1.sp_Name := v1beta1.pool_Name (pm_Ours pool); v1beta1.sp_Backends := bs |}
    | _ => True
    end).
Proof.
  apply wp_and; [apply only_history, reconcilePool_calls|].
  unfold reconcilePool. apply wp_bind_grows; [done|done|]. intros _ t1. apply wp_bind_grows; [done|done|]. intros _ t2.
  apply wp_bind_grows; [done|done|]. intros ns t3. apply wp_bind_grows; [done|done|]. intros [servers warnings] t4.
  apply wp_bind_grows; [done|done|]. intros _ t5. apply wp_bind, wp_wrap.
  eapply wp_mono; [|apply members_hist]. intros h' [l|e|s]; [|done|done]. intros (actual & t & -> & _).
  exists (t1 ++ t2 ++ t3 ++ t4 ++ t5 ++ ACall (MemberList (cloudscale.pool_UUID (pm_Theirs pool))) (Ok actual) :: t), l, (statusBackends l).
  split; [by rewrite <- !app_assoc|].
  split; [apply statusBackends_listed|done].
Qed.

#[global] Instance StatusPool_eq : EqDecision v1beta1.StatusPool.
Proof. solve_decision. Defined.

(** Refreshing sets the part and tells whether it differed. *)
Lemma refreshPools_eq lb ps :
  refreshPools lb ps = (negb (bool_decide (v1beta1.status_Pools (v1beta1.lb_Status lb) = ps)),
                        v1beta1.with_StatusPools lb ps).
Proof.
  unfold refreshPools. destruct (EqualFunc _ _ _) eqn:E; cbn.
  - apply (EqualFunc_true _ _ _ statusPoolEqual_true) in E. rewrite <- E, bool_decide_true by done.
    by destruct lb as [? ? [? ? ? ?]].
  - rewrite bool_decide_false; [done|]. intros E'. apply not_true_iff_false in E. apply E.
    by apply (EqualFunc_true _ _ _ statusPoolEqual_true).
Qed.

Lemma refreshVIPs_eq lb ips :
  refreshVIPs lb ips = (negb (bool_decide (v1beta1.status_VirtualIPAddresses (v1beta1.lb_Status lb) = ips)),
                        v1beta1.with_StatusVIPs lb ips).
Proof.
  unfold refreshVIPs. destruct (Equal _ _) eqn:E; cbn.
  - apply Equal_true in E. rewrite <- E, bool_decide_true by done. by destruct lb as [? ? [? ? ? ?]].
  - rewrite bool_decide_false; [done|]. by apply Equal_false.
Qed.

Lemma refreshFloatingIPs_eq lb ips :
  refreshFloatingIPs lb ips =
    (negb (bool_decide (v1beta1.status_FloatingIPAddresses (v1beta1.lb_Status lb) = ips)),
     v1beta1.with_StatusFloatingIPs lb ips).
Proof.
  unfold refreshFloatingIPs. destruct (Equal _ _) eqn:E; cbn.
  - apply Equal_true in E. rewrite <- E, bool_decide_true by done. by destruct lb as [? ? [? ? ? ?]].
  - rewrite bool_decide_false; [done|]. by apply Equal_false.
Qed.

Section Status.
Context {L : Lib} {LL : LibLaws L}.

Definition calls_resource (h : list action) : Prop := Forall (fun r => is_k8s_write r = false) (calls h).

Lemma calls_resource_app h t : calls_resource h -> Forall resource_call (calls t) -> calls_resource (h ++ t).
Proof.
  unfold calls_resource. rewrite calls_app. intros Hh Ht. apply Forall_app. split; [done|].
  eapply Forall_impl; [exact Ht|]. by intros r [Hr _].
Qed.

(** The loop over the pools. *)
Lemma pools_loop_status lb t0 pools Q :
  calls_resource t0 -> Forall (fun m => pool_of lb (pm_Ours m) (pm_Theirs m) t0) pools ->
  (forall h' e, Q h' (Failed e)) -> (forall h' s, Q h' (Panicked s)) ->
  (forall h' ps, calls_resource h' -> pools_reported lb t0 (map pm_Ours pools) h' ps -> Q h' (Returned ps)) ->
  wp (mapM pools (reconcilePool lb)) t0 Q.
Proof.
  intros Hh Hpm HF HP HQ. apply wp_mapM with (I := fun pre ps h' => calls_resource h' /\
    pools_reported lb t0 (map pm_Ours pre) h' ps).
  - split; [done|constructor].
  - intros pre pool rest ps h1 El (Hc & Hr). eapply wp_mono; [|apply reconcilePool_status].
    intros h2 o [(t & Et & Ht) Ho]. destruct o as [p|e|s]; [|apply HF|apply HP].
    split; [subst; by apply calls_resource_app|]. destruct Ho as (t' & l & bs & -> & Hb & ->).
    rewrite map_app. constructor; [done| |done]. rewrite Forall_forall in Hpm. apply Hpm. rewrite El. set_solver.
  - intros ps h1 (Hc & Hr). by apply HQ.
Qed.

(** The pools found are the ones of the manifest. *)
Lemma mapping_pool_of lb all t m :
  mapping_ok lb (actualPools lb all) t m -> pool_of lb (pm_Ours m) (pm_Theirs m) (ACall PoolList (Ok all) :: t).
Proof.
  assert (En : cloudscaleLoadbalancerName lb = resource_name lb) by done.
  unfold mapping_ok, pool_of. rewrite elem_of_actualPools.
  intros [[[Hin Hl] (Hn & _)]|Hc]; [left; exists all|right; eexists; split; [right; exact Hc|done]].
  split; [left|]. done.
Qed.

Lemma status_done lb e :
  wp (reconcileResources lb e) [] (fun h' o => match o with
    | Returned _ => exists st t, status_for lb e t st /\ calls_resource t /\
        ((st = v1beta1.lb_Status lb /\ h' = t) \/
         (st <> v1beta1.lb_Status lb /\
          exists x, h' = t ++ [ACall (K8sStatusUpdate (v1beta1.with_Status lb st)) (Ok x)]))
    | _ => True
    end).
Proof.
  unfold reconcileResources. apply wp_bind, wp_wrap.
  eapply wp_mono; [|apply (wp_and _ _ _ _ (pools_hist lb [])
    (only_history _ _ [] (ensureLoadBalancerPools_calls lb)))].
  intros h1 [pools|err|s] [Hp (t1 & Et1 & Ht1)]; cbn [continue wrapped]; [|done|done].
  destruct Hp as [(? & ? & _ & [=])|(all & t0 & E0 & _ & Ho & Hm)]. cbn in Et1, E0. subst t1.
  apply wp_bind, (pools_loop_status lb h1); [|subst h1|done|done|].
  { eapply Forall_impl; [exact Ht1|]. by intros []. }
  { eapply Forall_impl; [exact Hm|]. intros m. apply mapping_pool_of. }
  intros h2 ps Hc Hb. cbn [continue]. rewrite Ho in Hb.
  rewrite refreshPools_eq, refreshVIPs_eq. apply wp_bind, wp_wrap.
  set (lb1 := v1beta1.with_StatusVIPs (v1beta1.with_StatusPools lb ps) (frontendIPs e)).
  assert (Hw : wantedCIDRs lb1 = wantedCIDRs lb) by done.
  eapply wp_mono; [|apply (wp_and _ _ _ _ (attach_result_sorted lb1 h2)
    (only_history _ _ h2 (attachFloatingIPs_calls lb1)))].
  intros h3 [cidrs|err|s] [Hf (t3 & -> & Ht3)]; cbn [continue wrapped]; [|done|done].
  destruct Hf as [Hsort Hin]. rewrite Hw in Hin. rewrite refreshFloatingIPs_eq.
  set (fips := map (fun ip => {| v1beta1.sfip_CIDR := ip |}) cidrs).
  assert (Hfips : map v1beta1.sfip_CIDR fips = cidrs)
    by (unfold fips; rewrite map_map; cbn; apply map_id).
  set (st := {| v1beta1.status_CloudscaleStatus := v1beta1.status_CloudscaleStatus (v1beta1.lb_Status lb);
                v1beta1.status_VirtualIPAddresses := frontendIPs e; v1beta1.status_FloatingIPAddresses := fips;
                v1beta1.status_Pools := ps |}).
  assert (Hst : status_for lb e (h2 ++ t3) st).
  { split; [by exists h1, h2, t3|]. destruct (frontendIPs_listed e) as [Hv1 Hv2]. cbn. rewrite Hfips. done. }
  assert (Hc3 : calls_resource (h2 ++ t3)).
  { apply calls_resource_app; [done|]. eapply Forall_impl; [exact Ht3|]. by intros []. }
  change (v1beta1.with_StatusFloatingIPs lb1 fips) with (v1beta1.with_Status lb st).
  destruct (negb _ || negb _ || negb _) eqn:Ech.
  - clear Hfips. wp_steps; hist; [|done]. exists st, (h2 ++ t3). split; [done|]. split; [done|]. right. split; [|by eexists].
    intros E. cbn in Ech. rewrite <- E in Ech. cbn in Ech. by rewrite !bool_decide_true in Ech by done.
  - cbn. exists st, (h2 ++ t3). split; [done|]. split; [done|]. left. split; [|done].
    rewrite !orb_false_iff, !negb_false_iff, !bool_decide_eq_true in Ech. destruct Ech as [[E1 E2] E3].
    cbn in E2, E3. unfold st. rewrite <- E1, <- E2, <- E3. by destruct (v1beta1.lb_Status lb).
Qed.

(** C22: the part of a pass that follows once the load balancer is ensured and its own status recorded
    ([reconcileResources]) leaves, when it succeeds, this status: for every pool of the manifest, in its order, one
    backend per member of the listing of that pool's own cloudscale pool with which the work on it ended (node and
    server of the tags, address, health), sorted by node and address; the addresses of the load balancer, sorted; the
    floating IPs of the manifest, sorted and without duplicates; the recorded status of the load balancer unchanged.  It
    writes the status at most once, as its last call, and exactly when it differs from the one the object has (a full
    pass may before have written the load balancer's own status).  It fails or panics only for a reason in what it was
    answered. *)
Theorem status_reported lb e :
  wp (reconcileResources lb e) [] (fun h' o => match o with
    | Returned _ => exists st t, status_for lb e t st /\ calls_resource t /\
        ((st = v1beta1.lb_Status lb /\ h' = t) \/
         (st <> v1beta1.lb_Status lb /\
          exists x, h' = t ++ [ACall (K8sStatusUpdate (v1beta1.with_Status lb st)) (Ok x)]))
    | Failed _ => resource_reason h'
    | Panicked _ => Exists poolless_listener_listed h'
    end).
Proof.
  eapply wp_mono; [|exact (wp_and _ _ _ _ (status_done lb e) (wp_and _ _ _ _ (reconcileResources_fails lb e [])
    (reconcileResources_panics lb e [])))].
  by intros h' [] (? & ? & ?).
Qed.
End Status.
