(* ===== verification/Schema.v ===== *)
(** * Schema: manifests that satisfy the CRD schema, and the requests made for them

    The validation markers of api/v1beta1/loadbalancer_types.go (enumerations,
    minima, the limit on virtual IPs) and the Go types of the numbers as an
    executable predicate on manifests, the value ranges of the cloudscale API as
    one on requests, and the typing of the controller between the two.  The second
    part is about the manifest itself: what the controller may write into it. *)

From Stdlib Require Import ZArith Lia.
From stdpp Require Import base list strings gmap.
From S2P Require Import Prelude GoLib ApiTypes Cloudscale Effects External Helpers Samples.
From S2P Require Import Nodes FloatingIPs PoolMembers HealthMonitor Listener Pools LoadBalancers Reconcile.
Open Scope string_scope.
Open Scope Z_scope.
Open Scope list_scope.

(** ** The schema of the resource *)

Definition enum (values : list string) (s : string) : bool := existsb (str_eqb s) values.

(** An optional field: left out, or one of the values. *)
Definition optional (values : list string) (s : string) : bool := str_empty s || enum values s.

(** [+kubebuilder:validation:Minimum=1] on an optional int. *)
Definition optional_min1 (n : Z) : bool := (n =? 0) || (1 <=? n).

Definition int32 (n : Z) : bool := (- 2 ^ 31 <=? n) && (n <? 2 ^ 31).

Definition HTTPHealthMonitor_schema (h : v1beta1.HTTPHealthMonitor) : bool :=
  optional ["CONNECT"; "DELETE"; "GET"; "HEAD"; "OPTIONS"; "PATCH"; "POST"; "PUT"; "TRACE"] (v1beta1.http_Method h) &&
  optional ["1.0"; "1.1"] (v1beta1.http_Version h).

Definition HealthMonitor_schema (m : v1beta1.HealthMonitor) : bool :=
  int32 (v1beta1.hm_Port m) &&
  optional ["Ping"; "TCP"; "HTTP"; "HTTPS"; "TLSHello"] (v1beta1.hm_Type m) &&
  optional_min1 (v1beta1.hm_SuccessThreshold m) && optional_min1 (v1beta1.hm_FailureThreshold m) &&
  HTTPHealthMonitor_schema (v1beta1.hm_HTTP m).

Definition PoolBackend_schema (b : v1beta1.PoolBackend) : bool :=
  int32 (v1beta1.be_Port b) && optional ["TCP"; "Proxy"; "ProxyV2"] (v1beta1.be_Protocol b) &&
  HealthMonitor_schema (v1beta1.be_HealthMonitor b).

Definition PoolFrontend_schema (f : v1beta1.PoolFrontend) : bool :=
  optional ["TCP"] (v1beta1.fe_Protocol f) && int32 (v1beta1.fe_Port f).

Definition Pool_schema (p : v1beta1.Pool) : bool :=
  optional ["RoundRobin"; "LeastConnections"; "SourceIP"] (v1beta1.pool_Algorithm p) &&
  PoolFrontend_schema (v1beta1.pool_Frontend p) && PoolBackend_schema (v1beta1.pool_Backend p).

Definition LoadBalancer_schema (lb : v1beta1.LoadBalancer) : bool :=
  Nat.leb (length (v1beta1.spec_VirtualIPAddresses (v1beta1.lb_Spec lb))) 1 &&
  forallb Pool_schema (v1beta1.spec_Pools (v1beta1.lb_Spec lb)).

Example sample_schema :
  LoadBalancer_schema (sample_lb "" "") = true /\
  Pool_schema {| v1beta1.pool_Name := "http"; v1beta1.pool_Algorithm := "round_robin";
                 v1beta1.pool_Frontend := v1beta1.pool_Frontend (sample_pool "http" 80);
                 v1beta1.pool_Backend := v1beta1.pool_Backend (sample_pool "http" 80) |} = false.
Proof. vm_compute. done. Qed.

(** ** The value ranges of the requests

    A creation names a value of each enumeration; an update leaves out what it does
    not set and never sets what identifies a resource. *)

Definition algorithms := ["round_robin"; "least_connections"; "source_ip"].
Definition pool_protocols := ["tcp"; "proxy"; "proxyv2"].
Definition listener_protocols := ["tcp"].
Definition monitor_types := ["ping"; "tcp"; "http"; "https"; "tls-hello"].
Definition http_methods := ["CONNECT"; "DELETE"; "GET"; "HEAD"; "OPTIONS"; "PATCH"; "POST"; "PUT"; "TRACE"].
Definition http_versions := ["1.0"; "1.1"].

(** A new monitor has HTTP settings exactly when its type is HTTP or HTTPS, with method, version and path. *)
Definition new_monitor (r : cloudscale.LoadBalancerHealthMonitorRequest) : bool :=
  enum monitor_types (cloudscale.hmr_Type r) &&
  (1 <=? cloudscale.hmr_UpThreshold r) && (1 <=? cloudscale.hmr_DownThreshold r) &&
  match cloudscale.hmr_HTTP r with
  | None => negb (enum ["http"; "https"] (cloudscale.hmr_Type r))
  | Some q => enum ["http"; "https"] (cloudscale.hmr_Type r) && enum http_methods (cloudscale.hmhr_Method q) &&
              enum http_versions (cloudscale.hmhr_Version q) && negb (str_empty (cloudscale.hmhr_UrlPath q))
  end.

Definition monitor_change (r : cloudscale.LoadBalancerHealthMonitorRequest) : bool :=
  str_empty (cloudscale.hmr_Type r) && str_empty (cloudscale.hmr_Pool r) &&
  optional_min1 (cloudscale.hmr_UpThreshold r) && optional_min1 (cloudscale.hmr_DownThreshold r) &&
  match cloudscale.hmr_HTTP r with
  | None => true
  | Some q => optional http_methods (cloudscale.hmhr_Method q) && optional http_versions (cloudscale.hmhr_Version q)
  end.

Definition well_typed (r : req) : bool :=
  match r with
  | LBCreate q => str_eqb (cloudscale.lbr_Flavor q) "lb-standard" &&
      match cloudscale.lbr_VIPAddresses q with Some [_] | None => true | _ => false end
  | LBUpdate _ q => str_empty (cloudscale.lbr_Name q) && str_empty (cloudscale.lbr_Flavor q) && str_empty (cloudscale.lbr_Zone q)
  | PoolCreate q => enum algorithms (cloudscale.poolr_Algorithm q) && enum pool_protocols (cloudscale.poolr_Protocol q)
  | MemberCreate _ q => int32 (cloudscale.memr_ProtocolPort q) && int32 (cloudscale.memr_MonitorPort q) &&
      negb (str_empty (cloudscale.memr_Subnet q))
  | ListenerCreate q => enum listener_protocols (cloudscale.lstr_Protocol q) && int32 (cloudscale.lstr_ProtocolPort q)
  | ListenerUpdate _ q => str_empty (cloudscale.lstr_Protocol q) && (cloudscale.lstr_ProtocolPort q =? 0) && str_empty (cloudscale.lstr_Pool q)
  | HealthMonitorCreate q => new_monitor q
  | HealthMonitorUpdate _ q => monitor_change q
  | K8sUpdate lb | K8sStatusUpdate lb => LoadBalancer_schema lb
  | _ => true
  end.
Abbreviation typed r := (well_typed r = true).

(** ** Typing of the parts *)

Lemma enum_spec values s : enum values s = true <-> s ∈ values.
Proof.
  unfold enum. rewrite existsb_elem. split; [intros (x & Hx & ->%str_eqb_true); done|].
  intros Hs. exists s. split; [done|]. by apply str_eqb_true.
Qed.

Lemma optional_cases values s : optional values s = true -> s = "" \/ s ∈ values.
Proof. unfold optional. intros [H|H]%orb_true_iff; [left; by apply str_empty_true|right; by apply enum_spec]. Qed.

(** Case analysis on an optional enumeration: each value by computation. *)
Ltac by_enum :=
  let H := fresh in intros ? H%optional_cases; set_unfold in H; destruct_or! H; subst; reflexivity.

Lemma algorithm_typed p : optional ["RoundRobin"; "LeastConnections"; "SourceIP"] (v1beta1.pool_Algorithm p) = true ->
  enum algorithms (poolAlgorithmToCloudscalePoolAlgorithm (v1beta1.Pool_GetAlgorithm p)) = true.
Proof. unfold v1beta1.Pool_GetAlgorithm. generalize (v1beta1.pool_Algorithm p). by_enum. Qed.

Lemma pool_protocol_typed b : optional ["TCP"; "Proxy"; "ProxyV2"] (v1beta1.be_Protocol b) = true ->
  enum pool_protocols (poolProtocolToCloudscalePoolProtocol (v1beta1.PoolBackend_GetProtocol b)) = true.
Proof. unfold v1beta1.PoolBackend_GetProtocol. generalize (v1beta1.be_Protocol b). by_enum. Qed.

Lemma listener_protocol_typed f : optional ["TCP"] (v1beta1.fe_Protocol f) = true ->
  enum listener_protocols (listenerProtocolToCloudscaleListenerProtocol (v1beta1.PoolFrontend_GetProtocol f)) = true.
Proof. unfold v1beta1.PoolFrontend_GetProtocol. generalize (v1beta1.fe_Protocol f). by_enum. Qed.

Lemma monitor_type_typed m : optional ["Ping"; "TCP"; "HTTP"; "HTTPS"; "TLSHello"] (v1beta1.hm_Type m) = true ->
  enum monitor_types (healthMonitorTypeToCloudscaleHealthMonitorType (v1beta1.HealthMonitor_GetType m)) = true.
Proof. unfold v1beta1.HealthMonitor_GetType. generalize (v1beta1.hm_Type m). by_enum. Qed.

Lemma method_typed h : optional http_methods (v1beta1.http_Method h) = true ->
  enum http_methods (v1beta1.HTTPHealthMonitor_GetMethod h) = true.
Proof. unfold v1beta1.HTTPHealthMonitor_GetMethod. generalize (v1beta1.http_Method h). by_enum. Qed.

Lemma version_typed h : optional http_versions (v1beta1.http_Version h) = true ->
  enum http_versions (v1beta1.HTTPHealthMonitor_GetVersion h) = true.
Proof. unfold v1beta1.HTTPHealthMonitor_GetVersion. generalize (v1beta1.http_Version h). by_enum. Qed.

Lemma optional_enum values s : enum values s = true -> optional values s = true.
Proof. unfold optional. intros ->. apply orb_true_r. Qed.

Lemma threshold_typed d n : 1 <= d -> optional_min1 n = true -> (1 <=? (if n =? 0 then d else n)) = true.
Proof. unfold optional_min1. intros Hd [H|H]%orb_true_iff; [rewrite H; by apply Z.leb_le|]. case_if; [by apply Z.leb_le|done]. Qed.

Lemma min1_optional n : (1 <=? n) = true -> optional_min1 n = true.
Proof. unfold optional_min1. intros ->. apply orb_true_r. Qed.

(** The requests that create resources. *)
Lemma pool_request_typed lb pl : Pool_schema pl = true -> typed (PoolCreate (poolRequest lb pl)).
Proof.
  unfold Pool_schema, PoolBackend_schema. intros Hp. bool_to_prop. cbn [well_typed]. apply andb_true_iff.
  split; [by apply algorithm_typed|by apply pool_protocol_typed].
Qed.

Lemma listener_request_typed lb pm : Pool_schema (pm_Ours pm) = true -> typed (ListenerCreate (listenerReq lb pm)).
Proof.
  unfold Pool_schema, PoolFrontend_schema. intros Hp. bool_to_prop. cbn [well_typed]. apply andb_true_iff.
  split; [by apply listener_protocol_typed|done].
Qed.

Lemma member_request_typed lb pm srv addr p : Pool_schema (pm_Ours pm) = true -> cloudscale.addr_Subnet addr <> "" ->
  typed (MemberCreate p (memberRequest lb pm srv addr)).
Proof.
  unfold Pool_schema, PoolBackend_schema, HealthMonitor_schema. intros Hp Hs. bool_to_prop. cbn [well_typed].
  rewrite !andb_true_iff, negb_true_iff, str_empty_false. done.
Qed.

(** The fields of the wanted monitor. *)
Lemma monitor_fields pm : Pool_schema (pm_Ours pm) = true ->
  enum monitor_types (monitorType pm) = true /\
  (1 <=? v1beta1.HealthMonitor_GetUpThreshold (monitor pm)) = true /\
  (1 <=? v1beta1.HealthMonitor_GetDownThreshold (monitor pm)) = true /\
  enum http_methods (v1beta1.HTTPHealthMonitor_GetMethod (v1beta1.hm_HTTP (monitor pm))) = true /\
  enum http_versions (v1beta1.HTTPHealthMonitor_GetVersion (v1beta1.hm_HTTP (monitor pm))) = true.
Proof.
  unfold Pool_schema, PoolBackend_schema, HealthMonitor_schema, HTTPHealthMonitor_schema. fold (monitor pm). intros Hp. bool_to_prop.
  split; [by apply monitor_type_typed|]. split; [by apply threshold_typed|]. split; [by apply threshold_typed|].
  split; [by apply method_typed|by apply version_typed].
Qed.

Lemma monitor_request_typed pm : Pool_schema (pm_Ours pm) = true -> typed (HealthMonitorCreate (healthMonitorReq pm)).
Proof.
  intros (Ht & Hu & Hd & Hm & Hv)%monitor_fields. cbn [well_typed]. unfold new_monitor. cbn [cloudscale.hmr_Type
    cloudscale.hmr_UpThreshold cloudscale.hmr_DownThreshold cloudscale.hmr_HTTP healthMonitorReq]. rewrite Ht, Hu, Hd. cbn [andb].
  replace (enum ["http"; "https"] (monitorType pm)) with (httpConfigAllowed pm)
    by (unfold httpConfigAllowed, enum; cbn; by rewrite orb_false_r).
  destruct (httpConfigAllowed pm); [|done]. cbn [cloudscale.hmhr_Method cloudscale.hmhr_Version cloudscale.hmhr_UrlPath].
  rewrite Hm, Hv. cbn [andb]. unfold v1beta1.HTTPHealthMonitor_GetPath. case_if; [done|by rewrite E].
Qed.

(** Updates set one attribute each. *)
Lemma monitor_updates_typed pm hm : Pool_schema (pm_Ours pm) = true -> only (fun r => typed r) (updateBase pm hm).
Proof.
  intros (_ & Hu & Hd & _)%monitor_fields. unfold updateBase. only_steps; apply updateAttr_only; try done;
    cbn [well_typed]; unfold monitor_change; cbn -[v1beta1.HealthMonitor_GetUpThreshold v1beta1.HealthMonitor_GetDownThreshold];
    rewrite ?min1_optional by done; done.
Qed.

Lemma http_updates_typed uuid h want :
  enum http_methods (cloudscale.hmhr_Method want) = true -> enum http_versions (cloudscale.hmhr_Version want) = true ->
  only (fun r => typed r) (updateHTTP uuid h want).
Proof.
  intros Hm Hv. unfold updateHTTP. only_steps; apply updateAttr_only; try done;
    cbn [well_typed]; unfold monitor_change; cbn -[optional];
    rewrite ?(optional_enum _ _ Hm), ?(optional_enum _ _ Hv); done.
Qed.

(** ** Typing of the parts of a pass *)

Lemma pools_typed lb : LoadBalancer_schema lb = true -> only (fun r => typed r) (ensureLoadBalancerPools lb).
Proof.
  intros [_ Hp]%andb_true_iff. rewrite forallb_forall in Hp. unfold ensureLoadBalancerPools, deleteUnwanted, ensurePool.
  only_steps; try done. rename select ((_, _) ∈ _) into Hin. apply elem_of_lookup_imap in Hin as (j & q & [= -> ->] & Hq).
  unfold shouldPools in Hq. rewrite list_lookup_fmap in Hq. apply fmap_Some in Hq as (pl & Hpl & ->).
  by apply pool_request_typed, Hp, list_elem_of_In, (list_elem_of_lookup_2 _ j).
Qed.

Lemma ensure_typed {L : Lib} lb : LoadBalancer_schema lb = true -> only (fun r => typed r) (ensureLoadBalancer lb).
Proof.
  intros [Hv _]%andb_true_iff. unfold ensureLoadBalancer, findOrCreate, adopt. only_steps; try done.
  - eapply only_mono; [|apply guessLoadbalancerZone_reads]. by intros [] [].
  - cbn. unfold vips. destruct (v1beta1.spec_VirtualIPAddresses (v1beta1.lb_Spec lb)) as [|v [|]]; done.
Qed.

Section Pool.
Context (lb : v1beta1.LoadBalancer) (pm : poolMapping).
Hypothesis Hpool : Pool_schema (pm_Ours pm) = true.

Lemma listener_typed : only (fun r => typed r) (ensureLoadBalancerListener lb pm).
Proof.
  unfold ensureLoadBalancerListener, createListener, updateListener, updateListenerAttr.
  apply only_bind; [by only_steps|]. intros all. rewrite listenersOfPool_eq.
  only_steps; try done; try (by apply listener_request_typed); by apply updateBlock_only.
Qed.

Lemma monitor_typed : only (fun r => typed r) (ensureLoadBalancerHealthMonitor lb pm).
Proof.
  pose proof (monitor_fields pm Hpool) as (_ & _ & _ & Hm & Hv).
  unfold ensureLoadBalancerHealthMonitor, createHealthMonitor.
  only_steps; try done; try (by apply monitor_request_typed); try (by apply monitor_updates_typed).
  cbn [cloudscale.hmr_HTTP healthMonitorReq] in *. case_match; simplify_eq. by apply http_updates_typed.
Qed.

Lemma members_typed servers : only (fun r => typed r) (ensureLoadBalancerPoolMembers lb pm servers).
Proof.
  unfold ensureLoadBalancerPoolMembers. only_steps; try done.
  rename select (_ ∈ membersToCreate _ _) into Hin. apply list_elem_of_In, filter_In in Hin as [Hin _].
  apply list_elem_of_In, shouldPoolMembers_elem in Hin as (srv & inf & addr & _ & _ & _ & _ & Hs & _ & ->).
  by apply member_request_typed.
Qed.

Lemma reconcilePool_typed : only (fun r => typed r) (reconcilePool lb pm).
Proof.
  unfold reconcilePool. only_steps; try done; auto using listener_typed, monitor_typed, members_typed.
  - eapply only_mono; [|apply matchingNodes_reads]. by intros [] [].
  - eapply only_mono; [|apply cloudscaleServersForNodes_reads]. by intros [] [].
Qed.
End Pool.

(** ** A whole pass *)

(** The answers of the API server satisfy the schema. *)
Definition schema_answer (a : action) : Prop :=
  match a with
  | ACall (K8sGet _) (Ok lb) | ACall (K8sUpdate _) (Ok lb) | ACall (K8sStatusUpdate _) (Ok lb) => LoadBalancer_schema lb = true
  | _ => True
  end.

(** So far every request is well typed, if the answers were. *)
Definition typed_so_far (h : list action) : Prop := Forall schema_answer h -> Forall (fun r => typed r) (calls h).

Lemma typed_event h ev : typed_so_far h -> typed_so_far (h ++ [AEvent ev]).
Proof. intros Hh [Ha _]%Forall_app. rewrite calls_app. apply Forall_app. split; [by apply Hh|constructor]. Qed.

Lemma typed_call h r x : typed_so_far h -> typed r -> typed_so_far (h ++ [ACall r x]).
Proof.
  intros Hh Hr [Ha _]%Forall_app. rewrite calls_app. apply Forall_app. split; [by apply Hh|]. by constructor.
Qed.

Lemma typed_only {A} (m : M A) h : only (fun r => typed r) m -> typed_so_far h -> wp m h (fun h' _ => typed_so_far h').
Proof.
  apply (only_invariant (W := list action)); [|intros w ev Hw; by apply typed_event].
  intros w r x w' Hr -> Hw. by apply typed_call.
Qed.

(** After an answer that does not satisfy the schema nothing is claimed. *)
Lemma untyped {A} (m : M A) h : ~ Forall schema_answer h -> wp m h (fun h' _ => typed_so_far h').
Proof.
  intros Hn. eapply wp_mono; [|apply history_grows]. intros h' _ [t ->] [Ha _]%Forall_app. done.
Qed.

(** A step that yields an object: what follows may rely on the schema. *)
Lemma typed_object (m : M v1beta1.LoadBalancer) {B} (f : v1beta1.LoadBalancer -> M B) h :
  wp m h (fun h' o => typed_so_far h' /\ match o with Returned lb => Forall schema_answer h' -> LoadBalancer_schema lb = true | _ => True end) ->
  (forall lb h', typed_so_far h' -> LoadBalancer_schema lb = true -> wp (f lb) h' (fun h' _ => typed_so_far h')) ->
  wp (m ≫= f) h (fun h' _ => typed_so_far h').
Proof.
  intros Hm Hf. apply wp_bind. eapply wp_mono; [|exact Hm]. intros h' [lb|e|s] [Ht Hs]; cbn; try done.
  destruct (LoadBalancer_schema lb) eqn:E; [by apply Hf|]. apply untyped. intros Ha. specialize (Hs Ha). congruence.
Qed.

Lemma saved_finalizers (b : bool) format args lb fs h : typed_so_far h -> LoadBalancer_schema lb = true ->
  wp (if b then wrap format args (call (K8sUpdate (v1beta1.with_Finalizers lb fs))) else mret lb) h (fun h' o =>
    typed_so_far h' /\ match o with Returned lb => Forall schema_answer h' -> LoadBalancer_schema lb = true | _ => True end).
Proof.
  intros Ht Hs. destruct b; [|done]. apply wp_wrap, wp_call; cbn [answers history].
  - intros h' saved ->. split; [by apply typed_call|]. intros [_ Ha]%Forall_app. by inversion Ha.
  - intros h' e ->. split; [by apply typed_call|done].
Qed.

Lemma saved_status (b : bool) format args lb st h : typed_so_far h -> LoadBalancer_schema lb = true ->
  wp (if b then wrap format args (call (K8sStatusUpdate (v1beta1.with_CloudscaleStatus lb st))) else mret lb) h (fun h' o =>
    typed_so_far h' /\ match o with Returned lb => Forall schema_answer h' -> LoadBalancer_schema lb = true | _ => True end).
Proof.
  intros Ht Hs. destruct b; [|done]. apply wp_wrap, wp_call; cbn [answers history].
  - intros h' saved ->. split; [by apply typed_call|]. intros [_ Ha]%Forall_app. by inversion Ha.
  - intros h' e ->. split; [by apply typed_call|done].
Qed.

Section Pass.
Context {L : Lib} (interval : Duration).

Lemma reconcileResources_typed lb e h :
  typed_so_far h -> LoadBalancer_schema lb = true -> wp (reconcileResources lb e) h (fun h' _ => typed_so_far h').
Proof.
  intros Ht Hs. unfold reconcileResources. apply wp_bind, wp_wrap.
  eapply wp_mono; [|exact (wp_and _ _ _ _ (typed_only _ h (pools_typed lb Hs) Ht) (ensureLoadBalancerPools_ours lb h))].
  intros h1 [pools|err|s] [Ht1 Ho]; cbn [wrapped continue]; try done.
  assert (Hp : forall pm, pm ∈ pools -> Pool_schema (pm_Ours pm) = true).
  { intros pm Hpm. apply andb_true_iff in Hs as [_ Hs]. rewrite forallb_forall in Hs. apply Hs. rewrite <- Ho.
    apply list_elem_of_In, list_elem_of_fmap_2, Hpm. }
  apply typed_only; [|done]. apply only_bind; [apply only_mapM; intros pm Hpm; apply reconcilePool_typed; by apply Hp|]. intros ps.
  assert (Hs' : forall l, v1beta1.lb_Spec l = v1beta1.lb_Spec lb -> LoadBalancer_schema l = true)
    by (intros l El; unfold LoadBalancer_schema; by rewrite El).
  unfold refreshPools, refreshVIPs, refreshFloatingIPs.
  only_steps; try done; try (eapply only_mono; [|apply attachFloatingIPs_calls]; by intros []).
  apply Hs'. repeat case_match; by simplify_eq.
Qed.

Lemma reconcileEnsured_typed lb e h :
  typed_so_far h -> LoadBalancer_schema lb = true -> wp (reconcileEnsured lb e) h (fun h' _ => typed_so_far h').
Proof.
  intros Ht Hs. unfold reconcileEnsured. case_if; [apply typed_only; [by only_steps|done]|].
  case_if; [apply typed_only; [by only_steps|done]|]. apply typed_object; [by apply saved_status|].
  intros lb' h' Ht' Hs'. case_if; [apply typed_only; [by only_steps|done]|]. case_if; [done|]. by apply reconcileResources_typed.
Qed.

Lemma reconcileBody_typed lb h :
  typed_so_far h -> LoadBalancer_schema lb = true -> wp (reconcileBody lb) h (fun h' _ => typed_so_far h').
Proof.
  intros Ht Hs. unfold reconcileBody. case_if; [|case_if; [done|]].
  - apply typed_only; [|done]. unfold reconcileDeleted. only_steps; try done.
    eapply only_mono; [|apply cleanupLoadBalancer_calls]. by intros [].
  - unfold reconcileLive. destruct (AddFinalizer _ _) as [fs added]. apply typed_object; [by apply saved_finalizers|].
    intros lb' h' Ht' Hs'. apply wp_bind, wp_wrap. eapply wp_mono; [|exact (typed_only _ h' (ensure_typed lb' Hs') Ht')].
    intros h2 [e|err|s] H2; cbn [wrapped continue]; try done. by apply reconcileEnsured_typed.
Qed.

(** C17: the controller is well typed: as long as the API server answers with manifests that satisfy the schema of the
    resource, every request of a pass is in the range of the interface it goes to: algorithms, protocols and monitor
    types are values of the cloudscale API, ports are int32, thresholds are positive, HTTP settings go with HTTP
    monitors only and are complete, updates never touch what identifies a resource, and every manifest that is written
    back satisfies the schema. *)
Theorem requests_well_typed k :
  wp (Reconcile interval k) [] (fun h' _ => Forall schema_answer h' -> Forall (fun r => typed r) (calls h')).
Proof.
  assert (H0 : typed_so_far []) by (intros _; constructor). intros [lb|e] h' ->; cbn.
  - apply wp_deferred. apply (wp_mono _ _ (fun h' _ => typed_so_far h')); [intros h' [] Ht; cbn; try done; by apply typed_event|].
    destruct (LoadBalancer_schema lb) eqn:E; [by apply reconcileBody_typed; [apply (typed_call [])|]|].
    apply untyped. intros Ha. inversion Ha; subst. cbn in *. congruence.
  - destruct (IgnoreNotFound e); cbn; by intros _; repeat constructor.
Qed.
End Pass.

(** ** What the controller writes into the manifest *)

(** The object as the last answer of the API server has it. *)
Definition answered (a : action) : option v1beta1.LoadBalancer :=
  match a with
  | ACall (K8sGet _) (Ok lb) | ACall (K8sUpdate _) (Ok lb) | ACall (K8sStatusUpdate _) (Ok lb) => Some lb
  | _ => None
  end.

Fixpoint held (h : list action) : option v1beta1.LoadBalancer :=
  match h with
  | [] => None
  | a :: h => match held h with Some lb => Some lb | None => answered a end
  end.

(** Only the controller's own finalizer comes or goes; or UUID and zone are filled in where they are empty. *)
Inductive edit (lb : v1beta1.LoadBalancer) : v1beta1.LoadBalancer -> Prop :=
| edit_finalizers fs : (forall f, f <> LoadBalancerFinalizer -> f ∈ fs <-> f ∈ v1beta1.Finalizers lb) ->
    edit lb (v1beta1.with_Finalizers lb fs)
| edit_uuid uuid zone : v1beta1.UUID lb = "" -> edit lb (v1beta1.with_UUID_Zone lb uuid zone)
| edit_zone zone : v1beta1.UUID lb <> "" -> v1beta1.Zone lb = "" -> edit lb (v1beta1.with_Zone lb zone).

Definition allowed_write (last : option v1beta1.LoadBalancer) (r : req) : Prop :=
  match r with
  | K8sUpdate new => exists lb, last = Some lb /\ edit lb new
  | K8sStatusUpdate new => exists lb, last = Some lb /\ exists st, new = v1beta1.with_Status lb st
  | _ => True
  end.

(** Every write is an allowed change of the object held at the time. *)
Definition edits_allowed (h : list action) : Prop :=
  forall pre r x post, h = pre ++ ACall r x :: post -> allowed_write (held pre) r.

Lemma held_snoc h a : held (h ++ [a]) = match answered a with Some lb => Some lb | None => held h end.
Proof.
  induction h as [|b h IH]; cbn; [by destruct (answered a)|]. rewrite IH. by destruct (answered a), (held h).
Qed.

Lemma edits_snoc h a :
  edits_allowed h -> (forall r x, a = ACall r x -> allowed_write (held h) r) -> edits_allowed (h ++ [a]).
Proof.
  intros Hh Ha pre r x post E. destruct post as [|b post] using rev_ind.
  - apply app_inj_tail in E as [-> E]. eauto.
  - rewrite app_comm_cons, app_assoc in E. apply app_inj_tail in E as [E _]. eauto.
Qed.

(** Calls that are not about the object. *)
Definition elsewhere (r : req) : Prop := match r with K8sGet _ | K8sUpdate _ | K8sStatusUpdate _ => False | _ => True end.

(** The object is [lb], and the writes so far were allowed. *)
Definition holding (lb : v1beta1.LoadBalancer) (h : list action) : Prop := held h = Some lb /\ edits_allowed h.

Lemma holding_event lb h ev : holding lb h -> holding lb (h ++ [AEvent ev]).
Proof. intros [Hl Hh]. split; [by rewrite held_snoc|]. by apply edits_snoc. Qed.

Lemma holding_only {A} (m : M A) lb h : only elsewhere m -> holding lb h -> wp m h (fun h' _ => holding lb h').
Proof.
  apply (only_invariant (W := list action)); [|intros w ev Hw; by apply holding_event].
  intros w r x w' Hr -> [Hl Hh]. split; [rewrite held_snoc; by destruct r|].
  apply edits_snoc; [done|]. intros r' x' [= -> _]. by destruct r'.
Qed.

(** The end of a step that yields the object. *)
Definition object_step (h : list action) (o : outcome v1beta1.LoadBalancer) : Prop :=
  edits_allowed h /\ match o with Returned lb => holding lb h | _ => True end.

Lemma update_step format args lb new h :
  holding lb h -> edit lb new -> wp (wrap format args (call (K8sUpdate new))) h object_step.
Proof.
  intros [Hl Hh] He. assert (Hw : forall x, edits_allowed (h ++ [ACall (K8sUpdate new) x])).
  { intros x. apply edits_snoc; [done|]. intros r x' [= <- _]. by exists lb. }
  apply wp_wrap, wp_call; intros h' v ->; (split; [apply Hw|]); [|done]. split; [by rewrite held_snoc|apply Hw].
Qed.

Lemma status_step format args lb new h :
  holding lb h -> (exists st, new = v1beta1.with_Status lb st) -> wp (wrap format args (call (K8sStatusUpdate new))) h object_step.
Proof.
  intros [Hl Hh] He. assert (Hw : forall x, edits_allowed (h ++ [ACall (K8sStatusUpdate new) x])).
  { intros x. apply edits_snoc; [done|]. intros r x' [= <- _]. by exists lb. }
  apply wp_wrap, wp_call; intros h' v ->; (split; [apply Hw|]); [|done]. split; [by rewrite held_snoc|apply Hw].
Qed.

Lemma edits_bind {B} (m : M v1beta1.LoadBalancer) (f : v1beta1.LoadBalancer -> M B) h :
  wp m h object_step -> (forall lb h', holding lb h' -> wp (f lb) h' (fun h' _ => edits_allowed h')) ->
  wp (m ≫= f) h (fun h' _ => edits_allowed h').
Proof. intros Hm Hf. apply wp_bind. eapply wp_mono; [|exact Hm]. intros h' [lb|e|s] [Ha Ho]; cbn; auto. Qed.

(** A part that does not write the object, and what follows it. *)
Lemma edits_elsewhere {A B} (m : M A) (f : A -> M B) lb h :
  only elsewhere m -> holding lb h -> (forall a h', holding lb h' -> wp (f a) h' (fun h' _ => edits_allowed h')) ->
  wp (m ≫= f) h (fun h' _ => edits_allowed h').
Proof.
  intros Hm Hh Hf. apply wp_bind. eapply wp_mono; [|exact (holding_only m lb h Hm Hh)].
  intros h' [a|e|s] Ha; cbn; auto; by apply Ha.
Qed.

Lemma edits_only {A} (m : M A) lb h : only elsewhere m -> holding lb h -> wp m h (fun h' _ => edits_allowed h').
Proof. intros Hm Hh. eapply wp_mono; [|exact (holding_only m lb h Hm Hh)]. intros h' o Ha. by apply Ha. Qed.

Lemma same_spec_status lb new :
  v1beta1.lb_Meta new = v1beta1.lb_Meta lb -> v1beta1.lb_Spec new = v1beta1.lb_Spec lb -> exists st, new = v1beta1.with_Status lb st.
Proof. intros Hm Hs. exists (v1beta1.lb_Status new). unfold v1beta1.with_Status. rewrite <- Hm, <- Hs. by destruct new. Qed.

Section Edits.
Context {L : Lib} {LL : LibLaws L} (interval : Duration).

Lemma nodes_elsewhere sel : only elsewhere (matchingNodes sel).
Proof. unfold matchingNodes. only_steps; done. Qed.

Lemma servers_elsewhere nodes : only elsewhere (cloudscaleServersForNodes nodes).
Proof. unfold cloudscaleServersForNodes, serverForNode. only_steps; done. Qed.

Lemma zone_elsewhere lb : only elsewhere (guessLoadbalancerZone lb).
Proof. unfold guessLoadbalancerZone. only_steps; auto using nodes_elsewhere, servers_elsewhere. Qed.

Lemma ensure_elsewhere lb : only elsewhere (ensureLoadBalancer lb).
Proof. unfold ensureLoadBalancer, findOrCreate, adopt. only_steps; try done. apply zone_elsewhere. Qed.

Lemma cleanup_elsewhere lb : only elsewhere (cleanupLoadBalancer lb).
Proof. eapply only_mono; [|apply cleanupLoadBalancer_calls]. by intros []. Qed.

Lemma reconcilePool_elsewhere lb pm : only elsewhere (reconcilePool lb pm).
Proof.
  unfold reconcilePool. only_steps; try done; auto using nodes_elsewhere, servers_elsewhere.
  - eapply only_mono; [|apply ensureLoadBalancerListener_only]. by intros [].
  - eapply only_mono; [|apply ensureLoadBalancerHealthMonitor_only]. by intros [].
  - eapply only_mono; [|apply ensureLoadBalancerPoolMembers_calls]. by intros [].
Qed.

Lemma reconcileResources_edits lb e h : holding lb h -> wp (reconcileResources lb e) h (fun h' _ => edits_allowed h').
Proof.
  intros Hh. unfold reconcileResources. apply (edits_elsewhere _ _ lb); [|done|].
  { apply only_wrap. eapply only_mono; [|apply ensureLoadBalancerPools_calls]. by intros []. }
  intros pools h1 H1. apply (edits_elsewhere _ _ lb); [|done|]; [by only_steps; apply reconcilePool_elsewhere|].
  intros ps h2 H2. destruct (refreshPools lb ps) as [b1 l1] eqn:E1. destruct (refreshVIPs l1 (frontendIPs e)) as [b2 l2] eqn:E2.
  apply (edits_elsewhere _ _ lb); [|done|].
  { apply only_wrap. eapply only_mono; [|apply attachFloatingIPs_calls]. by intros []. }
  intros cidrs h3 H3. destruct (refreshFloatingIPs l2 _) as [b3 l3] eqn:E3. unfold refreshPools, refreshVIPs, refreshFloatingIPs in *.
  assert (Hl : exists st, l3 = v1beta1.with_Status lb st) by (apply same_spec_status; repeat case_match; by simplify_eq).
  destruct (b1 || b2 || b3); [|by apply H3]. apply wp_bind, wp_bind. eapply wp_mono; [|exact (status_step _ _ lb l3 h3 H3 Hl)].
  by intros h4 [] [].
Qed.

Lemma reconcileEnsured_edits lb e h : holding lb h -> wp (reconcileEnsured lb e) h (fun h' _ => edits_allowed h').
Proof.
  intros Hh. unfold reconcileEnsured. case_if; [|case_if]; str_prop.
  - apply edits_bind; [apply (update_step _ _ lb); [done|by constructor]|]. by intros l h' [].
  - apply edits_bind; [apply (update_step _ _ lb); [done|by constructor]|]. by intros l h' [].
  - apply edits_bind.
    { case_if; [apply (status_step _ _ lb); [done|by eexists]|]. by split; [apply Hh|]. }
    intros l h' Hl. case_if; [by apply (edits_only _ l); [only_steps|]|]. case_if; [by apply Hl|]. by apply reconcileResources_edits.
Qed.

Lemma reconcileBody_edits lb h : holding lb h -> wp (reconcileBody lb) h (fun h' _ => edits_allowed h').
Proof.
  intros Hh. unfold reconcileBody. case_if; [|case_if; [by apply Hh|]].
  - unfold reconcileDeleted. apply (edits_elsewhere _ _ lb); [apply only_wrap, cleanup_elsewhere|done|]. intros _ h1 H1.
    destruct (RemoveFinalizer _ _) as [fs removed] eqn:Er. destruct removed; [|by apply H1]. apply wp_bind, wp_bind.
    eapply wp_mono; [|apply (update_step _ _ lb); [exact H1|]]; [by intros h2 [] []|]. constructor. intros f Hf.
    replace fs with (RemoveFinalizer (v1beta1.Finalizers lb) LoadBalancerFinalizer).1 by (by rewrite Er).
    rewrite RemoveFinalizer_in. naive_solver.
  - unfold reconcileLive. destruct (AddFinalizer _ _) as [fs added] eqn:Ea. apply edits_bind.
    + destruct added; [|by split; [apply Hh|]]. apply (update_step _ _ lb); [done|]. constructor. intros f Hf.
      replace fs with (AddFinalizer (v1beta1.Finalizers lb) LoadBalancerFinalizer).1 by (by rewrite Ea).
      rewrite AddFinalizer_in. naive_solver.
    + intros l h1 H1. apply (edits_elsewhere _ _ l); [apply only_wrap, ensure_elsewhere|done|]. intros e h2. apply reconcileEnsured_edits.
Qed.

(** C8: the manifest belongs to its author: whatever the services answer, each write of a pass changes the object that
    the API server answered last, and in one of three ways only: the controller's own finalizer is added or removed,
    UUID and zone are filled in where the UUID (or, with a UUID, the zone) is empty, or the status is replaced.  Nothing
    else of the specification and the metadata is ever written, and a saved UUID is never overwritten. *)
Theorem manifest_edits k : wp (Reconcile interval k) [] (fun h' _ => edits_allowed h').
Proof.
  assert (H0 : forall x, edits_allowed [ACall (K8sGet k) x]) by (intros x; apply (edits_snoc []); [by intros []|by intros r x' [= <- _]]).
  intros [lb|e] h' ->; cbn.
  - apply wp_deferred. apply (wp_mono _ _ (fun h' _ => edits_allowed h')).
    + intros h' [] Ha; cbn; try done. by apply edits_snoc.
    + by apply (reconcileBody_edits lb).
  - by destruct (IgnoreNotFound e); cbn.
Qed.
End Edits.

Lemma manifest_edits_witness :
  LibLaws ref_lib /\ wp (Reconcile 0 sample_key) [] (fun h' _ => edits_allowed h').
Proof. split; [exact ref_lib_laws|]. apply (manifest_edits 0). Defined.
