(* ===== verification/System.v ===== *)
(** * System: the services together, and the state in which nothing is left to do

    The components are verified against one interface per resource.  Here the
    interfaces are put together: [SystemAPI] adds the Kubernetes API as the
    controller sees it, what servers and nodes exist, and which call can change
    which resource.  [settled] is the abstract specification of the controller: the
    manifest is implemented and reported.  The file proves that a pass over a
    settled system only reads. *)

From Stdlib Require Import ZArith Lia Sorting.Sorted.
From stdpp Require Import base list strings gmap.
From S2P Require Import Prelude GoLib ApiTypes Cloudscale Effects External Helpers Samples.
From S2P Require Import Nodes FloatingIPs PoolMembers HealthMonitor Listener Pools LoadBalancers Reconcile.
Open Scope string_scope.
Open Scope Z_scope.
Open Scope list_scope.

(** ** The interface of the whole system *)

Definition key_of (lb : v1beta1.LoadBalancer) : v1beta1.NamespacedName :=
  {| v1beta1.nn_Namespace := v1beta1.Namespace lb; v1beta1.nn_Name := v1beta1.Name lb |}.

(** The parts of the state that a call can change. *)
Inductive view :=
| VObject (k : v1beta1.NamespacedName)
| VLBs | VPools | VListeners | VMonitors | VFips
| VMembers (pool : string).

(** Which call can change which part.  Deleting a load balancer or a pool may take
    what is below it along. *)
Definition touches (r : req) (v : view) : Prop :=
  match r, v with
  | K8sUpdate lb, VObject k | K8sStatusUpdate lb, VObject k => key_of lb = k
  | (LBCreate _ | LBUpdate _ _), VLBs => True
  | LBDelete _, (VLBs | VPools | VListeners | VMonitors | VFips | VMembers _) => True
  | PoolCreate _, VPools => True
  | PoolDelete _, (VPools | VListeners | VMonitors | VMembers _) => True
  | (ListenerCreate _ | ListenerUpdate _ _ | ListenerDelete _), VListeners => True
  | (HealthMonitorCreate _ | HealthMonitorUpdate _ _ | HealthMonitorDelete _), VMonitors => True
  | FloatingIPUpdate _ _, VFips => True
  | (MemberCreate p _ | MemberDelete p _), VMembers q => p = q
  | _, _ => False
  end.

Lemma read_touches_nothing r v : is_read r -> ~ touches r v.
Proof. intros [Hc Hk] Ht. by destruct r, v. Qed.

Class SystemAPI {L : Lib} (W : Type) `{World W} `{!FloatingIPAPI W} `{!MemberAPI W} `{!HealthMonitorAPI W}
    `{!ListenerAPI W} `{!PoolAPI W} `{!LoadBalancerAPI W} := {
  object : W -> v1beta1.NamespacedName -> option v1beta1.LoadBalancer;
  node_list : W -> v1beta1.LabelSelector -> list corev1.Node;
  server_of : W -> string -> option cloudscale.Server;
  (** Kubernetes: a get answers the stored object, a successful update stores it. *)
  k8s_get w k lb w' : answers w (K8sGet k) (Ok lb) w' -> object w k = Some lb /\ key_of lb = k;
  k8s_404 w k e w' : answers w (K8sGet k) (Err e) w' -> IsNotFound e = true -> object w k = None;
  k8s_update w lb x w' : answers w (K8sUpdate lb) (Ok x) w' ->
    x = lb /\ (v1beta1.DeletionTimestamp_IsZero lb = true -> object w' (key_of lb) = Some lb);
  k8s_status_update w lb x w' : answers w (K8sStatusUpdate lb) (Ok x) w' ->
    x = lb /\ (v1beta1.DeletionTimestamp_IsZero lb = true -> object w' (key_of lb) = Some lb);
  k8s_nodes w sel l w' : answers w (K8sListNodes sel) (Ok l) w' -> l = node_list w sel;
  (** Servers: an answer tells what exists. *)
  server_ok w id s w' : answers w (ServerGet id) (Ok s) w' -> s = server_of w id;
  server_404 w id e w' : answers w (ServerGet id) (Err e) w' -> IsCloudscaleNotFoundErr e = true -> server_of w id = None;
  (** A call changes only what it touches; nodes and servers are not the controller's. *)
  frame_object w r x w' k : answers w r x w' -> ~ touches r (VObject k) -> object w' k = object w k;
  frame_pools w r x w' : answers w r x w' -> ~ touches r VPools -> pools w' = pools w;
  frame_listeners w r x w' : answers w r x w' -> ~ touches r VListeners -> listeners w' = listeners w;
  frame_monitors w r x w' : answers w r x w' -> ~ touches r VMonitors -> monitors w' = monitors w;
  frame_fips w r x w' : answers w r x w' -> ~ touches r VFips -> floating_ips w' = floating_ips w;
  frame_members w r x w' p : answers w r x w' -> ~ touches r (VMembers p) -> members w' p = members w p;
  frame_nodes w r x w' sel : answers w r x w' -> node_list w' sel = node_list w sel;
  frame_servers w r x w' id : answers w r x w' -> server_of w' id = server_of w id;
  object_recorded w ev k : object (recorded w ev) k = object w k;
  nodes_recorded w ev sel : node_list (recorded w ev) sel = node_list w sel;
  servers_recorded w ev id : server_of (recorded w ev) id = server_of w id;
  (** Identifiers. *)
  lst_unique w : NoDup (map cloudscale.lst_UUID (listeners w));
  hm_unique w : NoDup (map cloudscale.hm_UUID (monitors w));
  lb_identified w c : c ∈ lbs w -> cloudscale.lb_UUID c <> "" /\ cloudscale.lb_Zone c <> "";
}.

Section System.
Context {L : Lib} {LL : LibLaws L} {W : Type} `{World W} `{!FloatingIPAPI W} `{!MemberAPI W}
  `{!HealthMonitorAPI W} `{!ListenerAPI W} `{!PoolAPI W} `{!LoadBalancerAPI W} `{!SystemAPI W}.
Implicit Types (w : W) (lb : v1beta1.LoadBalancer).

(** ** States that cannot be told apart *)

Record same w w' : Prop := {
  same_object k : object w' k = object w k;
  same_lbs : lbs w' = lbs w;
  same_pools : pools w' = pools w;
  same_listeners : listeners w' = listeners w;
  same_monitors : monitors w' = monitors w;
  same_fips : floating_ips w' = floating_ips w;
  same_members p : members w' p = members w p;
  same_nodes sel : node_list w' sel = node_list w sel;
  same_servers id : server_of w' id = server_of w id;
}.

#[export] Instance same_preorder : PreOrder same.
Proof.
  split; [by intros w|]. intros w1 w2 w3 H1 H2. split; intros; etransitivity; first [apply H2|apply H1].
Qed.

Lemma same_recorded w ev : same w (recorded w ev).
Proof.
  split; intros; [apply object_recorded|apply lb_recorded|apply pool_recorded|apply lst_recorded|apply hm_recorded|
    apply fip_recorded|apply mem_recorded|apply nodes_recorded|apply servers_recorded].
Qed.

Lemma same_read w r x w' : is_read r -> answers w r x w' -> same w w'.
Proof.
  intros Hr Ha. pose proof (fun v => read_touches_nothing r v Hr) as Ht.
  split; intros; [by eapply frame_object| |by eapply frame_pools|by eapply frame_listeners|by eapply frame_monitors|
    by eapply frame_fips|by eapply frame_members|by eapply frame_nodes|by eapply frame_servers].
  eapply lb_frame; [|exact Ha]. destruct Hr as [Hr _]. by destruct r.
Qed.

(** ** What the controller reads about servers *)

Definition node_mapping w (n : corev1.Node) : option nodeServerMapping :=
  if HasPrefix (corev1.node_ProviderID n) cloudscaleProviderIDPrefix
  then (fun s => {| nsm_Node := n; nsm_Server := s |}) <$>
    server_of w (TrimPrefix (corev1.node_ProviderID n) cloudscaleProviderIDPrefix)
  else None.

(** The servers behind a pool, in the order of their node names. *)
Definition pool_servers w (pool : v1beta1.Pool) : list nodeServerMapping :=
  omap (node_mapping w) (SortFunc (on_key corev1.node_Name)
    (node_list w (v1beta1.be_NodeSelector (v1beta1.pool_Backend pool)))).

Lemma wp_read w r Q :
  is_read r ->
  (forall v w', same w w' -> answers w r (Ok v) w' -> Q w' (Returned v)) ->
  (forall e w', same w w' -> answers w r (Err e) w' -> Q w' (Failed e)) ->
  wp (call r) w Q.
Proof. intros Hr HO HE. apply wp_call; intros; [apply HO|apply HE]; eauto using same_read. Qed.

Lemma matchingNodes_service w sel :
  wp (matchingNodes sel) w (fun w' o => same w w' /\ match o with
    | Returned l => l = SortFunc (on_key corev1.node_Name) (node_list w sel)
    | _ => True
    end).
Proof.
  unfold matchingNodes. apply wp_bind, wp_wrap, wp_read; cbn [wrapped continue]; [done| |done].
  intros _ w1 Hs1 _. apply wp_bind, wp_wrap, wp_read; cbn [wrapped continue]; [done| |].
  - intros l w2 Hs2 ->%k8s_nodes. cbn. split; [by etransitivity|]. by rewrite (same_nodes _ _ Hs1).
  - intros e w2 Hs2 _. by split; [etransitivity|].
Qed.

Lemma serverForNode_service w servers warnings n :
  wp (serverForNode (servers, warnings) n) w (fun w' o => same w w' /\ match o with
    | Returned (servers', _) => servers' = servers ++ omap (node_mapping w) [n]
    | _ => True
    end).
Proof.
  unfold serverForNode, node_mapping. cbn [omap list_omap].
  destruct (str_empty (corev1.node_ProviderID n)) eqn:Ee; str_prop.
  { rewrite Ee. cbn. by rewrite app_nil_r. }
  destruct (HasPrefix _ _) eqn:Ep; cbn [negb]; [|cbn; by rewrite app_nil_r].
  cbn. intros x w1 Ha. assert (Hs : same w w1) by (by eapply same_read; [|exact Ha]).
  destruct x as [[s|]|e]; cbn.
  - apply server_ok in Ha as <-. done.
  - apply server_ok in Ha as <-. cbn. by rewrite app_nil_r.
  - destruct (IsCloudscaleNotFoundErr e) eqn:En; cbn; [|done].
    apply server_404 in Ha as ->; [|done]. cbn. by rewrite app_nil_r.
Qed.

Lemma node_mapping_eq w w' n : (forall id, server_of w' id = server_of w id) -> node_mapping w' n = node_mapping w n.
Proof. intros Hs. unfold node_mapping. by rewrite Hs. Qed.

Lemma pool_servers_eq w w' pool :
  (forall sel, node_list w' sel = node_list w sel) -> (forall id, server_of w' id = server_of w id) ->
  pool_servers w' pool = pool_servers w pool.
Proof.
  intros Hn Hs. unfold pool_servers. rewrite Hn.
  induction (SortFunc _ _) as [|n l IH]; cbn; [done|]. by rewrite (node_mapping_eq _ _ _ Hs), IH.
Qed.

Lemma node_mapping_same w w' n : same w w' -> node_mapping w' n = node_mapping w n.
Proof. intros []. by apply node_mapping_eq. Qed.

Lemma pool_servers_same w w' pool : same w w' -> pool_servers w' pool = pool_servers w pool.
Proof. intros []. by apply pool_servers_eq. Qed.

Lemma cloudscaleServersForNodes_service w nodes :
  wp (cloudscaleServersForNodes nodes) w (fun w' o => same w w' /\ match o with
    | Returned (servers, _) => servers = omap (node_mapping w) nodes
    | _ => True
    end).
Proof.
  apply wp_foldM with (I := fun pre acc w' => same w w' /\ fst acc = omap (node_mapping w) pre); [done| |].
  - intros pre n rest [servers warnings] w1 _ [Hs Hacc]. cbn in Hacc.
    eapply wp_mono; [|apply serverForNode_service].
    intros w2 [[servers' warnings']|e|s] [Hs2 Ho]; [|by split; [etransitivity|]..].
    split; [by etransitivity|]. rewrite Ho, Hacc, omap_app. cbn. by rewrite (node_mapping_same _ _ _ Hs).
  - by intros [servers warnings] w1 [Hs Hacc].
Qed.

(** ** The abstract specification *)

(** What the controller finds settled about one pool of the manifest. *)
Record pool_settled w lb (pm : poolMapping) : Prop := {
  ps_pooled : all_pooled (listeners w) = true;
  ps_listener : exists l, listeners_of (cloudscale.pool_UUID (pm_Theirs pm)) (listeners w) = [l] /\
    listener_agrees (listenerReq lb pm) (allowedCIDRs pm) l;
  ps_monitor : exists m, monitors_of (cloudscale.pool_UUID (pm_Theirs pm)) (monitors w) = [m] /\
    cloudscale.hm_Type m = cloudscale.hmr_Type (healthMonitorReq pm) /\ plan (healthMonitorReq pm) m = [];
  ps_only_wanted m : m ∈ members w (cloudscale.pool_UUID (pm_Theirs pm)) ->
    exists r, r ∈ shouldPoolMembers lb pm (pool_servers w (pm_Ours pm)) /\ implements m r;
  ps_all_wanted r : r ∈ shouldPoolMembers lb pm (pool_servers w (pm_Ours pm)) ->
    exists m, m ∈ members w (cloudscale.pool_UUID (pm_Theirs pm)) /\ implements m r;
}.

(** What the status says about a pool. *)
Definition pool_status w (pm : poolMapping) : v1beta1.StatusPool :=
  {| v1beta1.sp_Name := v1beta1.pool_Name (pm_Ours pm);
     v1beta1.sp_Backends := statusBackends (members w (cloudscale.pool_UUID (pm_Theirs pm))) |}.

(** The load balancer of the manifest is there, ready and the controller's. *)
Record lb_ready w lb (e : cloudscale.LoadBalancer) : Prop := {
  lr_zone : v1beta1.Zone lb <> "";
  lr_in : e ∈ lbs w;
  lr_uuid : cloudscale.lb_UUID e = v1beta1.UUID lb;
  lr_managed : managed e;
  lr_stable : cloudscale.lb_Status e <> "changing";
  lr_status : v1beta1.status_CloudscaleStatus (v1beta1.lb_Status lb) = cloudscale.lb_Status e;
}.

(** No two pools of a load balancer have the same name. *)
Definition pools_named w : Prop :=
  forall a b, a ∈ pools w -> b ∈ pools w -> cloudscale.pool_LoadBalancer a = cloudscale.pool_LoadBalancer b ->
    cloudscale.pool_Name a = cloudscale.pool_Name b -> a = b.

(** The pools of the manifest are the pools of the load balancer, through [ms]. *)
Record pools_mapped w lb (ms : list poolMapping) : Prop := {
  pm_manifest : map pm_Ours ms = v1beta1.spec_Pools (v1beta1.lb_Spec lb);
  pm_theirs m : m ∈ ms -> pm_Theirs m ∈ pools w /\ pool_implements (pm_Theirs m) (poolRequest lb (pm_Ours m));
  pm_no_other a : a ∈ pools w -> cloudscale.pool_LoadBalancer a = v1beta1.UUID lb ->
    exists s, s ∈ shouldPools lb /\ pool_implements a s;
  pm_named : pools_named w;
}.

(** Floating IPs are attached and reported. *)
Definition fips_attached w lb : Prop :=
  forall c, c ∈ wantedCIDRs lb -> exists f, f ∈ floating_ips w /\ cloudscale.fip_Network f = c /\
    cloudscale.fip_LoadBalancer f = Some {| cloudscale.lbs_UUID := v1beta1.UUID lb |}.

Definition fips_reported lb : Prop :=
  StronglySorted str_lt (map v1beta1.sfip_CIDR (v1beta1.status_FloatingIPAddresses (v1beta1.lb_Status lb))) /\
  forall c, c ∈ map v1beta1.sfip_CIDR (v1beta1.status_FloatingIPAddresses (v1beta1.lb_Status lb)) <-> c ∈ wantedCIDRs lb.

(** The manifest [lb] is implemented by the load balancer [e] and the pools [ms], and reported. *)
Record implemented w lb (e : cloudscale.LoadBalancer) (ms : list poolMapping) : Prop := {
  im_ready : lb_ready w lb e;
  im_pools : pools_mapped w lb ms;
  im_settled m : m ∈ ms -> pool_settled w lb m;
  im_fips : fips_attached w lb;
  im_status_pools : v1beta1.status_Pools (v1beta1.lb_Status lb) = map (pool_status w) ms;
  im_status_vips : v1beta1.status_VirtualIPAddresses (v1beta1.lb_Status lb) = frontendIPs e;
  im_status_fips : fips_reported lb;
}.

(** The system has nothing left to do for the object of key [k]. *)
Definition settled w (k : v1beta1.NamespacedName) : Prop :=
  exists lb e ms, object w k = Some lb /\ v1beta1.DeletionTimestamp_IsZero lb = true /\
    LoadBalancerFinalizer ∈ v1beta1.Finalizers lb /\ implemented w lb e ms.

Lemma pool_settled_same w w' lb pm : same w w' -> pool_settled w lb pm -> pool_settled w' lb pm.
Proof.
  intros Hs [H1 H2 H3 H4 H5]. pose proof (pool_servers_same w w' (pm_Ours pm) Hs) as Hp.
  split; rewrite ?(same_listeners _ _ Hs), ?(same_monitors _ _ Hs), ?(same_members _ _ Hs), ?Hp; auto.
Qed.

(** ** Passes that only read *)

(** Still as in [w0], and nothing but reads since the history [h0]. *)
Definition still w0 (h0 : list action) (s : W * list action) : Prop :=
  same w0 (fst s) /\ exists t, snd s = h0 ++ t /\ Forall is_read (calls t).

(** [m] only reads, fails only after a fault, and returns a value of [R]. *)
Definition quietly {A} w0 h0 (m : M A) (R : A -> Prop) : Prop :=
  forall s, still w0 h0 s -> wp m s (fun s' o => still w0 h0 s' /\
    match o with Returned a => R a | Failed _ => faulted (snd s') | Panicked _ => False end).

Section Quiet.
Context (w0 : W) (h0 : list action).
Local Abbreviation quiet := (quietly w0 h0).

Lemma quiet_mono {A} (m : M A) (R R' : A -> Prop) : (forall a, R a -> R' a) -> quiet m R -> quiet m R'.
Proof. intros HR Hm s Hs. eapply wp_mono; [|by apply Hm]. intros s' []; naive_solver. Qed.

Lemma quiet_ret {A} (a : A) (R : A -> Prop) : R a -> quiet (mret a) R.
Proof. by intros HR s Hs. Qed.

Lemma quiet_bind {A B} (m : M A) (f : A -> M B) (R : A -> Prop) (R' : B -> Prop) :
  quiet m R -> (forall a, R a -> quiet (f a) R') -> quiet (m ≫= f) R'.
Proof.
  intros Hm Hf s Hs. apply wp_bind. eapply wp_mono; [|by apply Hm].
  intros s' [a|e|r] [Hs' Ho]; cbn; [|done|done]. by apply Hf.
Qed.

Lemma quiet_wrap {A} format args (m : M A) R : quiet m R -> quiet (wrap format args m) R.
Proof. intros Hm s Hs. apply wp_wrap. eapply wp_mono; [|by apply Hm]. by intros s' []. Qed.

Lemma still_event s ev : still w0 h0 s -> still w0 h0 (recorded s ev).
Proof.
  intros [Hs (t & Ht & Hr)]. split; [cbn; etransitivity; [exact Hs|apply same_recorded]|].
  exists (t ++ [AEvent ev]). cbn. rewrite Ht, app_assoc, calls_app, app_nil_r. done.
Qed.

Lemma still_read s r x s' : still w0 h0 s -> is_read r -> answers s r x s' -> still w0 h0 s'.
Proof.
  intros [Hs (t & Ht & Hf)] Hr [Ha Hh]. split; [etransitivity; [exact Hs|by eapply same_read]|].
  exists (t ++ [ACall r x]). rewrite Hh, Ht, app_assoc, calls_app. split; [done|]. apply Forall_app. split; [done|]. by constructor; [|constructor].
Qed.

Lemma quiet_emit {A} ev (k : M A) R : quiet k R -> quiet (Emit ev k) R.
Proof. intros Hk s Hs. apply Hk. by apply still_event. Qed.

Lemma quiet_call r (R : val r -> Prop) :
  is_read r -> (forall e, fault (ACall r (Err e))) ->
  (forall w v w', same w0 w -> answers w r (Ok v) w' -> R v) ->
  quiet (call r) R.
Proof.
  intros Hr Hf HR s Hs x s' Ha. pose proof (still_read _ _ _ _ Hs Hr Ha) as Hs'.
  destruct Ha as [Ha Hh]. destruct x as [v|e]; cbn; (split; [done|]).
  - eapply HR; [|exact Ha]. apply Hs.
  - rewrite Hh. by apply faulted_last.
Qed.

(** A program that reads whatever it is answered. *)
Lemma quiet_reads {A} (m : M A) (R : A -> Prop) :
  only is_read m -> fails_only faulted m -> panic_free m ->
  (forall w, same w0 w -> wp m w (fun w' o => match o with Returned a => R a | _ => True end)) ->
  quiet m R.
Proof.
  intros Hr Hf Hp HR [w h] Hs.
  eapply wp_mono; [|exact (wp_and _ _ _ _ (only_invariant _ (still w0 h0) m (w, h) (fun s r x s' Hr' Ha Hs' => still_read s r x s' Hs' Hr' Ha)
    (fun s ev => still_event s ev) Hr Hs)
    (wp_traced m w h _ _ (HR w (proj1 Hs)) (wp_and _ _ _ _ (Hf h) (panic_free_history m h Hp))))].
  intros s' [a|e|r] (Hst & Ha & Hb & Hc); split; try done. by apply (Hc r).
Qed.

Lemma quiet_mapM {A B} (l : list A) (body : A -> M B) (R : A -> B -> Prop) :
  (forall x, x ∈ l -> quiet (body x) (R x)) -> quiet (mapM l body) (Forall2 R l).
Proof.
  induction l as [|x l IH]; intros Hb; cbn; [by apply (quiet_ret [])|].
  eapply quiet_bind; [apply Hb; by left|]. intros y Hy.
  eapply quiet_bind; [apply IH; intros; apply Hb; by right|]. intros ys Hys. apply (quiet_ret (y :: ys)). by constructor.
Qed.

Lemma quiet_forM_ {A} (l : list A) body :
  (forall x, x ∈ l -> quiet (body x) (fun _ => True)) -> quiet (forM_ l body) (fun _ => True).
Proof.
  induction l as [|x l IH]; intros Hb; cbn; [by apply (quiet_ret tt)|].
  eapply quiet_bind; [apply Hb; by left|]. intros _ _. apply IH. intros; apply Hb; by right.
Qed.

Lemma quiet_foldM {A B} (l : list A) (acc : B) body (I : list A -> B -> Prop) :
  I [] acc ->
  (forall pre x rest acc, l = pre ++ x :: rest -> I pre acc -> quiet (body acc x) (I (pre ++ [x]))) ->
  quiet (foldM l acc body) (I l).
Proof.
  intros H0 Hb. cut (forall rest pre acc, l = pre ++ rest -> I pre acc -> quiet (foldM rest acc body) (I l)).
  { intros Hc. by apply (Hc l [] acc). }
  induction rest as [|x rest IH]; intros pre acc' El HI; cbn.
  - apply (quiet_ret acc'). by rewrite El, app_nil_r.
  - eapply quiet_bind; [by eapply Hb|]. intros b Hbb. apply (IH (pre ++ [x])); [|done]. by rewrite <- app_assoc.
Qed.
End Quiet.
End System.
