(* ===== verification/Quiet.v ===== *)
(** * Quiet: a pass over a settled system only reads

    Component by component, then for [Reconcile]: when the manifest is implemented
    and reported, a pass makes no write, to Kubernetes or to cloudscale, and asks to
    be run again after the maximal interval. *)

From Stdlib Require Import ZArith Lia Sorting.Sorted.
From stdpp Require Import base list strings gmap.
From S2P Require Import Prelude GoLib ApiTypes Cloudscale Effects External Helpers Samples.
From S2P Require Import Nodes FloatingIPs PoolMembers HealthMonitor Listener Pools LoadBalancers Reconcile System.
Open Scope string_scope.
Open Scope Z_scope.
Open Scope list_scope.

(** ** Updates of what already agrees *)

Lemma updateListener_agrees lb pool l :
  listener_agrees (listenerReq lb pool) (allowedCIDRs pool) l -> updateListener lb pool l = mret l.
Proof.
  intros (_ & _ & Hc & H1 & H2 & H3). apply Equal_allowedCIDRs in Hc. apply Z.eqb_eq in H1, H2, H3.
  unfold updateListener. cbn zeta. rewrite Hc. unfold updateListenerAttr, updateBlock. cbn -[listenerReq].
  rewrite H1. cbn -[listenerReq]. rewrite H2. cbn -[listenerReq]. by rewrite H3.
Qed.

Lemma updateBase_agrees pool m : planBase (healthMonitorReq pool) m = [] -> updateBase pool m = mret m.
Proof.
  unfold planBase. cbn zeta. rewrite !app_nil, !unless_nil. intros (H1 & H2 & H3 & H4).
  unfold updateBase. cbn zeta. rewrite H1. unfold updateAttr, updateBlock. cbn -[healthMonitorReq].
  rewrite H2. cbn -[healthMonitorReq]. rewrite H3. cbn -[healthMonitorReq]. by rewrite H4.
Qed.

Lemma updateHTTP_agrees uuid h want : planHTTP want h = [] -> updateHTTP uuid h want = mret h.
Proof.
  unfold planHTTP. rewrite !app_nil, !unless_nil. intros (H1 & H2 & H3 & H4 & H5).
  unfold updateHTTP. cbn zeta. rewrite H1. unfold updateAttr, updateBlock. cbn.
  rewrite H2. cbn. rewrite H3. cbn. rewrite H4. cbn. by rewrite H5.
Qed.

Section Quiet.
Context {L : Lib} {LL : LibLaws L} {W : Type} `{World W} `{!FloatingIPAPI W} `{!MemberAPI W}
  `{!HealthMonitorAPI W} `{!ListenerAPI W} `{!PoolAPI W} `{!LoadBalancerAPI W} `{!SystemAPI W}.
Context (w0 : W) (h0 : list action).
Implicit Types (lb : v1beta1.LoadBalancer) (pm : poolMapping).
Local Abbreviation quiet := (quietly w0 h0).

Lemma listener_quiet lb pm :
  pool_settled w0 lb pm -> quiet (ensureLoadBalancerListener lb pm) (fun _ => True).
Proof.
  intros [Hp (l & Hl & Ha) _ _ _]. unfold ensureLoadBalancerListener.
  eapply quiet_bind with (R := fun v => v = listeners w0).
  { apply quiet_wrap, quiet_call; [done|done|]. intros w v w' Hs [-> _]%lst_list. apply (same_listeners _ _ Hs). }
  intros v ->. cbn zeta. rewrite listenersOfPool_eq, Hp. cbn [mbind M_bind mret M_ret]. rewrite Hl.
  rewrite <- negb_andb. fold (same_endpoint (listenerReq lb pm) l).
  replace (same_endpoint (listenerReq lb pm) l) with true.
  - cbn [negb]. rewrite updateListener_agrees by done. by apply (quiet_ret w0 h0 l).
  - symmetry. destruct Ha as (H1 & H2 & _). unfold same_endpoint. by rewrite H1, H2, str_eqb_refl, Z.eqb_refl.
Qed.

Lemma monitor_quiet lb pm :
  pool_settled w0 lb pm -> quiet (ensureLoadBalancerHealthMonitor lb pm) (fun _ => True).
Proof.
  intros [_ _ (m & Hm & Ht & Hp) _ _]. unfold ensureLoadBalancerHealthMonitor.
  eapply quiet_bind with (R := fun v => v = monitors w0).
  { apply quiet_wrap, quiet_call; [done|done|]. intros w v w' Hs [-> _]%hm_list. apply (same_monitors _ _ Hs). }
  intros v ->. cbn zeta. fold (monitors_of (cloudscale.pool_UUID (pm_Theirs pm)) (monitors w0)). rewrite Hm.
  rewrite (proj2 (str_eqb_true _ _) Ht). cbn [negb]. unfold plan in Hp. apply app_nil in Hp as [Hb Hh].
  rewrite updateBase_agrees by done. cbn [mbind M_bind mret M_ret]. rewrite healthMonitorReq_HTTP.
  destruct (cloudscale.hmr_HTTP (healthMonitorReq pm)) as [q|]; cbn [is_nil negb]; [|by apply (quiet_ret w0 h0 m)].
  fold (http_of m). rewrite updateHTTP_agrees by done. cbn [mbind M_bind mret M_ret]. by apply quiet_ret.
Qed.

Lemma members_quiet lb pm :
  pool_settled w0 lb pm ->
  quiet (ensureLoadBalancerPoolMembers lb pm (pool_servers w0 (pm_Ours pm)))
    (fun l => l = members w0 (cloudscale.pool_UUID (pm_Theirs pm))).
Proof.
  intros [_ _ _ Ho Ha]. unfold ensureLoadBalancerPoolMembers. cbn zeta. set (p := cloudscale.pool_UUID (pm_Theirs pm)) in *.
  set (should := shouldPoolMembers lb pm (pool_servers w0 (pm_Ours pm))) in *.
  assert (Hlist : quiet (call (MemberList p)) (fun l => l = members w0 p)).
  { apply quiet_call; [done|done|]. intros w v w' Hs [-> _]%mem_list. apply (same_members _ _ Hs). }
  eapply quiet_bind; [apply quiet_wrap, Hlist|]. intros v ->.
  eapply quiet_bind with (R := fun _ => True).
  { apply quiet_forM_. intros m [Hm Hn]%elem_of_membersToDelete. destruct (Ho m Hm) as (r & Hr & Hi). by destruct (Hn r Hr). }
  intros _ _. eapply quiet_bind with (R := fun _ => True).
  { apply quiet_forM_. intros r [Hr Hn]%elem_of_membersToCreate. destruct (Ha r Hr) as (m & Hm & Hi). by destruct (Hn m Hm). }
  intros _ _. by apply quiet_wrap.
Qed.

Lemma servers_quiet pool :
  quiet (wrap "failed to get matching nodes: %w" [] (matchingNodes (v1beta1.be_NodeSelector (v1beta1.pool_Backend pool))))
    (fun l => l = SortFunc (on_key corev1.node_Name) (node_list w0 (v1beta1.be_NodeSelector (v1beta1.pool_Backend pool)))).
Proof.
  apply quiet_wrap, quiet_reads; [apply matchingNodes_reads|apply matchingNodes_fails| |].
  - unfold matchingNodes. panic_steps.
  - intros w Hs. eapply wp_mono; [|apply matchingNodes_service]. intros w' [l|e|r] [_ Ho]; try done.
    by rewrite Ho, (same_nodes _ _ Hs).
Qed.

Lemma mapping_quiet nodes :
  quiet (cloudscaleServersForNodes nodes) (fun sw => fst sw = omap (node_mapping w0) nodes).
Proof.
  apply quiet_reads; [apply cloudscaleServersForNodes_reads|apply cloudscaleServersForNodes_fails| |].
  - unfold cloudscaleServersForNodes, serverForNode. panic_steps.
  - intros w Hs. eapply wp_mono; [|apply cloudscaleServersForNodes_service]. intros w' [[servers ws]|e|r] [_ Ho]; try done.
    cbn. rewrite Ho. clear -Hs. induction nodes as [|n l IH]; cbn; [done|]. by rewrite (node_mapping_same _ _ _ Hs), IH.
Qed.

Lemma reconcilePool_quiet lb pm :
  pool_settled w0 lb pm -> quiet (reconcilePool lb pm) (fun st => st = pool_status w0 pm).
Proof.
  intros Hp. unfold reconcilePool.
  eapply quiet_bind; [by apply quiet_wrap, listener_quiet|]. intros _ _.
  eapply quiet_bind; [by apply quiet_wrap, monitor_quiet|]. intros _ _.
  eapply quiet_bind; [apply servers_quiet|]. intros nodes ->.
  eapply quiet_bind; [apply quiet_wrap, mapping_quiet|]. intros [servers warnings] Hs. cbn in Hs. subst servers.
  eapply quiet_bind with (R := fun _ => True).
  { destruct (Nat.ltb _ _); [|by apply (quiet_ret w0 h0 tt)]. apply quiet_emit. by apply (quiet_ret w0 h0 tt). }
  intros _ _. fold (pool_servers w0 (pm_Ours pm)).
  eapply quiet_bind; [by apply quiet_wrap, members_quiet|]. intros l ->. by apply quiet_ret.
Qed.

Lemma ensurePool_quiet lb ms i pm :
  pools_mapped w0 lb ms -> ms !! i = Some pm ->
  quiet (ensurePool lb (actualPools lb (pools w0)) i (poolRequest lb (pm_Ours pm))) (fun m => m = pm).
Proof.
  intros [Hmap Hth _ Hn] Hi. unfold ensurePool. rewrite <- Hmap, list_lookup_fmap, Hi. cbn [fmap option_fmap option_map].
  destruct (Hth pm) as [Hin Himp]; [by eapply list_elem_of_lookup_2|].
  assert (Ha : pm_Theirs pm ∈ actualPools lb (pools w0)).
  { apply elem_of_actualPools. split; [done|]. by destruct Himp as (_ & -> & _). }
  pose proof (Index_actual (actualPools lb (pools w0)) (poolRequest lb (pm_Ours pm))) as Hx.
  destruct (IndexFunc _ _) as [ai|].
  - destruct Hx as (a & Hai & Hia). rewrite Hai. apply quiet_ret.
    assert (a = pm_Theirs pm) as ->; [|by destruct pm].
    apply list_elem_of_lookup_2, elem_of_actualPools in Hai as [Hina Hlb].
    destruct Hia as (Hn1 & Hl1 & _), Himp as (Hn2 & Hl2 & _). apply Hn; congruence.
  - exfalso. rewrite existsb_not_elem in Hx. specialize (Hx _ Ha). by rewrite bool_decide_eq_false in Hx.
Qed.

Lemma pools_quiet lb ms :
  pools_mapped w0 lb ms -> quiet (ensureLoadBalancerPools lb) (fun ms' => ms' = ms).
Proof.
  intros Hm. pose proof Hm as [Hmap _ Hno _]. unfold ensureLoadBalancerPools.
  eapply quiet_bind with (R := fun v => v = pools w0).
  { apply quiet_wrap, quiet_call; [done|done|]. intros w v w' Hs [-> _]%pool_list. apply (same_pools _ _ Hs). }
  intros v ->. cbn zeta. eapply quiet_bind with (R := fun _ => True).
  { apply quiet_forM_. intros a [Ha Hlb]%elem_of_actualPools. unfold deleteUnwanted. rewrite Contains_wanted.
    destruct (Hno a Ha Hlb) as (s & Hs & Hi).
    replace (existsb _ _) with true; [by apply (quiet_ret w0 h0 tt)|].
    symmetry. apply existsb_elem. exists s. split; [done|]. by apply bool_decide_eq_true. }
  intros _ _. eapply quiet_mono; [|apply quiet_mapM with (R := fun '(i, _) m => ms !! i = Some m)].
  - intros ms' Hf. apply list_eq. intros i. apply Forall2_length in Hf as Hlen.
    rewrite length_imap in Hlen. unfold shouldPools in Hlen. rewrite <- Hmap, !length_map in Hlen.
    destruct (ms' !! i) as [m|] eqn:Em.
    + eapply Forall2_lookup_r in Hf as ([j s] & Hj & Hm'); [|exact Em]. rewrite list_lookup_imap in Hj.
      destruct (shouldPools lb !! i); cbn in Hj; [|done]. by injection Hj as <- <-.
    + symmetry. apply lookup_ge_None. rewrite Hlen. by apply lookup_ge_None.
  - intros [i s] Hin. apply list_elem_of_lookup_1 in Hin as [j Hj]. rewrite list_lookup_imap in Hj.
    unfold shouldPools in Hj. rewrite <- Hmap, !list_lookup_fmap in Hj.
    destruct (ms !! j) as [pm|] eqn:Ej; cbn in Hj; [|done]. injection Hj as <- <-.
    eapply quiet_mono; [|by apply (ensurePool_quiet lb ms j pm)]. by intros m ->.
Qed.

Lemma floatingIPAttached_of ips uuid f :
  f ∈ ips -> cloudscale.fip_LoadBalancer f = Some {| cloudscale.lbs_UUID := uuid |} ->
  floatingIPAttached ips uuid (cloudscale.fip_Network f) = true.
Proof.
  intros Hf Hl. unfold floatingIPAttached, ContainsFunc. apply existsb_elem. exists f. split; [done|].
  by rewrite Hl, Deref_Some, !str_eqb_refl.
Qed.

Lemma attach_quiet lb :
  fips_attached w0 lb ->
  quiet (attachFloatingIPs lb) (fun cidrs => StronglySorted str_lt cidrs /\ forall c, c ∈ cidrs <-> c ∈ wantedCIDRs lb).
Proof.
  intros Hf. unfold attachFloatingIPs, fips_attached, wantedCIDRs in *.
  destruct (v1beta1.spec_FloatingIPAddresses _) as [|ip0 ips0] eqn:Ew;
    [apply (quiet_ret w0 h0 []); split; [constructor|set_solver]|].
  eapply quiet_bind with (R := fun v => v = floating_ips w0).
  { apply quiet_wrap, quiet_call; [done|done|]. intros w v w' Hs [-> _]%fip_list. apply (same_fips _ _ Hs). }
  intros v ->. eapply quiet_bind.
  - apply quiet_foldM with (I := fun pre acc => forall c, c ∈ sets_List acc <-> c ∈ map v1beta1.fip_CIDR pre);
      [intros c; rewrite elem_of_New; set_solver|].
    intros pre x rest acc El Hacc. cbn zeta.
    destruct (Hf (v1beta1.fip_CIDR x)) as (f & Hin & Hn & Hl).
    { apply list_elem_of_In, in_map. rewrite El. apply in_or_app. right. by left. }
    rewrite <- Hn, (floatingIPAttached_of _ _ _ Hin Hl). apply quiet_ret. intros c.
    rewrite elem_of_Insert, Hacc, map_app, elem_of_app, Hn. cbn. set_solver.
  - intros acc Hacc. apply (quiet_ret w0 h0 (sets_List acc)). split; [apply List_sorted|done].
Qed.

(** The load balancer of a UUID is unique. *)
Lemma lb_by_uuid w a b : a ∈ lbs w -> b ∈ lbs w -> cloudscale.lb_UUID a = cloudscale.lb_UUID b -> a = b.
Proof. intros Ha Hb. by apply (NoDup_map_inj _ _ _ _ (lb_unique w)). Qed.

Lemma lb_quiet lb e : lb_ready w0 lb e -> quiet (ensureLoadBalancer lb) (fun e' => e' = e).
Proof.
  intros [_ Hin Hu Hm _ _] s Hs. unfold ensureLoadBalancer.
  rewrite (proj2 (str_empty_false (v1beta1.UUID lb))) by (rewrite <- Hu; by apply (lb_identified w0)).
  apply wp_bind, wp_wrap. intros x s' Ha. assert (Hs' : still w0 h0 s') by (by eapply still_read; [|  |exact Ha]).
  destruct Ha as [Ha Hh]. destruct x as [[c|]|err]; cbn -[adopt].
  - apply lb_get in Ha as [Hc Huc]. rewrite (same_lbs _ _ (proj1 Hs)) in Hc.
    rewrite (lb_by_uuid w0 c e Hc Hin) by congruence. rewrite (proj2 (str_eqb_true _ _) Hm). by split.
  - split; [done|]. rewrite Hh. by apply faulted_last.
  - split; [done|]. rewrite Hh. by apply faulted_last.
Qed.

Lemma resources_quiet lb e ms :
  implemented w0 lb e ms -> quiet (reconcileResources lb e) (fun res => res = zero_Result).
Proof.
  intros [Hr Hp Hps Hf Hsp Hsv [Hsort Hin]]. unfold reconcileResources.
  eapply quiet_bind; [by apply quiet_wrap, (pools_quiet lb ms)|]. intros ms' ->.
  eapply quiet_bind; [apply quiet_mapM with (R := fun m st => st = pool_status w0 m); intros m Hm; by apply reconcilePool_quiet, Hps|].
  intros sts Hsts. assert (sts = map (pool_status w0) ms) as ->.
  { clear -Hsts. induction Hsts as [|m st ms sts -> _ IH]; [done|]. cbn. by rewrite IH. }
  rewrite refreshPools_eq, refreshVIPs_eq, bool_decide_true by done. cbn [negb].
  cbn [v1beta1.with_StatusPools v1beta1.with_Status v1beta1.lb_Status v1beta1.status_VirtualIPAddresses].
  rewrite bool_decide_true by done. cbn [negb].
  set (lb1 := v1beta1.with_StatusVIPs _ _).
  eapply quiet_bind; [by apply quiet_wrap, (attach_quiet lb1)|]. intros cidrs [Hs1 Hin1].
  rewrite refreshFloatingIPs_eq. cbn zeta.
  assert (Hc : map v1beta1.sfip_CIDR (v1beta1.status_FloatingIPAddresses (v1beta1.lb_Status lb)) = cidrs).
  { apply str_lt_sorted_unique; [done|done|]. intros c. rewrite Hin. symmetry. apply Hin1. }
  rewrite bool_decide_true.
  - cbn. by apply (quiet_ret w0 h0 zero_Result).
  - cbn. rewrite <- Hc, map_map. rewrite <- (map_id (v1beta1.status_FloatingIPAddresses _)) at 1.
    apply map_ext. by intros [].
Qed.

Lemma ensured_quiet lb e ms :
  implemented w0 lb e ms -> quiet (reconcileEnsured lb e) (fun res => res = zero_Result).
Proof.
  intros Hi. pose proof (im_ready _ _ _ _ Hi) as [Hz Hin Hu _ Hc Hst]. unfold reconcileEnsured.
  rewrite (proj2 (str_empty_false (v1beta1.UUID lb))) by (rewrite <- Hu; by apply (lb_identified w0)).
  rewrite (proj2 (str_empty_false _) Hz), Hst, str_eqb_refl. cbn [negb mbind M_bind mret M_ret].
  rewrite (proj2 (str_eqb_false _ _) Hc), <- Hu, str_eqb_refl. cbn [negb]. by eapply resources_quiet.
Qed.

Lemma live_quiet lb e ms :
  LoadBalancerFinalizer ∈ v1beta1.Finalizers lb -> implemented w0 lb e ms ->
  quiet (reconcileLive lb) (fun res => res = zero_Result).
Proof.
  intros Hfin Hi. unfold reconcileLive.
  destruct (AddFinalizer _ _) as [fs added] eqn:Ea. replace added with false.
  - eapply quiet_bind with (R := fun lb' => lb' = lb); [by apply (quiet_ret w0 h0 lb)|]. intros lb' ->.
    eapply quiet_bind; [apply quiet_wrap, (lb_quiet lb e), Hi|]. intros e' ->. by eapply ensured_quiet.
  - symmetry. apply not_true_is_false. intros Et.
    pose proof (AddFinalizer_updated (v1beta1.Finalizers lb) LoadBalancerFinalizer) as Hu. rewrite Ea in Hu. by apply Hu in Et.
Qed.
End Quiet.

(** C2: a settled system stays at rest: a pass makes only reads, leaves every
    part of the state as it is, and asks to be run again after the maximal
    interval.  It fails only when a call failed, and never panics. *)
Theorem settled_quiet {L : Lib} {LL : LibLaws L} {W : Type} `{World W} `{!FloatingIPAPI W} `{!MemberAPI W}
    `{!HealthMonitorAPI W} `{!ListenerAPI W} `{!PoolAPI W} `{!LoadBalancerAPI W} `{!SystemAPI W}
    interval k (w : W) :
  settled w k ->
  wp (Reconcile interval k) (w, []) (fun '(w', h') o =>
    same w w' /\ Forall is_read (calls h') /\
    match o with
    | Returned res => res = requeue_in (maxReconcileInterval interval)
    | Failed _ => faulted h'
    | Panicked _ => False
    end).
Proof.
  intros (lb & e & ms & Hobj & Hd & Hfin & Hi). intros x s Ha.
  assert (Hs : still w [] s).
  { eapply still_read; [| |exact Ha]; [|done]. split; [done|]. exists []. split; [done|constructor]. }
  destruct Ha as [Ha Hh]. destruct x as [lb'|err].
  - apply k8s_get in Ha as [Hobj' _]. cbn [fst] in Hobj'. rewrite Hobj in Hobj'. injection Hobj' as <-.
    cbn [mbind M_bind call_err]. apply wp_deferred. unfold reconcileBody. rewrite Hd. cbn [negb andb].
    eapply wp_mono; [|by apply (live_quiet w [] lb e ms Hfin Hi)].
    intros [w' h'] [res|err|r] [[Hsame (t & Hh' & Hr)] Ho]; cbn [deferred_post fst snd app] in *; [|  |done]; subst h'.
    + subst res. by rewrite bool_decide_true.
    + cbn. split; [etransitivity; [exact Hsame|apply same_recorded]|].
      rewrite calls_app, app_nil_r. split; [done|]. by apply faulted_app.
  - cbn [mbind M_bind call_err]. rewrite IgnoreNotFound_spec. destruct (IsNotFound err) eqn:En.
    + apply k8s_404 in Ha; [|done]. cbn [fst] in Ha. by rewrite Hobj in Ha.
    + destruct s as [w' h']. cbn [fst snd app] in *. destruct Hs as [Hsame (t & Hh' & Hr)]. cbn [fst snd app] in *.
      subst h' t. split; [done|]. split; [done|]. by apply (faulted_last []).
Qed.
