(* ===== verification/Frames.v ===== *)
(** * Frames: what one part of a pass leaves alone

    The triple [succeeds I m Q]: from a state of [I], whenever the program [m]
    returns, the value and the state after it are in [Q].  With it, for each
    component: the work on one pool leaves the listeners, the health monitors and
    the members of every other pool as they are, and no part of the loop touches
    pools, load balancers, floating IPs or objects. *)

From Stdlib Require Import ZArith Lia Sorting.Sorted.
From stdpp Require Import base list strings gmap.
From S2P Require Import Prelude GoLib ApiTypes Cloudscale Effects External Helpers Samples.
From S2P Require Import Nodes FloatingIPs PoolMembers HealthMonitor Listener Pools LoadBalancers Reconcile System.
Open Scope string_scope.
Open Scope Z_scope.
Open Scope list_scope.

(** ** The triple *)

Section Succeeds.
Context {W : Type} `{World W}.

Definition succeeds {A} (I : W -> Prop) (m : M A) (Q : A -> W -> Prop) : Prop :=
  forall w, I w -> wp m w (fun w' o => match o with Returned a => Q a w' | _ => True end).

Lemma succeeds_mono {A} (I I' : W -> Prop) (m : M A) (Q Q' : A -> W -> Prop) :
  (forall w, I' w -> I w) -> (forall a w, Q a w -> Q' a w) -> succeeds I m Q -> succeeds I' m Q'.
Proof. intros HI HQ Hm w Hw. eapply wp_mono; [|by apply Hm, HI]. intros w' []; auto. Qed.

Lemma succeeds_post {A} (I : W -> Prop) (m : M A) (Q Q' : A -> W -> Prop) :
  (forall a w, Q a w -> Q' a w) -> succeeds I m Q -> succeeds I m Q'.
Proof. by apply succeeds_mono. Qed.

Lemma succeeds_and {A} (I : W -> Prop) (m : M A) (Q Q' : A -> W -> Prop) :
  succeeds I m Q -> succeeds I m Q' -> succeeds I m (fun a w => Q a w /\ Q' a w).
Proof.
  intros H1 H2 w Hw. eapply wp_mono; [|exact (wp_and _ _ _ _ (H1 w Hw) (H2 w Hw))]. intros w' []; auto.
Qed.

Lemma succeeds_ret {A} (I : W -> Prop) (a : A) (Q : A -> W -> Prop) : (forall w, I w -> Q a w) -> succeeds I (mret a) Q.
Proof. intros HQ w Hw. by apply HQ. Qed.

Lemma succeeds_pure {A} (I : W -> Prop) (P : Prop) (m : M A) (Q : A -> W -> Prop) :
  (P -> succeeds I m Q) -> succeeds (fun w => I w /\ P) m Q.
Proof. intros Hm w [Hw HP]. by apply Hm. Qed.

Lemma succeeds_bind {A B} (I : W -> Prop) (m : M A) (f : A -> M B) (R : A -> W -> Prop) (Q : B -> W -> Prop) :
  succeeds I m R -> (forall a, succeeds (R a) (f a) Q) -> succeeds I (m ≫= f) Q.
Proof.
  intros Hm Hf w Hw. apply wp_bind. eapply wp_mono; [|by apply Hm].
  intros w' [a|e|s] Ho; cbn; [by apply Hf|done|done].
Qed.

Lemma succeeds_wrap {A} format args I (m : M A) Q : succeeds I m Q -> succeeds I (wrap format args m) Q.
Proof. intros Hm w Hw. apply wp_wrap. eapply wp_mono; [|by apply Hm]. by intros w' []. Qed.

Lemma succeeds_call r I (Q : val r -> W -> Prop) :
  (forall w v w', I w -> answers w r (Ok v) w' -> Q v w') -> succeeds I (call r) Q.
Proof. intros HQ w Hw. apply wp_call; [|done]. intros w' v. by apply HQ. Qed.

Lemma succeeds_fail {A} I format args (Q : A -> W -> Prop) : succeeds I (fail format args) Q.
Proof. done. Qed.

Lemma succeeds_non_nil {A} (o : option A) format (I : W -> Prop) (Q : A -> W -> Prop) :
  (forall a, o = Some a -> forall w, I w -> Q a w) -> succeeds I (non_nil o format) Q.
Proof. intros HQ w Hw. destruct o; cbn; [by eapply HQ|done]. Qed.

Lemma succeeds_emit {A} ev (I I' : W -> Prop) (k : M A) Q :
  (forall w, I w -> I' (recorded w ev)) -> succeeds I' k Q -> succeeds I (Emit ev k) Q.
Proof. intros He Hk w Hw. by apply Hk, He. Qed.

Lemma succeeds_forM_ {A} (l : list A) body (I : W -> Prop) :
  (forall x, x ∈ l -> succeeds I (body x) (fun _ => I)) -> succeeds I (forM_ l body) (fun _ => I).
Proof.
  induction l as [|x l IH]; intros Hb; cbn; [by apply (succeeds_ret I tt)|].
  eapply succeeds_bind with (R := fun _ => I); [apply Hb; by left|]. intros _. apply IH. intros; apply Hb; by right.
Qed.

(** A family of postconditions holds at once. *)
Lemma wp_returned_forall {A B} (P : B -> Prop) (m : M A) w (R : B -> W -> Prop) :
  (forall b, P b -> wp m w (fun w' o => match o with Returned _ => R b w' | _ => True end)) ->
  wp m w (fun w' o => match o with Returned _ => forall b, P b -> R b w' | _ => True end).
Proof. revert w. induction m; intros w Hm; cbn in *; auto. Qed.

(** Whatever is answered, the allowed calls keep [I]. *)
Lemma succeeds_only {A} (P : req -> Prop) (I : W -> Prop) (m : M A) :
  only P m -> (forall w r x w', P r -> answers w r x w' -> I w -> I w') ->
  (forall w ev, I w -> I (recorded w ev)) -> succeeds I m (fun _ => I).
Proof.
  intros Hm Hc He w Hw. eapply wp_mono; [|by apply (only_invariant P I)]. by intros w' [].
Qed.

Lemma succeeds_updateBlock {T} same r ef ea rs vf va (old new : T) (I : W -> Prop) :
  (forall w v w', I w -> answers w r (Ok v) w' -> I w') -> (forall w ev, I w -> I (recorded w ev)) ->
  succeeds I (updateBlock same r ef ea rs vf va old new) (fun _ => I).
Proof.
  intros Hc He. unfold updateBlock. destruct same; [by apply succeeds_ret|].
  eapply succeeds_bind with (R := fun _ => I); [by apply succeeds_wrap, succeeds_call|]. intros _ w Hw. cbn. by apply He.
Qed.
End Succeeds.

(** ** Lists of resources that belong to pools *)

Lemma elem_of_map {A B} (f : A -> B) (l : list A) x : x ∈ l -> f x ∈ map f l.
Proof. intros Hx. by apply list_elem_of_In, in_map, list_elem_of_In. Qed.

Section Others.
Context {A : Type} (uuid : A -> string) (mine : A -> bool).

Lemma filter_update_other (u : string) (f : A -> A) (l : list A) :
  (forall a, a ∈ l -> uuid a = u -> mine a = false) -> (forall a, mine (f a) = mine a) ->
  List.filter mine (map (fun a => if str_eqb (uuid a) u then f a else a) l) = List.filter mine l.
Proof.
  intros Hn Hf. induction l as [|a l IH]; [done|]. cbn.
  rewrite IH by (intros; apply Hn; [by right|done]).
  destruct (str_eqb (uuid a) u) eqn:E; [|done]. str_prop. by rewrite Hf, (Hn a) by (by left || done).
Qed.

Lemma filter_delete_other (u : string) (l : list A) :
  (forall a, a ∈ l -> uuid a = u -> mine a = false) ->
  List.filter mine (List.filter (fun a => negb (str_eqb (uuid a) u)) l) = List.filter mine l.
Proof.
  intros Hn. induction l as [|a l IH]; [done|]. cbn.
  destruct (str_eqb (uuid a) u) eqn:E; cbn; rewrite IH by (intros; apply Hn; [by right|done]); [|done].
  str_prop. by rewrite (Hn a) by (by left || done).
Qed.
End Others.

Section Frames.
Context {L : Lib} {LL : LibLaws L} {W : Type} `{World W} `{!FloatingIPAPI W} `{!MemberAPI W}
  `{!HealthMonitorAPI W} `{!ListenerAPI W} `{!PoolAPI W} `{!LoadBalancerAPI W} `{!SystemAPI W}.
Implicit Types (w : W) (lb : v1beta1.LoadBalancer) (pm : poolMapping).

(** ** What calls can reach *)

(** The states [w] and [w'] agree on every part outside [V]. *)
Record kept (V : view -> Prop) w w' : Prop := {
  kept_object k : ~ V (VObject k) -> object w' k = object w k;
  kept_lbs : ~ V VLBs -> lbs w' = lbs w;
  kept_pools : ~ V VPools -> pools w' = pools w;
  kept_listeners : ~ V VListeners -> listeners w' = listeners w;
  kept_monitors : ~ V VMonitors -> monitors w' = monitors w;
  kept_fips : ~ V VFips -> floating_ips w' = floating_ips w;
  kept_members p : ~ V (VMembers p) -> members w' p = members w p;
  kept_nodes sel : node_list w' sel = node_list w sel;
  kept_servers id : server_of w' id = server_of w id;
}.

#[export] Instance kept_preorder V : PreOrder (kept V).
Proof.
  split; [by split|]. intros w1 w2 w3 H1 H2.
  split; intros; etransitivity; first [by apply (kept_object _ _ _ H2)|by apply (kept_object _ _ _ H1)|by apply H2|by apply H1].
Qed.

Lemma kept_mono (V V' : view -> Prop) w w' : (forall v, V v -> V' v) -> kept V w w' -> kept V' w w'.
Proof. intros HV []. split; auto. Qed.

Lemma kept_same V w w' : same w w' -> kept V w w'.
Proof. intros []. by split. Qed.

Lemma kept_call V w r x w' : (forall v, touches r v -> V v) -> answers w r x w' -> kept V w w'.
Proof.
  intros HV Ha. assert (Ht : forall v, ~ V v -> ~ touches r v) by auto.
  split; intros; [eapply frame_object| |eapply frame_pools|eapply frame_listeners|eapply frame_monitors|
    eapply frame_fips|eapply frame_members|eapply frame_nodes|eapply frame_servers]; try done; try by apply Ht.
  eapply lb_frame; [|exact Ha]. assert (Hn : ~ touches r VLBs) by auto. by destruct r; cbn in *; try tauto.
Qed.

(** A program reaches only what its calls touch. *)
Lemma only_kept {A} (P : req -> Prop) V (m : M A) w :
  only P m -> (forall r v, P r -> touches r v -> V v) -> wp m w (fun w' _ => kept V w w').
Proof.
  intros Hm HV. apply only_invariant with (P := P) (I := kept V w); [| |done|done].
  - intros w1 r x w2 HP Ha Hk. etransitivity; [exact Hk|]. eapply kept_call; [|exact Ha]. intros v. by apply HV.
  - intros w1 ev Hk. etransitivity; [exact Hk|]. apply kept_same, same_recorded.
Qed.

(** ** Listeners of other pools *)

Definition listener_in (q : string) (l : cloudscale.LoadBalancerListener) : bool :=
  match cloudscale.lst_Pool l with Some s => str_eqb (cloudscale.ps_UUID s) q | None => false end.

(** The listeners of identifiers in [U] are not of the pool [q], and those of [q] are [K]. *)
Record listeners_kept (U : string -> Prop) q K w : Prop := {
  lk_pooled : all_pooled (listeners w) = true;
  lk_foreign l : l ∈ listeners w -> U (cloudscale.lst_UUID l) -> listener_in q l = false;
  lk_same : listeners_of q (listeners w) ≡ₚ K;
}.

Lemma listeners_kept_recorded U q K w ev : listeners_kept U q K w -> listeners_kept U q K (recorded w ev).
Proof. intros []. split; by rewrite ?lst_recorded. Qed.

Lemma listeners_kept_update (U : string -> Prop) q K u r w w' v :
  U u -> listeners_kept U q K w -> answers w (ListenerUpdate u r) (Ok v) w' -> listeners_kept U q K w'.
Proof.
  intros Hu [H1 H2 H3]. destruct v. intros Ew%lst_update.
  assert (Hin : forall l, listener_in q (patch_listener r l) = listener_in q l) by done.
  split; rewrite Ew.
  - revert H1. unfold all_pooled. rewrite !forallb_forall. intros H1 l (l0 & <- & Hl)%in_map_iff.
    specialize (H1 l0 Hl). by case_if.
  - intros l (l0 & <- & Hl%list_elem_of_In)%list_elem_of_In%in_map_iff HU.
    destruct (str_eqb _ _); [rewrite Hin|]; by apply H2.
  - unfold listeners_of. rewrite <- H3, (filter_update_other cloudscale.lst_UUID (listener_in q)); [done| |done].
    intros l Hl E. apply H2; [done|]. by rewrite E.
Qed.

Lemma listeners_kept_delete (U : string -> Prop) q K u w w' v :
  U u -> listeners_kept U q K w -> answers w (ListenerDelete u) (Ok v) w' -> listeners_kept U q K w'.
Proof.
  intros Hu [H1 H2 H3]. destruct v. intros Ew%lst_delete. split; rewrite Ew.
  - revert H1. unfold all_pooled. rewrite !forallb_forall. intros H1 l [Hl _]%filter_In. by apply H1.
  - intros l [Hl _]%elem_of_List_filter. by apply H2.
  - unfold listeners_of. rewrite <- H3, (filter_delete_other cloudscale.lst_UUID (listener_in q)); [done|].
    intros l Hl E. apply H2; [done|]. by rewrite E.
Qed.

Lemma listeners_kept_create (U : string -> Prop) q K r l w w' :
  cloudscale.lstr_Pool r <> q -> listeners_kept U q K w ->
  answers w (ListenerCreate r) (Ok (Some l)) w' -> listeners_kept U q K w'.
Proof.
  intros Hq [H1 H2 H3] (Hp & Hpool & _)%lst_create.
  assert (Hl : listener_in q l = false) by (unfold listener_in; rewrite Hpool; by apply str_eqb_false).
  split.
  - revert H1. unfold all_pooled. rewrite !forallb_forall. intros H1 x Hx%list_elem_of_In.
    rewrite Hp in Hx. apply elem_of_cons in Hx as [->|Hx%list_elem_of_In]; [by rewrite Hpool|by apply H1].
  - intros x Hx HU. rewrite Hp in Hx. apply elem_of_cons in Hx as [->|Hx]; [done|by apply H2].
  - unfold listeners_of in *. rewrite <- H3. apply (List_filter_perm (listener_in q)) in Hp. rewrite Hp.
    cbn [List.filter]. by rewrite Hl.
Qed.

Lemma createListener_kept U q K lb pm :
  cloudscale.pool_UUID (pm_Theirs pm) <> q ->
  succeeds (listeners_kept U q K) (createListener lb pm) (fun _ => listeners_kept U q K).
Proof.
  intros Hq w Hw. unfold createListener. wp_steps; [|done].
  match goal with v : val (ListenerCreate _) |- _ => destruct v as [l|]; [|done] end.
  cbn [non_nil wp continue Eventf mret M_ret]. apply listeners_kept_recorded. eapply listeners_kept_create; [| |eassumption]; done.
Qed.

Lemma updateListener_kept (U : string -> Prop) q K lb pm l :
  U (cloudscale.lst_UUID l) ->
  succeeds (listeners_kept U q K) (updateListener lb pm l) (fun _ => listeners_kept U q K).
Proof.
  intros Hu. unfold updateListener, updateListenerAttr.
  assert (Hb : forall same ef ea rs vf va (old new : cloudscale.LoadBalancerListener) rq,
    succeeds (listeners_kept U q K) (updateBlock same (ListenerUpdate (cloudscale.lst_UUID l) rq) ef ea rs vf va old new)
      (fun _ => listeners_kept U q K)).
  { intros. apply succeeds_updateBlock; [|by apply listeners_kept_recorded].
    intros w v w' Hw Ha. by eapply listeners_kept_update; [| |exact Ha]. }
  do 3 (eapply succeeds_bind; [apply Hb|]; intros ?). apply Hb.
Qed.

Lemma listener_others lb pm q w :
  cloudscale.pool_UUID (pm_Theirs pm) <> q ->
  wp (ensureLoadBalancerListener lb pm) w (fun w' o => match o with
    | Returned _ => all_pooled (listeners w') = true /\ listeners_of q (listeners w') ≡ₚ listeners_of q (listeners w)
    | _ => True
    end).
Proof.
  intros Hq. unfold ensureLoadBalancerListener. do 3 wp_step; cbn beta iota zeta; [|done].
  match goal with Ha : answers _ ListenerList _ _ |- _ => apply lst_list in Ha as [-> Hw] end.
  rewrite listenersOfPool_eq, <- Hw. destruct (all_pooled _) eqn:Ep; [|done].
  apply wp_bind. cbn [wp mret M_ret continue].
  assert (Hk : forall U : string -> Prop, (forall l, l ∈ listeners w' -> U (cloudscale.lst_UUID l) -> listener_in q l = false) ->
    listeners_kept U q (listeners_of q (listeners w')) w') by (by split).
  assert (Hend : forall (U : string -> Prop) m,
    succeeds (listeners_kept U q (listeners_of q (listeners w'))) m (fun _ => listeners_kept U q (listeners_of q (listeners w'))) ->
    (forall l, l ∈ listeners w' -> U (cloudscale.lst_UUID l) -> listener_in q l = false) ->
    wp m w' (fun w1 (o : outcome cloudscale.LoadBalancerListener) => match o with
      | Returned _ => all_pooled (listeners w1) = true /\ listeners_of q (listeners w1) ≡ₚ listeners_of q (listeners w')
      | _ => True end)).
  { intros U m Hm HU. eapply wp_mono; [|by apply Hm, Hk]. intros w1 [a|e|s]; [|done|done]. by intros []. }
  destruct (listeners_of (cloudscale.pool_UUID (pm_Theirs pm)) (listeners w')) as [|l0 [|l1 ls]] eqn:El; [| |done].
  - apply (Hend (fun _ => False)); [by apply createListener_kept|done].
  - assert (HU : forall l, l ∈ listeners w' -> cloudscale.lst_UUID l = cloudscale.lst_UUID l0 -> listener_in q l = false).
    { intros l Hl E. assert (Hl0 : l0 ∈ listeners_of (cloudscale.pool_UUID (pm_Theirs pm)) (listeners w')) by (rewrite El; by left).
      apply elem_of_List_filter in Hl0 as [Hl0 Hp]. rewrite (NoDup_map_inj _ _ _ _ (lst_unique w') Hl Hl0 E).
      unfold listener_in. destruct (cloudscale.lst_Pool l0); [|done]. str_prop. apply str_eqb_false. congruence. }
    destruct (negb _ || negb _).
    + apply (Hend (fun u => u = cloudscale.lst_UUID l0)); [|done].
      intros w1 Hw1. wp_steps; [|done]. apply createListener_kept; [done|]. apply listeners_kept_recorded.
      eapply listeners_kept_delete; [| |eassumption]; [done|]. by apply listeners_kept_recorded.
    + apply (Hend (fun u => u = cloudscale.lst_UUID l0)); [by apply updateListener_kept|done].
Qed.

(** ** Health monitors of other pools *)

Record monitors_kept (U : string -> Prop) q K w : Prop := {
  mk_foreign m : m ∈ monitors w -> U (cloudscale.hm_UUID m) -> str_eqb (cloudscale.hm_Pool m) q = false;
  mk_same : monitors_of q (monitors w) ≡ₚ K;
}.

Lemma monitors_kept_recorded U q K w ev : monitors_kept U q K w -> monitors_kept U q K (recorded w ev).
Proof. intros []. split; by rewrite ?hm_recorded. Qed.

Lemma monitors_kept_update (U : string -> Prop) q K u r w w' v :
  U u -> monitors_kept U q K w -> answers w (HealthMonitorUpdate u r) (Ok v) w' -> monitors_kept U q K w'.
Proof.
  intros Hu [H2 H3]. destruct v. intros Ew%hm_update. split; rewrite Ew.
  - intros m (m0 & <- & Hm%list_elem_of_In)%list_elem_of_In%in_map_iff. destruct (str_eqb _ u); apply (H2 m0 Hm).
  - unfold monitors_of. rewrite <- H3, (filter_update_other cloudscale.hm_UUID); [done| |done].
    intros m Hm E. apply H2; [done|]. by rewrite E.
Qed.

Lemma monitors_kept_delete (U : string -> Prop) q K u w w' v :
  U u -> monitors_kept U q K w -> answers w (HealthMonitorDelete u) (Ok v) w' -> monitors_kept U q K w'.
Proof.
  intros Hu [H2 H3]. destruct v. intros Ew%hm_delete. split; rewrite Ew.
  - intros m [Hm _]%elem_of_List_filter. by apply H2.
  - unfold monitors_of. rewrite <- H3, (filter_delete_other cloudscale.hm_UUID); [done|].
    intros m Hm E. apply H2; [done|]. by rewrite E.
Qed.

Lemma monitors_kept_create (U : string -> Prop) q K r m w w' :
  cloudscale.hmr_Pool r <> q -> monitors_kept U q K w ->
  answers w (HealthMonitorCreate r) (Ok (Some m)) w' -> monitors_kept U q K w'.
Proof.
  intros Hq [H2 H3] (Hp & Hpool & _)%hm_create.
  assert (Hm : str_eqb (cloudscale.hm_Pool m) q = false) by (rewrite Hpool; by apply str_eqb_false).
  split.
  - intros x Hx HU. rewrite Hp in Hx. apply elem_of_cons in Hx as [->|Hx]; [done|by apply H2].
  - unfold monitors_of in *. rewrite <- H3. apply (List_filter_perm (fun m => str_eqb (cloudscale.hm_Pool m) q)) in Hp.
    rewrite Hp. cbn [List.filter]. by rewrite Hm.
Qed.

Lemma createHealthMonitor_kept U q K pm :
  cloudscale.pool_UUID (pm_Theirs pm) <> q ->
  succeeds (monitors_kept U q K) (createHealthMonitor pm) (fun _ => monitors_kept U q K).
Proof.
  intros Hq w Hw. unfold createHealthMonitor. wp_steps; [|done].
  match goal with v : val (HealthMonitorCreate _) |- _ => destruct v as [l|]; [|done] end.
  cbn [non_nil wp continue Eventf mret M_ret]. apply monitors_kept_recorded.
  eapply monitors_kept_create; [| |eassumption]; done.
Qed.

Lemma updateAttr_kept {T} (U : string -> Prop) q K same uuid attr rq evf eva (old new : T) :
  U uuid ->
  succeeds (monitors_kept U q K) (updateAttr same uuid attr rq evf eva old new) (fun _ => monitors_kept U q K).
Proof.
  intros Hu. apply succeeds_updateBlock; [|by apply monitors_kept_recorded].
  intros w v w' Hw Ha. by eapply monitors_kept_update; [| |exact Ha].
Qed.

Lemma updateMonitor_kept (U : string -> Prop) q K pm m :
  U (cloudscale.hm_UUID m) ->
  succeeds (monitors_kept U q K)
    (hm ← updateBase pm m;
     if httpConfigAllowed pm then
       let http := match cloudscale.hm_HTTP hm with None => cloudscale.zero_HTTP | Some h => h end in
       match cloudscale.hmr_HTTP (healthMonitorReq pm) with
       | None => Panic "nil pointer dereference: healthMonitorReq.HTTP"
       | Some want => http ← updateHTTP (cloudscale.hm_UUID m) http want; mret (set_HTTP hm (Some http))
       end
     else mret hm) (fun _ => monitors_kept U q K).
Proof.
  intros Hu. eapply succeeds_bind.
  - unfold updateBase. do 3 (eapply succeeds_bind; [by apply updateAttr_kept|]; intros ?). by apply updateAttr_kept.
  - intros hm. destruct (httpConfigAllowed pm); [|by apply succeeds_ret].
    destruct (cloudscale.hmr_HTTP (healthMonitorReq pm)) as [want|]; [|done].
    eapply succeeds_bind with (R := fun _ => monitors_kept U q K); [|intros h; by apply succeeds_ret].
    unfold updateHTTP. do 4 (eapply succeeds_bind; [by apply updateAttr_kept|]; intros ?). by apply updateAttr_kept.
Qed.

Lemma monitor_others lb pm q w :
  cloudscale.pool_UUID (pm_Theirs pm) <> q ->
  wp (ensureLoadBalancerHealthMonitor lb pm) w (fun w' o => match o with
    | Returned _ => monitors_of q (monitors w') ≡ₚ monitors_of q (monitors w)
    | _ => True
    end).
Proof.
  intros Hq. unfold ensureLoadBalancerHealthMonitor. do 3 wp_step; cbn beta iota zeta; [|done].
  match goal with Ha : answers _ HealthMonitorList _ _ |- _ => apply hm_list in Ha as [-> Hw] end. rewrite <- Hw.
  assert (Hend : forall (U : string -> Prop) m,
    succeeds (monitors_kept U q (monitors_of q (monitors w'))) m (fun _ => monitors_kept U q (monitors_of q (monitors w'))) ->
    (forall m, m ∈ monitors w' -> U (cloudscale.hm_UUID m) -> str_eqb (cloudscale.hm_Pool m) q = false) ->
    wp m w' (fun w1 (o : outcome cloudscale.LoadBalancerHealthMonitor) => match o with
      | Returned _ => monitors_of q (monitors w1) ≡ₚ monitors_of q (monitors w')
      | _ => True end)).
  { intros U m Hm HU. eapply wp_mono; [|by apply Hm]. intros w1 [a|e|s]; [|done|done]. by intros []. }
  destruct (List.filter _ (monitors w')) as [|m0 [|m1 ls]] eqn:El; [| |done].
  - apply (Hend (fun _ => False)); [by apply createHealthMonitor_kept|done].
  - assert (HU : forall m, m ∈ monitors w' -> cloudscale.hm_UUID m = cloudscale.hm_UUID m0 -> str_eqb (cloudscale.hm_Pool m) q = false).
    { intros m Hm E. assert (Hm0 : m0 ∈ monitors_of (cloudscale.pool_UUID (pm_Theirs pm)) (monitors w'))
        by (unfold monitors_of; rewrite El; by left).
      apply elem_of_List_filter in Hm0 as [Hm0 Hp]. rewrite (NoDup_map_inj _ _ _ _ (hm_unique w') Hm Hm0 E).
      str_prop. apply str_eqb_false. congruence. }
    apply (Hend (fun u => u = cloudscale.hm_UUID m0)); [|done]. case_if; [|by apply updateMonitor_kept].
    intros w1 Hw1. wp_steps; [|done]. apply createHealthMonitor_kept; [done|]. apply monitors_kept_recorded.
    eapply monitors_kept_delete; [| |eassumption]; [done|]. by apply monitors_kept_recorded.
Qed.

(** ** Members of other pools *)

Lemma members_others lb pm servers q w :
  cloudscale.pool_UUID (pm_Theirs pm) <> q ->
  wp (ensureLoadBalancerPoolMembers lb pm servers) w (fun w' o => match o with
    | Returned _ => members w' q = members w q
    | _ => True
    end).
Proof.
  intros Hq. set (p := cloudscale.pool_UUID (pm_Theirs pm)) in *. set (should := shouldPoolMembers lb pm servers). revert w.
  cut (forall K, succeeds (fun w => members w q = K) (ensureLoadBalancerPoolMembers lb pm servers) (fun _ w => members w q = K)).
  { intros Hs w. by apply Hs. }
  intros K. unfold ensureLoadBalancerPoolMembers. fold p should.
  assert (Hl : succeeds (fun w => members w q = K) (call (MemberList p))
    (fun l w => members w q = K /\ forall m, m ∈ l -> cloudscale.mem_Pool m = p)).
  { apply succeeds_call. intros w v w' Hw Ha. split; [erewrite frame_members; [exact Hw|exact Ha|by intros []]|].
    apply mem_list in Ha as [-> _]. intros m. apply mem_in_pool. }
  eapply succeeds_bind; [apply succeeds_wrap, Hl|]. intros actual. apply succeeds_pure. intros Hact.
  eapply succeeds_bind with (R := fun _ w => members w q = K).
  { apply succeeds_forM_. intros m [Hm _]%elem_of_membersToDelete. rewrite (Hact m Hm). intros w Hw.
    wp_steps; [|done]. rewrite mem_recorded. erewrite frame_members; [exact Hw|eassumption|done]. }
  intros _. eapply succeeds_bind with (R := fun _ w => members w q = K).
  { apply succeeds_forM_. intros r _ w Hw. wp_steps; [|done].
    match goal with v : val (MemberCreate _ _) |- _ => destruct v as [m|]; [|done] end. cbn.
    rewrite mem_recorded. erewrite frame_members; [exact Hw|eassumption|done]. }
  intros _. apply succeeds_wrap. eapply succeeds_post; [|exact Hl]. by intros l w [Hw _].
Qed.
End Frames.
