(* ===== verification/Converge.v ===== *)
(** * Converge: a pass that succeeds leaves a settled system

    The loop over the pools, the whole of [reconcileResources], and [Reconcile]:
    when a pass over a live object returns, the UUID and zone were saved and the
    next pass follows at once, or the load balancer is changing and the next pass
    comes after five seconds, or the system is settled. *)

From Stdlib Require Import ZArith Lia Sorting.Sorted.
From stdpp Require Import base list strings gmap.
From S2P Require Import Prelude GoLib ApiTypes Cloudscale Effects External Helpers Samples.
From S2P Require Import Nodes FloatingIPs PoolMembers HealthMonitor Listener Pools LoadBalancers Reconcile System Frames.
Open Scope string_scope.
Open Scope Z_scope.
Open Scope list_scope.

(** ** Manifests the API can express

    An update leaves out what is zero or empty, so a pool can be brought to
    agreement only when no attribute it asks for is: durations at the resolution of
    the API, and for an HTTP health monitor the host and the status codes. *)
Record settable (pl : v1beta1.Pool) : Prop := {
  set_client : Milliseconds (v1beta1.PoolFrontend_GetDataTimeout (v1beta1.pool_Frontend pl)) <> 0;
  set_connect : Milliseconds (v1beta1.PoolBackend_GetConnectTimeout (v1beta1.pool_Backend pl)) <> 0;
  set_data : Milliseconds (v1beta1.PoolBackend_GetDataTimeout (v1beta1.pool_Backend pl)) <> 0;
  set_delay : int_of_float64 (Seconds (v1beta1.HealthMonitor_GetDelay (v1beta1.be_HealthMonitor (v1beta1.pool_Backend pl)))) <> 0;
  set_timeout : int_of_float64 (Seconds (v1beta1.HealthMonitor_GetTimeout (v1beta1.be_HealthMonitor (v1beta1.pool_Backend pl)))) <> 0;
  set_http : let hm := v1beta1.be_HealthMonitor (v1beta1.pool_Backend pl) in
    healthMonitorTypeToCloudscaleHealthMonitorType (v1beta1.HealthMonitor_GetType hm) ∈ ["http"; "https"] ->
    v1beta1.http_Host (v1beta1.hm_HTTP hm) <> "" /\ v1beta1.http_StatusCodes (v1beta1.hm_HTTP hm) <> [];
}.

Lemma settable_listener lb pm l :
  settable (pm_Ours pm) -> listener_has (listenerReq lb pm) l -> listener_agrees (listenerReq lb pm) (allowedCIDRs pm) l.
Proof.
  intros [H1 H2 H3 _ _ _] (Hp & Hq & Hc & Ht1 & Ht2 & Ht3). split; [done|]. split; [done|].
  split; [by apply Hc|]. split; [by apply Ht1|]. split; [by apply Ht2|by apply Ht3].
Qed.

Lemma settable_monitor pm m :
  settable (pm_Ours pm) -> monitor_has (healthMonitorReq pm) m -> plan (healthMonitorReq pm) m = [].
Proof.
  intros [_ _ _ H1 H2 H3] (Hty & Hd & Ht & Hu & Hdn & Hh). apply monitor_plan_empty.
  split; [by apply Hd|]. split; [by apply Ht|]. split; [|split].
  - apply Hu. cbn. unfold v1beta1.HealthMonitor_GetUpThreshold. case_if; lia.
  - apply Hdn. cbn. unfold v1beta1.HealthMonitor_GetDownThreshold. case_if; lia.
  - revert Hh. cbn [cloudscale.hmr_HTTP healthMonitorReq]. destruct (httpConfigAllowed pm) eqn:Ea; [|done].
    destruct H3 as [Hhost Hcodes].
    { unfold httpConfigAllowed in Ea. apply orb_true_iff in Ea as [E|E]; apply str_eqb_true in E; fold (monitor pm); fold (monitorType pm); rewrite E; set_solver. }
    intros (Hm & Hpa & Hv & Hho & Hco). split; [|split; [|split; [|split]]].
    + apply Hm. cbn. unfold v1beta1.HTTPHealthMonitor_GetMethod. case_if; by str_prop.
    + apply Hpa. cbn. unfold v1beta1.HTTPHealthMonitor_GetPath. case_if; by str_prop.
    + apply Hv. cbn. unfold v1beta1.HTTPHealthMonitor_GetVersion. case_if; by str_prop.
    + apply Hho. cbn. unfold httpHost, monitor. by rewrite (proj2 (str_empty_false _) Hhost).
    + by apply Hco.
Qed.

Section Converge.
Context {L : Lib} {LL : LibLaws L} {W : Type} `{World W} `{!FloatingIPAPI W} `{!MemberAPI W}
  `{!HealthMonitorAPI W} `{!ListenerAPI W} `{!PoolAPI W} `{!LoadBalancerAPI W} `{!SystemAPI W}.
Implicit Types (w : W) (lb : v1beta1.LoadBalancer) (pm : poolMapping).

(** ** One pool *)

(** The parts the loop over the pools works on. *)
Definition below_pools (v : view) : Prop :=
  match v with VListeners | VMonitors | VMembers _ => True | _ => False end.

(** The work on the pool [p] left the other pools alone. *)
Record others_kept (p : string) w w' : Prop := {
  ok_pooled : all_pooled (listeners w') = true;
  ok_listeners q : p <> q -> listeners_of q (listeners w') ≡ₚ listeners_of q (listeners w);
  ok_monitors q : p <> q -> monitors_of q (monitors w') ≡ₚ monitors_of q (monitors w);
  ok_members q : p <> q -> members w' q = members w q;
}.

Lemma other_string p : p <> p +:+ "x".
Proof.
  induction p as [|a p IH]; [done|]. cbn. intros [= E]. by apply IH.
Qed.

Lemma listener_step lb pm w :
  settable (pm_Ours pm) ->
  let p := cloudscale.pool_UUID (pm_Theirs pm) in
  wp (ensureLoadBalancerListener lb pm) w (fun w' o => kept (fun v => v = VListeners) w w' /\ match o with
    | Returned _ =>
        all_pooled (listeners w') = true /\
        (forall q, p <> q -> listeners_of q (listeners w') ≡ₚ listeners_of q (listeners w)) /\
        exists l, listeners_of p (listeners w') = [l] /\ listener_agrees (listenerReq lb pm) (allowedCIDRs pm) l
    | _ => True
    end).
Proof.
  intros Hset p. apply wp_and.
  { eapply only_kept; [apply (ensureLoadBalancerListener_only lb pm)|]. by intros [] []. }
  pose proof (wp_returned_forall (fun q => p <> q) _ w _ (fun q Hq => listener_others lb pm q w Hq)) as Ho.
  eapply wp_mono; [|exact (wp_and _ _ _ _ (listener_done lb pm w) Ho)].
  intros w' [l0|e|s]; [|done|done]. intros [(l & Hl & Hh) Hq]. split; [apply (Hq (p +:+ "x")), other_string|].
  split; [intros q Hn; by apply Hq|]. exists l. split; [done|]. by apply settable_listener.
Qed.

Lemma monitor_step lb pm w :
  settable (pm_Ours pm) ->
  let p := cloudscale.pool_UUID (pm_Theirs pm) in
  wp (ensureLoadBalancerHealthMonitor lb pm) w (fun w' o => kept (fun v => v = VMonitors) w w' /\ match o with
    | Returned _ =>
        (forall q, p <> q -> monitors_of q (monitors w') ≡ₚ monitors_of q (monitors w)) /\
        exists m, monitors_of p (monitors w') = [m] /\
          cloudscale.hm_Type m = cloudscale.hmr_Type (healthMonitorReq pm) /\ plan (healthMonitorReq pm) m = []
    | _ => True
    end).
Proof.
  intros Hset p. apply wp_and.
  { eapply only_kept; [apply (ensureLoadBalancerHealthMonitor_only lb pm)|]. by intros [] []. }
  pose proof (wp_returned_forall (fun q => p <> q) _ w _ (fun q Hq => monitor_others lb pm q w Hq)) as Ho.
  eapply wp_mono; [|exact (wp_and _ _ _ _ (monitor_done lb pm w) Ho)].
  intros w' [l0|e|s]; [|done|done]. intros [(m & Hm & Hh) Hq]. split; [done|].
  exists m. split; [done|]. split; [apply Hh|]. by apply settable_monitor.
Qed.

Definition is_members (v : view) : Prop := match v with VMembers _ => True | _ => False end.

Lemma members_step lb pm servers w :
  let p := cloudscale.pool_UUID (pm_Theirs pm) in
  wp (ensureLoadBalancerPoolMembers lb pm servers) w (fun w' o => kept is_members w w' /\ match o with
    | Returned result =>
        (forall q, p <> q -> members w' q = members w q) /\ result = members w' p /\
        (forall m, m ∈ result -> exists r, r ∈ shouldPoolMembers lb pm servers /\ implements m r) /\
        (forall r, r ∈ shouldPoolMembers lb pm servers -> exists m, m ∈ result /\ implements m r)
    | _ => True
    end).
Proof.
  intros p. apply wp_and.
  { eapply only_kept; [apply (ensureLoadBalancerPoolMembers_calls lb pm servers)|]. by intros [] []. }
  pose proof (wp_returned_forall (fun q => p <> q) _ w _ (fun q Hq => members_others lb pm servers q w Hq)) as Ho.
  eapply wp_mono; [|exact (wp_and _ _ _ _ (members_done lb pm servers w) Ho)].
  intros w' [l0|e|s]; [|done|done]. intros [(Hr & H1 & H2) Hq]. split; [done|]. by split.
Qed.

Lemma pool_servers_kept V w w' pool : kept V w w' -> pool_servers w' pool = pool_servers w pool.
Proof. intros []. by apply pool_servers_eq. Qed.

Lemma reconcilePool_below lb pm : only (fun r => forall v, touches r v -> below_pools v) (reconcilePool lb pm).
Proof.
  assert (Hr : forall A (m : M A), only is_read m -> only (fun r => forall v, touches r v -> below_pools v) m).
  { intros A m. apply only_mono. intros r Hr v Ht. by destruct (read_touches_nothing r v). }
  unfold reconcilePool. only_steps; try exact I.
  - eapply only_mono; [|apply ensureLoadBalancerListener_only]. by intros [] ? [].
  - eapply only_mono; [|apply ensureLoadBalancerHealthMonitor_only]. by intros [] ? [].
  - apply Hr, matchingNodes_reads.
  - apply Hr, cloudscaleServersForNodes_reads.
  - eapply only_mono; [|apply ensureLoadBalancerPoolMembers_calls]. by intros [] ? [].
Qed.

(** From the nodes to the servers of a pool: what follows gets its servers, in a
    state that cannot be told from the one before. *)
Lemma wp_servers {A} pm (k : list nodeServerMapping -> M A) w Q :
  (forall w', same w w' -> wp (k (pool_servers w (pm_Ours pm))) w' Q) ->
  (forall w' e, same w w' -> Q w' (Failed e)) -> (forall w' s, same w w' -> Q w' (Panicked s)) ->
  wp (backends ← wrap "failed to get matching nodes: %w" []
        (matchingNodes (v1beta1.be_NodeSelector (v1beta1.pool_Backend (pm_Ours pm))));
      '(servers, warnings) ← wrap "failed to get cloudscale servers for nodes: %w" []
        (cloudscaleServersForNodes backends);
      _ ← (if Nat.ltb 0 (length warnings)
           then Event EventTypeWarning "BackendsIgnored" (Join warnings "; ") else mret tt);
      k servers) w Q.
Proof.
  intros Hk HF HP. apply wp_bind, wp_wrap. eapply wp_mono; [|apply matchingNodes_service].
  intros w1 [nodes|e|s] [S1 P1]; cbn [wrapped continue]; [|by apply HF|by apply HP]. subst nodes.
  apply wp_bind, wp_wrap. eapply wp_mono; [|apply cloudscaleServersForNodes_service].
  intros w2 o [S2 P2]. assert (S : same w w2) by (by etransitivity).
  destruct o as [[servers warnings]|e|s]; cbn [wrapped continue]; [|by apply HF|by apply HP].
  replace servers with (pool_servers w (pm_Ours pm)).
  - destruct (Nat.ltb _ _); cbn; apply Hk; [|done]. etransitivity; [exact S|apply same_recorded].
  - rewrite P2. unfold pool_servers. clear -S1.
    induction (SortFunc _ _) as [|n ns IH]; cbn; [done|]. by rewrite (node_mapping_same _ _ _ S1), IH.
Qed.

Lemma reconcilePool_step lb pm w :
  settable (pm_Ours pm) ->
  wp (reconcilePool lb pm) w (fun w' o => kept below_pools w w' /\ match o with
    | Returned st =>
        others_kept (cloudscale.pool_UUID (pm_Theirs pm)) w w' /\ pool_settled w' lb pm /\ st = pool_status w' pm
    | _ => True
    end).
Proof.
  intros Hset. apply wp_and.
  { eapply only_kept; [apply reconcilePool_below|]. intros r v Hv; apply Hv. }
  unfold reconcilePool. set (p := cloudscale.pool_UUID (pm_Theirs pm)).
  apply wp_bind, wp_wrap. eapply wp_mono; [|by apply listener_step]. intros w1 [l0|e|s] [K1 P1]; [|done|done].
  destruct P1 as (Hpool & Hol & l & Hl & Hla). cbn [wrapped continue].
  apply wp_bind, wp_wrap. eapply wp_mono; [|by apply monitor_step]. intros w2 [m0|e|s] [K2 P2]; [|done|done].
  destruct P2 as (Hom & m & Hm & Hmt & Hmp). cbn [wrapped continue]. apply wp_servers; [|done|done].
  intros w3 S3. apply wp_bind, wp_wrap. eapply wp_mono; [|apply members_step].
  intros w4 [result|e|s] [K4 P4]; [|done|done]. destruct P4 as (Hoq & -> & Hon & Hal). cbn.
  assert (Hsv : pool_servers w4 (pm_Ours pm) = pool_servers w2 (pm_Ours pm)).
  { rewrite (pool_servers_kept _ _ _ _ K4). by apply pool_servers_same. }
  assert (El : listeners w4 = listeners w1).
  { rewrite (kept_listeners _ _ _ K4), (same_listeners _ _ S3) by (by intros []). by apply (kept_listeners _ _ _ K2). }
  assert (Em : monitors w4 = monitors w2).
  { rewrite (kept_monitors _ _ _ K4) by (by intros []). apply (same_monitors _ _ S3). }
  split; [|split; [|done]].
  - split.
    + by rewrite El.
    + intros q Hq. rewrite El. by apply Hol.
    + intros q Hq. by rewrite Em, (Hom q Hq), (kept_monitors _ _ _ K1) by done.
    + intros q Hq. by rewrite (Hoq q Hq), (same_members _ _ S3), (kept_members _ _ _ K2), (kept_members _ _ _ K1) by done.
  - split; rewrite ?El, ?Em, ?Hsv; eauto.
Qed.

(** ** The loop over the pools *)

Lemma settled_others lb pm p w w' :
  p <> cloudscale.pool_UUID (pm_Theirs pm) -> others_kept p w w' -> kept below_pools w w' ->
  pool_settled w lb pm -> pool_settled w' lb pm /\ pool_status w' pm = pool_status w pm.
Proof.
  intros Hp [Hpool Hl Hm Hmem] K [_ (l & Hsl & Hla) (m & Hsm & Hma) Ho Ha].
  specialize (Hl _ Hp). specialize (Hm _ Hp). rewrite Hsl in Hl. rewrite Hsm in Hm.
  apply Permutation_singleton_r in Hl, Hm. pose proof (pool_servers_kept _ _ _ (pm_Ours pm) K) as Hs.
  split; [|unfold pool_status; by rewrite Hmem].
  split; [done|by exists l|by exists m| |]; rewrite (Hmem _ Hp), Hs; [exact Ho|exact Ha].
Qed.

Lemma pools_loop lb ms w :
  NoDup (map (fun m => cloudscale.pool_UUID (pm_Theirs m)) ms) -> (forall m, m ∈ ms -> settable (pm_Ours m)) ->
  wp (mapM ms (reconcilePool lb)) w (fun w' o => kept below_pools w w' /\ match o with
    | Returned sts => (forall m, m ∈ ms -> pool_settled w' lb m) /\ sts = map (pool_status w') ms
    | _ => True
    end).
Proof.
  intros Hnd Hset. apply wp_mapM with (I := fun pre sts w' => kept below_pools w w' /\
    (forall m, m ∈ pre -> pool_settled w' lb m) /\ sts = map (pool_status w') pre).
  - split; [done|]. split; [set_solver|done].
  - intros pre pm rest sts w1 El (K1 & Hps & ->).
    eapply wp_mono; [|apply reconcilePool_step, Hset; rewrite El; set_solver].
    intros w2 o [K2 Ho]. assert (K : kept below_pools w w2) by (by etransitivity).
    destruct o as [st|e|s]; [|done|done]. destruct Ho as (Hoth & Hpm & ->). split; [done|].
    assert (Hkeep : forall m, m ∈ pre -> pool_settled w2 lb m /\ pool_status w2 m = pool_status w1 m).
    { intros m Hm. eapply settled_others; [|exact Hoth|done|by apply Hps].
      rewrite El, map_app, NoDup_app in Hnd. destruct Hnd as (_ & Hd & _). intros E.
      apply (Hd (cloudscale.pool_UUID (pm_Theirs m))); [by apply (elem_of_map (fun m => cloudscale.pool_UUID (pm_Theirs m)))|].
      rewrite <- E. cbn. by left. }
    split.
    + intros m. rewrite elem_of_app, list_elem_of_singleton. intros [Hm| ->]; [by apply Hkeep|done].
    + rewrite map_app. cbn. f_equal. apply map_ext_in. intros m Hm%list_elem_of_In. symmetry. by apply Hkeep.
  - intros sts w1 (K & Hps & ->). done.
Qed.

(** ** The pools *)

Lemma poolRequest_name_inj lb p1 p2 :
  cloudscale.poolr_Name (poolRequest lb p1) = cloudscale.poolr_Name (poolRequest lb p2) ->
  v1beta1.pool_Name p1 = v1beta1.pool_Name p2.
Proof. apply pool_name_inj. Qed.

(** Requests of the manifest are told apart by their names. *)
Lemma should_by_name lb s1 s2 :
  NoDup (map v1beta1.pool_Name (v1beta1.spec_Pools (v1beta1.lb_Spec lb))) ->
  s1 ∈ shouldPools lb -> s2 ∈ shouldPools lb -> cloudscale.poolr_Name s1 = cloudscale.poolr_Name s2 -> s1 = s2.
Proof.
  intros Hnd (p1 & <- & H1%list_elem_of_In)%list_elem_of_In%in_map_iff
    (p2 & <- & H2%list_elem_of_In)%list_elem_of_In%in_map_iff En%poolRequest_name_inj.
  by rewrite (NoDup_map_inj _ _ _ _ Hnd H1 H2 En).
Qed.

Lemma should_NoDup lb :
  NoDup (map v1beta1.pool_Name (v1beta1.spec_Pools (v1beta1.lb_Spec lb))) -> NoDup (shouldPools lb).
Proof.
  unfold shouldPools. induction (v1beta1.spec_Pools _) as [|pl l IH]; cbn; [constructor|].
  rewrite NoDup_cons. intros [Hn Hd]. apply NoDup_cons. split; [|by apply IH].
  intros (p' & E & Hp')%list_elem_of_In%in_map_iff. apply Hn.
  replace (v1beta1.pool_Name pl) with (v1beta1.pool_Name p'); [by apply list_elem_of_In, in_map|].
  by apply (poolRequest_name_inj lb); rewrite E.
Qed.

(** While pools are created: names stay apart, and what is new implements a
    request already handled. *)
Definition naming before (pre : list cloudscale.LoadBalancerPoolRequest) w : Prop :=
  pools_named w /\
  (forall a, a ∈ pools w -> a ∈ pools before \/ exists s, s ∈ pre /\ pool_implements a s).

Lemma naming_create lb all before pre s rest a w w' :
  NoDup (map v1beta1.pool_Name (v1beta1.spec_Pools (v1beta1.lb_Spec lb))) ->
  shouldPools lb = pre ++ s :: rest ->
  (forall b, b ∈ pools before -> b ∈ all /\ b ∉ unwantedPools (shouldPools lb) (actualPools lb all)) ->
  existsb (fun b => bool_decide (pool_implements b s)) (actualPools lb all) = false ->
  pools w' ≡ₚ a :: pools w -> pool_implements a s -> naming before pre w -> naming before (pre ++ [s]) w'.
Proof.
  intros Hnd Es Hbefore Hno Hp Ha [Hnamed Hnew].
  assert (Hfresh : forall b, b ∈ pools w -> cloudscale.pool_LoadBalancer b = cloudscale.pool_LoadBalancer a ->
    cloudscale.pool_Name b <> cloudscale.pool_Name a).
  { intros b Hb Hl Hn. assert (Hs : s ∈ shouldPools lb) by (rewrite Es; set_solver).
    destruct Ha as (Han & Hal & _). rewrite Han in Hn. rewrite Hal in Hl.
    destruct (Hnew b Hb) as [Hold|(s' & Hs' & Hi)].
    - destruct (Hbefore b Hold) as [Hall Hwanted].
      assert (Hact : b ∈ actualPools lb all) by (apply elem_of_actualPools; split; [done|]; rewrite Hl; by apply should_LoadBalancer).
      rewrite existsb_not_elem in Hno. destruct Hwanted. apply elem_of_unwantedPools. split; [done|].
      intros r Hr Hi. pose proof Hi as (Hrn & _). assert (r = s) as -> by (eapply should_by_name; eauto; congruence).
      specialize (Hno b Hact). by rewrite bool_decide_eq_false in Hno.
    - pose proof Hi as (Hrn & _). assert (s' = s) as -> by (eapply (should_by_name lb); eauto; [rewrite Es; set_solver|congruence]).
      pose proof (should_NoDup lb Hnd) as Hd. rewrite Es, NoDup_app in Hd. destruct Hd as (_ & Hd & _).
      apply (Hd s Hs'). by left. }
  split.
  - intros b c Hb Hc Hl Hn. rewrite Hp in Hb, Hc. apply elem_of_cons in Hb as [->|Hb], Hc as [->|Hc]; [done| | |by apply Hnamed].
    + by destruct (Hfresh c Hc).
    + by destruct (Hfresh b Hb).
  - intros b Hb. rewrite Hp in Hb. apply elem_of_cons in Hb as [->|Hb]; [right; exists s; set_solver|].
    destruct (Hnew b Hb) as [Ho|(s' & Hs' & Hi)]; [by left|]. right. exists s'. set_solver.
Qed.

Lemma pools_named_done lb w :
  NoDup (map v1beta1.pool_Name (v1beta1.spec_Pools (v1beta1.lb_Spec lb))) -> pools_named w ->
  wp (ensureLoadBalancerPools lb) w (fun w' o => match o with Returned _ => pools_named w' | _ => True end).
Proof.
  intros Hnd Hn. unfold ensureLoadBalancerPools. do 3 wp_step; cbn beta iota zeta; [|done].
  match goal with Ha : answers _ PoolList _ _ |- _ => apply pool_list in Ha as [-> Hw] end.
  apply wp_bind. eapply wp_mono; [|by apply delete_loop_service].
  intros w1 [[]|e|s] Hpr; cbn [continue]; [|done|done].
  apply wp_mapM with (I := fun pre _ w2 => naming w1 (map snd pre) w2).
  - split; [|by left]. intros a b [Ha _]%Hpr [Hb _]%Hpr. by apply Hn.
  - intros pre [i s] rest ms w2 El Hnam. pose proof (imap_snd_app _ _ _ _ _ El) as Es.
    destruct (loop_index _ _ _ _ _ El) as (ours & Hi & -> & ->). rewrite map_app. unfold ensurePool. rewrite Hi.
    pose proof (Index_actual (actualPools lb (pools w)) (poolRequest lb ours)) as Hx. destruct (IndexFunc _ _) as [ai|].
    + destruct Hx as (a & -> & _). destruct Hnam as [H1 H2]. split; [done|].
      intros b Hb. destruct (H2 b Hb) as [Ho|(s & Hs & Hi')]; [by left|]. right. exists s. set_solver.
    + wp_steps; [|done]. match goal with v : val (PoolCreate _) |- _ => destruct v as [a|]; [|done] end.
      cbn [non_nil wp continue Eventf mret M_ret].
      match goal with Ha : answers _ (PoolCreate _) _ _ |- _ => apply pool_create in Ha as [Hp Himp] end.
      eapply naming_create; [done|exact Es|by intros b Hb; apply Hpr|exact Hx|by rewrite pool_recorded|done|done].
  - by intros ms w2 [].
Qed.

(** Everything below a load balancer that hangs on its pools. *)
Definition below_lb (v : view) : Prop :=
  match v with VPools | VListeners | VMonitors | VMembers _ => True | _ => False end.

Lemma pools_step lb w :
  NoDup (map v1beta1.pool_Name (v1beta1.spec_Pools (v1beta1.lb_Spec lb))) -> pools_named w ->
  wp (ensureLoadBalancerPools lb) w (fun w' o => kept below_lb w w' /\ match o with
    | Returned ms => pools_mapped w' lb ms /\ NoDup (map (fun m => cloudscale.pool_UUID (pm_Theirs m)) ms)
    | _ => True
    end).
Proof.
  intros Hnd Hn. apply wp_and.
  { eapply only_kept; [apply ensureLoadBalancerPools_calls|]. by intros [] []. }
  eapply wp_mono; [|exact (wp_and _ _ _ _ (pools_done lb w) (wp_and _ _ _ _ (pools_named_done lb w Hnd Hn) (pools_done_distinct lb w Hnd)))].
  intros w' [ms|e|s]; [|done|done]. intros ((H1 & H2 & H3 & _) & H4 & H5). split; [by split|done].
Qed.

(** ** The floating IPs *)

Definition fips_exist w lb : Prop :=
  forall c, c ∈ wantedCIDRs lb -> one_length c /\ exists f, f ∈ floating_ips w /\ cloudscale.fip_Network f = c.

Lemma attach_networks lb w :
  wp (attachFloatingIPs lb) w (fun w' o => match o with
    | Returned _ => map cloudscale.fip_Network (floating_ips w') = map cloudscale.fip_Network (floating_ips w)
    | _ => True end).
Proof.
  assert (Ha : forall ip u l, map cloudscale.fip_Network (map (assign ip u) l) = map cloudscale.fip_Network l).
  { intros ip u l. rewrite map_map. apply map_ext. intros f. unfold assign. by case_if. }
  unfold attachFloatingIPs. destruct (v1beta1.spec_FloatingIPAddresses _) as [|ip0 ips0]; [done|].
  wp_steps; [|done]. match goal with Ha : answers _ _ (Ok ?l) _ |- _ => apply fip_list in Ha as [-> Hw] end.
  apply wp_foldM with (I := fun _ _ w' => map cloudscale.fip_Network (floating_ips w') = map cloudscale.fip_Network (floating_ips w)).
  - by rewrite Hw.
  - intros pre x rest have w1 _ HI. destruct (floatingIPAttached _ _ _); [done|]. wp_steps; [|done].
    match goal with Ha : answers _ (FloatingIPUpdate _ _) _ _, v : val _ |- _ => destruct v; apply fip_update in Ha as [E _] end.
    cbn. by rewrite fip_recorded, E, Ha.
  - done.
Qed.

Lemma attach_step lb w :
  v1beta1.UUID lb <> "" -> fips_exist w lb ->
  wp (attachFloatingIPs lb) w (fun w' o => kept (fun v => v = VFips) w w' /\ match o with
    | Returned cidrs => fips_attached w' lb /\ StronglySorted str_lt cidrs /\ (forall c, c ∈ cidrs <-> c ∈ wantedCIDRs lb)
    | _ => True
    end).
Proof.
  intros Hu He. apply wp_and.
  { eapply only_kept; [apply attachFloatingIPs_calls|]. by intros [] []. }
  assert (Hone : Forall one_length (wantedCIDRs lb)) by (apply Forall_forall; intros c Hc; by apply He).
  eapply wp_mono; [|exact (wp_and _ _ _ _ (attach_done lb w Hu Hone) (wp_and _ _ _ _ (attach_networks lb w) (attach_result_sorted lb w)))].
  intros w' [cidrs|e|s]; [|done|done]. intros (Hd & Hm & Hr). split; [|done].
  intros c Hc. destruct (He c Hc) as (_ & f & Hf%(elem_of_map cloudscale.fip_Network) & <-). rewrite <- Hm in Hf.
  apply list_elem_of_In, in_map_iff in Hf as (f' & E & Hf'%list_elem_of_In). exists f'. rewrite E in *.
  split; [done|]. split; [done|]. apply Hd; [done|]. by rewrite E.
Qed.

(** ** The status *)

(** The object of key [k] is [lb], it is not being deleted and has the finalizer. *)
Record live w (k : v1beta1.NamespacedName) lb : Prop := {
  live_object : object w k = Some lb;
  live_key : key_of lb = k;
  live_time : v1beta1.DeletionTimestamp_IsZero lb = true;
  live_finalizer : LoadBalancerFinalizer ∈ v1beta1.Finalizers lb;
}.

Lemma live_kept V w w' k lb : kept V w w' -> ~ V (VObject k) -> live w k lb -> live w' k lb.
Proof. intros K HV []. split; try done. by rewrite (kept_object _ _ _ K). Qed.

Lemma update_kept k lb w r x w' : r = K8sUpdate lb \/ r = K8sStatusUpdate lb -> key_of lb = k ->
  answers w r x w' -> kept (fun v => v = VObject k) w w'.
Proof.
  intros Hr <- Ha. eapply kept_call; [|exact Ha]. intros v Hv. by destruct Hr as [->| ->], v; cbn in Hv; subst.
Qed.

(** A saved object is live if it was to be. *)
Lemma update_saved k lb w :
  key_of lb = k -> v1beta1.DeletionTimestamp_IsZero lb = true -> LoadBalancerFinalizer ∈ v1beta1.Finalizers lb ->
  wp (call (K8sUpdate lb)) w (fun w' o => kept (fun v => v = VObject k) w w' /\ match o with
    | Returned x => x = lb /\ live w' k lb | _ => True end).
Proof.
  intros Hk Ht Hf [x|e] w' Ha; cbn; (split; [by eapply update_kept; [left| |exact Ha]|]); [|done].
  apply k8s_update in Ha as [-> Ho]. split; [done|]. subst k. split; auto.
Qed.

Lemma status_update_saved k lb w :
  key_of lb = k -> v1beta1.DeletionTimestamp_IsZero lb = true -> LoadBalancerFinalizer ∈ v1beta1.Finalizers lb ->
  wp (call (K8sStatusUpdate lb)) w (fun w' o => kept (fun v => v = VObject k) w w' /\ match o with
    | Returned x => x = lb /\ live w' k lb | _ => True end).
Proof.
  intros Hk Ht Hf [x|e] w' Ha; cbn; (split; [by eapply update_kept; [right| |exact Ha]|]); [|done].
  apply k8s_status_update in Ha as [-> Ho]. split; [done|]. subst k. split; auto.
Qed.

(** Saving the status, when it changed. *)
Lemma status_saved k lb st (changed : bool) format w :
  live w k lb -> (changed = false -> st = v1beta1.lb_Status lb) ->
  wp (_ ← (if changed then _ ← wrap format [] (call (K8sStatusUpdate (v1beta1.with_Status lb st))); mret tt else mret tt);
      mret zero_Result) w (fun w' o => kept (fun v => v = VObject k) w w' /\ match o with
    | Returned res => res = zero_Result /\ live w' k (v1beta1.with_Status lb st)
    | _ => True
    end).
Proof.
  intros [Ho Hk Ht Hf] Hst. destruct changed.
  - apply wp_bind, wp_bind, wp_wrap. eapply wp_mono; [|by apply (status_update_saved k (v1beta1.with_Status lb st))].
    intros w' [x|e|s] [K P]; cbn; (split; [done|]); [|done|done]. split; [done|]. apply P.
  - cbn. rewrite Hst by done. split; [done|]. split; [done|]. by destruct lb.
Qed.

(** ** Everything below the load balancer *)

(** What a manifest and the state must have for the manifest to be implementable: distinct pool names, attributes the
    API can be asked for, floating IPs that exist, and no two pools of one name. *)
Record workable w lb : Prop := {
  wk_names : NoDup (map v1beta1.pool_Name (v1beta1.spec_Pools (v1beta1.lb_Spec lb)));
  wk_settable pl : pl ∈ v1beta1.spec_Pools (v1beta1.lb_Spec lb) -> settable pl;
  wk_fips : fips_exist w lb;
  wk_named : pools_named w;
}.

Lemma pool_settled_kept (V : view -> Prop) w w' lb pm :
  kept V w w' -> (forall v, V v -> ~ below_pools v) -> pool_settled w lb pm ->
  pool_settled w' lb pm /\ pool_status w' pm = pool_status w pm.
Proof.
  intros K HV [H1 H2 H3 H4 H5]. pose proof (pool_servers_kept _ _ _ (pm_Ours pm) K) as Hs.
  assert (Hn : forall v, below_pools v -> ~ V v) by naive_solver.
  assert (Em : forall p, members w' p = members w p) by (intros; apply (kept_members _ _ _ K); by apply Hn).
  split; [|unfold pool_status; by rewrite Em].
  split; rewrite ?(kept_listeners _ _ _ K), ?(kept_monitors _ _ _ K), ?Em, ?Hs by (by apply Hn); auto.
Qed.

Lemma pools_mapped_kept V w w' lb ms : kept V w w' -> ~ V VPools -> pools_mapped w lb ms -> pools_mapped w' lb ms.
Proof.
  intros K HV [H1 H2 H3 H4]. unfold pools_named in H4. rewrite <- (kept_pools _ _ _ K HV) in H2, H3, H4 . by split.
Qed.

(** The status a pass reports, from what it saw. *)
Definition report lb (e : cloudscale.LoadBalancer) (sts : list v1beta1.StatusPool) (cidrs : list string)
    : v1beta1.LoadBalancerStatus :=
  {| v1beta1.status_CloudscaleStatus := v1beta1.status_CloudscaleStatus (v1beta1.lb_Status lb);
     v1beta1.status_VirtualIPAddresses := frontendIPs e;
     v1beta1.status_FloatingIPAddresses := map (fun ip => {| v1beta1.sfip_CIDR := ip |}) cidrs;
     v1beta1.status_Pools := sts |}.

(** A pass that mapped the pools, settled each, attached the floating IPs and
    reported has implemented the manifest. *)
Lemma implemented_reported (V : view -> Prop) lb e ms cidrs w w1 w2 w' :
  kept below_lb w w1 -> kept below_pools w1 w2 -> kept V w2 w' -> (forall v, V v -> ~ below_lb v /\ v <> VLBs) ->
  lb_ready w lb e -> pools_mapped w1 lb ms -> (forall m, m ∈ ms -> pool_settled w2 lb m) ->
  fips_attached w' lb -> StronglySorted str_lt cidrs -> (forall c, c ∈ cidrs <-> c ∈ wantedCIDRs lb) ->
  implemented w' (v1beta1.with_Status lb (report lb e (map (pool_status w2) ms) cidrs)) e ms.
Proof.
  intros K1 K2 K3 HV [Hz Hin Hu Hm Hc Hst] Hmap Hps Hatt Hsort Hcidrs.
  assert (HL : ~ V VLBs) by (intros Hv%HV; by destruct Hv). assert (HP : ~ V VPools) by (intros Hv%HV; by destruct Hv as [[] _]).
  assert (Hps' : forall m, m ∈ ms -> pool_settled w' lb m /\ pool_status w' m = pool_status w2 m).
  { intros m Hmm. eapply pool_settled_kept; [exact K3| |by apply Hps]. intros v Hv. apply HV in Hv as [Hv _]. by destruct v. }
  assert (Hf : map v1beta1.sfip_CIDR (map (fun ip => {| v1beta1.sfip_CIDR := ip |}) cidrs) = cidrs)
    by (rewrite map_map; apply map_id).
  split.
  - split; try done. rewrite (kept_lbs _ _ _ K3 HL), (kept_lbs _ _ _ K2), (kept_lbs _ _ _ K1) by (by intros []). done.
  - apply (pools_mapped_kept _ _ _ _ _ K3 HP) , (pools_mapped_kept _ _ _ _ _ K2); [by intros []|].
    by destruct Hmap.
  - intros m Hmm. destruct (Hps' m Hmm) as [[] _]. by split.
  - exact Hatt.
  - apply map_ext_in. intros m Hmm%list_elem_of_In. symmetry. by apply Hps'.
  - done.
  - unfold fips_reported. cbn. rewrite Hf. by split.
Qed.

Lemma resources_done k lb e w :
  live w k lb -> lb_ready w lb e -> workable w lb ->
  wp (reconcileResources lb e) w (fun w' o => match o with
    | Returned res => res = zero_Result /\ settled w' k
    | _ => True
    end).
Proof.
  intros Hlive Hr [Hnames Hset Hfip Hnamed]. unfold reconcileResources.
  apply wp_bind, wp_wrap. eapply wp_mono; [|by apply pools_step]. intros w1 [ms|err|s] [K1 P1]; [|done|done].
  destruct P1 as [Hmap Hd]. cbn [wrapped continue]. apply wp_bind. eapply wp_mono; [|apply pools_loop; [done|]].
  2: { intros m Hm. apply Hset. rewrite <- (pm_manifest _ _ _ Hmap). by apply elem_of_map. }
  intros w2 [sts|err|s] [K2 P2]; [|done|done]. destruct P2 as [Hps ->]. cbn [continue].
  rewrite refreshPools_eq, refreshVIPs_eq. apply wp_bind, wp_wrap.
  set (lb1 := v1beta1.with_StatusVIPs _ _). eapply wp_mono; [|apply (attach_step lb1)].
  2: { change (v1beta1.UUID lb <> ""). rewrite <- (lr_uuid _ _ _ Hr). by apply (lb_identified w), Hr. }
  2: { intros c Hc. rewrite (kept_fips _ _ _ K2), (kept_fips _ _ _ K1) by (by intros []). by apply Hfip. }
  intros w3 [cidrs|err|s] [K3 P3]; [|done|done]. destruct P3 as (Hatt & Hsort & Hin). cbn [wrapped continue].
  rewrite refreshFloatingIPs_eq. set (st := report lb e (map (pool_status w2) ms) cidrs).
  change (v1beta1.with_StatusFloatingIPs lb1 _) with (v1beta1.with_Status lb st).
  assert (H3 : live w3 k lb) by (apply (live_kept _ _ _ _ _ K3); [done|];
    apply (live_kept _ _ _ _ _ K2); [by intros []|]; by apply (live_kept _ _ _ _ _ K1); [intros []|]).
  eapply wp_mono; [|apply (status_saved k lb st _ _ w3 H3)].
  2: { rewrite !orb_false_iff, !negb_false_iff, !bool_decide_eq_true. intros [[E1 E2] E3].
       cbn in E2, E3. unfold st, report. rewrite <- E1, <- E2, <- E3. by destruct (v1beta1.lb_Status lb). }
  intros w4 [res|err|s] [K4 P4]; [|done|done]. destruct P4 as [-> Hlive4]. split; [done|].
  exists (v1beta1.with_Status lb st), e, ms. destruct Hlive4 as [Ho _ Ht Hf]. split; [done|]. split; [done|]. split; [done|].
  apply (implemented_reported (fun v => v = VFips \/ v = VObject k) lb e ms cidrs w w1 w2 w4); try done.
  - etransitivity; [eapply kept_mono; [|exact K3]|eapply kept_mono; [|exact K4]]; by auto.
  - intros v [->| ->]; (split; [by intros []|done]).
  - intros c Hc. rewrite (kept_fips _ _ _ K4) by done. by apply Hatt.
Qed.

(** ** The load balancer itself *)

Lemma findByName_elem lb l e : findByName lb l = Some e -> e ∈ l.
Proof. intros [Hin _]%find_some. by apply list_elem_of_In. Qed.

Lemma ensureLoadBalancer_step lb w :
  wp (ensureLoadBalancer lb) w (fun w' o => kept (fun v => v = VLBs) w w' /\ match o with
    | Returned e => e ∈ lbs w' /\ (v1beta1.UUID lb <> "" -> cloudscale.lb_UUID e = v1beta1.UUID lb /\ managed e)
    | _ => True
    end).
Proof.
  apply wp_and.
  { eapply only_kept; [apply ensureLoadBalancer_calls|]. intros [] []; try done; by intros []. }
  unfold ensureLoadBalancer. destruct (str_empty (v1beta1.UUID lb)) eqn:Eu; str_prop.
  - eapply wp_mono; [|apply findOrCreate_service]. intros w' [e|err|s]; [|done|done].
    intros [Hf%findByName_elem _]. apply elem_of_List_filter in Hf as [Hf _]. by split.
  - do 3 wp_step; cbn beta iota zeta; [|done].
    match goal with Ha : answers _ (LBGet _) _ _, v : val _ |- _ => destruct v as [c|]; [|done]; rename Ha into Hg end.
    cbn [non_nil mbind M_bind]. apply lb_frame in Hg as Hw; [|done]. apply lb_get in Hg as [Hc Hu].
    destruct (str_eqb _ "true") eqn:Em; [str_prop; cbn; rewrite Hw; by auto|].
    unfold adopt. repeat case_if; [done..|]. wp_steps; [|done].
    match goal with Ha : answers _ (LBUpdate _ _) _ _, v : val _ |- _ => destruct v; apply lb_update in Ha as Hl end.
    split; [|intros _; split; [done|apply adoptedTags_managed]].
    rewrite lb_recorded, Hl, Hw. apply list_elem_of_In, in_map_iff. exists c.
    rewrite str_eqb_refl. split; [done|]. by apply list_elem_of_In.
Qed.

(** ** A whole pass *)

Definition same_wishes lb lb' : Prop :=
  v1beta1.spec_Pools (v1beta1.lb_Spec lb') = v1beta1.spec_Pools (v1beta1.lb_Spec lb) /\
  v1beta1.spec_FloatingIPAddresses (v1beta1.lb_Spec lb') = v1beta1.spec_FloatingIPAddresses (v1beta1.lb_Spec lb).

Lemma workable_kept (V : view -> Prop) w w' lb lb' :
  kept V w w' -> ~ V VFips -> ~ V VPools -> same_wishes lb lb' -> workable w lb -> workable w' lb'.
Proof.
  intros K HF HP [E1 E2] [H1 H2 H3 H4]. unfold fips_exist, pools_named, wantedCIDRs in *.
  rewrite <- (kept_fips _ _ _ K HF) in H3. rewrite <- (kept_pools _ _ _ K HP) in H4. rewrite <- E1 in H1, H2. rewrite <- E2 in H3.
  by split.
Qed.

(** Where a pass can leave a live object: identified, with the load balancer still
    changing, or settled. *)
Definition identified w k : Prop :=
  exists lb, live w k lb /\ workable w lb /\ v1beta1.UUID lb <> "" /\ v1beta1.Zone lb <> "".

Definition waiting w k : Prop :=
  exists lb e, live w k lb /\ workable w lb /\ v1beta1.UUID lb <> "" /\ v1beta1.Zone lb <> "" /\
    e ∈ lbs w /\ cloudscale.lb_UUID e = v1beta1.UUID lb /\ cloudscale.lb_Status e = "changing" /\
    v1beta1.status_CloudscaleStatus (v1beta1.lb_Status lb) = "changing".

(** What a pass over the object [lb] may return, and what it left behind. *)
Definition progress w k lb (rest : Result) (res : Result) : Prop :=
  (res = requeue_now /\ identified w k /\ (v1beta1.UUID lb = "" \/ v1beta1.Zone lb = "")) \/
  (res = requeue_in (5 * Second) /\ waiting w k) \/
  (res = rest /\ settled w k).

Lemma identify_done k lb lb' format w :
  live w k lb -> workable w lb -> same_wishes lb lb' -> v1beta1.lb_Meta lb' = v1beta1.lb_Meta lb ->
  v1beta1.UUID lb' <> "" -> v1beta1.Zone lb' <> "" ->
  wp (_ ← wrap format [] (call (K8sUpdate lb')); mret requeue_now) w (fun w' o => match o with
    | Returned res => res = requeue_now /\ identified w' k | _ => True end).
Proof.
  intros [Ho Hk Ht Hf] Hw Hs Hm Hu Hz. apply wp_bind, wp_wrap. eapply wp_mono; [|apply (update_saved k lb')].
  - intros w' [x|e|s] [K P]; cbn; [|done|done]. split; [done|]. destruct P as [_ Hl]. exists lb'. split; [done|].
    split; [|done]. by apply (workable_kept _ _ _ lb _ K).
  - rewrite <- Hk. unfold key_of, v1beta1.Namespace, v1beta1.Name. by rewrite Hm.
  - rewrite <- Ht. unfold v1beta1.DeletionTimestamp_IsZero. by rewrite Hm.
  - unfold v1beta1.Finalizers in *. by rewrite Hm.
Qed.

Lemma ensured_done k lb e w :
  live w k lb -> workable w lb -> e ∈ lbs w ->
  (v1beta1.UUID lb <> "" -> cloudscale.lb_UUID e = v1beta1.UUID lb /\ managed e) ->
  wp (reconcileEnsured lb e) w (fun w' o => match o with Returned res => progress w' k lb zero_Result res | _ => True end).
Proof.
  intros Hl Hw He Hm. destruct (lb_identified w e He) as [Hue Hze]. unfold reconcileEnsured.
  destruct (str_empty (v1beta1.UUID lb)) eqn:Eu; str_prop.
  { eapply wp_mono; [|by eapply identify_done]. intros w' [res|err|s]; [|done|done]. intros [-> Hi]. left. auto. }
  destruct (str_empty (v1beta1.Zone lb)) eqn:Ez; str_prop.
  { eapply wp_mono; [|by eapply identify_done]. intros w' [res|err|s]; [|done|done]. intros [-> Hi]. left. auto. }
  destruct (Hm Eu) as [Hu Hman]. set (lb1 := v1beta1.with_CloudscaleStatus lb (cloudscale.lb_Status e)).
  apply wp_bind. eapply wp_mono with (Q := fun w' o => match o with
    | Returned x => x = lb1 /\ kept (fun v => v = VObject k) w w' /\ live w' k lb1 | _ => True end).
  2: { destruct (str_eqb _ _) eqn:Es; str_prop; cbn [negb].
       - assert (lb1 = lb) as ->; [|done]. unfold lb1, v1beta1.with_CloudscaleStatus. rewrite <- Es. by destruct lb as [? ? []].
       - apply wp_wrap. destruct Hl as [Ho Hk Ht Hf]. eapply wp_mono; [|by apply (status_update_saved k lb1)].
         intros w' [x|err|s] [K P]; cbn; [|done|done]. destruct P as [-> P]. done. }
  intros w1 [x|err|s]; cbn [continue]; [|done|done]. intros (-> & K & Hl1).
  assert (Hw1 : workable w1 lb1) by (by apply (workable_kept _ _ _ lb _ K)).
  assert (He1 : e ∈ lbs w1) by (by rewrite (kept_lbs _ _ _ K)).
  destruct (str_eqb (cloudscale.lb_Status e) "changing") eqn:Ec; str_prop.
  - cbn. right. left. split; [done|]. pose proof (same_recorded w1) as Hsr.
    exists lb1, e. specialize (Hsr {| ev_type := EventTypeNormal; ev_reason := "LoadBalancerChanging";
      ev_message := Sprintf "Load balancer is currently changing" [] |}).
    split; [by eapply live_kept; [by apply (kept_same (fun _ => False))|auto|]|].
    split; [by eapply workable_kept; [by apply (kept_same (fun _ => False))|auto|auto| |exact Hw1]|].
    rewrite lb_recorded. done.
  - destruct (negb _); [done|]. eapply wp_mono; [|apply (resources_done k lb1 e w1 Hl1); [by split|done]].
    intros w' [res|err|s]; [|done|done]. intros [-> Hs]. right. right. done.
Qed.

(** The object of key [k] is there, not being deleted, and can be implemented. *)
Record startable w k lb : Prop := {
  sb_object : object w k = Some lb;
  sb_key : key_of lb = k;
  sb_time : v1beta1.DeletionTimestamp_IsZero lb = true;
  sb_work : workable w lb;
}.

(** The finalizer is there after the first step. *)
Lemma finalizer_step k lb w :
  startable w k lb ->
  let '(finalizers, added) := AddFinalizer (v1beta1.Finalizers lb) LoadBalancerFinalizer in
  wp (if (added : bool)
      then wrap "failed to add finalizer: %w" [] (call (K8sUpdate (v1beta1.with_Finalizers lb finalizers)))
      else mret lb) w (fun w' o => match o with
    | Returned lb' => live w' k lb' /\ workable w' lb' /\ v1beta1.lb_Spec lb' = v1beta1.lb_Spec lb | _ => True end).
Proof.
  intros [Ho Hk Ht Hw]. pose proof (AddFinalizer_in (v1beta1.Finalizers lb) LoadBalancerFinalizer) as Hin.
  pose proof (AddFinalizer_updated (v1beta1.Finalizers lb) LoadBalancerFinalizer) as Hup.
  destruct (AddFinalizer _ _) as [fs added]. cbn in Hin, Hup. destruct added.
  - apply wp_wrap. eapply wp_mono; [|apply (update_saved k (v1beta1.with_Finalizers lb fs)); [done|done|]].
    + intros w' [x|e|s] [K P]; cbn; [|done|done]. destruct P as [-> Hl]. split; [done|]. split; [|done].
      by apply (workable_kept _ _ _ lb _ K).
    + cbn. apply Hin. by left.
  - cbn. split; [|done]. split; try done. destruct (decide (LoadBalancerFinalizer ∈ v1beta1.Finalizers lb)); [done|]. by apply Hup in n.
Qed.

Lemma live_pass k lb w :
  startable w k lb ->
  wp (reconcileLive lb) w (fun w' o => match o with Returned res => progress w' k lb zero_Result res | _ => True end).
Proof.
  intros Hs. unfold reconcileLive. pose proof (finalizer_step k lb w Hs) as Hf. destruct (AddFinalizer _ _) as [fs added].
  apply wp_bind. eapply wp_mono; [|exact Hf]. intros w1 [lb1|e|s]; cbn [continue]; [|done|done]. intros (Hl & Hw & Es).
  apply wp_bind, wp_wrap. eapply wp_mono; [|apply ensureLoadBalancer_step].
  intros w2 [e|err|s] [K P]; cbn [wrapped continue]; [|done|done]. destruct P as [He Hm].
  eapply wp_mono; [|apply (ensured_done k lb1 e w2); [by apply (live_kept _ _ _ _ _ K)|by apply (workable_kept _ _ _ lb1 _ K)|done|done]].
  intros w' [res|err|s]; [|done|done]. unfold progress, v1beta1.UUID, v1beta1.Zone. by rewrite Es.
Qed.

Lemma pass_done interval k lb w :
  startable w k lb ->
  wp (Reconcile interval k) w (fun w' o => match o with
    | Returned res => progress w' k lb (requeue_in (maxReconcileInterval interval)) res | _ => True end).
Proof.
  intros Hst. pose proof Hst as [Ho Hk Ht Hw]. intros x w1 Ha. assert (Hs : same w w1) by (by eapply same_read; [|exact Ha]).
  destruct x as [lb'|err]; cbn [mbind M_bind call_err].
  - apply k8s_get in Ha as [Ho' _]. rewrite Ho in Ho'. injection Ho' as <-. apply wp_deferred.
    unfold reconcileBody. rewrite Ht. cbn [negb andb]. eapply wp_mono; [|apply (live_pass k lb)].
    + intros w' [res|err|s]; cbn [deferred_post]; [|done|done].
      intros [(-> & Hp)|[(-> & Hp)|(-> & Hp)]]; [left|right; left|right; right]; by rewrite ?bool_decide_true by done.
    + split; [by rewrite (same_object _ _ Hs)|done|done|].
      eapply workable_kept; [apply (kept_same (fun _ => False)), Hs|auto|auto| |exact Hw]. done.
  - rewrite IgnoreNotFound_spec. destruct (IsNotFound err) eqn:En; [|done]. apply k8s_404 in Ha; [|done]. congruence.
Qed.
End Converge.

(** C3: a pass over an object that can be implemented makes progress: when it returns, either it has saved the
    UUID and the zone of a load balancer that lacked them, and the next pass follows at once; or the load balancer is
    still changing, the status says so, and the next pass comes after five seconds; or the system is settled.  A pass
    can also fail or panic, for the reasons of C15.  An object can be implemented ([startable]) when it is stored and
    not being deleted, its pools have distinct names, the service lists its floating IPs under the very texts of the
    manifest, with one prefix length each, no timeout it asks for is zero in milliseconds and no delay or timeout of its health monitors zero in seconds (500ms
    is), HTTP and HTTPS monitors name a host and status codes, and no load balancer at the service has two pools of one
    name.  Other objects are outside this theorem: their updates may be repeated in every pass. *)
Theorem pass_progress {L : Lib} {LL : LibLaws L} {W : Type} `{World W} `{!FloatingIPAPI W} `{!MemberAPI W}
    `{!HealthMonitorAPI W} `{!ListenerAPI W} `{!PoolAPI W} `{!LoadBalancerAPI W} `{!SystemAPI W}
    interval k lb (w : W) :
  startable w k lb ->
  wp (Reconcile interval k) (w, []) (fun '(w', h') o => match o with
    | Returned res => progress w' k lb (requeue_in (maxReconcileInterval interval)) res
    | Failed _ => fail_reason h'
    | Panicked _ => Exists poolless_listener_listed h'
    end).
Proof.
  intros Hs. eapply wp_mono; [|exact (wp_traced _ _ _ _ _ (pass_done interval k lb w Hs)
    (wp_and _ _ _ _ (Reconcile_fails interval k []) (Reconcile_panics interval k [])))].
  by intros [w' h'] [] (? & ? & ?).
Qed.

(** Passes in a row, as long as the last one asks to be repeated at once. *)
Fixpoint passes {L : Lib} (interval : Duration) (k : v1beta1.NamespacedName) (n : nat) : M Result :=
  res ← Reconcile interval k;
  match n with
  | O => mret res
  | S n => if Requeue res then passes interval k n else mret res
  end.

Section Passes.
Context {L : Lib} {LL : LibLaws L} {W : Type} `{World W} `{!FloatingIPAPI W} `{!MemberAPI W}
  `{!HealthMonitorAPI W} `{!ListenerAPI W} `{!PoolAPI W} `{!LoadBalancerAPI W} `{!SystemAPI W}.
Context (interval : Duration) (k : v1beta1.NamespacedName).

Definition at_rest (w : W) (res : Result) : Prop :=
  (res = requeue_in (5 * Second) /\ waiting w k) \/
  (res = requeue_in (maxReconcileInterval interval) /\ settled w k).

Lemma passes_done lb n (w : W) :
  (1 <= n)%nat -> startable w k lb ->
  wp (passes interval k n) w (fun w' o => match o with Returned res => at_rest w' res | _ => True end).
Proof.
  intros Hn Hs. destruct n as [|n]; [lia|]. clear Hn. cbn [passes]. apply wp_bind. eapply wp_mono; [|by apply pass_done].
  intros w1 [res|e|s]; cbn [continue]; [|done|done]. intros [(-> & Hi & _)|[Hp|Hp]].
  - cbn [Requeue requeue_now]. destruct Hi as (lb1 & [Ho Hk Ht Hf] & Hw & Hu & Hz).
    assert (Hpass : wp (Reconcile interval k) w1 (fun w' o => match o with Returned res => at_rest w' res | _ => True end)).
    { eapply wp_mono; [|by apply (pass_done interval k lb1)]. intros w' [res|e|s]; [|done|done].
      intros [(_ & _ & [E|E])|Hp]; [done|done|exact Hp]. }
    destruct n; cbn [passes]; apply wp_bind; (eapply wp_mono; [|exact Hpass]);
      intros w2 [res|e|s]; cbn [continue]; try done.
    intros Hr. replace (Requeue res) with false; [exact Hr|]. by destruct Hr as [[-> _]|[-> _]].
  - destruct Hp as [-> Hp]. cbn. left. done.
  - destruct Hp as [-> Hp]. cbn. right. done.
Qed.

Lemma passes_fails n (h : list action) :
  wp (passes interval k n) h (fun h' o => match o with
    | Failed _ => fail_reason h' | Panicked _ => Exists poolless_listener_listed h' | _ => True end).
Proof.
  revert h. induction n as [|n IH]; intros h; cbn [passes]; apply wp_bind;
    (eapply wp_mono; [|exact (wp_and _ _ _ _ (Reconcile_fails interval k h) (Reconcile_panics interval k h))]);
    intros h' [res|e|s] [H1 H2]; cbn [continue]; try done. by case_if.
Qed.

(** C1: at most one repetition.  For an object that can be implemented, two passes in a row, the second only when
    the first asks for it at once, end with the load balancer still changing or with the system settled, whatever of
    UUID, zone, finalizer, status and cloudscale resources was there before, and no third pass is asked for at once; or
    a pass failed or panicked, for the reasons of C15.  An object can be implemented ([startable]) when it is stored and
    not being deleted, its pools have distinct names, the service lists its floating IPs under the very texts of the
    manifest, with one prefix length each, no timeout it asks for is zero in milliseconds and no delay or timeout of its health monitors zero in seconds (500ms
    is), HTTP and HTTPS monitors name a host and status codes, and no load balancer at the service has two pools of one
    name.  Nothing is claimed of other objects. *)
Theorem two_passes_settle lb (w : W) :
  startable w k lb ->
  wp (passes interval k 1) (w, []) (fun '(w', h') o => match o with
    | Returned res => at_rest w' res
    | Failed _ => fail_reason h'
    | Panicked _ => Exists poolless_listener_listed h'
    end).
Proof.
  intros Hs. eapply wp_mono; [|exact (wp_traced _ _ _ _ _ (passes_done lb 1 w (le_n 1) Hs) (passes_fails 1 []))].
  by intros [w' h'] [] [].
Qed.
End Passes.
