(* ===== verification/Service.v ===== *)
(** * Service: an executable environment that satisfies the interfaces

    A small simulation of the cloudscale API and of the Kubernetes API, in the
    shape of controllers/cloudscale_mockserver_test.go, with tag filters as
    documented.  It instantiates every interface the components are verified
    against ([FloatingIPAPI], [MemberAPI], [HealthMonitorAPI], [ListenerAPI],
    [PoolAPI], [LoadBalancerAPI], [SystemAPI]), so their theorems apply to it, and it runs the
    reconciler by computation.  It models no code of the repository. *)

From Stdlib Require Import ZArith Lia.
From stdpp Require Import base list strings gmap infinite pretty.
From S2P Require Import Prelude GoLib ApiTypes Cloudscale Effects External Helpers Samples.
From S2P Require Import Nodes FloatingIPs PoolMembers HealthMonitor Listener Pools LoadBalancers Reconcile.
From S2P Require Import System Quiet Frames Converge.
Open Scope string_scope.
Open Scope Z_scope.
Open Scope list_scope.

(** ** State *)

Record cloud := {
  c_objects : list v1beta1.LoadBalancer;
  c_nodes : list corev1.Node;
  c_servers : list cloudscale.Server;
  c_fips : list cloudscale.FloatingIP;
  c_lbs : list cloudscale.LoadBalancer;
  c_pools : list cloudscale.LoadBalancerPool;
  c_members : list cloudscale.LoadBalancerPoolMember;
  c_listeners : list cloudscale.LoadBalancerListener;
  c_monitors : list cloudscale.LoadBalancerHealthMonitor;
}.

Section Update.
Context (c : cloud).
Definition set_objects (x : list v1beta1.LoadBalancer) := {| c_objects := x; c_nodes := c_nodes c; c_servers := c_servers c;
  c_fips := c_fips c; c_lbs := c_lbs c; c_pools := c_pools c; c_members := c_members c;
  c_listeners := c_listeners c; c_monitors := c_monitors c |}.
Definition set_fips (x : list cloudscale.FloatingIP) := {| c_objects := c_objects c; c_nodes := c_nodes c; c_servers := c_servers c;
  c_fips := x; c_lbs := c_lbs c; c_pools := c_pools c; c_members := c_members c;
  c_listeners := c_listeners c; c_monitors := c_monitors c |}.
Definition set_lbs (x : list cloudscale.LoadBalancer) := {| c_objects := c_objects c; c_nodes := c_nodes c; c_servers := c_servers c;
  c_fips := c_fips c; c_lbs := x; c_pools := c_pools c; c_members := c_members c;
  c_listeners := c_listeners c; c_monitors := c_monitors c |}.
Definition set_pools (x : list cloudscale.LoadBalancerPool) := {| c_objects := c_objects c; c_nodes := c_nodes c; c_servers := c_servers c;
  c_fips := c_fips c; c_lbs := c_lbs c; c_pools := x; c_members := c_members c;
  c_listeners := c_listeners c; c_monitors := c_monitors c |}.
Definition set_members (x : list cloudscale.LoadBalancerPoolMember) := {| c_objects := c_objects c; c_nodes := c_nodes c; c_servers := c_servers c;
  c_fips := c_fips c; c_lbs := c_lbs c; c_pools := c_pools c; c_members := x;
  c_listeners := c_listeners c; c_monitors := c_monitors c |}.
Definition set_listeners (x : list cloudscale.LoadBalancerListener) := {| c_objects := c_objects c; c_nodes := c_nodes c; c_servers := c_servers c;
  c_fips := c_fips c; c_lbs := c_lbs c; c_pools := c_pools c; c_members := c_members c;
  c_listeners := x; c_monitors := c_monitors c |}.
Definition set_monitors (x : list cloudscale.LoadBalancerHealthMonitor) := {| c_objects := c_objects c; c_nodes := c_nodes c; c_servers := c_servers c;
  c_fips := c_fips c; c_lbs := c_lbs c; c_pools := c_pools c; c_members := c_members c;
  c_listeners := c_listeners c; c_monitors := x |}.
End Update.

(** Identifiers are unique, and load balancers have an identifier and a zone. *)
Definition cloud_ok (c : cloud) : Prop :=
  NoDup (map cloudscale.fip_Network (c_fips c)) /\ NoDup (map cloudscale.lb_UUID (c_lbs c)) /\
  NoDup (map cloudscale.pool_UUID (c_pools c)) /\ NoDup (map cloudscale.mem_UUID (c_members c)) /\
  NoDup (map cloudscale.lst_UUID (c_listeners c)) /\ NoDup (map cloudscale.hm_UUID (c_monitors c)) /\
  Forall (fun x => cloudscale.lb_UUID x <> "" /\ cloudscale.lb_Zone x <> "") (c_lbs c).

#[export] Instance cloud_ok_dec c : Decision (cloud_ok c).
Proof. unfold cloud_ok. apply _. Defined.

Definition service : Type := { c : cloud | cloud_ok c }.

(** ** Answers *)

Definition not_found : goerror := ErrorResponse 404.
Definition new_uuid (prefix : string) (used : list string) : string :=
  prefix +:+ pretty (length used) +:+ (if bool_decide (prefix +:+ pretty (length used) ∈ used)
                                       then fresh used else "").

Definition has_key (key : v1beta1.NamespacedName) (o : v1beta1.LoadBalancer) : bool :=
  str_eqb (v1beta1.Namespace o) (v1beta1.nn_Namespace key) && str_eqb (v1beta1.Name o) (v1beta1.nn_Name key).

(** An object being deleted goes when its last finalizer is removed. *)
Definition gone (lb : v1beta1.LoadBalancer) : bool :=
  negb (v1beta1.DeletionTimestamp_IsZero lb) && bool_decide (v1beta1.Finalizers lb = []).

Definition put_object (lb : v1beta1.LoadBalancer) : list v1beta1.LoadBalancer -> list v1beta1.LoadBalancer :=
  flat_map (fun o => if has_key (key_of lb) o then (if gone lb then [] else [lb]) else [o]).

(** An update of an object that is not there is refused. *)
Definition update_object (c : cloud) (lb : v1beta1.LoadBalancer) : result v1beta1.LoadBalancer * cloud :=
  if existsb (has_key (key_of lb)) (c_objects c)
  then (Ok lb, set_objects c (put_object lb (c_objects c))) else (Err (ExternalError "NotFound" None), c).

Definition selects (sel : v1beta1.LabelSelector) (n : corev1.Node) : bool :=
  bool_decide (map_Forall (fun k v => corev1.node_Labels n !! k = Some v) (v1beta1.ls_MatchLabels sel)).

Definition new_lb (c : cloud) (r : cloudscale.LoadBalancerRequest) : cloudscale.LoadBalancer :=
  {| cloudscale.lb_UUID := new_uuid "lb-" (map cloudscale.lb_UUID (c_lbs c));
     cloudscale.lb_Name := cloudscale.lbr_Name r; cloudscale.lb_Zone := cloudscale.lbr_Zone r;
     cloudscale.lb_Flavor := cloudscale.lbr_Flavor r; cloudscale.lb_Tags := default (Some ∅) (cloudscale.lbr_Tags r);
     cloudscale.lb_Status := "changing";
     cloudscale.lb_VIPAddresses := map (fun v => {| cloudscale.vip_Address := cloudscale.vipr_Address v |})
       (default [] (cloudscale.lbr_VIPAddresses r)) |}.

Definition new_pool (c : cloud) (r : cloudscale.LoadBalancerPoolRequest) : cloudscale.LoadBalancerPool :=
  {| cloudscale.pool_UUID := new_uuid "pool-" (map cloudscale.pool_UUID (c_pools c));
     cloudscale.pool_Name := cloudscale.poolr_Name r; cloudscale.pool_Tags := default (Some ∅) (cloudscale.poolr_Tags r);
     cloudscale.pool_LoadBalancer := cloudscale.poolr_LoadBalancer r;
     cloudscale.pool_Algorithm := cloudscale.poolr_Algorithm r; cloudscale.pool_Protocol := cloudscale.poolr_Protocol r |}.

Definition new_member (c : cloud) (p : string) (r : cloudscale.LoadBalancerPoolMemberRequest)
    : cloudscale.LoadBalancerPoolMember :=
  {| cloudscale.mem_UUID := new_uuid "member-" (map cloudscale.mem_UUID (c_members c));
     cloudscale.mem_Name := cloudscale.memr_Name r; cloudscale.mem_Tags := default (Some ∅) (cloudscale.memr_Tags r);
     cloudscale.mem_Enabled := default true (cloudscale.memr_Enabled r); cloudscale.mem_Pool := p;
     cloudscale.mem_ProtocolPort := cloudscale.memr_ProtocolPort r;
     cloudscale.mem_MonitorPort := cloudscale.memr_MonitorPort r; cloudscale.mem_Address := cloudscale.memr_Address r;
     cloudscale.mem_Subnet := cloudscale.memr_Subnet r; cloudscale.mem_MonitorStatus := "unknown" |}.

Definition new_listener (c : cloud) (r : cloudscale.LoadBalancerListenerRequest) : cloudscale.LoadBalancerListener :=
  {| cloudscale.lst_UUID := new_uuid "listener-" (map cloudscale.lst_UUID (c_listeners c));
     cloudscale.lst_Name := cloudscale.lstr_Name r; cloudscale.lst_Tags := default (Some ∅) (cloudscale.lstr_Tags r);
     cloudscale.lst_Pool := Some {| cloudscale.ps_UUID := cloudscale.lstr_Pool r |};
     cloudscale.lst_Protocol := cloudscale.lstr_Protocol r; cloudscale.lst_ProtocolPort := cloudscale.lstr_ProtocolPort r;
     cloudscale.lst_AllowedCIDRs := default [] (cloudscale.lstr_AllowedCIDRs r);
     cloudscale.lst_TimeoutClientDataMS := cloudscale.lstr_TimeoutClientDataMS r;
     cloudscale.lst_TimeoutMemberConnectMS := cloudscale.lstr_TimeoutMemberConnectMS r;
     cloudscale.lst_TimeoutMemberDataMS := cloudscale.lstr_TimeoutMemberDataMS r |}.

Definition new_monitor (c : cloud) (r : cloudscale.LoadBalancerHealthMonitorRequest) : cloudscale.LoadBalancerHealthMonitor :=
  {| cloudscale.hm_UUID := new_uuid "monitor-" (map cloudscale.hm_UUID (c_monitors c));
     cloudscale.hm_Tags := default (Some ∅) (cloudscale.hmr_Tags r); cloudscale.hm_Pool := cloudscale.hmr_Pool r;
     cloudscale.hm_DelayS := cloudscale.hmr_DelayS r; cloudscale.hm_TimeoutS := cloudscale.hmr_TimeoutS r;
     cloudscale.hm_UpThreshold := cloudscale.hmr_UpThreshold r;
     cloudscale.hm_DownThreshold := cloudscale.hmr_DownThreshold r; cloudscale.hm_Type := cloudscale.hmr_Type r;
     cloudscale.hm_HTTP := (fun q => http_set (cloudscale.hmhr_ExpectedCodes q) (cloudscale.hmhr_Method q)
       (cloudscale.hmhr_UrlPath q) (cloudscale.hmhr_Version q) (cloudscale.hmhr_Host q)) <$> cloudscale.hmr_HTTP r |}.

Definition in_pool (p : string) (m : cloudscale.LoadBalancerPoolMember) : bool := str_eqb (cloudscale.mem_Pool m) p.

(** Delete by identifier: 404 when there is none. *)
Definition delete_by {A} (uuid : A -> string) (u : string) (l : list A) (set : list A -> cloud) (c : cloud)
    : result unit * cloud :=
  if existsb (fun a => str_eqb (uuid a) u) l
  then (Ok tt, set (List.filter (fun a => negb (str_eqb (uuid a) u)) l)) else (Err not_found, c).

(** Update by identifier. *)
Definition update_by {A} (uuid : A -> string) (u : string) (f : A -> A) (l : list A) (set : list A -> cloud) (c : cloud)
    : result unit * cloud :=
  if existsb (fun a => str_eqb (uuid a) u) l
  then (Ok tt, set (map (fun a => if str_eqb (uuid a) u then f a else a) l)) else (Err not_found, c).

Definition find_object (c : cloud) (key : v1beta1.NamespacedName) : option v1beta1.LoadBalancer :=
  List.find (has_key key) (c_objects c).

Definition find_server (c : cloud) (id : string) : option cloudscale.Server :=
  List.find (fun s => str_eqb (cloudscale.srv_UUID s) id) (c_servers c).

Definition answer (c : cloud) (r : req) : resp r * cloud :=
  match r as r0 return resp r0 * cloud with
  | K8sGet key => (match find_object c key with Some o => Ok o | None => Err (ExternalError "NotFound" None) end, c)
  | K8sUpdate lb => update_object c lb
  | K8sStatusUpdate lb => update_object c lb
  | K8sListLoadBalancers => (Ok (c_objects c), c)
  | K8sListNodes sel => (Ok (List.filter (selects sel) (c_nodes c)), c)
  | LabelSelectorAsSelector _ => (Ok tt, c)
  | ServerGet id =>
      (match find_server c id with Some s => Ok (Some s) | None => Err not_found end, c)
  | FloatingIPList => (Ok (c_fips c), c)
  | FloatingIPUpdate ip q =>
      if existsb (fun f => goes_by ip (cloudscale.fip_Network f)) (c_fips c)
      then (Ok tt, set_fips c (map (assign ip (cloudscale.fipr_LoadBalancer q)) (c_fips c))) else (Err not_found, c)
  | LBList f => (Ok (List.filter (has_tags f) (c_lbs c)), c)
  | LBGet u =>
      (match List.find (fun x => str_eqb (cloudscale.lb_UUID x) u) (c_lbs c) with
       | Some x => Ok (Some x) | None => Err not_found end, c)
  | LBCreate q => (Ok (Some (new_lb c q)), set_lbs c (c_lbs c ++ [new_lb c q]))
  | LBUpdate u q =>
      update_by cloudscale.lb_UUID u
        (fun x => match cloudscale.lbr_Tags q with Some t => with_Tags x t | None => x end) (c_lbs c) (set_lbs c) c
  | LBDelete u => delete_by cloudscale.lb_UUID u (c_lbs c) (set_lbs c) c
  | PoolList => (Ok (c_pools c), c)
  | PoolCreate q => (Ok (Some (new_pool c q)), set_pools c (c_pools c ++ [new_pool c q]))
  | PoolDelete u => delete_by cloudscale.pool_UUID u (c_pools c) (set_pools c) c
  | MemberList p => (Ok (List.filter (in_pool p) (c_members c)), c)
  | MemberCreate p q => (Ok (Some (new_member c p q)), set_members c (c_members c ++ [new_member c p q]))
  | MemberDelete p u =>
      (Ok tt, set_members c (List.filter (fun m => negb (in_pool p m && str_eqb (cloudscale.mem_UUID m) u)) (c_members c)))
  | ListenerList => (Ok (c_listeners c), c)
  | ListenerCreate q => (Ok (Some (new_listener c q)), set_listeners c (c_listeners c ++ [new_listener c q]))
  | ListenerUpdate u q => update_by cloudscale.lst_UUID u (patch_listener q) (c_listeners c) (set_listeners c) c
  | ListenerDelete u => delete_by cloudscale.lst_UUID u (c_listeners c) (set_listeners c) c
  | HealthMonitorList => (Ok (c_monitors c), c)
  | HealthMonitorCreate q => (Ok (Some (new_monitor c q)), set_monitors c (c_monitors c ++ [new_monitor c q]))
  | HealthMonitorUpdate u q => update_by cloudscale.hm_UUID u (patch_monitor q) (c_monitors c) (set_monitors c) c
  | HealthMonitorDelete u => delete_by cloudscale.hm_UUID u (c_monitors c) (set_monitors c) c
  end.

(** A change that would break the uniqueness of identifiers is refused. *)
Definition commit (w : service) {r : req} (xc : resp r * cloud) : resp r * service :=
  match decide (cloud_ok (snd xc)) with
  | left H => (fst xc, exist _ (snd xc) H)
  | right _ => (Err (ErrorResponse 500), w)
  end.

#[export] Instance service_handler : Handler service := {
  handle w r := commit w (answer (proj1_sig w) r);
  note w _ := w;
}.

(** ** The interfaces hold *)

Lemma handle_cases (w w' : service) r (x : resp r) :
  handle w r = (x, w') ->
  (x = fst (answer (`w) r) /\ `w' = snd (answer (`w) r)) \/ (x = Err (ErrorResponse 500) /\ w' = w).
Proof.
  cbn. unfold commit. destruct (decide _); intros E; injection E as <- <-; auto.
Qed.

Lemma handle_Ok (w w' : service) r (v : val r) :
  handle w r = (Ok v, w') -> fst (answer (`w) r) = Ok v /\ `w' = snd (answer (`w) r).
Proof. intros [[E1 E2]|[E _]]%handle_cases; [by split|done]. Qed.

(** Read off a successful answer. *)
Ltac answered := intros [Ev Ew]%handle_Ok; unfold answer, delete_by, update_by in Ev, Ew;
  try match type of Ev with context [existsb ?f ?l] => destruct (existsb f l); [|discriminate Ev] end;
  cbn in Ev, Ew.

Definition service_ok (w : service) : cloud_ok (`w) := proj2_sig w.

#[export] Instance service_pools : PoolAPI service.
Proof.
  refine {| pools w := c_pools (`w) |}.
  - intros w l w'. answered. rewrite Ew. by injection Ev as <-.
  - intros w r a w'. answered. injection Ev as <-. rewrite Ew. cbn. split; [|done]. by rewrite Permutation_app_comm.
  - intros w u w'. answered. by rewrite Ew.
  - done.
  - intros w. apply service_ok.
Defined.

#[export] Instance service_members : MemberAPI service.
Proof.
  refine {| members w p := List.filter (in_pool p) (c_members (`w)) |}.
  - intros w p l w'. answered. rewrite Ew. by injection Ev as <-.
  - intros w p u w'. answered. rewrite Ew. cbn. rewrite List_filter_comm.
    generalize (c_members (`w)). intros l. induction l as [|m l IH]; [done|]. cbn. unfold in_pool in *.
    destruct (str_eqb (cloudscale.mem_Pool m) p) eqn:Ep, (str_eqb (cloudscale.mem_UUID m) u) eqn:Eu; cbn;
      rewrite ?Ep, ?Eu; cbn; rewrite IH; done.
  - intros w p r m w'. answered. injection Ev as <-. rewrite Ew. cbn.
    rewrite List.filter_app. cbn. unfold in_pool at 2. cbn. rewrite str_eqb_refl. split.
    + by rewrite Permutation_app_comm.
    + intros [b Hb]. split; cbn; by rewrite ?Hb.
  - done.
  - intros w p. destruct (service_ok w) as (_ & _ & _ & Hm & _). revert Hm.
    generalize (c_members (`w)). intros l. induction l as [|m l IH]; cbn; [done|].
    rewrite NoDup_cons. intros [Hn Hl]. destruct (in_pool p m); cbn; [|auto].
    apply NoDup_cons. split; [|auto]. intros (m' & E & Hin)%list_elem_of_In%in_map_iff. apply Hn.
    apply List.filter_In in Hin as [Hin _]. rewrite <- E. by apply list_elem_of_In, in_map.
  - intros w p m. rewrite elem_of_List_filter. unfold in_pool. rewrite str_eqb_true. by intros [_ ->].
Defined.

#[export] Instance service_fips : FloatingIPAPI service.
Proof.
  refine {| floating_ips w := c_fips (`w) |}.
  - intros w l w'. answered. rewrite Ew. by injection Ev as <-.
  - intros w e w' [[E1 E2]|[_ ->]]%handle_cases; [by cbn in E1|done].
  - intros w ip r w' [Ev Ew]%handle_Ok. unfold answer in Ev, Ew. destruct (existsb _ _) eqn:Ex; [|discriminate Ev].
    cbn in Ew. rewrite Ew. split; [done|]. by apply existsb_elem in Ex.
  - intros w ip r e w' [[E1 E2]|[_ ->]]%handle_cases; [|done]. cbn in E1, E2.
    destruct (existsb _ _); cbn in *; [done|by rewrite E2].
  - done.
  - intros w. apply service_ok.
Defined.

#[export] Instance service_listeners : ListenerAPI service.
Proof.
  refine {| listeners w := c_listeners (`w) |}.
  - intros w l w'. answered. rewrite Ew. by injection Ev as <-.
  - intros w r l w'. answered. injection Ev as <-. rewrite Ew. cbn. split; [by rewrite Permutation_app_comm|].
    split; [done|]. repeat split; try done. cbn. by intros c ->.
  - intros w u r w'. answered. by rewrite Ew.
  - intros w u w'. answered. by rewrite Ew.
  - done.
Defined.

#[export] Instance service_monitors : HealthMonitorAPI service.
Proof.
  refine {| monitors w := c_monitors (`w) |}.
  - intros w l w'. answered. rewrite Ew. by injection Ev as <-.
  - intros w r m w'. answered. injection Ev as <-. rewrite Ew. cbn. split; [by rewrite Permutation_app_comm|].
    split; [done|]. repeat split; try done.
    unfold http_of. cbn. destruct (cloudscale.hmr_HTTP r) as [q|]; [|done]. cbn. repeat split; done.
  - intros w u r w'. answered. by rewrite Ew.
  - intros w u w'. answered. by rewrite Ew.
  - done.
Defined.

#[export] Instance service_lbs : LoadBalancerAPI service.
Proof.
  refine {| lbs w := c_lbs (`w) |}.
  - intros w f l w'. answered. by injection Ev as <-.
  - intros w u c w'. answered. destruct (List.find _ _) as [x|] eqn:Ef; [|done]. injection Ev as <-.
    apply List.find_some in Ef as [Hin Hu]. str_prop. split; [by apply list_elem_of_In|done].
  - intros w r c w'. answered. injection Ev as <-. rewrite Ew. cbn. split; [by rewrite Permutation_app_comm|].
    repeat split; try done. by intros t ->.
  - intros w u t w'. answered. by rewrite Ew.
  - intros w u w'. answered. by rewrite Ew.
  - intros w u e w' [[E1 E2]|[[= ->] ->]]%handle_cases; [|discriminate]. cbn in E1, E2. unfold delete_by in *.
    destruct (existsb _ _) eqn:Ex; cbn in *; [done|]. intros _. rewrite E2. split; [|done].
    intros (c & <- & Hc)%list_elem_of_In%in_map_iff. rewrite existsb_not_elem in Ex.
    specialize (Ex c (proj2 (list_elem_of_In _ _) Hc)). str_prop. done.
  - intros w r x w' Hr [[_ E2]|[_ ->]]%handle_cases; [|done]. rewrite E2.
    destruct r; cbn; try done; unfold delete_by, update_by, update_object; by case_if.
  - done.
  - intros w. apply service_ok.
Defined.

Lemma has_key_key k lb : has_key k lb = true <-> key_of lb = k.
Proof.
  unfold has_key, key_of. rewrite andb_true_iff, !str_eqb_true. destruct k. cbn. split; [by intros [-> ->]|by intros [= -> ->]].
Qed.

(** What was put is found. *)
Lemma find_put lb l : existsb (has_key (key_of lb)) l = true -> gone lb = false ->
  List.find (has_key (key_of lb)) (put_object lb l) = Some lb.
Proof.
  intros He Hg. assert (Hk : has_key (key_of lb) lb = true) by (by apply has_key_key).
  induction l as [|o l IH]; [done|]. cbn in *. rewrite Hg.
  destruct (has_key (key_of lb) o) eqn:Eo; cbn; [by rewrite Hk|]. rewrite Eo. by apply IH.
Qed.

Lemma find_put_other k lb l : key_of lb <> k -> List.find (has_key k) (put_object lb l) = List.find (has_key k) l.
Proof.
  intros Hne. assert (Hk : has_key k lb = false) by (apply not_true_is_false; by intros ?%has_key_key).
  induction l as [|o l IH]; [done|]. cbn. destruct (has_key (key_of lb) o) eqn:Eo.
  - apply has_key_key in Eo. assert (Hko : has_key k o = false) by (apply not_true_is_false; intros ?%has_key_key; congruence).
    rewrite Hko. destruct (gone lb); cbn; [done|by rewrite Hk].
  - cbn. by rewrite IH.
Qed.

Lemma find_object_key c k lb : find_object c k = Some lb -> key_of lb = k.
Proof. intros [_ Hk]%List.find_some. by apply has_key_key. Qed.

Lemma filter_members_other p q u l : p <> q ->
  List.filter (in_pool q) (List.filter (fun m => negb (in_pool p m && str_eqb (cloudscale.mem_UUID m) u)) l) =
  List.filter (in_pool q) l.
Proof.
  intros Hpq. induction l as [|m l IH]; [done|]. cbn. unfold in_pool in *.
  destruct (str_eqb (cloudscale.mem_Pool m) p) eqn:Ep; cbn; [|by rewrite IH].
  destruct (str_eqb (cloudscale.mem_UUID m) u); cbn; rewrite IH; [|done].
  str_prop. by rewrite Ep, (proj2 (str_eqb_false _ _)).
Qed.

(** The state after a call, part by part. *)
Ltac framed := intros [[_ E2]|[_ ->]]%handle_cases; [|done]; cbn [pools listeners monitors floating_ips members service_pools service_listeners service_monitors service_fips service_members]; rewrite E2;
  match goal with r : req |- _ => destruct r; cbn; intros; try done; unfold delete_by, update_by, update_object; try (by case_if) end.

#[export] Instance service_system : SystemAPI service.
Proof.
  assert (Hupd : forall w lb x w', (handle w (K8sUpdate lb) = (Ok x, w') \/ handle w (K8sStatusUpdate lb) = (Ok x, w')) ->
    x = lb /\ (v1beta1.DeletionTimestamp_IsZero lb = true -> find_object (`w') (key_of lb) = Some lb)).
  { intros w lb x w' Ha. assert (Hb : fst (update_object (`w) lb) = Ok x /\ `w' = snd (update_object (`w) lb))
      by (destruct Ha as [Ha|Ha]; [exact (handle_Ok w w' (K8sUpdate lb) x Ha)|exact (handle_Ok w w' (K8sStatusUpdate lb) x Ha)]).
    destruct Hb as [E1 E2]. unfold update_object in *. destruct (existsb _ _) eqn:Ex; cbn in *; [|done].
    injection E1 as <-. split; [done|]. intros Ht. rewrite E2. apply find_put; [done|]. unfold gone. by rewrite Ht. }
  refine {| object w k := find_object (`w) k;
            node_list w sel := List.filter (selects sel) (c_nodes (`w));
            server_of w id := find_server (`w) id |}.
  - intros w k lb w'. answered. destruct (find_object _ k) as [o|] eqn:Ef; [|done]. injection Ev as <-.
    split; [done|]. by eapply find_object_key.
  - intros w k e w' [[E1 _]|[[= ->] _]]%handle_cases Hn; [|done]. cbn in E1. by destruct (find_object _ k).
  - intros w lb x w' Ha. apply (Hupd w). by left.
  - intros w lb x w' Ha. apply (Hupd w). by right.
  - intros w sel l w'. answered. by injection Ev as <-.
  - intros w id s w'. answered. destruct (find_server _ id); [|done]. by injection Ev as <-.
  - intros w id e w' [[E1 _]|[[= ->] _]]%handle_cases Hn; [|done]. cbn in E1. by destruct (find_server _ id).
  - intros w r x w' k. framed; case_if; try done; cbn in *; by apply find_put_other.
  - intros w r x w'. framed.
  - intros w r x w'. framed.
  - intros w r x w'. framed.
  - intros w r x w'. framed.
  - intros w r x w' p. framed.
    + cbn in *. rewrite List.filter_app. cbn. unfold in_pool at 2. cbn.
      rewrite (proj2 (str_eqb_false _ _)) by done. by rewrite app_nil_r.
    + cbn in *. by apply filter_members_other.
  - intros w r x w' sel. framed.
  - intros w r x w' id. framed.
  - done.
  - done.
  - done.
  - intros w. apply service_ok.
  - intros w. apply service_ok.
  - intros w c Hc. destruct (service_ok w) as (_ & _ & _ & _ & _ & _ & Hl). rewrite Forall_forall in Hl. by apply Hl.
Defined.

(** ** Runs *)

Definition sample_cloud : cloud :=
  {| c_objects := [sample_lb "" ""];
     c_nodes := [sample_node "node-0" "srv-node-0"; sample_node "node-1" "srv-node-1"];
     c_servers := [sample_server "node-0" "rma1" ["10.0.0.1"]; sample_server "node-1" "rma1" ["10.0.0.2"]];
     c_fips := [ {| cloudscale.fip_Network := "222.238.68.109/32"; cloudscale.fip_LoadBalancer := None |};
                 {| cloudscale.fip_Network := "a9d8:05d2:f5b7:7588:c167:c4ee:976f:ff06/128";
                    cloudscale.fip_LoadBalancer := None |} ];
     c_lbs := []; c_pools := []; c_members := []; c_listeners := []; c_monitors := [] |}.

Lemma sample_cloud_ok : cloud_ok sample_cloud.
Proof. apply (bool_decide_unpack _). vm_compute. exact I. Qed.

Definition sample_service : service := exist _ sample_cloud sample_cloud_ok.

(** The load balancers of the service finish changing. *)
Definition settle (w : service) : service :=
  let c := set_lbs (`w) (map (fun x =>
    {| cloudscale.lb_UUID := cloudscale.lb_UUID x; cloudscale.lb_Name := cloudscale.lb_Name x;
       cloudscale.lb_Zone := cloudscale.lb_Zone x; cloudscale.lb_Flavor := cloudscale.lb_Flavor x;
       cloudscale.lb_Tags := cloudscale.lb_Tags x; cloudscale.lb_Status := "running";
       cloudscale.lb_VIPAddresses := [ {| cloudscale.vip_Address := "5.102.144.3" |} ] |}) (c_lbs (`w))) in
  match decide (cloud_ok c) with left H => exist _ c H | right _ => w end.

(** A service that keeps the history of its calls. *)
#[export] Instance logged_handler : Handler (service * list action) := {
  handle s r := let '(x, w) := handle (fst s) r in (x, (w, snd s ++ [ACall r x]));
  note s ev := (note (fst s) ev, snd s ++ [AEvent ev]);
}.

Definition pass (w : service) : list action * outcome Result * service :=
  let '((w', h), o) := run (Reconcile 0 sample_key) (w, []) in (h, o, w').

(** Four passes bring the sample to rest: the load balancer is created and its
    UUID saved, the pass waits while it changes, then everything below it is
    created, and the last pass finds nothing to write anywhere. *)
Example sample_settles :
  let '(_, o1, w1) := pass sample_service in
  let '(_, o2, w2) := pass w1 in
  let '(_, o3, w3) := pass (settle w2) in
  let '(h4, o4, _) := pass w3 in
  o1 = Returned requeue_now /\ o2 = Returned (requeue_in (5 * Second)) /\
  o3 = Returned (requeue_in (5 * Minute)) /\ o4 = Returned (requeue_in (5 * Minute)) /\
  writes h4 = [] /\ existsb is_k8s_write (calls h4) = false.
Proof. vm_compute. repeat split. Qed.

(** ** The interface theorems at the sample *)

(** Read a theorem off a run that returns. *)
Ltac on_run H :=
  apply wp_traced_run in H as [? H]; cbn [fst snd] in H;
  match type of H with context [run ?m ?w] =>
    let E := fresh "E" in
    destruct (snd (run m w)) as [?|?|?] eqn:E;
    [| exfalso; vm_compute in E; discriminate E | exfalso; vm_compute in E; discriminate E ] end.

Definition running_lb : v1beta1.LoadBalancer := sample_lb "lb-0" "rma1".
Definition pool_http : poolMapping := sample_mapping (sample_timed (7 * Second) (3 * Second)).

Lemma attach_converges_witness :
  let r := run (attachFloatingIPs running_lb) sample_service in
  exists cidrs, snd r = Returned cidrs /\
    (forall c, c ∈ wantedCIDRs running_lb -> exists f, f ∈ floating_ips (fst r) /\
       same_floating c (cloudscale.fip_Network f) /\ attached_to "lb-0" f) /\
    (forall f, f ∈ floating_ips (fst r) -> cloudscale.fip_Network f ∈ wantedCIDRs running_lb -> attached_to "lb-0" f).
Proof.
  intros r. assert (Hu : v1beta1.UUID running_lb <> "") by discriminate.
  assert (Ho : Forall one_length (wantedCIDRs running_lb)) by (repeat constructor).
  pose proof (attach_converges running_lb sample_service Hu Ho) as H. subst r. on_run H. eauto.
Defined.

Lemma members_converge_witness :
  let servers := map (fun n => {| nsm_Node := n; nsm_Server := sample_server (corev1.node_Name n) "rma1" ["10.0.0.9"] |})
    (c_nodes sample_cloud) in
  let r := run (ensureLoadBalancerPoolMembers running_lb pool_http servers) sample_service in
  exists result, snd r = Returned result /\
    (forall m, m ∈ result -> exists q, q ∈ shouldPoolMembers running_lb pool_http servers /\ implements m q) /\
    (forall q, q ∈ shouldPoolMembers running_lb pool_http servers -> exists m, m ∈ result /\ implements m q).
Proof.
  intros servers r. pose proof (members_converge running_lb pool_http servers sample_service) as H.
  subst r servers. on_run H. destruct H as (_ & H1 & H2). eauto.
Defined.

Lemma monitor_converges_witness :
  let r := run (ensureLoadBalancerHealthMonitor running_lb pool_http) sample_service in
  exists m0, snd r = Returned m0 /\
    exists m, monitors_of "pool-1" (monitors (fst r)) = [m] /\ monitor_meets (monitor pool_http) m.
Proof.
  intros r. pose proof (monitor_converges running_lb pool_http sample_service) as H. subst r. on_run H. eauto.
Defined.



Lemma lost_update_recovers_witness :
  let r := run (a ← ensureLoadBalancer (sample_lb "" ""); b ← ensureLoadBalancer (sample_lb "" ""); mret (a, b))
    sample_service in
  exists a b, snd r = Returned (a, b) /\ b = a /\
    (lbs (fst r) = lbs sample_service \/ lbs (fst r) ≡ₚ a :: lbs sample_service).
Proof.
  intros r. pose proof (lost_update_recovers (sample_lb "" "") sample_service eq_refl) as H. subst r. on_run H.
  destruct a as [a b]. eauto.
Defined.

(** The sample after its load balancer was created. *)
Definition created_service : service := fst (run (ensureLoadBalancer (sample_lb "" "")) sample_service).

Lemma cleanup_removes_witness :
  let r := run (cleanupLoadBalancer running_lb) created_service in
  snd r = Returned tt /\ ~ "lb-0" ∈ map cloudscale.lb_UUID (lbs (fst r)).
Proof.
  intros r. assert (Hu : v1beta1.UUID running_lb <> "") by discriminate.
  pose proof (cleanup_removes running_lb created_service Hu) as H. subst r. on_run H.
  match goal with u : unit |- _ => destruct u end. split; [done|]. apply H.
Defined.

(** The object is deleted before the UUID of its load balancer was saved: the
    cleanup succeeds, and the load balancer stays. *)
Lemma unsaved_lb_leaks_witness :
  let r := run (cleanupLoadBalancer (sample_lb "" "")) created_service in
  snd r = Returned tt /\ exists c, c ∈ lbs (fst r) /\
    cloudscale.tag (cloudscale.lb_Tags c) controllerCreationKubernetesUIDTag = "uid-1".
Proof.
  intros r. assert (Hid : v1beta1.UID (sample_lb "" "") <> "true") by discriminate.
  pose proof (unsaved_lb_leaks (sample_lb "" "") created_service eq_refl Hid) as H. subst r. on_run H.
  match goal with u : unit |- _ => destruct u end. split; [done|].
  pose (c := new_lb sample_cloud (shouldLB (sample_lb "" "") "rma1")).
  exists c. split; [|vm_compute; reflexivity]. apply H; [|vm_compute; reflexivity].
  replace (lbs created_service) with [c] by (vm_compute; reflexivity). by left.
Defined.

Lemma find_or_create_exact_witness :
  v1beta1.UUID (sample_lb "" "") = "" /\
  wp (ensureLoadBalancer (sample_lb "" "")) [] (fun h' o =>
    let lookup := LBList [(uid_tag, "uid-1")] in
    (exists e, h' = [] ++ [ACall lookup (Err e)] /\ exists e', o = Failed e') \/
    exists ll t, h' = [] ++ ACall lookup (Ok ll) :: t /\ find_or_create_pass (sample_lb "" "") ll t o).
Proof. split; [reflexivity|]. apply (find_or_create_exact (sample_lb "" "") []). reflexivity. Defined.

Lemma adoption_exact_witness :
  v1beta1.UUID running_lb <> "" /\
  wp (ensureLoadBalancer running_lb) [] (fun h' o => exists x t,
    h' = [] ++ ACall (LBGet "lb-0") x :: t /\
    match x with
    | Ok (Some clb) =>
        (managed clb /\ t = [] /\ o = Returned clb) \/
        (~ managed clb /\ ~ adoptable running_lb clb /\ t = [] /\ exists e, o = Failed e) \/
        (~ managed clb /\ adoptable running_lb clb /\ calls t = [adoption clb] /\
         (o = Returned (with_Tags clb (Some (adoptedTags (cloudscale.lb_Tags clb)))) \/ exists e, o = Failed e))
    | _ => t = [] /\ exists e, o = Failed e
    end).
Proof. split; [discriminate|]. apply (adoption_exact running_lb []). discriminate. Defined.

Lemma finalizer_before_writes_witness :
  LibLaws ref_lib /\ wp (Reconcile 0 sample_key) [] (fun h' _ =>
    preceded (fun r => is_cloud_write r = true) (finalizer_saved sample_key) h').
Proof. split; [exact ref_lib_laws|]. exact (finalizer_before_writes 0 sample_key). Defined.

Lemma delete_only_when_deleting_witness :
  LibLaws ref_lib /\ wp (Reconcile 0 sample_key) [] (fun h' _ =>
    preceded is_LBDelete (seen_deleting sample_key) h').
Proof. split; [exact ref_lib_laws|]. exact (delete_only_when_deleting 0 sample_key). Defined.

(** The sample, being deleted. *)
Definition deleting_lb : v1beta1.LoadBalancer :=
  {| v1beta1.lb_Meta :=
       {| v1beta1.meta_Namespace := "default"; v1beta1.meta_Name := "test-lb"; v1beta1.meta_UID := "uid-1";
          v1beta1.meta_Finalizers := [LoadBalancerFinalizer]; v1beta1.meta_DeletionTimestamp := Some 1 |};
     v1beta1.lb_Spec := v1beta1.lb_Spec running_lb; v1beta1.lb_Status := sample_status |}.

Lemma finalizer_removed_after_cleanup_witness :
  v1beta1.DeletionTimestamp_IsZero deleting_lb = false /\
  wp (reconcileBody deleting_lb) [] (fun h' _ => preceded is_K8sUpdate (deletion_confirmed "lb-0") h').
Proof.
  split; [reflexivity|]. apply (finalizer_removed_after_cleanup deleting_lb); [reflexivity|discriminate].
Defined.

Lemma status_reported_witness :
  LibLaws ref_lib /\ wp (reconcileResources running_lb (new_lb sample_cloud (shouldLB running_lb "rma1"))) [] (fun h' o =>
    match o with
    | Returned _ => exists st t,
        status_for running_lb (new_lb sample_cloud (shouldLB running_lb "rma1")) t st /\ calls_resource t /\
        ((st = v1beta1.lb_Status running_lb /\ h' = t) \/
         (st <> v1beta1.lb_Status running_lb /\
          exists x, h' = t ++ [ACall (K8sStatusUpdate (v1beta1.with_Status running_lb st)) (Ok x)]))
    | Failed _ => resource_reason h'
    | Panicked _ => Exists poolless_listener_listed h'
    end).
Proof. split; [exact ref_lib_laws|]. exact (status_reported running_lb _). Defined.

(** ** The sample, pass by pass *)

Definition step (w : service) : service * outcome Result := run (Reconcile 0 sample_key) w.

(** After the first pass; with the load balancer running; after the second pass. *)
Definition saved_service : service := fst (step sample_service).
Definition ready_service : service := settle saved_service.
Definition rest_service : service := fst (step ready_service).

(** The object the first pass saved. *)
Definition saved_lb : v1beta1.LoadBalancer := default (sample_lb "" "") (find_object (`saved_service) sample_key).

Lemma sample_settable name port : settable (sample_pool name port).
Proof. split; try (vm_compute; discriminate). intros hm Ht. exfalso. revert Ht. subst hm. vm_compute. set_solver. Qed.

(** The sample manifest can be implemented while the service holds its floating IPs
    and no pools. *)
Lemma sample_startable (w : service) (lb : v1beta1.LoadBalancer) :
  find_object (`w) sample_key = Some lb -> v1beta1.DeletionTimestamp_IsZero lb = true ->
  v1beta1.spec_Pools (v1beta1.lb_Spec lb) = v1beta1.spec_Pools (v1beta1.lb_Spec running_lb) ->
  v1beta1.spec_FloatingIPAddresses (v1beta1.lb_Spec lb) = v1beta1.spec_FloatingIPAddresses (v1beta1.lb_Spec running_lb) ->
  map cloudscale.fip_Network (c_fips (`w)) = wantedCIDRs running_lb -> c_pools (`w) = [] ->
  startable w sample_key lb.
Proof.
  intros Ho Ht Ep Ef Efips Epools. split; [done|by eapply find_object_key|done|]. split.
  - rewrite Ep. apply (bool_decide_unpack _). vm_compute. exact I.
  - rewrite Ep. cbn. intros pl Hpl. apply list_elem_of_In in Hpl as [<-|[<-|[]]]; apply sample_settable.
  - intros c Hc. unfold wantedCIDRs in Hc. rewrite Ef in Hc. fold (wantedCIDRs running_lb) in Hc.
    split; [revert c Hc; apply Forall_forall; by repeat constructor|]. rewrite <- Efips in Hc.
    apply list_elem_of_In, in_map_iff in Hc as (f & E & Hf). exists f. split; [by apply list_elem_of_In|done].
  - intros a b Ha. cbn in Ha. rewrite Epools in Ha. set_solver.
Qed.

Lemma sample_starts : startable sample_service sample_key (sample_lb "" "").
Proof. by apply sample_startable. Qed.

Lemma ready_starts : startable ready_service sample_key saved_lb.
Proof. apply sample_startable; vm_compute; reflexivity. Qed.

Lemma rest_settled : settled rest_service sample_key.
Proof.
  pose proof (pass_done 0 sample_key saved_lb ready_service ready_starts) as Hp. apply wp_run in Hp.
  assert (Ho : snd (run (Reconcile 0 sample_key) ready_service) = Returned (requeue_in (5 * Minute))) by (vm_compute; reflexivity).
  rewrite Ho in Hp. destruct Hp as [(Hr & _)|[(Hr & _)|(_ & Hs)]]; [discriminate Hr|discriminate Hr|exact Hs].
Qed.

Lemma pass_progress_witness :
  startable ready_service sample_key saved_lb /\ snd (step ready_service) = Returned (requeue_in (5 * Minute)) /\
  settled (fst (step ready_service)) sample_key.
Proof.
  pose proof (pass_progress 0 sample_key saved_lb ready_service ready_starts) as H. unfold step.
  apply wp_traced_run in H as [h H].
  assert (Ho : snd (run (Reconcile 0 sample_key) ready_service) = Returned (requeue_in (5 * Minute))) by (vm_compute; reflexivity).
  split; [exact ready_starts|]. split; [exact Ho|]. rewrite Ho in H.
  destruct H as [(Hr & _)|[(Hr & _)|(_ & Hs)]]; [discriminate Hr|discriminate Hr|exact Hs].
Defined.

Lemma two_passes_settle_witness :
  let r := run (passes 0 sample_key 1) sample_service in
  startable sample_service sample_key (sample_lb "" "") /\ snd r = Returned (requeue_in (5 * Second)) /\
  waiting (fst r) sample_key.
Proof.
  intros r. pose proof (two_passes_settle 0 sample_key (sample_lb "" "") sample_service sample_starts) as H.
  apply wp_traced_run in H as [h H].
  assert (Ho : snd r = Returned (requeue_in (5 * Second))) by (vm_compute; reflexivity). subst r.
  split; [exact sample_starts|]. split; [exact Ho|]. rewrite Ho in H.
  destruct H as [(_ & Hw)|(Hr & _)]; [exact Hw|discriminate Hr].
Defined.

Lemma settled_quiet_witness :
  settled rest_service sample_key /\ snd (step rest_service) = Returned (requeue_in (5 * Minute)) /\
  same rest_service (fst (step rest_service)).
Proof.
  pose proof (settled_quiet 0 sample_key rest_service rest_settled) as H. unfold step.
  apply wp_traced_run in H as [h [Hs _]].
  split; [exact rest_settled|]. split; [vm_compute; reflexivity|exact Hs].
Defined.
