(* ===== verification/Webhook.v ===== *)
(** * Webhook: webhook/v1beta1/loadbalancer_webhook.go

    The validating admission webhook, its regular expression, and the objects a
    cluster can reach when every write passes through it. *)

From Stdlib Require Import ZArith Lia Ascii String.
From stdpp Require Import base list strings gmap pretty.
From S2P Require Import Prelude GoLib NetParse ApiTypes Cloudscale Effects External Helpers Samples FloatingIPs.
Open Scope string_scope.
Open Scope Z_scope.
Open Scope list_scope.

(** ** Regular expressions

    The fragment of package regexp that the pattern uses, matched against a whole
    string (the pattern is anchored on both sides). *)

Inductive re :=
| Fail
| Eps
| Class (lo hi : ascii)
| Cat (r s : re)
| Alt (r s : re).

Definition in_class (lo hi c : ascii) : bool := (code lo <=? code c) && (code c <=? code hi).

Fixpoint nullable (r : re) : bool :=
  match r with
  | Fail => false
  | Eps => true
  | Class _ _ => false
  | Cat r s => nullable r && nullable s
  | Alt r s => nullable r || nullable s
  end.

Fixpoint deriv (r : re) (c : ascii) : re :=
  match r with
  | Fail | Eps => Fail
  | Class lo hi => if in_class lo hi c then Eps else Fail
  | Cat r s => if nullable r then Alt (Cat (deriv r c) s) (deriv s c) else Cat (deriv r c) s
  | Alt r s => Alt (deriv r c) (deriv s c)
  end.

Definition matches (r : re) (s : chars) : bool := nullable (fold_left deriv s r).

(** [^([1-5]\d\d)(?:-[1-5]\d\d)?$]. *)
Definition code_re : re := Cat (Class "1" "5") (Cat (Class "0" "9") (Class "0" "9")).
Definition statusCodeRegex : re := Cat code_re (Alt (Cat (Class "-" "-") code_re) Eps).

(** [strings.Contains(code, "-")]. *)
Definition contains_dash (s : chars) : bool := existsb (fun c => is_char c "-") s.

Definition checkStatusCodeRange (s : string) : bool * bool :=
  if matches statusCodeRegex (chars_of s) then (true, contains_dash (chars_of s)) else (false, false).

(** ** Validation *)

Definition objectKey (lb : v1beta1.LoadBalancer) : v1beta1.NamespacedName :=
  {| v1beta1.nn_Namespace := v1beta1.Namespace lb; v1beta1.nn_Name := v1beta1.Name lb |}.

(** The loops of [usedFloatingIPs]; a later entry overwrites an earlier one. *)
Definition usedBy (items : list v1beta1.LoadBalancer) : gmap string v1beta1.NamespacedName :=
  fold_left (fun used lb =>
    fold_left (fun used fip =>
      if negb (str_empty (v1beta1.fip_CIDR fip)) then <[ v1beta1.fip_CIDR fip := objectKey lb ]> used else used)
      (v1beta1.spec_FloatingIPAddresses (v1beta1.lb_Spec lb)) used) items ∅.

Definition usedFloatingIPs : M (result (gmap string v1beta1.NamespacedName)) :=
  answer ← call_err K8sListLoadBalancers;
  match answer with
  | Err err => mret (Err (ErrorfW "failed to list LoadBalancers: %w" [] err))
  | Ok items => mret (Ok (usedBy items))
  end.

Section Verify.
Context (newLB : v1beta1.LoadBalancer).

Definition spec : v1beta1.LoadBalancerSpec := v1beta1.lb_Spec newLB.

Definition vipErrors : list text :=
  concat (imap (fun i vip =>
    let address := v1beta1.vip_Address vip in
    if str_empty address then []
    else if is_nil (ParseIP address) then
      [Sprintf ".spec.virtualIPAddresses[%d].address: Invalid virtual IP address: %s" [AInt (Z.of_nat i); AStr address]]
    else []) (v1beta1.spec_VirtualIPAddresses spec)).

Definition fipErrors (usedIPs : gmap string v1beta1.NamespacedName) : list text :=
  concat (imap (fun i fip =>
    let cidr := v1beta1.fip_CIDR fip in
    (if is_nil (ParseCIDR cidr) then
       [Sprintf ".spec.floatingIPAddresses[%d].cidr: Invalid floating IP address: %s" [AInt (Z.of_nat i); AStr cidr]]
     else []) ++
    match usedIPs !! cidr with
    | Some by_ =>
        if negb (str_eqb (v1beta1.nn_Name by_) (v1beta1.Name newLB)) ||
           negb (str_eqb (v1beta1.nn_Namespace by_) (v1beta1.Namespace newLB)) then
          [Sprintf ".spec.floatingIPAddresses[%d].cidr: Floating IP %s is already assigned to another LoadBalancer: %s/%s"
             [AInt (Z.of_nat i); AStr cidr; AStr (v1beta1.nn_Namespace by_); AStr (v1beta1.nn_Name by_)]]
        else []
    | None => []
    end) (v1beta1.spec_FloatingIPAddresses spec)).

(** The loop over the status codes of pool [i]; [several] is [len(...) > 1];
    the loop stops at the first range among several codes. *)
Fixpoint codeErrors (i j : Z) (several : bool) (codes : list string) : list text :=
  match codes with
  | [] => []
  | c :: rest =>
      let '(valid, isRange) := checkStatusCodeRange c in
      (if negb valid then
         [Sprintf ".spec.pools[%d].backend.healthCheck.http.statusCodes[%d]: Invalid status code: %s"
            [AInt i; AInt j; AStr c]]
       else []) ++
      (if isRange && several then
         [Sprintf ".spec.pools[%d].backend.healthCheck.http.statusCodes[%d]: Status code ranges are not allowed when multiple status codes are specified"
            [AInt i; AInt j]]
       else codeErrors i (j + 1) several rest)
  end.

Definition allowedCIDRErrors (i : Z) (pool : v1beta1.Pool) : list text :=
  concat (imap (fun j ac =>
    if is_nil (ParseCIDR (v1beta1.acidr_CIDR ac)) then
      [Sprintf ".spec.pools[%d].frontend.allowedCIDRs[%d]: Invalid allowed CIDR: %s"
         [AInt i; AInt (Z.of_nat j); AStr (v1beta1.acidr_CIDR ac)]]
    else []) (v1beta1.fe_AllowedCIDRs (v1beta1.pool_Frontend pool))).

Definition statusCodes (pool : v1beta1.Pool) : list string :=
  v1beta1.http_StatusCodes (v1beta1.hm_HTTP (v1beta1.be_HealthMonitor (v1beta1.pool_Backend pool))).

Definition poolErrors : list text :=
  concat (imap (fun i pool =>
    codeErrors (Z.of_nat i) 0 (Nat.ltb 1 (length (statusCodes pool))) (statusCodes pool) ++
    allowedCIDRErrors (Z.of_nat i) pool) (v1beta1.spec_Pools spec)).

Definition vipsf : v1beta1.VirtualIPAddress -> v1beta1.VirtualIPAddress -> Z :=
  lex10 v1beta1.vip_SubnetID v1beta1.vip_Address.

Definition verifyChanges (oldLB : v1beta1.LoadBalancer) : list text :=
  (if negb (str_empty (v1beta1.UUID oldLB)) && negb (str_eqb (v1beta1.UUID newLB) (v1beta1.UUID oldLB))
   then [Sprintf ".spec.uuid: UUID cannot be changed once set" []] else []) ++
  (if negb (str_empty (v1beta1.Zone oldLB)) && negb (str_eqb (v1beta1.Zone newLB) (v1beta1.Zone oldLB))
   then [Sprintf ".spec.zone: Zone cannot be changed once set" []] else []) ++
  (if negb (Equal (SortFunc vipsf (v1beta1.spec_VirtualIPAddresses (v1beta1.lb_Spec oldLB)))
                  (SortFunc vipsf (v1beta1.spec_VirtualIPAddresses spec)))
   then [Sprintf ".spec.virtualIPAddresses: Virtual IP addresses cannot be changed once set" []] else []).

Definition verify (oldLB : option v1beta1.LoadBalancer) : M (list text) :=
  usedIPs ← usedFloatingIPs;
  mret (vipErrors ++
    match usedIPs with
    | Err err =>
        [Sprintf ".spec.floatingIPAddresses: Failed to retrieve floating IPs already in use: %v" [AErr err]]
    | Ok used => fipErrors used
    end ++ poolErrors ++
    match oldLB with Some old => verifyChanges old | None => [] end).
End Verify.

Definition validationErrorsToError (errs : list text) : option text :=
  match errs with
  | [] => None
  | _ => Some (Join (Sprintf "validation errors: \n" [] ::
           map (fun e => Join [Sprintf "* " []; e; Sprintf "\n" []] "") errs) "")
  end.

(** [runtime.Object]: a LoadBalancer or something else. *)
Inductive Object := ObjLoadBalancer (lb : v1beta1.LoadBalancer) | ObjOther (typ : string).

Definition ValidateCreate (obj : Object) : M (option text) :=
  match obj with
  | ObjOther t => mret (Some (Sprintf "expected a LoadBalancer object but got %T" [AStr t]))
  | ObjLoadBalancer newLB => errs ← verify newLB None; mret (validationErrorsToError errs)
  end.

Definition ValidateUpdate (oldObj newObj : Object) : M (option text) :=
  match newObj with
  | ObjOther t => mret (Some (Sprintf "expected a LoadBalancer object for the newObj but got %T" [AStr t]))
  | ObjLoadBalancer newLB =>
      match oldObj with
      | ObjOther t => mret (Some (Sprintf "expected a LoadBalancer object for the oldObj but got %T" [AStr t]))
      | ObjLoadBalancer oldLB => errs ← verify newLB (Some oldLB); mret (validationErrorsToError errs)
      end
  end.

Definition ValidateDelete (obj : Object) : M (option text) := mret None.

(** ** The regular expression decides its language *)

Inductive accepts : re -> chars -> Prop :=
| acc_eps : accepts Eps []
| acc_class lo hi c : in_class lo hi c = true -> accepts (Class lo hi) [c]
| acc_cat r s l1 l2 : accepts r l1 -> accepts s l2 -> accepts (Cat r s) (l1 ++ l2)
| acc_alt_l r s l : accepts r l -> accepts (Alt r s) l
| acc_alt_r r s l : accepts s l -> accepts (Alt r s) l.

#[export] Hint Constructors accepts : lbc.

Lemma accepts_Cat r s l :
  accepts (Cat r s) l <-> exists l1 l2, l = l1 ++ l2 /\ accepts r l1 /\ accepts s l2.
Proof. split; [inversion 1; subst; eauto|]. intros (l1 & l2 & -> & H1 & H2). auto with lbc. Qed.

Lemma accepts_Alt r s l : accepts (Alt r s) l <-> accepts r l \/ accepts s l.
Proof. split; [inversion 1; subst; auto|]. intros [|]; auto with lbc. Qed.

Lemma accepts_Class lo hi l : accepts (Class lo hi) l <-> exists c, l = [c] /\ in_class lo hi c = true.
Proof. split; [inversion 1; subst; eauto|]. intros (c & -> & H). by constructor. Qed.

Lemma accepts_Eps l : accepts Eps l <-> l = [].
Proof. split; [by inversion 1|]. intros ->. constructor. Qed.

Lemma accepts_Fail l : ~ accepts Fail l.
Proof. inversion 1. Qed.

Lemma nullable_accepts r : nullable r = true <-> accepts r [].
Proof.
  induction r as [| |lo hi|r IHr s IHs|r IHr s IHs]; cbn.
  - split; [done|]. by intros ?%accepts_Fail.
  - by rewrite accepts_Eps.
  - rewrite accepts_Class. naive_solver.
  - rewrite andb_true_iff, IHr, IHs, accepts_Cat. split; [intros [H1 H2]; by exists [], []|].
    intros (l1 & l2 & E & H1 & H2). symmetry in E. apply app_eq_nil in E as [-> ->]. done.
  - by rewrite orb_true_iff, IHr, IHs, accepts_Alt.
Qed.

Lemma deriv_accepts r c l : accepts (deriv r c) l <-> accepts r (c :: l).
Proof.
  revert l. induction r as [| |lo hi|r IHr s IHs|r IHr s IHs]; intros l; cbn.
  - split; by intros ?%accepts_Fail.
  - rewrite accepts_Eps. split; [by intros ?%accepts_Fail|done].
  - rewrite accepts_Class. case_if; rewrite ?accepts_Eps; split.
    + intros ->. eauto.
    + intros (c' & [= <- ->] & _). done.
    + by intros ?%accepts_Fail.
    + intros (c' & [= <- ->] & H). congruence.
  - assert (Hc : (exists l1 l2, l = l1 ++ l2 /\ accepts (deriv r c) l1 /\ accepts s l2) <->
      (exists l1 l2, c :: l = (c :: l1) ++ l2 /\ accepts r (c :: l1) /\ accepts s l2)).
    { setoid_rewrite IHr. naive_solver. }
    destruct (nullable r) eqn:En; rewrite ?accepts_Alt, !accepts_Cat, Hc, ?IHs; split.
    + intros [(l1 & l2 & E & H1 & H2)|H2]; [by exists (c :: l1), l2|].
      exists [], (c :: l). split; [done|]. split; [by apply nullable_accepts|done].
    + intros ([|a l1] & l2 & E & H1 & H2); [right; cbn in E; by subst|]. injection E as -> ->. left. by exists l1, l2.
    + intros (l1 & l2 & E & H1 & H2). by exists (c :: l1), l2.
    + intros ([|a l1] & l2 & E & H1 & H2); [apply nullable_accepts in H1; congruence|].
      injection E as -> ->. by exists l1, l2.
  - by rewrite !accepts_Alt, IHr, IHs.
Qed.

Lemma matches_accepts r l : matches r l = true <-> accepts r l.
Proof.
  unfold matches. revert r. induction l as [|c l IH]; intros r; cbn; [apply nullable_accepts|].
  by rewrite IH, deriv_accepts.
Qed.

(** A status code: three digits, the first between 1 and 5. *)
Definition is_code (l : chars) : Prop :=
  exists a b c, l = [a; b; c] /\ in_class "1" "5" a = true /\ in_class "0" "9" b = true /\ in_class "0" "9" c = true.

Lemma accepts_code l : accepts code_re l <-> is_code l.
Proof.
  unfold code_re, is_code. split.
  - intros (l1 & l2 & -> & (a & -> & Ha)%accepts_Class &
      (l3 & l4 & -> & (b & -> & Hb)%accepts_Class & (c & -> & Hc)%accepts_Class)%accepts_Cat)%accepts_Cat.
    by exists a, b, c.
  - intros (a & b & c & -> & Ha & Hb & Hc).
    apply (acc_cat _ _ [a] [b; c]); [by constructor|]. apply (acc_cat _ _ [b] [c]); by constructor.
Qed.

Lemma is_code_no_dash l : is_code l -> contains_dash l = false.
Proof.
  intros (a & b & c & -> & Ha & Hb & Hc). unfold in_class, contains_dash, is_char in *. cbn [existsb].
  change (code "1") with 49 in *. change (code "5") with 53 in *. change (code "0") with 48 in *.
  change (code "9") with 57 in *. change (code "-") with 45 in *.
  rewrite !andb_true_iff, !Z.leb_le in *. rewrite !orb_false_iff, !Z.eqb_neq. lia.
Qed.

Definition is_range (l : chars) : Prop := exists l1 l2, l = l1 ++ "-"%char :: l2 /\ is_code l1 /\ is_code l2.

Lemma in_dash c : in_class "-" "-" c = true -> c = "-"%char.
Proof.
  unfold in_class, code. rewrite andb_true_iff, !Z.leb_le. intros [H1 H2].
  assert (E : N_of_ascii c = N_of_ascii "-") by lia. apply (f_equal ascii_of_N) in E.
  by rewrite !ascii_N_embedding in E.
Qed.

Lemma accepts_status l : accepts statusCodeRegex l <-> is_code l \/ is_range l.
Proof.
  unfold statusCodeRegex, is_range. rewrite accepts_Cat. setoid_rewrite accepts_Alt. setoid_rewrite accepts_code.
  setoid_rewrite accepts_Eps. split.
  - intros (l1 & l2 & -> & H1 & [(l3 & l4 & -> & (d & -> & Hd)%accepts_Class & H2%accepts_code)%accepts_Cat| ->]).
    + right. apply in_dash in Hd as ->. by exists l1, l4.
    + left. by rewrite app_nil_r.
  - intros [H|(l1 & l2 & -> & H1 & H2)].
    + exists l, []. by rewrite app_nil_r; auto.
    + exists l1, ("-"%char :: l2). split; [done|]. split; [done|]. left.
      apply (acc_cat _ _ ["-"%char] l2); [by constructor|by apply accepts_code].
Qed.

(** C38: the status code check is exact: it accepts as a single code exactly
    three digits of which the first is 1 to 5, as a range exactly two such codes
    joined by a dash, and nothing else. *)
Theorem status_code_check_exact s :
  (checkStatusCodeRange s = (true, false) <-> is_code (chars_of s)) /\
  (checkStatusCodeRange s = (true, true) <-> is_range (chars_of s)) /\
  (checkStatusCodeRange s = (false, false) <-> ~ is_code (chars_of s) /\ ~ is_range (chars_of s)).
Proof.
  assert (Hr : is_range (chars_of s) -> contains_dash (chars_of s) = true).
  { intros (l1 & l2 & -> & _ & _). unfold contains_dash. rewrite existsb_app. cbn. by rewrite orb_true_r. }
  pose proof (is_code_no_dash (chars_of s)) as Hc. unfold checkStatusCodeRange.
  destruct (matches _ _) eqn:E.
  - apply matches_accepts, accepts_status in E.
    destruct E as [E|E]; [rewrite (Hc E)|rewrite (Hr E)]; repeat split; try done; try tauto;
      intros; destruct (contains_dash (chars_of s)) eqn:Ed; try naive_solver.
  - assert (E' : ~ (is_code (chars_of s) \/ is_range (chars_of s)))
      by (rewrite <- accepts_status, <- matches_accepts; congruence).
    repeat split; try done; try tauto.
Qed.

(** ** What is admitted *)

Definition valid_code (s : string) : Prop := is_code (chars_of s) \/ is_range (chars_of s).

(** Valid status codes: each a code or a range, and a range only alone. *)
Definition valid_codes (codes : list string) : Prop :=
  Forall valid_code codes /\ ((1 < length codes)%nat -> Forall (fun c => is_code (chars_of c)) codes).

(** A manifest that is valid by itself. *)
Definition well_formed (lb : v1beta1.LoadBalancer) : Prop :=
  Forall (fun v => v1beta1.vip_Address v = "" \/ ParseIP (v1beta1.vip_Address v) <> None)
    (v1beta1.spec_VirtualIPAddresses (v1beta1.lb_Spec lb)) /\
  Forall (fun f => ParseCIDR (v1beta1.fip_CIDR f) <> None)
    (v1beta1.spec_FloatingIPAddresses (v1beta1.lb_Spec lb)) /\
  Forall (fun p => valid_codes (statusCodes p) /\
                   Forall (fun ac => ParseCIDR (v1beta1.acidr_CIDR ac) <> None)
                     (v1beta1.fe_AllowedCIDRs (v1beta1.pool_Frontend p)))
    (v1beta1.spec_Pools (v1beta1.lb_Spec lb)).

(** No floating IP of the manifest is recorded for another object. *)
Definition fips_free (items : list v1beta1.LoadBalancer) (lb : v1beta1.LoadBalancer) : Prop :=
  forall f k, f ∈ v1beta1.spec_FloatingIPAddresses (v1beta1.lb_Spec lb) ->
    usedBy items !! v1beta1.fip_CIDR f = Some k -> k = objectKey lb.

(** What an update may change. *)
Definition allowed_change (old new : v1beta1.LoadBalancer) : Prop :=
  (v1beta1.UUID old <> "" -> v1beta1.UUID new = v1beta1.UUID old) /\
  (v1beta1.Zone old <> "" -> v1beta1.Zone new = v1beta1.Zone old) /\
  v1beta1.spec_VirtualIPAddresses (v1beta1.lb_Spec new) ≡ₚ v1beta1.spec_VirtualIPAddresses (v1beta1.lb_Spec old).

Lemma concat_imap_nil {A B} (f : nat -> A -> list B) (P : A -> Prop) l :
  (forall i x, x ∈ l -> f i x = [] <-> P x) -> concat (imap f l) = [] <-> Forall P l.
Proof.
  revert f. induction l as [|x l IH]; intros f Hf; cbn; [by rewrite Forall_nil|].
  rewrite app_nil, Forall_cons, (Hf 0%nat x), (IH (fun i => f (S i))); [done| |by left].
  intros i y Hy. apply Hf. by right.
Qed.

Lemma is_nil_true {A} (o : option A) : is_nil o = true <-> o = None.
Proof. by destruct o. Qed.

Lemma vipErrors_nil lb :
  vipErrors lb = [] <->
  Forall (fun v => v1beta1.vip_Address v = "" \/ ParseIP (v1beta1.vip_Address v) <> None)
    (v1beta1.spec_VirtualIPAddresses (v1beta1.lb_Spec lb)).
Proof.
  apply concat_imap_nil. intros i v _. cbn.
  destruct (str_empty _) eqn:E; str_prop; [naive_solver|].
  destruct (ParseIP _); cbn; naive_solver.
Qed.

Lemma fipErrors_nil items lb :
  fipErrors lb (usedBy items) = [] <->
  Forall (fun f => ParseCIDR (v1beta1.fip_CIDR f) <> None /\
                   forall k, usedBy items !! v1beta1.fip_CIDR f = Some k -> k = objectKey lb)
    (v1beta1.spec_FloatingIPAddresses (v1beta1.lb_Spec lb)).
Proof.
  apply concat_imap_nil. intros i f _. cbn. rewrite app_nil.
  assert (H1 : (if is_nil (ParseCIDR (v1beta1.fip_CIDR f)) then
    [Sprintf ".spec.floatingIPAddresses[%d].cidr: Invalid floating IP address: %s"
      [AInt (Z.of_nat i); AStr (v1beta1.fip_CIDR f)]] else []) = [] <-> ParseCIDR (v1beta1.fip_CIDR f) <> None)
    by (destruct (ParseCIDR _); cbn; naive_solver).
  rewrite H1. destruct (usedBy items !! _) as [[ns nm]|]; [|naive_solver]. cbn.
  destruct (str_eqb nm _) eqn:En, (str_eqb ns _) eqn:Es; cbn; str_prop; subst;
    (split; intros [? Hk]; split; [done| |done|]; try done;
     try (intros k [= <-]; done); exfalso; specialize (Hk _ eq_refl); injection Hk; congruence).
Qed.

Lemma checkStatusCodeRange_cases s :
  match checkStatusCodeRange s with
  | (true, false) => is_code (chars_of s) /\ ~ is_range (chars_of s)
  | (true, true) => is_range (chars_of s) /\ ~ is_code (chars_of s)
  | (false, r) => ~ valid_code s /\ r = false
  end.
Proof.
  assert (Hr : is_range (chars_of s) -> contains_dash (chars_of s) = true).
  { intros (l1 & l2 & -> & _ & _). unfold contains_dash. rewrite existsb_app. cbn. by rewrite orb_true_r. }
  pose proof (is_code_no_dash (chars_of s)) as Hc. unfold checkStatusCodeRange, valid_code.
  destruct (matches _ _) eqn:E.
  - apply matches_accepts, accepts_status in E. destruct (contains_dash _) eqn:Ed; naive_solver.
  - rewrite <- accepts_status, <- matches_accepts. split; [congruence|done].
Qed.

Lemma codeErrors_nil i j (several : bool) codes :
  codeErrors i j several codes = [] <->
  Forall valid_code codes /\ (several = true -> Forall (fun c => is_code (chars_of c)) codes).
Proof.
  revert j. induction codes as [|c codes IH]; intros j; cbn [codeErrors]; [by repeat split; constructor|].
  pose proof (checkStatusCodeRange_cases c) as Hc.
  destruct (checkStatusCodeRange c) as [[] []]; cbn [negb andb app]; rewrite !Forall_cons.
  - destruct Hc as [Hr Hn]. destruct several; [split; [done|]; intros [_ Hs]; destruct Hn; by apply Hs|].
    rewrite IH. unfold valid_code at 2. naive_solver.
  - rewrite IH. unfold valid_code at 2. naive_solver.
  - by destruct Hc.
  - destruct Hc as [Hn _]. split; [done|]. naive_solver.
Qed.

#[export] Instance vipsf_sep : SeparatingComparator vipsf.
Proof.
  split; [apply lex10_cmp|]. intros [a1 s1] [a2 s2]. unfold vipsf, lex10. cbn.
  pose proof (Compare_range s1 s2). pose proof (Compare_range a1 a2).
  intros E. assert (E1 : Compare s1 s2 = 0) by lia. assert (E2 : Compare a1 a2 = 0) by lia.
  apply Compare_eq in E1, E2. by subst.
Qed.

Lemma verifyChanges_nil old new : verifyChanges new old = [] <-> allowed_change old new.
Proof.
  unfold verifyChanges, allowed_change. rewrite !app_nil.
  assert (Hsort : Equal (SortFunc vipsf (v1beta1.spec_VirtualIPAddresses (v1beta1.lb_Spec old)))
      (SortFunc vipsf (v1beta1.spec_VirtualIPAddresses (spec new))) = true <->
    v1beta1.spec_VirtualIPAddresses (v1beta1.lb_Spec new) ≡ₚ v1beta1.spec_VirtualIPAddresses (v1beta1.lb_Spec old)).
  { rewrite Equal_true, (SortFunc_eq_iff vipsf). split; by intros ->. }
  assert (Hif : forall (b : bool) (t : text), (if b then [t] else []) = [] <-> b = false) by (by intros []).
  rewrite !Hif, !andb_false_iff, !negb_false_iff, Hsort, !str_empty_true, !str_eqb_true.
  destruct (decide (v1beta1.UUID old = "")), (decide (v1beta1.Zone old = "")); naive_solver.
Qed.

(** The listing the webhook validates against, and the verdict. *)
Definition admissible (items : list v1beta1.LoadBalancer) (old : option v1beta1.LoadBalancer)
    (new : v1beta1.LoadBalancer) : Prop :=
  well_formed new /\ fips_free items new /\
  match old with Some o => allowed_change o new | None => True end.

Lemma verify_nil items new old :
  vipErrors new ++ fipErrors new (usedBy items) ++ poolErrors new ++
    match old with Some o => verifyChanges new o | None => [] end = [] <-> admissible items old new.
Proof.
  unfold admissible, well_formed, fips_free. rewrite !app_nil, vipErrors_nil, fipErrors_nil.
  assert (Hp : poolErrors new = [] <->
    Forall (fun p => valid_codes (statusCodes p) /\
                     Forall (fun ac => ParseCIDR (v1beta1.acidr_CIDR ac) <> None)
                       (v1beta1.fe_AllowedCIDRs (v1beta1.pool_Frontend p)))
      (v1beta1.spec_Pools (v1beta1.lb_Spec new))).
  { apply concat_imap_nil. intros i p _. rewrite app_nil, codeErrors_nil, Nat.ltb_lt.
    assert (Ha : allowedCIDRErrors (Z.of_nat i) p = [] <-> Forall (fun ac => ParseCIDR (v1beta1.acidr_CIDR ac) <> None)
      (v1beta1.fe_AllowedCIDRs (v1beta1.pool_Frontend p))); [|by rewrite Ha].
    apply concat_imap_nil. intros j ac _. destruct (ParseCIDR _); cbn; naive_solver. }
  rewrite Hp, Forall_and. setoid_rewrite (Forall_forall (fun f => forall k, _)).
  assert (Hold : match old with Some o => verifyChanges new o | None => [] end = [] <->
    match old with Some o => allowed_change o new | None => True end)
    by (destruct old; [apply verifyChanges_nil|done]).
  rewrite Hold. naive_solver.
Qed.

Lemma validationErrorsToError_None errs : validationErrorsToError errs = None <-> errs = [].
Proof. by destruct errs. Qed.

(** The two validations of a load balancer, by the old object. *)
Definition validate (old : option v1beta1.LoadBalancer) (new : v1beta1.LoadBalancer) : M (option text) :=
  match old with
  | None => ValidateCreate (ObjLoadBalancer new)
  | Some o => ValidateUpdate (ObjLoadBalancer o) (ObjLoadBalancer new)
  end.

Lemma validate_wp {W} `{World W} old new (w : W) Q :
  (forall w' e t, answers w K8sListLoadBalancers (Err e) w' -> Q w' (Returned (Some t))) ->
  (forall w' items r, answers w K8sListLoadBalancers (Ok items) w' ->
     r = None <-> admissible items old new -> Q w' (Returned r)) ->
  wp (validate old new) w Q.
Proof.
  intros HE HO. destruct old as [o|]; intros [items|e] w' Hx; cbn.
  - eapply HO; [done|]. rewrite validationErrorsToError_None. apply (verify_nil items new (Some o)).
  - destruct (vipErrors new) as [|t ts]; cbn; by eapply HE.
  - eapply HO; [done|]. rewrite validationErrorsToError_None. apply (verify_nil items new None).
  - destruct (vipErrors new) as [|t ts]; cbn; by eapply HE.
Qed.

(** C25: the webhook decides exactly the declared rules.  A create or update is
    admitted if and only if the listing of load balancers succeeded, every address,
    network and status code of the manifest is valid (a range only alone), no
    floating IP is recorded for another object, and, for an update, a UUID or zone
    once set is unchanged and the virtual IPs are the same up to order.  When the
    listing fails the request is refused. *)
Theorem validate_exact old new (h : list action) :
  wp (validate old new) h (fun h' o => exists x r, h' = h ++ [ACall K8sListLoadBalancers x] /\ o = Returned r /\
    (r = None <-> exists items, x = Ok items /\ admissible items old new)).
Proof.
  apply validate_wp; cbn.
  - intros h' e t ->. eexists _, _. split; [done|]. split; [done|]. naive_solver.
  - intros h' items r -> Hr. eexists _, _. split; [done|]. split; [done|]. rewrite Hr. naive_solver.
Qed.

(** ** Clusters in which every write is admitted *)

(** A listing that answers with the objects there are. *)
#[export] Instance listing : Handler (list v1beta1.LoadBalancer) := {
  handle objs r := match r as r0 return resp r0 * list v1beta1.LoadBalancer with
    | K8sListLoadBalancers => (Ok objs, objs)
    | _ => (Err (ErrorResponse 500), objs)
    end;
  note objs _ := objs;
}.

(** The webhook admits the request, for some order of the listing. *)
Definition admitted (objs : list v1beta1.LoadBalancer) (m : M (option text)) : Prop :=
  exists items, items ≡ₚ objs /\ snd (run m items) = Returned None.

(** One write to the API server.  Status updates do not pass the webhook and
    leave the spec; validation and storage of a request are one step. *)
Inductive admission : list v1beta1.LoadBalancer -> list v1beta1.LoadBalancer -> Prop :=
| adm_create objs lb :
    objectKey lb ∉ map objectKey objs -> admitted objs (ValidateCreate (ObjLoadBalancer lb)) ->
    admission objs (lb :: objs)
| adm_update pre old post new :
    objectKey new = objectKey old ->
    admitted (pre ++ old :: post) (ValidateUpdate (ObjLoadBalancer old) (ObjLoadBalancer new)) ->
    admission (pre ++ old :: post) (pre ++ new :: post)
| adm_status pre old post new :
    objectKey new = objectKey old -> v1beta1.lb_Spec new = v1beta1.lb_Spec old ->
    admission (pre ++ old :: post) (pre ++ new :: post)
| adm_delete pre old post :
    admitted (pre ++ old :: post) (ValidateDelete (ObjLoadBalancer old)) ->
    admission (pre ++ old :: post) (pre ++ post).

Definition reachable : list v1beta1.LoadBalancer -> Prop := rtc admission [].

Lemma admitted_validate objs old new :
  admitted objs (validate old new) -> exists items, items ≡ₚ objs /\ admissible items old new.
Proof.
  intros (items & Hp & Hr). exists items. split; [done|].
  pose proof (proj1 (wp_run (validate old new) items (fun _ o => forall r, o = Returned r -> r = None -> admissible items old new))) as H.
  cbv beta in H. eapply H; [|exact Hr|done]. clear.
  apply validate_wp; cbn; [intros w' e t [=]|].
  intros w' its r [= -> ->] Hr r' [= <-] E. by apply Hr.
Qed.

(** Networks of an object. *)
Definition cidrs_of (lb : v1beta1.LoadBalancer) : list string :=
  map v1beta1.fip_CIDR (v1beta1.spec_FloatingIPAddresses (v1beta1.lb_Spec lb)).

(** ** The invariant of such clusters *)

Section Used.
Lemma inner_lookup k (fips : list v1beta1.FloatingIPAddress) (used : gmap string v1beta1.NamespacedName) c :
  fold_left (fun used fip =>
    if negb (str_empty (v1beta1.fip_CIDR fip)) then <[ v1beta1.fip_CIDR fip := k ]> used else used) fips used !! c =
  if bool_decide (c <> "" /\ c ∈ map v1beta1.fip_CIDR fips) then Some k else used !! c.
Proof.
  revert used. induction fips as [|f fips IH]; intros used; cbn.
  { rewrite bool_decide_false; [done|]. intros [_ Hin]. by apply not_elem_of_nil in Hin. }
  rewrite IH. destruct (str_empty (v1beta1.fip_CIDR f)) eqn:E; cbn; str_prop.
  - do 2 case_bool_decide; try done; exfalso; rewrite elem_of_cons in *; naive_solver.
  - destruct (decide (c = v1beta1.fip_CIDR f)) as [->|Hne].
    + rewrite lookup_insert_eq. do 2 case_bool_decide; try done; exfalso; rewrite elem_of_cons in *; naive_solver.
    + rewrite lookup_insert_ne by done. do 2 case_bool_decide; try done; exfalso; rewrite elem_of_cons in *; naive_solver.
Qed.

Lemma usedBy_from items (used : gmap string v1beta1.NamespacedName) c :
  let m := fold_left (fun used lb =>
    fold_left (fun used fip =>
      if negb (str_empty (v1beta1.fip_CIDR fip)) then <[ v1beta1.fip_CIDR fip := objectKey lb ]> used else used)
      (v1beta1.spec_FloatingIPAddresses (v1beta1.lb_Spec lb)) used) items used in
  (forall k, m !! c = Some k -> used !! c = Some k \/ exists b, b ∈ items /\ objectKey b = k /\ c ∈ cidrs_of b) /\
  (c <> "" -> (is_Some (used !! c) \/ exists a, a ∈ items /\ c ∈ cidrs_of a) -> is_Some (m !! c)).
Proof.
  revert used. induction items as [|lb items IH]; intros used m; subst m; cbn.
  { split; [auto|]. intros _ [Hs|(a & Ha & _)]; [done|]. by apply not_elem_of_nil in Ha. }
  edestruct IH as [I1 I2]. split.
  - intros k Hk%I1. rewrite inner_lookup in Hk. setoid_rewrite elem_of_cons.
    destruct Hk as [Hk|(b & Hb & Hk)]; [|right; exists b; auto].
    case_bool_decide as Hc; [|by left]. injection Hk as <-. right. exists lb. unfold cidrs_of. naive_solver.
  - intros Hne Hs. apply I2; [done|]. rewrite inner_lookup. setoid_rewrite elem_of_cons in Hs.
    case_bool_decide as Hc; [left; by eexists|].
    destruct Hs as [Hs|(a & [->|Ha] & Hin)]; [by left| |right; eauto].
    exfalso. apply Hc. done.
Qed.

Lemma usedBy_owner items c k :
  usedBy items !! c = Some k -> exists b, b ∈ items /\ objectKey b = k /\ c ∈ cidrs_of b.
Proof.
  intros Hk. destruct (usedBy_from items ∅ c) as [H1 _].
  destruct (H1 k Hk) as [Hn|Hb]; [by rewrite lookup_empty in Hn|done].
Qed.

Lemma usedBy_some items c a :
  c <> "" -> a ∈ items -> c ∈ cidrs_of a -> is_Some (usedBy items !! c).
Proof. intros Hne Ha Hc. destruct (usedBy_from items ∅ c) as [_ H2]. apply H2; eauto. Qed.
End Used.

(** A network belongs to one object. *)
Definition exclusive (objs : list v1beta1.LoadBalancer) : Prop :=
  forall a b c, a ∈ objs -> b ∈ objs -> c ∈ cidrs_of a -> c ∈ cidrs_of b -> objectKey a = objectKey b.

Definition cluster_ok (objs : list v1beta1.LoadBalancer) : Prop :=
  NoDup (map objectKey objs) /\ Forall well_formed objs /\ exclusive objs.

Lemma well_formed_cidr lb c : well_formed lb -> c ∈ cidrs_of lb -> c <> "".
Proof.
  intros (_ & Hf & _) (f & <- & Hin)%list_elem_of_In%in_map_iff E. rewrite Forall_forall in Hf.
  apply (Hf f); [by apply list_elem_of_In|]. by rewrite E.
Qed.

(** What C14 asks of the networks of a manifest holds of every one that was admitted. *)
Lemma well_formed_one_length lb : well_formed lb -> Forall one_length (wantedCIDRs lb).
Proof.
  intros (_ & Hf & _). unfold wantedCIDRs. apply Forall_fmap. eapply Forall_impl; [exact Hf|]. intros f Hp.
  unfold one_length. cbn. destruct (HasSuffix _ _) eqn:E; [|done]. apply HasSuffix_split in E. exfalso. apply Hp.
  rewrite E. apply (ParseCIDR_two_slashes _ "128" "32").
Qed.

(** Whoever else uses a network of an admitted manifest is the object of its key. *)
Lemma fips_free_owner objs items lb c a :
  items ≡ₚ objs -> well_formed lb -> fips_free items lb -> c ∈ cidrs_of lb ->
  a ∈ objs -> c ∈ cidrs_of a -> exists b, b ∈ objs /\ objectKey b = objectKey lb /\ c ∈ cidrs_of b.
Proof.
  intros Hp Hwf Hfree Hc Ha Hca. pose proof (well_formed_cidr lb c Hwf Hc) as Hne. rewrite <- Hp in Ha.
  destruct (usedBy_some items c a Hne Ha Hca) as [k Hk].
  apply list_elem_of_In, in_map_iff in Hc as (f & <- & Hf%list_elem_of_In).
  pose proof (Hfree f k Hf Hk) as ->. destruct (usedBy_owner _ _ _ Hk) as (b & Hb & E & Hcb).
  exists b. by rewrite <- Hp.
Qed.

Lemma cluster_ok_create objs items lb :
  cluster_ok objs -> objectKey lb ∉ map objectKey objs -> items ≡ₚ objs -> admissible items None lb ->
  cluster_ok (lb :: objs).
Proof.
  intros (Hnd & Hwf & Hex) Hn Hp (Hw & Hfree & _). split; [|split].
  - cbn. by apply NoDup_cons.
  - by constructor.
  - assert (Hno : forall a c, a ∈ objs -> c ∈ cidrs_of lb -> c ∈ cidrs_of a -> False).
    { intros a c Ha Hc Hca. destruct (fips_free_owner objs items lb c a) as (b & Hb & E & _); try done.
      apply Hn. rewrite <- E. by apply list_elem_of_In, in_map, list_elem_of_In. }
    intros a b c. rewrite !elem_of_cons. intros [->|Ha] [->|Hb] Hca Hcb; [done|by destruct (Hno b c)|by destruct (Hno a c)|].
    by apply (Hex a b c).
Qed.

Lemma elem_of_middle {A} (pre post : list A) x y : y ∈ pre ++ x :: post <-> y = x \/ y ∈ pre ++ post.
Proof. rewrite !elem_of_app, elem_of_cons. naive_solver. Qed.

Lemma map_middle_key pre post old new :
  objectKey new = objectKey old -> map objectKey (pre ++ new :: post) = map objectKey (pre ++ old :: post).
Proof. intros E. rewrite !map_app. cbn. by rewrite E. Qed.

Lemma cluster_ok_replace pre old post new :
  cluster_ok (pre ++ old :: post) -> objectKey new = objectKey old -> well_formed new ->
  (forall a c, a ∈ pre ++ old :: post -> c ∈ cidrs_of new -> c ∈ cidrs_of a -> objectKey a = objectKey old) ->
  cluster_ok (pre ++ new :: post).
Proof.
  intros (Hnd & Hwf & Hex) Hk Hw Hfree. split; [|split].
  - by rewrite (map_middle_key pre post old new).
  - rewrite Forall_forall in *. intros x [->|Hx]%elem_of_middle; [done|]. apply Hwf, elem_of_middle. auto.
  - assert (Hin : forall x, x ∈ pre ++ post -> x ∈ pre ++ old :: post) by (intros; apply elem_of_middle; auto).
    intros a b c [->|Ha]%elem_of_middle [->|Hb]%elem_of_middle Hca Hcb; [done|..].
    + rewrite Hk. symmetry. eauto.
    + rewrite Hk. eauto.
    + by apply (Hex a b c); auto.
Qed.

Lemma cluster_ok_update pre old post items new :
  cluster_ok (pre ++ old :: post) -> objectKey new = objectKey old ->
  items ≡ₚ pre ++ old :: post -> admissible items (Some old) new -> cluster_ok (pre ++ new :: post).
Proof.
  intros Hok Hk Hp (Hw & Hfree & _). apply (cluster_ok_replace pre old post new Hok Hk Hw).
  intros a c Ha Hc Hca. destruct (fips_free_owner (pre ++ old :: post) items new c a) as (b & Hb & E & Hcb); try done.
  rewrite <- Hk, <- E. destruct Hok as (_ & _ & Hex). by apply (Hex a b c).
Qed.

Lemma cluster_ok_step objs objs' : admission objs objs' -> cluster_ok objs -> cluster_ok objs'.
Proof.
  intros [os lb Hn (items & Hp & Had)%(admitted_validate _ None)
         |pre old post new Hk (items & Hp & Had)%(admitted_validate _ (Some old))
         |pre old post new Hk Hs|pre old post _] Hok.
  - by eapply cluster_ok_create.
  - by eapply cluster_ok_update.
  - apply (cluster_ok_replace pre old post new); [done|done| |].
    + destruct Hok as (_ & Hwf & _). rewrite Forall_forall in Hwf.
      unfold well_formed. rewrite Hs. apply Hwf, elem_of_middle. auto.
    + intros a c Ha Hc Hca. destruct Hok as (_ & _ & Hex). apply (Hex a old c); try done; [apply elem_of_middle; auto|].
      unfold cidrs_of in *. by rewrite Hs in Hc.
  - destruct Hok as (Hnd & Hwf & Hex).
    assert (Hin : forall x, x ∈ pre ++ post -> x ∈ pre ++ old :: post) by (intros; apply elem_of_middle; auto).
    split; [|split].
    + rewrite map_app in *. cbn in Hnd. rewrite <- Permutation_middle in Hnd. by apply NoDup_cons in Hnd as [_ Hnd].
    + rewrite Forall_forall in *. auto.
    + intros a b c Ha Hb. apply (Hex a b c); auto.
Qed.

Lemma reachable_ok objs : reachable objs -> cluster_ok objs.
Proof.
  unfold reachable. intros Hr.
  assert (H0 : cluster_ok []) by (split; [constructor|split; [constructor|intros a b c Ha; by apply not_elem_of_nil in Ha]]).
  revert H0. induction Hr as [objs|a b c Hab _ IH]; [done|]. intros Ha. apply IH. by eapply cluster_ok_step.
Qed.

(** C23: in every cluster reached through the webhook, no CIDR text, compared letter by letter, stands in the
    manifests of two load balancers, and every manifest is valid.  It is the spelling that is exclusive: one network
    written in two ways is admitted for two load balancers.  Steps are whole requests: validation sees the objects that
    are stored. *)
Theorem floating_ips_exclusive objs :
  reachable objs ->
  Forall well_formed objs /\
  forall a b c, a ∈ objs -> b ∈ objs -> c ∈ cidrs_of a -> c ∈ cidrs_of b -> a = b.
Proof.
  intros (Hnd & Hwf & Hex)%reachable_ok. split; [done|]. intros a b c Ha Hb Hca Hcb.
  apply (NoDup_map_inj objectKey objs); try done. by apply (Hex a b c).
Qed.

(** C24: no write that passes the webhook changes the UUID or the zone of an
    object once they are set, nor its virtual IPs (beyond their order): the object
    of a key before a step and after it agree on them, unless it was deleted. *)
Theorem identity_immutable objs objs' old new :
  reachable objs -> admission objs objs' ->
  old ∈ objs -> new ∈ objs' -> objectKey new = objectKey old -> allowed_change old new.
Proof.
  intros (Hnd & _ & _)%reachable_ok Hstep Hold Hnew Hk.
  assert (Hsame : forall a b, objectKey a = objectKey b -> v1beta1.lb_Spec a = v1beta1.lb_Spec b -> allowed_change b a).
  { intros a b _ E. unfold allowed_change, v1beta1.UUID, v1beta1.Zone. by rewrite E. }
  assert (Huniq : forall x y, x ∈ objs -> y ∈ objs -> objectKey x = objectKey y -> x = y)
    by (intros; by apply (NoDup_map_inj objectKey objs)).
  destruct Hstep as [os lb Hn _|pre o post n Ho (items & _ & _ & _ & Hch)%(admitted_validate _ (Some o))
                    |pre o post n Ho Hs|pre o post _].
  - apply elem_of_cons in Hnew as [->|Hnew].
    + destruct Hn. rewrite Hk. by apply list_elem_of_In, in_map, list_elem_of_In.
    + rewrite (Huniq new old) by done. by apply Hsame.
  - apply elem_of_middle in Hnew as [->|Hnew].
    + rewrite (Huniq old o); [done|done|apply elem_of_middle; auto|congruence].
    + rewrite (Huniq new old); [by apply Hsame|apply elem_of_middle; auto|done|done].
  - apply elem_of_middle in Hnew as [->|Hnew].
    + rewrite (Huniq old o); [by apply Hsame|done|apply elem_of_middle; auto|congruence].
    + rewrite (Huniq new old); [by apply Hsame|apply elem_of_middle; auto|done|done].
  - rewrite (Huniq new old); [by apply Hsame|apply elem_of_middle; auto|done|done].
Qed.

(** ** Two consequences worth knowing *)

Lemma cut_slash_None s : existsb (fun c => is_char c "/") s = false -> cut_slash s = None.
Proof.
  induction s as [|c s IH]; cbn; [done|]. rewrite orb_false_iff. intros [-> Hs]. by rewrite IH.
Qed.

(** An allowed source without a prefix length, such as the "1.1.1.1" of the
    field's documentation, is refused by the webhook in every request. *)
Lemma bare_allowed_source_refused items old new p ac :
  p ∈ v1beta1.spec_Pools (v1beta1.lb_Spec new) ->
  ac ∈ v1beta1.fe_AllowedCIDRs (v1beta1.pool_Frontend p) ->
  existsb (fun c => is_char c "/") (chars_of (v1beta1.acidr_CIDR ac)) = false ->
  ~ admissible items old new.
Proof.
  intros Hp Ha Hs ((_ & _ & Hpools) & _). rewrite Forall_forall in Hpools. destruct (Hpools p Hp) as [_ Hac].
  rewrite Forall_forall in Hac. apply (Hac ac Ha). unfold ParseCIDR. by rewrite cut_slash_None.
Qed.

(** A load balancer with one floating IP and one allowed source. *)
Definition small_lb (name fip : string) (sources : list string) : v1beta1.LoadBalancer :=
  let pl := sample_pool "http" 80 in
  {| v1beta1.lb_Meta := {| v1beta1.meta_Namespace := "default"; v1beta1.meta_Name := name;
       v1beta1.meta_UID := "uid-" +:+ name; v1beta1.meta_Finalizers := []; v1beta1.meta_DeletionTimestamp := None |};
     v1beta1.lb_Spec := {| v1beta1.spec_UUID := "lb-" +:+ name; v1beta1.spec_Zone := "rma1";
       v1beta1.spec_VirtualIPAddresses := []; v1beta1.spec_FloatingIPAddresses := [ {| v1beta1.fip_CIDR := fip |} ];
       v1beta1.spec_Pools :=
         [ {| v1beta1.pool_Name := "http"; v1beta1.pool_Algorithm := "";
              v1beta1.pool_Frontend := {| v1beta1.fe_Protocol := ""; v1beta1.fe_Port := 80;
                v1beta1.fe_AllowedCIDRs := map (fun s => {| v1beta1.acidr_CIDR := s |}) sources;
                v1beta1.fe_DataTimeout := 0 |};
              v1beta1.pool_Backend := v1beta1.pool_Backend pl |} ] |};
     v1beta1.lb_Status := sample_status |}.

(** Both objects are admitted one after the other. *)
Lemma admit_two a b :
  objectKey a <> objectKey b ->
  snd (run (ValidateCreate (ObjLoadBalancer a)) []) = Returned None ->
  snd (run (ValidateCreate (ObjLoadBalancer b)) [a]) = Returned None ->
  reachable [b; a].
Proof.
  intros Hne Ha Hb. eapply rtc_l; [|apply rtc_once].
  - apply (adm_create [] a); [by apply not_elem_of_nil|]. by exists [].
  - apply (adm_create [a] b); [|by exists [a]]. cbn. rewrite list_elem_of_singleton. congruence.
Qed.

(** Exclusivity is a matter of spelling.  Networks are compared as text,
    so two load balancers can be admitted with the same IPv6 floating IP written
    in two ways. *)
Lemma floating_ip_alias_admitted :
  exists a b ca cb, reachable [b; a] /\ objectKey a <> objectKey b /\
    cidrs_of a = [ca] /\ cidrs_of b = [cb] /\ ParseCIDR ca = ParseCIDR cb /\ is_Some (ParseCIDR ca).
Proof.
  exists (small_lb "a" "2001:db8::1/128" []), (small_lb "b" "2001:db8:0::1/128" []),
    "2001:db8::1/128", "2001:db8:0::1/128".
  split; [apply admit_two; [discriminate|vm_compute; reflexivity..]|].
  split; [discriminate|]. split; [done|]. split; [done|].
  split; [vm_compute; reflexivity|]. vm_compute. by eexists.
Qed.

Lemma reachable_sample :
  reachable [small_lb "b" "192.0.2.2/32" ["10.0.0.0/8"]; small_lb "a" "192.0.2.1/32" []].
Proof. apply admit_two; [discriminate|vm_compute; reflexivity..]. Qed.

Lemma floating_ips_exclusive_witness :
  let objs := [small_lb "b" "192.0.2.2/32" ["10.0.0.0/8"]; small_lb "a" "192.0.2.1/32" []] in
  reachable objs /\ Forall well_formed objs.
Proof. intros objs. split; [exact reachable_sample|]. apply (floating_ips_exclusive objs reachable_sample). Defined.

(** An admitted update of the floating IP and the allowed sources. *)
Lemma identity_immutable_witness :
  let objs := [small_lb "b" "192.0.2.2/32" ["10.0.0.0/8"]; small_lb "a" "192.0.2.1/32" []] in
  let new := small_lb "b" "192.0.2.3/32" [] in
  allowed_change (small_lb "b" "192.0.2.2/32" ["10.0.0.0/8"]) new.
Proof.
  intros objs new.
  apply (identity_immutable objs [new; small_lb "a" "192.0.2.1/32" []]
    (small_lb "b" "192.0.2.2/32" ["10.0.0.0/8"]) new reachable_sample); [|by left|by left|reflexivity].
  apply (adm_update [] (small_lb "b" "192.0.2.2/32" ["10.0.0.0/8"]) [small_lb "a" "192.0.2.1/32" []] new);
    [reflexivity|]. exists objs. split; [reflexivity|vm_compute; reflexivity].
Defined.
