(* ===== verification/NodeHandler.v ===== *)
(** * NodeHandler: controllers/node_update_handler.go

    Which node events make the controller reconcile all load balancers. *)

From Stdlib Require Import ZArith Lia.
From stdpp Require Import base list strings gmap.
From S2P Require Import Prelude GoLib ApiTypes Cloudscale Effects External Helpers Samples Nodes.
Open Scope string_scope.
Open Scope Z_scope.
Open Scope list_scope.

(** The requests added to the work queue, in order. *)
Definition queueAllLoadBalancers : M (list v1beta1.NamespacedName) :=
  answer ← call_err K8sListLoadBalancers;
  match answer with
  | Err _ => mret []
  | Ok lbs =>
      mret (map (fun lb => {| v1beta1.nn_Namespace := v1beta1.Namespace lb; v1beta1.nn_Name := v1beta1.Name lb |}) lbs)
  end.

Definition Create (IsInInitialList : bool) : M (list v1beta1.NamespacedName) :=
  if IsInInitialList then mret [] else queueAllLoadBalancers.

(** The type assertions on the two objects panic on another type, here [None]. *)
Definition Update (ObjectOld ObjectNew : option corev1.Node) : M (list v1beta1.NamespacedName) :=
  match ObjectOld with
  | None => Panic "interface conversion: ObjectOld"
  | Some o =>
      match ObjectNew with
      | None => Panic "interface conversion: ObjectNew"
      | Some n =>
          if str_eqb (corev1.node_ProviderID o) (corev1.node_ProviderID n) &&
             bool_decide (corev1.node_Labels o = corev1.node_Labels n)
          then mret [] else queueAllLoadBalancers
      end
  end.

Definition Delete : M (list v1beta1.NamespacedName) := queueAllLoadBalancers.
Definition Generic : M (list v1beta1.NamespacedName) := queueAllLoadBalancers.

(** A node event, as the handler receives it. *)
Inductive node_event :=
| NodeCreated (n : corev1.Node) (initial : bool)
| NodeUpdated (o n : corev1.Node)
| NodeDeleted (n : corev1.Node)
| NodeGeneric (n : corev1.Node).

Definition on_event (ev : node_event) : M (list v1beta1.NamespacedName) :=
  match ev with
  | NodeCreated _ initial => Create initial
  | NodeUpdated o n => Update (Some o) (Some n)
  | NodeDeleted _ => Delete
  | NodeGeneric _ => Generic
  end.

(** The nodes of the cluster after an event. *)
Definition after_event (nodes : list corev1.Node) (ev : node_event) : list corev1.Node :=
  match ev with
  | NodeCreated n _ => nodes ++ [n]
  | NodeUpdated _ n => map (fun x => if str_eqb (corev1.node_Name x) (corev1.node_Name n) then n else x) nodes
  | NodeDeleted n => List.filter (fun x => negb (str_eqb (corev1.node_Name x) (corev1.node_Name n))) nodes
  | NodeGeneric _ => nodes
  end.

(** Events of the initial listing: the controller reconciles every load balancer
    at startup anyway. *)
Definition initial_event (ev : node_event) : bool :=
  match ev with NodeCreated _ initial => initial | _ => false end.

(** An event the handler ignores: nothing is queued, and nothing is listed. *)
Definition ignored (ev : node_event) : Prop := on_event ev = mret [].

(** C35: the filter on node events loses nothing.  An event other than the
    initial listing that the handler ignores leaves the nodes, as far as the
    controller reads them (name, labels, provider ID), exactly as they were;
    every other event queues every load balancer that the API server lists. *)
Theorem node_events_complete nodes ev :
  initial_event ev = false ->
  (forall o n, ev = NodeUpdated o n -> corev1.node_Name n = corev1.node_Name o /\
     forall x, x ∈ nodes -> corev1.node_Name x = corev1.node_Name o -> x = o) ->
  (ignored ev /\ after_event nodes ev = nodes) \/
  (forall (h : list action), wp (on_event ev) h (fun h' o => exists x, h' = h ++ [ACall K8sListLoadBalancers x] /\
     match x with
     | Ok lbs => o = Returned (map (fun lb =>
         {| v1beta1.nn_Namespace := v1beta1.Namespace lb; v1beta1.nn_Name := v1beta1.Name lb |}) lbs)
     | Err _ => o = Returned []
     end)).
Proof.
  assert (Hall : forall (h : list action), wp queueAllLoadBalancers h (fun h' o => exists x, h' = h ++ [ACall K8sListLoadBalancers x] /\
     match x with
     | Ok lbs => o = Returned (map (fun lb =>
         {| v1beta1.nn_Namespace := v1beta1.Namespace lb; v1beta1.nn_Name := v1beta1.Name lb |}) lbs)
     | Err _ => o = Returned []
     end)).
  { intros h [l|e] h' ->; [by exists (Ok l)|by exists (Err e)]. }
  intros Hi Hu. destruct ev as [n i|o n|n|n]; cbn in *; [right; by rewrite Hi| |by right..].
  unfold ignored, on_event, Update. destruct (_ && _) eqn:E; [left|by right]. split; [done|].
  apply andb_true_iff in E as [E1 E2]. apply str_eqb_true in E1. apply bool_decide_eq_true in E2.
  destruct (Hu o n eq_refl) as [Hn Hx]. assert (n = o) as -> by (destruct o, n; cbn in *; congruence). clear -Hx.
  induction nodes as [|x nodes IH]; [done|]. cbn. rewrite IH; [|intros y Hy; apply Hx; by right]. f_equal.
  case_if; [|done]. str_prop. symmetry. apply Hx; [by left|done].
Qed.

Lemma node_events_complete_witness :
  let o := sample_node "node-0" "srv-0" in
  ignored (NodeUpdated o o) /\ after_event [o] (NodeUpdated o o) = [o].
Proof.
  intros o. destruct (node_events_complete [o] (NodeUpdated o o) eq_refl) as [H|H].
  - intros o' n [= <- <-]. split; [reflexivity|]. intros x Hx _. by apply list_elem_of_singleton in Hx.
  - exact H.
  - exfalso. destruct (H []) as (x & Hx & _). discriminate Hx.
Defined.

(** An update of a node is ignored exactly when neither its labels nor
    its provider ID changed. *)
Lemma node_update_ignored_iff o n :
  ignored (NodeUpdated o n) <->
  corev1.node_ProviderID o = corev1.node_ProviderID n /\ corev1.node_Labels o = corev1.node_Labels n.
Proof.
  unfold ignored. cbn. destruct (_ && _) eqn:E.
  - apply andb_true_iff in E as [E1 E2]. apply str_eqb_true in E1. by apply bool_decide_eq_true in E2.
  - split; [done|]. intros [E1 E2]. rewrite E1, E2, str_eqb_refl, bool_decide_true in E by done. done.
Qed.
