(* ===== verification/Collector.v ===== *)
(** * Collector: controllers/loadbalancer_status_collector.go

    The Prometheus metrics derived from the status of the load balancers. *)

From Stdlib Require Import ZArith Lia.
From stdpp Require Import base list strings gmap.
From S2P Require Import Prelude GoLib ApiTypes Cloudscale Effects External Helpers Samples.
Open Scope string_scope.
Open Scope Z_scope.
Open Scope list_scope.

(** ** The metrics library

    github.com/prometheus/client_golang is not part of the repository: its metrics are a parameter, with what its
    documentation says of the functions the collector calls as laws. *)

(** The arguments of [prometheus.NewDesc] that identify a description: its name and the names of the labels. *)
Record Desc := { d_fqName : string; d_labels : list string }.

Class Prometheus := {
  Metric : Type;
  ValueType : Type;
  GaugeValue : ValueType;
  NewInvalidMetric : Desc -> goerror -> Metric;
  MustNewConstMetric : Desc -> ValueType -> Z -> list string -> M Metric;
  (** what a metric with a fixed value is, which label values are allowed (valid UTF-8), and how the registry tells
      metrics apart *)
  ConstMetric : Desc -> ValueType -> Z -> list string -> Metric;
  valid_label : string -> bool;
  metric_id : Metric -> string * list string;
}.

(** One valid value per label gives the metric, anything else panics; metrics with a value are told apart by name and
    label values. *)
Class PrometheusLaws (P : Prometheus) : Prop := {
  must_ok d t v ls : length ls = length (d_labels d) -> Forall (fun l => valid_label l = true) ls ->
    MustNewConstMetric d t v ls = mret (ConstMetric d t v ls);
  must_panics d t v ls : ~ (length ls = length (d_labels d) /\ Forall (fun l => valid_label l = true) ls) ->
    exists why, MustNewConstMetric d t v ls = Panic why;
  metric_id_const d t v ls : metric_id (ConstMetric d t v ls) = (d_fqName d, ls);
}.

Definition MetricsNamespace : string := "cloudscale_loadbalancer_controller".

Definition loadBalancerStatusDesc : Desc :=
  {| d_fqName := MetricsNamespace +:+ "_loadbalancer_cloudscale_status";
     d_labels := ["namespace"; "loadbalancer"; "status"] |}.

Definition loadBalancerActiveDesc : Desc :=
  {| d_fqName := MetricsNamespace +:+ "_loadbalancer_cloudscale_status_active";
     d_labels := ["namespace"; "loadbalancer"] |}.

Definition loadBalancerBackendStatusDesc : Desc :=
  {| d_fqName := MetricsNamespace +:+ "_loadbalancer_backend_status";
     d_labels := ["namespace"; "loadbalancer"; "pool"; "node"; "server"; "address"; "status"] |}.

Definition loadBalancerBackendUpDesc : Desc :=
  {| d_fqName := MetricsNamespace +:+ "_loadbalancer_backend_status_up";
     d_labels := ["namespace"; "loadbalancer"; "pool"; "node"; "server"; "address"] |}.

Definition boolToFloat64 (b : bool) : Z := if b then 1 else 0.

Definition Describe : list Desc :=
  [loadBalancerStatusDesc; loadBalancerActiveDesc; loadBalancerBackendStatusDesc; loadBalancerBackendUpDesc].

Section Collect.
Context {P : Prometheus}.

Definition collectBackend (lb : v1beta1.LoadBalancer) (pool : v1beta1.StatusPool) (backend : v1beta1.StatusBackend)
    : M (list Metric) :=
  let ls := [v1beta1.Namespace lb; v1beta1.Name lb; v1beta1.sp_Name pool; v1beta1.sb_NodeName backend;
             v1beta1.sb_ServerName backend; v1beta1.sb_Address backend] in
  status ← MustNewConstMetric loadBalancerBackendStatusDesc GaugeValue 1 (ls ++ [v1beta1.sb_Status backend]);
  up ← MustNewConstMetric loadBalancerBackendUpDesc GaugeValue (boolToFloat64 (str_eqb (v1beta1.sb_Status backend) "up")) ls;
  mret [status; up].

Definition collectLB (lb : v1beta1.LoadBalancer) : M (list Metric) :=
  let status := v1beta1.status_CloudscaleStatus (v1beta1.lb_Status lb) in
  m ← MustNewConstMetric loadBalancerStatusDesc GaugeValue 1 [v1beta1.Namespace lb; v1beta1.Name lb; status];
  active ← MustNewConstMetric loadBalancerActiveDesc GaugeValue (boolToFloat64 (str_eqb status "active"))
    [v1beta1.Namespace lb; v1beta1.Name lb];
  backends ← mapM (v1beta1.status_Pools (v1beta1.lb_Status lb)) (fun pool =>
    ms ← mapM (v1beta1.sp_Backends pool) (collectBackend lb pool); mret (concat ms));
  mret (m :: active :: concat backends).

(** The metrics sent to the channel, in order.  A failed listing does not end the function: the loop goes over the
    items it left in the list, [left_by err], which is the client's to say. *)
Definition Collect (left_by : goerror -> list v1beta1.LoadBalancer) : M (list Metric) :=
  answer ← call_err K8sListLoadBalancers;
  let '(invalid, items) :=
    match answer with
    | Err e =>
        let err := ErrorfW "failed to list load balancers: %w" [] e in
        ([NewInvalidMetric loadBalancerStatusDesc err; NewInvalidMetric loadBalancerActiveDesc err;
          NewInvalidMetric loadBalancerBackendStatusDesc err; NewInvalidMetric loadBalancerBackendUpDesc err], left_by e)
    | Ok items => ([], items)
    end in
  ms ← mapM items collectLB;
  mret (invalid ++ concat ms).
End Collect.

(** ** What the collector exposes *)

Definition lb_labels (lb : v1beta1.LoadBalancer) : list string := [v1beta1.Namespace lb; v1beta1.Name lb].

Definition backend_labels (lb : v1beta1.LoadBalancer) (pool : v1beta1.StatusPool) (b : v1beta1.StatusBackend) : list string :=
  lb_labels lb ++ [v1beta1.sp_Name pool; v1beta1.sb_NodeName b; v1beta1.sb_ServerName b; v1beta1.sb_Address b].

(** The texts that become label values. *)
Definition backend_texts (pool : v1beta1.StatusPool) (b : v1beta1.StatusBackend) : list string :=
  [v1beta1.sp_Name pool; v1beta1.sb_NodeName b; v1beta1.sb_ServerName b; v1beta1.sb_Address b; v1beta1.sb_Status b].

Definition texts (lb : v1beta1.LoadBalancer) : list string :=
  [v1beta1.Namespace lb; v1beta1.Name lb; v1beta1.status_CloudscaleStatus (v1beta1.lb_Status lb)] ++
  concat (map (fun pool => concat (map (backend_texts pool) (v1beta1.sp_Backends pool)))
    (v1beta1.status_Pools (v1beta1.lb_Status lb))).

(** The four descriptions, written out: a name and the names of its labels. *)
Definition described (name : string) (labels : list string) : Desc :=
  {| d_fqName := "cloudscale_loadbalancer_controller_loadbalancer_" +:+ name; d_labels := "namespace" :: "loadbalancer" :: labels |}.

Section Exposed.
Context {P : Prometheus}.

(** A gauge with its labels: each with its name and value. *)
Definition gauge (name : string) (value : Z) (lb : v1beta1.LoadBalancer) (labels : list (string * string)) : Metric :=
  ConstMetric (described name (map fst labels)) GaugeValue value (lb_labels lb ++ map snd labels).

Definition metrics_of_backend lb pool b : list Metric :=
  let labels := [("pool", v1beta1.sp_Name pool); ("node", v1beta1.sb_NodeName b); ("server", v1beta1.sb_ServerName b);
                 ("address", v1beta1.sb_Address b)] in
  [gauge "backend_status" 1 lb (labels ++ [("status", v1beta1.sb_Status b)]);
   gauge "backend_status_up" (if decide (v1beta1.sb_Status b = "up") then 1 else 0) lb labels].

Definition metrics_of lb : list Metric :=
  let status := v1beta1.status_CloudscaleStatus (v1beta1.lb_Status lb) in
  gauge "cloudscale_status" 1 lb [("status", status)] ::
  gauge "cloudscale_status_active" (if decide (status = "active") then 1 else 0) lb [] ::
  concat (map (fun pool => concat (map (metrics_of_backend lb pool) (v1beta1.sp_Backends pool)))
    (v1beta1.status_Pools (v1beta1.lb_Status lb))).

Definition labels_valid (items : list v1beta1.LoadBalancer) : Prop :=
  Forall (fun lb => Forall (fun l => valid_label l = true) (texts lb)) items.

(** A computation that gives [a], or panics, as the texts are. *)
Definition emits {A} (ok : bool) (m : M A) (a : A) : Prop :=
  if ok then m = mret a else exists why, m = Panic why.

Lemma emits_bind {A B} ok1 ok2 (m : M A) (f : A -> M B) a b :
  emits ok1 m a -> emits ok2 (f a) b -> emits (ok1 && ok2) (m ≫= f) b.
Proof. destruct ok1; cbn; [by intros ->|]. by intros [why ->] _; exists why. Qed.

Lemma emits_mapM {A B} (ok : A -> bool) (f : A -> M B) (g : A -> B) l :
  (forall x, emits (ok x) (f x) (g x)) -> emits (forallb ok l) (mapM l f) (map g l).
Proof.
  intros Hf. induction l as [|x l IH]; [done|]. cbn [forallb mapM map]. apply emits_bind with (a := g x); [apply Hf|].
  rewrite <- (andb_true_r (forallb ok l)). by apply emits_bind with (a := map g l).
Qed.

Lemma emits_ok {A} ok ok' (m : M A) a : ok = ok' -> emits ok m a -> emits ok' m a.
Proof. by intros ->. Qed.

Context {PL : PrometheusLaws P}.

Abbreviation ok := (forallb valid_label).

Lemma emits_metric d t v ls :
  length ls = length (d_labels d) -> emits (ok ls) (MustNewConstMetric d t v ls) (ConstMetric d t v ls).
Proof.
  intros Hl. unfold emits. destruct (ok ls) eqn:E.
  - apply must_ok; [done|]. apply Forall_forall. intros l Hin. rewrite forallb_forall in E. by apply E, list_elem_of_In.
  - apply must_panics. intros [_ Hv]. apply not_true_iff_false in E. apply E, forallb_forall. intros l Hin.
    rewrite Forall_forall in Hv. by apply Hv, list_elem_of_In.
Qed.

Lemma bool_decide_if (s t : string) : boolToFloat64 (str_eqb s t) = if decide (s = t) then 1 else 0.
Proof. destruct (str_eqb s t) eqn:E, (decide (s = t)); str_prop; done. Qed.

Lemma collectBackend_emits lb pool b :
  emits (ok (lb_labels lb ++ backend_texts pool b)) (collectBackend lb pool b) (metrics_of_backend lb pool b).
Proof.
  eapply emits_ok; [|eapply emits_bind; [by apply emits_metric|]; eapply emits_bind; [by apply emits_metric|]].
  2: { rewrite bool_decide_if. instantiate (1 := true). done. }
  cbn. destruct (valid_label _), (valid_label _), (valid_label _), (valid_label _), (valid_label _), (valid_label _),
    (valid_label _); done.
Qed.

Lemma ok_app l1 l2 : ok (l1 ++ l2) = ok l1 && ok l2.
Proof. apply forallb_app. Qed.

Lemma ok_concat {A} (f : A -> list string) l : ok (concat (map f l)) = forallb (fun x => ok (f x)) l.
Proof. induction l as [|x l IH]; [done|]. cbn. by rewrite ok_app, IH. Qed.

Lemma forallb_same {A} (f g : A -> bool) l : (forall x, f x = g x) -> forallb f l = forallb g l.
Proof. intros Hx. induction l as [|x l IH]; [done|]. cbn. by rewrite Hx, IH. Qed.

Lemma collectLB_emits lb : emits (ok (texts lb)) (collectLB lb) (metrics_of lb).
Proof.
  set (okp := fun pool => forallb (fun b => ok (lb_labels lb ++ backend_texts pool b)) (v1beta1.sp_Backends pool)).
  assert (Hp : forall pool, emits (okp pool)
    (ms ← mapM (v1beta1.sp_Backends pool) (collectBackend lb pool); mret (concat ms))
    (concat (map (metrics_of_backend lb pool) (v1beta1.sp_Backends pool)))).
  { intros pool. rewrite <- (andb_true_r (okp pool)). eapply emits_bind; [apply emits_mapM, collectBackend_emits|done]. }
  eapply emits_ok; [|unfold collectLB; eapply emits_bind; [by apply emits_metric|]; eapply emits_bind; [by apply emits_metric|];
    eapply emits_bind; [apply emits_mapM, Hp|]; cbn [bool_decide]; rewrite bool_decide_if; instantiate (1 := true); done].
  unfold texts. rewrite ok_app, ok_concat, andb_true_r.
  cbn [forallb]. rewrite !andb_true_r, !andb_assoc.
  destruct (valid_label (v1beta1.Namespace lb)) eqn:E1, (valid_label (v1beta1.Name lb)) eqn:E2; try done.
  rewrite !andb_true_r, !andb_true_l. f_equal. apply forallb_same. intros pool. rewrite ok_concat. unfold okp.
  apply forallb_same. intros b. rewrite ok_app. unfold lb_labels. cbn [forallb]. by rewrite E1, E2.
Qed.

Lemma collect_items items :
  (labels_valid items /\ mapM items collectLB = mret (map metrics_of items)) \/
  (~ labels_valid items /\ exists why, mapM items collectLB = Panic why).
Proof.
  assert (Hv : labels_valid items <-> forallb (fun lb => ok (texts lb)) items = true).
  { unfold labels_valid. rewrite forallb_forall, Forall_forall. setoid_rewrite forallb_forall. setoid_rewrite Forall_forall.
    setoid_rewrite list_elem_of_In. done. }
  pose proof (emits_mapM _ _ _ items collectLB_emits) as He. rewrite Hv.
  destruct (forallb _ items); [by left|right; by split].
Qed.
End Exposed.

(** C36: a scrape exposes exactly the listed state: per load balancer its status and whether it is "active", per
    backend its status and whether it is "up", each as a gauge with the labels written out in [metrics_of].  When the
    listing fails there is first one invalid metric with the error for each of the four descriptions; the loop then goes
    on with whatever the failed call left in the list.  A scrape panics exactly when a text that becomes a label value
    is one the metrics library refuses (invalid UTF-8).  The library is a parameter; that it takes one valid value per
    label and panics on anything else is assumed, as it documents. *)
Theorem collect_exact {P : Prometheus} {PL : PrometheusLaws P} left_by (h : list action) :
  wp (Collect left_by) h (fun h' o => exists x, h' = h ++ [ACall K8sListLoadBalancers x] /\
    let items := match x with Ok items => items | Err e => left_by e end in
    let invalid := match x with
      | Ok _ => []
      | Err e => map (fun d => NewInvalidMetric d (ErrorfW "failed to list load balancers: %w" [] e))
          [described "cloudscale_status" ["status"]; described "cloudscale_status_active" [];
           described "backend_status" ["pool"; "node"; "server"; "address"; "status"];
           described "backend_status_up" ["pool"; "node"; "server"; "address"]]
      end in
    (labels_valid items /\ o = Returned (invalid ++ concat (map metrics_of items))) \/
    (~ labels_valid items /\ exists why, o = Panicked why)).
Proof.
  intros x h' ->. destruct x as [items|e]; cbn [mbind M_bind call_err].
  - destruct (collect_items items) as [[Hv ->]|[Hv [why ->]]]; exists (Ok items); (split; [done|]); [by left|right; eauto].
  - destruct (collect_items (left_by e)) as [[Hv ->]|[Hv [why ->]]]; exists (Err e); (split; [done|]); [by left|right; eauto].
Qed.

(** Objects, pools and backends with distinct names. *)
Definition distinct_status (items : list v1beta1.LoadBalancer) : Prop :=
  NoDup (map lb_labels items) /\
  Forall (fun lb =>
    NoDup (map v1beta1.sp_Name (v1beta1.status_Pools (v1beta1.lb_Status lb))) /\
    Forall (fun p => NoDup (map (fun b => (v1beta1.sb_NodeName b, v1beta1.sb_ServerName b, v1beta1.sb_Address b))
                             (v1beta1.sp_Backends p))) (v1beta1.status_Pools (v1beta1.lb_Status lb))) items.

(** Lists whose blocks are duplicate-free and pairwise apart, by a key. *)
Lemma NoDup_concat_map {A B K} (f : A -> list B) (key : A -> K) (keyB : B -> K) (l : list A) :
  NoDup (map key l) -> (forall x, x ∈ l -> NoDup (f x)) ->
  (forall x y, x ∈ l -> y ∈ f x -> keyB y = key x) -> NoDup (concat (map f l)).
Proof.
  induction l as [|a l IH]; intros Hk Hf Hb; cbn; [constructor|].
  cbn in Hk. apply NoDup_cons in Hk as [Hn Hk]. apply NoDup_app. split; [apply Hf; by left|]. split.
  - intros y Hy (ys & Hys & Hin)%list_elem_of_In%in_concat. apply in_map_iff in Hys as (x & <- & Hx%list_elem_of_In).
    apply Hn. apply list_elem_of_In in Hin.
    rewrite <- (Hb a y), (Hb x y); [|by right|done|by left|done]. by apply list_elem_of_In, in_map, list_elem_of_In.
  - apply IH; [done|intros x Hx; apply Hf; by right|intros x y Hx; apply Hb; by right].
Qed.

Lemma map_concat_map {A B C} (g : B -> C) (f : A -> list B) l :
  map g (concat (map f l)) = concat (map (fun x => map g (f x)) l).
Proof. by rewrite List.concat_map, map_map. Qed.

Lemma elem_of_concat_map {A B} (f : A -> list B) l y : y ∈ concat (map f l) <-> exists x, x ∈ l /\ y ∈ f x.
Proof.
  rewrite list_elem_of_In, in_concat. setoid_rewrite in_map_iff. setoid_rewrite list_elem_of_In. naive_solver.
Qed.

Section Unique.
Context {P : Prometheus} {PL : PrometheusLaws P}.

Lemma gauge_id name v lb labels : metric_id (gauge name v lb labels) =
  ("cloudscale_loadbalancer_controller_loadbalancer_" +:+ name, lb_labels lb ++ map snd labels).
Proof. apply metric_id_const. Qed.

Lemma backend_metric_ids lb pool b : map metric_id (metrics_of_backend lb pool b) =
  [(d_fqName loadBalancerBackendStatusDesc, backend_labels lb pool b ++ [v1beta1.sb_Status b]);
   (d_fqName loadBalancerBackendUpDesc, backend_labels lb pool b)].
Proof. unfold metrics_of_backend. cbn [map]. by rewrite !gauge_id. Qed.

(** Where the identities of a backend's metrics come from. *)
Lemma backend_ids lb pool b y :
  y ∈ map metric_id (metrics_of_backend lb pool b) ->
  (y.1 = d_fqName loadBalancerBackendStatusDesc \/ y.1 = d_fqName loadBalancerBackendUpDesc) /\
  take 6 y.2 = backend_labels lb pool b.
Proof.
  rewrite backend_metric_ids, !elem_of_cons. intros [->|[->|Hn]]; [by auto|by auto|by apply not_elem_of_nil in Hn].
Qed.

Definition pool_ids (lb : v1beta1.LoadBalancer) (pool : v1beta1.StatusPool) : list (string * list string) :=
  concat (map (fun b => map metric_id (metrics_of_backend lb pool b)) (v1beta1.sp_Backends pool)).

Lemma pool_ids_labels lb pool y : y ∈ pool_ids lb pool ->
  (y.1 = d_fqName loadBalancerBackendStatusDesc \/ y.1 = d_fqName loadBalancerBackendUpDesc) /\
  take 3 y.2 = lb_labels lb ++ [v1beta1.sp_Name pool].
Proof.
  intros (b & _ & [Hd Hy]%backend_ids)%elem_of_concat_map. split; [done|].
  apply (f_equal (take 3)) in Hy. by rewrite take_take in Hy.
Qed.

Lemma pool_ids_NoDup lb pool :
  NoDup (map (fun b => (v1beta1.sb_NodeName b, v1beta1.sb_ServerName b, v1beta1.sb_Address b)) (v1beta1.sp_Backends pool)) ->
  NoDup (pool_ids lb pool).
Proof.
  intros Hnd. apply NoDup_concat_map with (key := backend_labels lb pool) (keyB := fun y => take 6 y.2).
  - revert Hnd. generalize (v1beta1.sp_Backends pool) as bs. induction bs as [|b bs IH]; cbn; [intros; constructor|].
    rewrite !NoDup_cons. intros [Hn Hb]. split; [|auto].
    intros (b' & E & Hin)%list_elem_of_In%in_map_iff. apply Hn. apply list_elem_of_In, in_map_iff. exists b'.
    split; [|done]. unfold backend_labels in E. cbn in E. congruence.
  - intros b _. rewrite backend_metric_ids. apply NoDup_cons. split; [|apply NoDup_singleton].
    rewrite list_elem_of_singleton. discriminate.
  - intros b y _ Hy. by apply backend_ids in Hy as [_ ?].
Qed.

Lemma metrics_of_ids lb : map metric_id (metrics_of lb) =
  (d_fqName loadBalancerStatusDesc, lb_labels lb ++ [v1beta1.status_CloudscaleStatus (v1beta1.lb_Status lb)]) ::
  (d_fqName loadBalancerActiveDesc, lb_labels lb) ::
  concat (map (pool_ids lb) (v1beta1.status_Pools (v1beta1.lb_Status lb))).
Proof.
  unfold metrics_of, pool_ids. cbn [map]. rewrite !gauge_id, map_concat_map. do 3 f_equal.
  apply map_ext. intros pool. apply map_concat_map.
Qed.

Lemma metrics_unique items :
  distinct_status items -> NoDup (map metric_id (concat (map metrics_of items))).
Proof.
  intros [Hk Hlb]. rewrite Forall_forall in Hlb. rewrite map_concat_map.
  apply NoDup_concat_map with (key := lb_labels) (keyB := fun y => take 2 y.2); [done| |].
  - intros lb Hin. destruct (Hlb lb Hin) as [Hpools Hbs]. rewrite Forall_forall in Hbs.
    rewrite metrics_of_ids. apply NoDup_cons. split; [|apply NoDup_cons; split].
    + rewrite elem_of_cons, elem_of_concat_map.
      intros [[=]|(pool & _ & [[E|E] _]%pool_ids_labels)]; discriminate E.
    + rewrite elem_of_concat_map. intros (pool & _ & [[E|E] _]%pool_ids_labels); discriminate E.
    + apply NoDup_concat_map with (key := fun p => lb_labels lb ++ [v1beta1.sp_Name p]) (keyB := fun y => take 3 y.2).
      * revert Hpools. rewrite <- (map_map v1beta1.sp_Name (fun n => lb_labels lb ++ [n])). apply NoDup_fmap_2.
        intros a b E. by apply app_inv_head in E as [= ->].
      * intros pool Hp. by apply pool_ids_NoDup, Hbs.
      * intros pool y _ Hy. by apply pool_ids_labels in Hy as [_ ?].
  - intros lb y _. rewrite metrics_of_ids, !elem_of_cons, elem_of_concat_map.
    intros [->|[->|(pool & _ & [_ Hy]%pool_ids_labels)]]; [done|done|].
    apply (f_equal (take 2)) in Hy. by rewrite take_take in Hy.
Qed.

End Unique.

(** The load balancers an action has listed. *)
Definition listed (a : action) : option (list v1beta1.LoadBalancer) :=
  match a with
  | ACall r x =>
      (match r as r0 return resp r0 -> option (list v1beta1.LoadBalancer) with
       | K8sListLoadBalancers => fun x => match x with Ok l => Some l | Err _ => None end
       | _ => fun _ => None
       end) x
  | AEvent _ => None
  end.

(** C37: a scrape is consistent: when the listed objects have distinct names, the pools of an object distinct
    names and the backends of a pool distinct node, server and address, no two metrics of a scrape have the same
    description and labels, which the registry would refuse.  Such a scrape always returns its metrics, unless a text of
    the objects is no valid label value, which makes the metrics library panic. *)
Theorem collect_unique {P : Prometheus} {PL : PrometheusLaws P} left_by (h : list action) items :
  distinct_status items ->
  wp (Collect left_by) h (fun h' o => h' = h ++ [ACall K8sListLoadBalancers (Ok items)] ->
    (labels_valid items /\ exists ms, o = Returned ms /\ NoDup (map metric_id ms)) \/
    (~ labels_valid items /\ exists why, o = Panicked why)).
Proof.
  intros Hd x h' ->. destruct x as [its|e]; cbn [mbind M_bind call_err].
  - destruct (collect_items its) as [[Hv ->]|[Hv [why ->]]]; cbn -[concat]; intros E%app_inv_head;
      apply (f_equal (map listed)) in E; injection E as ->; [left|right; eauto].
    split; [done|]. eexists. split; [done|]. by apply metrics_unique.
  - destruct (collect_items (left_by e)) as [[Hv ->]|[Hv [why ->]]]; cbn -[concat]; intros E%app_inv_head;
      by apply (f_equal (map listed)) in E.
Qed.

(** ** A metrics library for evaluating the definitions

    Metrics as data; label values with bytes above 127 stand for the refused ones. *)

Inductive ref_metric :=
| RefInvalid (desc : Desc) (err : goerror)
| RefConst (desc : Desc) (value : Z) (labels : list string).

Definition ref_valid (s : string) : bool :=
  forallb (fun c => Z.of_nat (Ascii.nat_of_ascii c) <? 128) (String.list_ascii_of_string s).

#[export] Instance ref_prometheus : Prometheus := {
  Metric := ref_metric;
  ValueType := unit;
  GaugeValue := tt;
  NewInvalidMetric := RefInvalid;
  MustNewConstMetric d _ v ls :=
    if Nat.eqb (length ls) (length (d_labels d)) && forallb ref_valid ls then mret (RefConst d v ls)
    else Panic "inconsistent label cardinality or invalid label value";
  ConstMetric d _ v ls := RefConst d v ls;
  valid_label := ref_valid;
  metric_id m := match m with RefInvalid d _ => (d_fqName d, []) | RefConst d _ ls => (d_fqName d, ls) end;
}.

#[export] Instance ref_prometheus_laws : PrometheusLaws ref_prometheus.
Proof.
  assert (Hb : forall (d : Desc) ls, Nat.eqb (length ls) (length (d_labels d)) && forallb ref_valid ls = true <->
    length ls = length (d_labels d) /\ Forall (fun l => ref_valid l = true) ls).
  { intros d ls. rewrite andb_true_iff, Nat.eqb_eq, forallb_forall, Forall_forall. by setoid_rewrite list_elem_of_In. }
  split.
  - intros d t v ls Hl Hv. cbn. by rewrite (proj2 (Hb d ls)).
  - intros d t v ls Hn. cbn. destruct (_ && _) eqn:E; [|by eexists]. by apply Hb in E.
  - done.
Qed.

Definition sample_status_lb (name : string) (backends : list v1beta1.StatusBackend) : v1beta1.LoadBalancer :=
  let lb := sample_lb "lb-0" "rma1" in
  {| v1beta1.lb_Meta := {| v1beta1.meta_Namespace := "default"; v1beta1.meta_Name := name; v1beta1.meta_UID := "uid-1";
       v1beta1.meta_Finalizers := []; v1beta1.meta_DeletionTimestamp := None |};
     v1beta1.lb_Spec := v1beta1.lb_Spec lb;
     v1beta1.lb_Status := {| v1beta1.status_CloudscaleStatus := "running"; v1beta1.status_VirtualIPAddresses := [];
       v1beta1.status_FloatingIPAddresses := [];
       v1beta1.status_Pools := [ {| v1beta1.sp_Name := "http"; v1beta1.sp_Backends := backends |} ] |} |}.

Definition sample_items : list v1beta1.LoadBalancer :=
  [sample_status_lb "a" [ {| v1beta1.sb_NodeName := "n"; v1beta1.sb_ServerName := "s";
     v1beta1.sb_Address := "10.0.0.1"; v1beta1.sb_Status := "up" |} ]; sample_status_lb "b" []].

(** The sample gives its metrics; a label value that is not valid text makes the scrape panic. *)
Example sample_scrape :
  mapM sample_items collectLB = mret (map metrics_of sample_items) /\
  exists why, mapM [sample_status_lb (String.String (Ascii.ascii_of_nat 255) "") []] collectLB = Panic why.
Proof. split; [vm_compute; reflexivity|]. eexists. vm_compute. reflexivity. Qed.

Lemma collect_exact_witness :
  PrometheusLaws ref_prometheus /\ wp (Collect (fun _ => [])) [] (fun h' o => exists x,
    h' = [] ++ [ACall K8sListLoadBalancers x] /\
    let items := match x with Ok items => items | Err e => [] end in
    let invalid := match x with
      | Ok _ => []
      | Err e => map (fun d => NewInvalidMetric d (ErrorfW "failed to list load balancers: %w" [] e))
          [described "cloudscale_status" ["status"]; described "cloudscale_status_active" [];
           described "backend_status" ["pool"; "node"; "server"; "address"; "status"];
           described "backend_status_up" ["pool"; "node"; "server"; "address"]]
      end in
    (labels_valid items /\ o = Returned (invalid ++ concat (map metrics_of items))) \/
    (~ labels_valid items /\ exists why, o = Panicked why)).
Proof. split; [exact ref_prometheus_laws|]. apply (collect_exact (fun _ => []) []). Defined.

Lemma collect_unique_witness :
  distinct_status sample_items /\
  wp (Collect (fun _ => [])) [] (fun h' o => h' = [] ++ [ACall K8sListLoadBalancers (Ok sample_items)] ->
    (labels_valid sample_items /\ exists ms, o = Returned ms /\ NoDup (map metric_id ms)) \/
    (~ labels_valid sample_items /\ exists why, o = Panicked why)).
Proof.
  assert (Hd : distinct_status sample_items).
  { split.
    - apply (bool_decide_unpack _). vm_compute. exact I.
    - repeat constructor; apply (bool_decide_unpack _); vm_compute; exact I. }
  split; [exact Hd|]. apply (collect_unique (fun _ => []) [] sample_items Hd).
Defined.
